(** * Pangkah: Gasing Battle Royale -- the combat simulation core

    A shallow embedding of the fixed-timestep simulation of the game
    component [GasingIO]: the collision handler, the keyboard handlers, the
    body of the fixed-step loop of [tick] and the accumulator loop around
    it.

    Modelling conventions.
    - JavaScript numbers are idealised as real numbers ([R]); counters that
      only ever hold integers (frame numbers, timers, chain levels) are [Z].
      The accumulator arithmetic of [tick] is the exception: there the
      rounding of each operation is explicit (see [rounding]).
    - [Math.max], [Math.min], [Math.abs], [Math.sqrt], [Math.cos], [Math.sin]
      and [Math.floor] are [Rmax], [Rmin], [Rabs], [sqrt], [cos], [sin] and
      [Int_part].  [x || 1] is [orElse x 1].
    - A Matter.js body is a record with a [handle] standing for its object
      identity ([===] on bodies compares handles), its label, position and
      velocity.  The physics engine is external: what [Matter.Engine.update]
      does to the world (new positions and velocities, the reported
      collision pairs) is an input of each step, the record [Physics].
      Forces handed to [Matter.Body.applyForce] are outputs; the collision
      handler returns them as a list, the other call sites (gravity,
      steering, friction) only feed the engine and are left out of
      [fixedStep], together with the fields used for drawing and sound; the
      friction curve, the forces of the movement keys, the bowl gravity,
      the bot separation and the steering of the bots are given as functions
      of their own.
    - [Math.random()] reads the next value of the sequence [rng] and
      advances [rngUsed]; the sequence is arbitrary with values in [0, 1).
      Calls whose result only reaches the omitted fields (particles, shake,
      wander angle, personality) do not read the sequence. *)

From Stdlib Require Import Reals Lra Lia ZArith List String Ascii Bool.
Import ListNotations.
Open Scope R_scope.

(** ** Numbers and vectors *)

Definition num_lt (a b : R) : bool := if Rlt_dec a b then true else false.
Definition num_le (a b : R) : bool := if Rle_dec a b then true else false.
Definition num_gt (a b : R) : bool := num_lt b a.
Definition num_ge (a b : R) : bool := num_le b a.

(** [x || d] on numbers: [0] is the only falsy real. *)
Definition orElse (x d : R) : R := if Req_dec_T x 0 then d else x.

Record Vec : Type := mkVec { vx : R; vy : R }.

Definition norm (v : Vec) : R := sqrt (vx v * vx v + vy v * vy v).

(** ** Data model *)

Inductive GameMode : Type := arena | survival | duel.

Definition mode_eqb (a b : GameMode) : bool :=
  match a, b with
  | arena, arena | survival, survival | duel, duel => true
  | _, _ => false
  end.

Inductive Phase : Type := menu | playing | paused | gameover.

(** Body labels: ['wall'], ['player'] and [`bot_${i}`]. *)
Inductive Label : Type :=
  | wall
  | player_label
  | bot_label (i : nat).

Definition label_eqb (a b : Label) : bool :=
  match a, b with
  | wall, wall => true
  | player_label, player_label => true
  | bot_label i, bot_label j => Nat.eqb i j
  | _, _ => false
  end.

Record Body : Type := mkBody {
  handle : nat;
  label : Label;
  position : Vec;
  velocity : Vec
}.

Definition same_body (a b : Body) : bool := Nat.eqb (handle a) (handle b).

Record Bot : Type := mkBot {
  body : Body;
  rpm : R;
  alive : bool;
  lastHitFrame : Z;
  chainHits : Z
}.

Definition set_rpm (v : R) (b : Bot) : Bot :=
  mkBot (body b) v (alive b) (lastHitFrame b) (chainHits b).
Definition set_alive (v : bool) (b : Bot) : Bot :=
  mkBot (body b) (rpm b) v (lastHitFrame b) (chainHits b).
Definition set_lastHitFrame (v : Z) (b : Bot) : Bot :=
  mkBot (body b) (rpm b) (alive b) v (chainHits b).
Definition set_chainHits (v : Z) (b : Bot) : Bot :=
  mkBot (body b) (rpm b) (alive b) (lastHitFrame b) v.
Definition set_body (v : Body) (b : Bot) : Bot :=
  mkBot v (rpm b) (alive b) (lastHitFrame b) (chainHits b).

Record Laser : Type := mkLaser {
  laser_x : R; laser_y : R;
  laser_vx : R; laser_vy : R;
  life : Z
}.

Record Bomb : Type := mkBomb {
  bomb_x : R; bomb_y : R;
  bomb_vx : R; bomb_vy : R;
  timer : Z;
  exploded : bool;
  explodeTimer : Z
}.

(** ** Constants *)

Definition CANVAS_W : R := 1200.
Definition CANVAS_H : R := 800.
Definition CX : R := CANVAS_W / 2.
Definition CY : R := CANVAS_H / 2.
Definition ARENA_R : R := 380.
Definition PLAYER_R : R := 22.

Definition SWEET_LOW : R := 40.
Definition SWEET_HIGH : R := 60.

Definition RPM_DECAY_PER_FRAME : R := 0.4.
Definition RPM_GAIN_PER_PRESS : R := 3.
Definition STARTING_RPM : R := 50.

Definition OUTSIDE_DECAY_MULT : R := 4.
Definition OUTSIDE_GAIN_MULT : R := 0.15.

Definition SAFE_ZONE_INITIAL : R := 360.
Definition SAFE_ZONE_MIN : R := 0.
Definition SAFE_ZONE_SHRINK_PER_SEC : R := 8.
Definition SAFE_ZONE_DRIFT_SPEED : R := 0.8.

Definition KNOCKBACK_BASE : R := 1.04.
Definition KNOCKBACK_RPM_MULT : R := 1.0008.
Definition VELOCITY_KNOCKBACK : R := 1.015.

Definition HOLE_ANGLES : list R := [- PI / 2; 0; PI / 2; PI].

Definition BOT_SPIN_CHANCE : R := 0.30.
Definition BOT_SPIN_GAIN : R := 6.
Definition BOT_EMERGENCY_SPIN_CHANCE : R := 0.60.
Definition BOT_EMERGENCY_SPIN_GAIN : R := 10.
Definition BOT_CHAIN_WINDOW : Z := 120.
Definition BOT_RPM_FLOOR_INSIDE : R := 20.
Definition BOT_PASSIVE_REGEN : R := 10.0.

Definition SURVIVAL_SPAWN_INTERVAL : Z := 180.
Definition SURVIVAL_SAFE_ZONE_SHRINK : R := 2.

Definition BOSS_RPM : R := 40.
Definition DUEL_LASER_SPEED : R := 8.
Definition DUEL_LASER_INTERVAL : Z := 12.
Definition DUEL_BOMB_SPEED : R := 4.
Definition DUEL_BOMB_INTERVAL : Z := 12.
Definition DUEL_BOMB_EXPLODE_R : R := 60.
Definition DUEL_BOMB_DMG : R := 12.
Definition DUEL_LASER_DMG : R := 8.
Definition DUEL_COLLISION_MULT : R := 3.
Definition DUEL_SAFE_ZONE_SHRINK : R := 4.
Definition DUEL_ROUND_TRANSITION_FRAMES : Z := 180.
Definition DUEL_PROJECTILE_INVULN : Z := 20.
Definition DUEL_BOSS_SPIN_CHANCE : R := 0.10.
Definition DUEL_BOSS_SPIN_GAIN : R := 3.

(** ** The session object

    The fields of [gameRef.current] that the simulation reads or writes,
    followed by [gameOverRef.current] ([gameOver]), the two fields of the
    React [gameState] that the simulation sets ([phase], [isWinner]) and the
    random source. *)

Record Game : Type := mkGame {
  player : Body;
  bots : list Bot;
  currentRPM : R;
  safeZone : R;
  safeZoneCX : R;
  safeZoneCY : R;
  szTargetX : R;
  szTargetY : R;
  keys : list string;
  lastSpinKey : string;
  frameCount : Z;
  playerAlive : bool;
  gameMode : GameMode;
  kills : Z;
  nextBotSpawnFrame : Z;
  botSpawnIndex : nat;
  duelRound : Z;
  duelLasers : list Laser;
  duelBombs : list Bomb;
  lastLaserFrame : Z;
  lastBombFrame : Z;
  duelBossMaxRPM : R;
  duelTransition : bool;
  duelTransitionTimer : Z;
  lastProjectileHitFrame : Z;
  gameOver : bool;
  phase : Phase;
  isWinner : bool;
  rng : nat -> R;
  rngUsed : nat
}.

Definition set_player (v : Body) (g : Game) : Game :=
  mkGame v (bots g) (currentRPM g) (safeZone g) (safeZoneCX g) (safeZoneCY g) (szTargetX
    g) (szTargetY g) (keys g) (lastSpinKey g) (frameCount g) (playerAlive g) (gameMode
    g) (kills g) (nextBotSpawnFrame g) (botSpawnIndex g) (duelRound g) (duelLasers g)
    (duelBombs g) (lastLaserFrame g) (lastBombFrame g) (duelBossMaxRPM g)
    (duelTransition g) (duelTransitionTimer g) (lastProjectileHitFrame g) (gameOver g)
    (phase g) (isWinner g) (rng g) (rngUsed g).

Definition set_bots (v : list Bot) (g : Game) : Game :=
  mkGame (player g) v (currentRPM g) (safeZone g) (safeZoneCX g) (safeZoneCY g)
    (szTargetX g) (szTargetY g) (keys g) (lastSpinKey g) (frameCount g) (playerAlive g)
    (gameMode g) (kills g) (nextBotSpawnFrame g) (botSpawnIndex g) (duelRound g)
    (duelLasers g) (duelBombs g) (lastLaserFrame g) (lastBombFrame g) (duelBossMaxRPM g)
    (duelTransition g) (duelTransitionTimer g) (lastProjectileHitFrame g) (gameOver g)
    (phase g) (isWinner g) (rng g) (rngUsed g).

Definition set_currentRPM (v : R) (g : Game) : Game :=
  mkGame (player g) (bots g) v (safeZone g) (safeZoneCX g) (safeZoneCY g) (szTargetX g)
    (szTargetY g) (keys g) (lastSpinKey g) (frameCount g) (playerAlive g) (gameMode g)
    (kills g) (nextBotSpawnFrame g) (botSpawnIndex g) (duelRound g) (duelLasers g)
    (duelBombs g) (lastLaserFrame g) (lastBombFrame g) (duelBossMaxRPM g)
    (duelTransition g) (duelTransitionTimer g) (lastProjectileHitFrame g) (gameOver g)
    (phase g) (isWinner g) (rng g) (rngUsed g).

Definition set_safeZone (v : R) (g : Game) : Game :=
  mkGame (player g) (bots g) (currentRPM g) v (safeZoneCX g) (safeZoneCY g) (szTargetX
    g) (szTargetY g) (keys g) (lastSpinKey g) (frameCount g) (playerAlive g) (gameMode
    g) (kills g) (nextBotSpawnFrame g) (botSpawnIndex g) (duelRound g) (duelLasers g)
    (duelBombs g) (lastLaserFrame g) (lastBombFrame g) (duelBossMaxRPM g)
    (duelTransition g) (duelTransitionTimer g) (lastProjectileHitFrame g) (gameOver g)
    (phase g) (isWinner g) (rng g) (rngUsed g).

Definition set_safeZoneCX (v : R) (g : Game) : Game :=
  mkGame (player g) (bots g) (currentRPM g) (safeZone g) v (safeZoneCY g) (szTargetX g)
    (szTargetY g) (keys g) (lastSpinKey g) (frameCount g) (playerAlive g) (gameMode g)
    (kills g) (nextBotSpawnFrame g) (botSpawnIndex g) (duelRound g) (duelLasers g)
    (duelBombs g) (lastLaserFrame g) (lastBombFrame g) (duelBossMaxRPM g)
    (duelTransition g) (duelTransitionTimer g) (lastProjectileHitFrame g) (gameOver g)
    (phase g) (isWinner g) (rng g) (rngUsed g).

Definition set_safeZoneCY (v : R) (g : Game) : Game :=
  mkGame (player g) (bots g) (currentRPM g) (safeZone g) (safeZoneCX g) v (szTargetX g)
    (szTargetY g) (keys g) (lastSpinKey g) (frameCount g) (playerAlive g) (gameMode g)
    (kills g) (nextBotSpawnFrame g) (botSpawnIndex g) (duelRound g) (duelLasers g)
    (duelBombs g) (lastLaserFrame g) (lastBombFrame g) (duelBossMaxRPM g)
    (duelTransition g) (duelTransitionTimer g) (lastProjectileHitFrame g) (gameOver g)
    (phase g) (isWinner g) (rng g) (rngUsed g).

Definition set_szTargetX (v : R) (g : Game) : Game :=
  mkGame (player g) (bots g) (currentRPM g) (safeZone g) (safeZoneCX g) (safeZoneCY g) v
    (szTargetY g) (keys g) (lastSpinKey g) (frameCount g) (playerAlive g) (gameMode g)
    (kills g) (nextBotSpawnFrame g) (botSpawnIndex g) (duelRound g) (duelLasers g)
    (duelBombs g) (lastLaserFrame g) (lastBombFrame g) (duelBossMaxRPM g)
    (duelTransition g) (duelTransitionTimer g) (lastProjectileHitFrame g) (gameOver g)
    (phase g) (isWinner g) (rng g) (rngUsed g).

Definition set_szTargetY (v : R) (g : Game) : Game :=
  mkGame (player g) (bots g) (currentRPM g) (safeZone g) (safeZoneCX g) (safeZoneCY g)
    (szTargetX g) v (keys g) (lastSpinKey g) (frameCount g) (playerAlive g) (gameMode g)
    (kills g) (nextBotSpawnFrame g) (botSpawnIndex g) (duelRound g) (duelLasers g)
    (duelBombs g) (lastLaserFrame g) (lastBombFrame g) (duelBossMaxRPM g)
    (duelTransition g) (duelTransitionTimer g) (lastProjectileHitFrame g) (gameOver g)
    (phase g) (isWinner g) (rng g) (rngUsed g).

Definition set_keys (v : list string) (g : Game) : Game :=
  mkGame (player g) (bots g) (currentRPM g) (safeZone g) (safeZoneCX g) (safeZoneCY g)
    (szTargetX g) (szTargetY g) v (lastSpinKey g) (frameCount g) (playerAlive g)
    (gameMode g) (kills g) (nextBotSpawnFrame g) (botSpawnIndex g) (duelRound g)
    (duelLasers g) (duelBombs g) (lastLaserFrame g) (lastBombFrame g) (duelBossMaxRPM g)
    (duelTransition g) (duelTransitionTimer g) (lastProjectileHitFrame g) (gameOver g)
    (phase g) (isWinner g) (rng g) (rngUsed g).

Definition set_lastSpinKey (v : string) (g : Game) : Game :=
  mkGame (player g) (bots g) (currentRPM g) (safeZone g) (safeZoneCX g) (safeZoneCY g)
    (szTargetX g) (szTargetY g) (keys g) v (frameCount g) (playerAlive g) (gameMode g)
    (kills g) (nextBotSpawnFrame g) (botSpawnIndex g) (duelRound g) (duelLasers g)
    (duelBombs g) (lastLaserFrame g) (lastBombFrame g) (duelBossMaxRPM g)
    (duelTransition g) (duelTransitionTimer g) (lastProjectileHitFrame g) (gameOver g)
    (phase g) (isWinner g) (rng g) (rngUsed g).

Definition set_frameCount (v : Z) (g : Game) : Game :=
  mkGame (player g) (bots g) (currentRPM g) (safeZone g) (safeZoneCX g) (safeZoneCY g)
    (szTargetX g) (szTargetY g) (keys g) (lastSpinKey g) v (playerAlive g) (gameMode g)
    (kills g) (nextBotSpawnFrame g) (botSpawnIndex g) (duelRound g) (duelLasers g)
    (duelBombs g) (lastLaserFrame g) (lastBombFrame g) (duelBossMaxRPM g)
    (duelTransition g) (duelTransitionTimer g) (lastProjectileHitFrame g) (gameOver g)
    (phase g) (isWinner g) (rng g) (rngUsed g).

Definition set_playerAlive (v : bool) (g : Game) : Game :=
  mkGame (player g) (bots g) (currentRPM g) (safeZone g) (safeZoneCX g) (safeZoneCY g)
    (szTargetX g) (szTargetY g) (keys g) (lastSpinKey g) (frameCount g) v (gameMode g)
    (kills g) (nextBotSpawnFrame g) (botSpawnIndex g) (duelRound g) (duelLasers g)
    (duelBombs g) (lastLaserFrame g) (lastBombFrame g) (duelBossMaxRPM g)
    (duelTransition g) (duelTransitionTimer g) (lastProjectileHitFrame g) (gameOver g)
    (phase g) (isWinner g) (rng g) (rngUsed g).

Definition set_kills (v : Z) (g : Game) : Game :=
  mkGame (player g) (bots g) (currentRPM g) (safeZone g) (safeZoneCX g) (safeZoneCY g)
    (szTargetX g) (szTargetY g) (keys g) (lastSpinKey g) (frameCount g) (playerAlive g)
    (gameMode g) v (nextBotSpawnFrame g) (botSpawnIndex g) (duelRound g) (duelLasers g)
    (duelBombs g) (lastLaserFrame g) (lastBombFrame g) (duelBossMaxRPM g)
    (duelTransition g) (duelTransitionTimer g) (lastProjectileHitFrame g) (gameOver g)
    (phase g) (isWinner g) (rng g) (rngUsed g).

Definition set_nextBotSpawnFrame (v : Z) (g : Game) : Game :=
  mkGame (player g) (bots g) (currentRPM g) (safeZone g) (safeZoneCX g) (safeZoneCY g)
    (szTargetX g) (szTargetY g) (keys g) (lastSpinKey g) (frameCount g) (playerAlive g)
    (gameMode g) (kills g) v (botSpawnIndex g) (duelRound g) (duelLasers g) (duelBombs
    g) (lastLaserFrame g) (lastBombFrame g) (duelBossMaxRPM g) (duelTransition g)
    (duelTransitionTimer g) (lastProjectileHitFrame g) (gameOver g) (phase g) (isWinner
    g) (rng g) (rngUsed g).

Definition set_botSpawnIndex (v : nat) (g : Game) : Game :=
  mkGame (player g) (bots g) (currentRPM g) (safeZone g) (safeZoneCX g) (safeZoneCY g)
    (szTargetX g) (szTargetY g) (keys g) (lastSpinKey g) (frameCount g) (playerAlive g)
    (gameMode g) (kills g) (nextBotSpawnFrame g) v (duelRound g) (duelLasers g)
    (duelBombs g) (lastLaserFrame g) (lastBombFrame g) (duelBossMaxRPM g)
    (duelTransition g) (duelTransitionTimer g) (lastProjectileHitFrame g) (gameOver g)
    (phase g) (isWinner g) (rng g) (rngUsed g).

Definition set_duelRound (v : Z) (g : Game) : Game :=
  mkGame (player g) (bots g) (currentRPM g) (safeZone g) (safeZoneCX g) (safeZoneCY g)
    (szTargetX g) (szTargetY g) (keys g) (lastSpinKey g) (frameCount g) (playerAlive g)
    (gameMode g) (kills g) (nextBotSpawnFrame g) (botSpawnIndex g) v (duelLasers g)
    (duelBombs g) (lastLaserFrame g) (lastBombFrame g) (duelBossMaxRPM g)
    (duelTransition g) (duelTransitionTimer g) (lastProjectileHitFrame g) (gameOver g)
    (phase g) (isWinner g) (rng g) (rngUsed g).

Definition set_duelLasers (v : list Laser) (g : Game) : Game :=
  mkGame (player g) (bots g) (currentRPM g) (safeZone g) (safeZoneCX g) (safeZoneCY g)
    (szTargetX g) (szTargetY g) (keys g) (lastSpinKey g) (frameCount g) (playerAlive g)
    (gameMode g) (kills g) (nextBotSpawnFrame g) (botSpawnIndex g) (duelRound g) v
    (duelBombs g) (lastLaserFrame g) (lastBombFrame g) (duelBossMaxRPM g)
    (duelTransition g) (duelTransitionTimer g) (lastProjectileHitFrame g) (gameOver g)
    (phase g) (isWinner g) (rng g) (rngUsed g).

Definition set_duelBombs (v : list Bomb) (g : Game) : Game :=
  mkGame (player g) (bots g) (currentRPM g) (safeZone g) (safeZoneCX g) (safeZoneCY g)
    (szTargetX g) (szTargetY g) (keys g) (lastSpinKey g) (frameCount g) (playerAlive g)
    (gameMode g) (kills g) (nextBotSpawnFrame g) (botSpawnIndex g) (duelRound g)
    (duelLasers g) v (lastLaserFrame g) (lastBombFrame g) (duelBossMaxRPM g)
    (duelTransition g) (duelTransitionTimer g) (lastProjectileHitFrame g) (gameOver g)
    (phase g) (isWinner g) (rng g) (rngUsed g).

Definition set_lastLaserFrame (v : Z) (g : Game) : Game :=
  mkGame (player g) (bots g) (currentRPM g) (safeZone g) (safeZoneCX g) (safeZoneCY g)
    (szTargetX g) (szTargetY g) (keys g) (lastSpinKey g) (frameCount g) (playerAlive g)
    (gameMode g) (kills g) (nextBotSpawnFrame g) (botSpawnIndex g) (duelRound g)
    (duelLasers g) (duelBombs g) v (lastBombFrame g) (duelBossMaxRPM g) (duelTransition
    g) (duelTransitionTimer g) (lastProjectileHitFrame g) (gameOver g) (phase g)
    (isWinner g) (rng g) (rngUsed g).

Definition set_lastBombFrame (v : Z) (g : Game) : Game :=
  mkGame (player g) (bots g) (currentRPM g) (safeZone g) (safeZoneCX g) (safeZoneCY g)
    (szTargetX g) (szTargetY g) (keys g) (lastSpinKey g) (frameCount g) (playerAlive g)
    (gameMode g) (kills g) (nextBotSpawnFrame g) (botSpawnIndex g) (duelRound g)
    (duelLasers g) (duelBombs g) (lastLaserFrame g) v (duelBossMaxRPM g) (duelTransition
    g) (duelTransitionTimer g) (lastProjectileHitFrame g) (gameOver g) (phase g)
    (isWinner g) (rng g) (rngUsed g).

Definition set_duelBossMaxRPM (v : R) (g : Game) : Game :=
  mkGame (player g) (bots g) (currentRPM g) (safeZone g) (safeZoneCX g) (safeZoneCY g)
    (szTargetX g) (szTargetY g) (keys g) (lastSpinKey g) (frameCount g) (playerAlive g)
    (gameMode g) (kills g) (nextBotSpawnFrame g) (botSpawnIndex g) (duelRound g)
    (duelLasers g) (duelBombs g) (lastLaserFrame g) (lastBombFrame g) v (duelTransition
    g) (duelTransitionTimer g) (lastProjectileHitFrame g) (gameOver g) (phase g)
    (isWinner g) (rng g) (rngUsed g).

Definition set_duelTransition (v : bool) (g : Game) : Game :=
  mkGame (player g) (bots g) (currentRPM g) (safeZone g) (safeZoneCX g) (safeZoneCY g)
    (szTargetX g) (szTargetY g) (keys g) (lastSpinKey g) (frameCount g) (playerAlive g)
    (gameMode g) (kills g) (nextBotSpawnFrame g) (botSpawnIndex g) (duelRound g)
    (duelLasers g) (duelBombs g) (lastLaserFrame g) (lastBombFrame g) (duelBossMaxRPM g)
    v (duelTransitionTimer g) (lastProjectileHitFrame g) (gameOver g) (phase g)
    (isWinner g) (rng g) (rngUsed g).

Definition set_duelTransitionTimer (v : Z) (g : Game) : Game :=
  mkGame (player g) (bots g) (currentRPM g) (safeZone g) (safeZoneCX g) (safeZoneCY g)
    (szTargetX g) (szTargetY g) (keys g) (lastSpinKey g) (frameCount g) (playerAlive g)
    (gameMode g) (kills g) (nextBotSpawnFrame g) (botSpawnIndex g) (duelRound g)
    (duelLasers g) (duelBombs g) (lastLaserFrame g) (lastBombFrame g) (duelBossMaxRPM g)
    (duelTransition g) v (lastProjectileHitFrame g) (gameOver g) (phase g) (isWinner g)
    (rng g) (rngUsed g).

Definition set_lastProjectileHitFrame (v : Z) (g : Game) : Game :=
  mkGame (player g) (bots g) (currentRPM g) (safeZone g) (safeZoneCX g) (safeZoneCY g)
    (szTargetX g) (szTargetY g) (keys g) (lastSpinKey g) (frameCount g) (playerAlive g)
    (gameMode g) (kills g) (nextBotSpawnFrame g) (botSpawnIndex g) (duelRound g)
    (duelLasers g) (duelBombs g) (lastLaserFrame g) (lastBombFrame g) (duelBossMaxRPM g)
    (duelTransition g) (duelTransitionTimer g) v (gameOver g) (phase g) (isWinner g)
    (rng g) (rngUsed g).

Definition set_gameOver (v : bool) (g : Game) : Game :=
  mkGame (player g) (bots g) (currentRPM g) (safeZone g) (safeZoneCX g) (safeZoneCY g)
    (szTargetX g) (szTargetY g) (keys g) (lastSpinKey g) (frameCount g) (playerAlive g)
    (gameMode g) (kills g) (nextBotSpawnFrame g) (botSpawnIndex g) (duelRound g)
    (duelLasers g) (duelBombs g) (lastLaserFrame g) (lastBombFrame g) (duelBossMaxRPM g)
    (duelTransition g) (duelTransitionTimer g) (lastProjectileHitFrame g) v (phase g)
    (isWinner g) (rng g) (rngUsed g).

Definition set_phase (v : Phase) (g : Game) : Game :=
  mkGame (player g) (bots g) (currentRPM g) (safeZone g) (safeZoneCX g) (safeZoneCY g)
    (szTargetX g) (szTargetY g) (keys g) (lastSpinKey g) (frameCount g) (playerAlive g)
    (gameMode g) (kills g) (nextBotSpawnFrame g) (botSpawnIndex g) (duelRound g)
    (duelLasers g) (duelBombs g) (lastLaserFrame g) (lastBombFrame g) (duelBossMaxRPM g)
    (duelTransition g) (duelTransitionTimer g) (lastProjectileHitFrame g) (gameOver g) v
    (isWinner g) (rng g) (rngUsed g).

Definition set_isWinner (v : bool) (g : Game) : Game :=
  mkGame (player g) (bots g) (currentRPM g) (safeZone g) (safeZoneCX g) (safeZoneCY g)
    (szTargetX g) (szTargetY g) (keys g) (lastSpinKey g) (frameCount g) (playerAlive g)
    (gameMode g) (kills g) (nextBotSpawnFrame g) (botSpawnIndex g) (duelRound g)
    (duelLasers g) (duelBombs g) (lastLaserFrame g) (lastBombFrame g) (duelBossMaxRPM g)
    (duelTransition g) (duelTransitionTimer g) (lastProjectileHitFrame g) (gameOver g)
    (phase g) v (rng g) (rngUsed g).

Definition set_rngUsed (v : nat) (g : Game) : Game :=
  mkGame (player g) (bots g) (currentRPM g) (safeZone g) (safeZoneCX g) (safeZoneCY g)
    (szTargetX g) (szTargetY g) (keys g) (lastSpinKey g) (frameCount g) (playerAlive g)
    (gameMode g) (kills g) (nextBotSpawnFrame g) (botSpawnIndex g) (duelRound g)
    (duelLasers g) (duelBombs g) (lastLaserFrame g) (lastBombFrame g) (duelBossMaxRPM g)
    (duelTransition g) (duelTransitionTimer g) (lastProjectileHitFrame g) (gameOver g)
    (phase g) (isWinner g) (rng g) v.

(** ** Helpers of [initGame] *)

Definition dist2Center (b : Body) : R :=
  let dx := vx (position b) - CX in
  let dy := vy (position b) - CY in
  sqrt (dx * dx + dy * dy).

Definition distToSafeZone (g : Game) (b : Body) : R :=
  let dx := vx (position b) - safeZoneCX g in
  let dy := vy (position b) - safeZoneCY g in
  sqrt (dx * dx + dy * dy).

(** [Math.random()]: the next value of the sequence. *)
Definition random (g : Game) : R * Game :=
  (rng g (rngUsed g), set_rngUsed (S (rngUsed g)) g).

(** ** The collision handler ([collisionStart]) *)

(** One call of [Matter.Body.applyForce(b, b.position, {x, y})]. *)
Record Force : Type := mkForce { target : Body; impulse : Vec }.

Definition applyForce (b : Body) (x y : R) : Force := mkForce b (mkVec x y).

(** The outcome of the block "Figure out who's who". *)
Record Roles : Type := mkRoles {
  attackerRPM : R;
  defenderRPM : R;
  attacker : Body;
  defender : Body
}.

(** [bots.find((b) => b.body === bd && b.alive)] *)
Definition findAlive (bs : list Bot) (bd : Body) : option Bot :=
  find (fun b => same_body (body b) bd && alive b) bs.

Definition selectRoles (g : Game) (bodyA bodyB : Body) : option Roles :=
  let isPlayerA := label_eqb (label bodyA) player_label in
  let isPlayerB := label_eqb (label bodyB) player_label in
  let botA := findAlive (bots g) bodyA in
  let botB := findAlive (bots g) bodyB in
  match (if isPlayerA then botB else None) with
  | Some bB => Some (mkRoles (currentRPM g) (rpm bB) bodyA bodyB)
  | None =>
    match (if isPlayerB then botA else None) with
    | Some bA => Some (mkRoles (currentRPM g) (rpm bA) bodyB bodyA)
    | None =>
      match botA, botB with
      | Some bA, Some bB =>
        if num_ge (rpm bA) (rpm bB)
        then Some (mkRoles (rpm bA) (rpm bB) bodyA bodyB)
        else Some (mkRoles (rpm bB) (rpm bA) bodyB bodyA)
      | _, _ => None
      end
    end
  end.

(** [Math.sqrt(dx * dx + dy * dy) || 1] *)
Definition guardedDist (dx dy : R) : R := orElse (sqrt (dx * dx + dy * dy)) 1.

(** [(nx, ny)]: the difference of two positions divided by [guardedDist]. *)
Definition direction (from to : Vec) : Vec :=
  let dx := vx to - vx from in
  let dy := vy to - vy from in
  let dist := guardedDist dx dy in
  mkVec (dx / dist) (dy / dist).

Definition knockDir (r : Roles) : Vec :=
  direction (position (attacker r)) (position (defender r)).

Definition relSpeed (r : Roles) : R :=
  let relVx := vx (velocity (attacker r)) - vx (velocity (defender r)) in
  let relVy := vy (velocity (attacker r)) - vy (velocity (defender r)) in
  Rabs (relVx * vx (knockDir r) + relVy * vy (knockDir r)).

(** The successive values of the variable [force]. *)
Definition baseForce (r : Roles) : R :=
  KNOCKBACK_BASE + attackerRPM r * KNOCKBACK_RPM_MULT + relSpeed r * VELOCITY_KNOCKBACK.

Definition isDuelBoss (g : Game) (r : Roles) : bool :=
  mode_eqb (gameMode g) duel && label_eqb (label (attacker r)) (bot_label 0).

Definition bossForce (g : Game) (r : Roles) : R :=
  if isDuelBoss g r then baseForce r * 2 else baseForce r.

Definition overSpin (r : Roles) : bool := num_ge (attackerRPM r) SWEET_HIGH.

Definition spinForce (g : Game) (r : Roles) : R :=
  if overSpin r then bossForce g r * 1.6 else bossForce g r.

Definition wobbleDefender (r : Roles) : bool := num_lt (defenderRPM r) SWEET_LOW.

Definition finalForce (g : Game) (r : Roles) : R :=
  if wobbleDefender r then spinForce g r * 1.5 else spinForce g r.

Definition selfRecoil (g : Game) (r : Roles) : Force :=
  applyForce (attacker r)
    (- vx (knockDir r) * spinForce g r * 0.5)
    (- vy (knockDir r) * spinForce g r * 0.5).

Definition knockback (g : Game) (r : Roles) : Force :=
  applyForce (defender r)
    (vx (knockDir r) * finalForce g r)
    (vy (knockDir r) * finalForce g r).

Definition collisionForces (g : Game) (r : Roles) : list Force :=
  (if overSpin r then [selfRecoil g r] else []) ++ [knockback g r].

(** RPM drain of the player as defender. *)
Definition playerDrain (g : Game) (r : Roles) : R :=
  let duelMult := if isDuelBoss g r then DUEL_COLLISION_MULT else 1 in
  (10 + Rmax 0 (attackerRPM r - defenderRPM r) * 0.08) * duelMult.

(** Chain level of a bot after a hit at the current frame. *)
Definition chainLevel (g : Game) (b : Bot) : Z :=
  if (frameCount g - lastHitFrame b <? BOT_CHAIN_WINDOW)%Z
  then (chainHits b + 1)%Z
  else 1%Z.

Definition momentumBonus (g : Game) (r : Roles) : R :=
  if mode_eqb (gameMode g) duel && label_eqb (label (attacker r)) player_label
  then sqrt (vx (velocity (attacker r)) ^ 2 + vy (velocity (attacker r)) ^ 2) * 3
  else 0.

(** The final value of [chainDrain] for a bot at chain level [hits]. *)
Definition chainDrain (g : Game) (r : Roles) (hits : Z) : R :=
  5 + (IZR hits - 1) * 5 + momentumBonus g r.

Definition hitBot (g : Game) (r : Roles) (b : Bot) : Bot :=
  let hits := chainLevel g b in
  mkBot (body b) (Rmax 0 (rpm b - chainDrain g r hits)) (alive b) (frameCount g) hits.

(** [bots.find(p)] followed by assignments to the fields of the bot found:
    the first element satisfying [p] is replaced. *)
Fixpoint updateFirst (p : Bot -> bool) (f : Bot -> Bot) (bs : list Bot) : list Bot :=
  match bs with
  | [] => []
  | b :: rest => if p b then f b :: rest else b :: updateFirst p f rest
  end.

Definition applyDrain (g : Game) (r : Roles) : Game :=
  if label_eqb (label (defender r)) player_label
  then set_currentRPM (Rmax 0 (currentRPM g - playerDrain g r)) g
  else set_bots
         (updateFirst (fun b => same_body (body b) (defender r)) (hitBot g r) (bots g)) g.

Definition is_wall (b : Body) : bool := label_eqb (label b) wall.

(** The body of the loop over [event.pairs]. *)
Definition collidePair (g : Game) (pr : Body * Body) : Game * list Force :=
  let (bodyA, bodyB) := pr in
  if is_wall bodyA || is_wall bodyB then (g, [])
  else match selectRoles g bodyA bodyB with
       | None => (g, [])
       | Some r => (applyDrain g r, collisionForces g r)
       end.

Fixpoint collisionStart (g : Game) (pairs : list (Body * Body)) : Game * list Force :=
  match pairs with
  | [] => (g, [])
  | pr :: rest =>
    let (g1, fs1) := collidePair g pr in
    let (g2, fs2) := collisionStart g1 rest in
    (g2, fs1 ++ fs2)
  end.

(** ** Keyboard handlers *)

Definition lower_ascii (c : ascii) : ascii :=
  let n := nat_of_ascii c in
  if (65 <=? n)%nat && (n <=? 90)%nat then ascii_of_nat (n + 32) else c.

(** [toLowerCase] on the ASCII range. *)
Fixpoint toLowerCase (s : string) : string :=
  match s with
  | EmptyString => EmptyString
  | String c rest => String (lower_ascii c) (toLowerCase rest)
  end.

(** [s.includes(k)] *)
Fixpoint includes (s k : string) : bool :=
  prefix k s ||
  match s with
  | EmptyString => false
  | String _ rest => includes rest k
  end.

(** [Set.add] and [Set.delete] on the set of held keys. *)
Definition keys_add (k : string) (ks : list string) : list string :=
  if existsb (String.eqb k) ks then ks else ks ++ [k].

Definition keys_delete (k : string) (ks : list string) : list string :=
  filter (fun x => negb (String.eqb k x)) ks.

Definition keys_has (k : string) (ks : list string) : bool :=
  existsb (String.eqb k) ks.

Definition spinGain (g : Game) : R :=
  let playerDist := distToSafeZone g (player g) in
  let outside := num_gt playerDist (safeZone g) in
  if outside then RPM_GAIN_PER_PRESS * OUTSIDE_GAIN_MULT else RPM_GAIN_PER_PRESS.

Definition onKeyDown (key : string) (g : Game) : Game :=
  let k := toLowerCase key in
  if duelTransition g then g
  else
    let g1 := if includes "wasd" k && (String.length k =? 1)%nat
              then set_keys (keys_add k (keys g)) g
              else g in
    if (String.eqb k "j" || String.eqb k "k") && playerAlive g1
    then
      if negb (String.eqb (lastSpinKey g1) k)
      then set_lastSpinKey k (set_currentRPM (Rmin 100 (currentRPM g1 + spinGain g1)) g1)
      else g1
    else g1.

Definition onKeyUp (key : string) (g : Game) : Game :=
  set_keys (keys_delete (toLowerCase key) (keys g)) g.

(** ** Match start ([initGame])

    Handles: the player is object [0], the bot labelled [bot_i] is object
    [S i]. *)

Definition newBot (bd : Body) (r : R) : Bot := mkBot bd r true (-999) 0.

(** The arena roster: [count] bots on a ring, bot [i] of [botCount]. *)
Fixpoint arenaBots (botCount : nat) (i count : nat) (g : Game) : list Bot * Game :=
  match count with
  | O => ([], g)
  | S count' =>
    let angle := INR i / INR botCount * PI * 2 in
    let (r1, g1) := random g in
    let dist := 180 + r1 * 80 in
    let x := CX + cos angle * dist in
    let y := CY + sin angle * dist in
    let bd := mkBody (S i) (bot_label i) (mkVec x y) (mkVec 0 0) in
    let (r2, g2) := random g1 in
    let (rest, g3) := arenaBots botCount (S i) count' g2 in
    (newBot bd (50 + r2 * 20) :: rest, g3)
  end.

Definition bossBot : Bot :=
  newBot (mkBody 1 (bot_label 0) (mkVec (CX + 200) CY) (mkVec 0 0)) BOSS_RPM.

Definition initGame (mode : GameMode) (botCount : nat) (rnd : nat -> R) : Game :=
  let g0 :=
    mkGame (mkBody 0 player_label (mkVec CX CY) (mkVec 0 0)) []
      STARTING_RPM SAFE_ZONE_INITIAL CX CY CX CY [] EmptyString 0%Z true mode 0%Z
      SURVIVAL_SPAWN_INTERVAL 0%nat 1%Z [] [] 0%Z 0%Z BOSS_RPM false 0%Z (-999)%Z
      false playing false rnd 0%nat in
  let (roster, g1) :=
    match mode with
    | arena => arenaBots botCount 0 botCount g0
    | survival => ([], g0)
    | duel => ([bossBot], g0)
    end in
  let (r1, g2) := random g1 in
  let (r2, g3) := random g2 in
  set_szTargetY (CY + (r2 - 0.5) * 100)
    (set_szTargetX (CX + (r1 - 0.5) * 100) (set_bots roster g3)).

(** ** One fixed step of [tick] *)

(** What [Matter.Engine.update] did during this step: the collision pairs
    it reported, and for every object its position and velocity afterwards. *)
Record Physics : Type := mkPhysics {
  pairs : list (Body * Body);
  motion : nat -> Vec * Vec
}.

Definition moveBody (ph : Physics) (b : Body) : Body :=
  mkBody (handle b) (label b) (fst (motion ph (handle b))) (snd (motion ph (handle b))).

Definition engineUpdate (ph : Physics) (g : Game) : Game :=
  let g1 := fst (collisionStart g (pairs ph)) in
  set_player (moveBody ph (player g1))
    (set_bots (map (fun b => set_body (moveBody ph (body b)) b) (bots g1)) g1).

(** Survival mode: a new bot enters through a hole. *)
Definition spawnSurvivalBot (g : Game) : Game :=
  if mode_eqb (gameMode g) survival
     && (nextBotSpawnFrame g <=? frameCount g)%Z
     && playerAlive g
  then
    let idx := botSpawnIndex g in
    let (r1, g1) := random g in
    let holeAngle := nth (Z.to_nat (Int_part (r1 * INR (List.length HOLE_ANGLES)))) HOLE_ANGLES 0 in
    let spawnDist := ARENA_R - 30 in
    let sx := CX + cos holeAngle * spawnDist in
    let sy := CY + sin holeAngle * spawnDist in
    let toCenter := mkVec ((CX - sx) * 0.01) ((CY - sy) * 0.01) in
    let newBody := mkBody (S idx) (bot_label idx) (mkVec sx sy) toCenter in
    let (r2, g2) := random g1 in
    set_nextBotSpawnFrame (frameCount g + SURVIVAL_SPAWN_INTERVAL)%Z
      (set_botSpawnIndex (S idx)
        (set_bots (bots g ++ [newBot newBody (55 + r2 * 15)]) g2))
  else g.

(** The player: RPM decay and the elimination check. *)
Definition playerDecay (g : Game) : R :=
  let pDist := distToSafeZone g (player g) in
  let pOutside := num_gt pDist (safeZone g) in
  if pOutside then RPM_DECAY_PER_FRAME * OUTSIDE_DECAY_MULT else RPM_DECAY_PER_FRAME.

Definition playerStep (g : Game) : Game :=
  if playerAlive g then
    let g1 := set_currentRPM (Rmax 0 (currentRPM g - playerDecay g)) g in
    if num_le (currentRPM g1) 0 || num_gt (dist2Center (player g1)) (ARENA_R + 50)
    then set_isWinner false (set_phase gameover (set_gameOver true (set_playerAlive false g1)))
    else g1
  else g.

(** The safe zone: shrink once per second, drift every step. *)
Definition shrinkRate (g : Game) : R :=
  match gameMode g with
  | duel => DUEL_SAFE_ZONE_SHRINK
  | survival => SURVIVAL_SAFE_ZONE_SHRINK
  | arena => SAFE_ZONE_SHRINK_PER_SEC
  end.

Definition safeZoneShrink (g : Game) : Game :=
  if (Z.rem (frameCount g) 60 =? 0)%Z && num_gt (safeZone g) SAFE_ZONE_MIN
  then set_safeZone (Rmax SAFE_ZONE_MIN (safeZone g - shrinkRate g)) g
  else g.

Definition safeZoneDrift (g : Game) : Game :=
  let szDx := szTargetX g - safeZoneCX g in
  let szDy := szTargetY g - safeZoneCY g in
  let szDist := sqrt (szDx * szDx + szDy * szDy) in
  if num_gt szDist 5
  then set_safeZoneCY (safeZoneCY g + szDy / szDist * SAFE_ZONE_DRIFT_SPEED)
         (set_safeZoneCX (safeZoneCX g + szDx / szDist * SAFE_ZONE_DRIFT_SPEED) g)
  else
    let maxDrift := Rmax 50 (ARENA_R - safeZone g - 40) in
    let (r1, g1) := random g in
    let angle := r1 * PI * 2 in
    let (r2, g2) := random g1 in
    let drift := r2 * maxDrift in
    set_szTargetY (CY + sin angle * drift) (set_szTargetX (CX + cos angle * drift) g2).

Definition safeZoneStep (g : Game) : Game := safeZoneDrift (safeZoneShrink g).

(** Bot elimination.  In duel mode the only bot is the boss: before round
    3 its elimination starts the round transition, in round 3 it ends the
    match. *)
Definition placeAt (b : Body) (x y : R) : Body :=
  mkBody (handle b) (label b) (mkVec x y) (mkVec 0 0).

Definition duelRoundReset (g : Game) (bot : Bot) : Game * Bot :=
  let g1 := set_duelRound (duelRound g + 1)%Z g in
  let g2 := set_duelTransition true g1 in
  let g3 := set_duelTransitionTimer DUEL_ROUND_TRANSITION_FRAMES g2 in
  let bossRpm := BOSS_RPM + IZR (duelRound g3) * 15 in
  let bot1 := set_rpm bossRpm (set_alive true bot) in
  let g4 := set_duelBossMaxRPM (rpm bot1) g3 in
  let bot2 := set_body (placeAt (body bot1) (CX + 200) CY) bot1 in
  let g5 := set_player (placeAt (player g4) (CX - 200) CY) g4 in
  let g6 := set_currentRPM STARTING_RPM g5 in
  let g7 := set_safeZoneCY CY (set_safeZoneCX CX (set_safeZone SAFE_ZONE_INITIAL g6)) in
  let g8 := set_duelBombs [] (set_duelLasers [] g7) in
  (g8, bot2).

Definition eliminateBot (g : Game) (bot : Bot) : Game * Bot :=
  let bot1 := set_alive false bot in
  let g1 := set_kills (kills g + 1)%Z g in
  if mode_eqb (gameMode g1) duel
  then
    if (duelRound g1 <? 3)%Z
    then duelRoundReset g1 bot1
    else (set_isWinner true (set_phase gameover (set_gameOver true g1)), bot1)
  else (g1, bot1).

(** Bot RPM housekeeping. *)
Definition botDecay (bOutside : bool) : R :=
  if bOutside then RPM_DECAY_PER_FRAME * 0.35 * OUTSIDE_DECAY_MULT
  else RPM_DECAY_PER_FRAME * 0.35.

Definition botRegen (g : Game) (bOutside : bool) (r : R) : R :=
  if negb bOutside && negb (mode_eqb (gameMode g) duel)
  then Rmin 90 (r + BOT_PASSIVE_REGEN / 60)
  else r.

Definition botFloor (g : Game) (bOutside : bool) (r : R) : R :=
  if negb bOutside && num_lt r BOT_RPM_FLOOR_INSIDE && negb (mode_eqb (gameMode g) duel)
  then BOT_RPM_FLOOR_INSIDE
  else r.

Definition botChainReset (g : Game) (bot : Bot) : Z :=
  if (BOT_CHAIN_WINDOW <? frameCount g - lastHitFrame bot)%Z then 0%Z else chainHits bot.

Definition botSpin (g : Game) (bOutside : bool) (r : R) : R * Game :=
  let spinChance := if mode_eqb (gameMode g) duel then DUEL_BOSS_SPIN_CHANCE else BOT_SPIN_CHANCE in
  let spinGain := if mode_eqb (gameMode g) duel then DUEL_BOSS_SPIN_GAIN else BOT_SPIN_GAIN in
  let (x, g1) := random g in
  if num_lt x spinChance
  then (Rmin 90 (r + (if bOutside then spinGain * OUTSIDE_GAIN_MULT else spinGain)), g1)
  else (r, g1).

Definition botEmergencySpin (g : Game) (bOutside : bool) (r : R) : R * Game :=
  if negb (mode_eqb (gameMode g) duel) && num_lt r SWEET_LOW
  then
    let (x, g1) := random g in
    if num_lt x BOT_EMERGENCY_SPIN_CHANCE
    then (Rmin 90 (r + (if bOutside then BOT_EMERGENCY_SPIN_GAIN * OUTSIDE_GAIN_MULT
                        else BOT_EMERGENCY_SPIN_GAIN)), g1)
    else (r, g1)
  else (r, g).

Definition botHousekeeping (g : Game) (bot : Bot) : Game * Bot :=
  let bDistSz := distToSafeZone g (body bot) in
  let bOutside := num_gt bDistSz (safeZone g) in
  let r1 := Rmax 0 (rpm bot - botDecay bOutside) in
  let r2 := botRegen g bOutside r1 in
  let r3 := botFloor g bOutside r2 in
  let hits := botChainReset g bot in
  let (r4, g1) := botSpin g bOutside r3 in
  let (r5, g2) := botEmergencySpin g1 bOutside r4 in
  (g2, set_chainHits hits (set_rpm r5 bot)).

(** The body of the loop over [game.bots]; the boolean tells whether the
    bot was counted in [aliveCount]. *)
Definition botStep (g : Game) (bot : Bot) : Game * Bot * bool :=
  if negb (alive bot) then (g, bot, false)
  else
    let bDist := dist2Center (body bot) in
    if num_le (rpm bot) 0 || num_gt bDist (ARENA_R + 50)
    then let (g1, bot1) := eliminateBot g bot in (g1, bot1, false)
    else let (g1, bot1) := botHousekeeping g bot in (g1, bot1, true).

Fixpoint botLoop (g : Game) (todo : list Bot) : Game * list Bot * Z :=
  match todo with
  | [] => (g, [], 0%Z)
  | bot :: rest =>
    let '(g1, bot1, counted) := botStep g bot in
    let '(g2, rest1, n) := botLoop g1 rest in
    (g2, bot1 :: rest1, ((if counted then 1 else 0) + n)%Z)
  end.

Definition botAI (g : Game) : Game * Z :=
  let '(g1, bs, aliveCount) := botLoop g (bots g) in
  (set_bots bs g1, aliveCount).

(** Duel mode: boss weapons. *)
Definition invulnerable (g : Game) : bool :=
  (frameCount g - lastProjectileHitFrame g <? DUEL_PROJECTILE_INVULN)%Z.

Definition fireLaser (g : Game) (boss : Bot) : Game :=
  if (2 <=? duelRound g)%Z && (DUEL_LASER_INTERVAL <=? frameCount g - lastLaserFrame g)%Z
  then
    let bp := position (body boss) in
    let dx := vx (position (player g)) - vx bp in
    let dy := vy (position (player g)) - vy bp in
    let d := guardedDist dx dy in
    set_duelLasers
      (duelLasers g ++
         [mkLaser (vx bp) (vy bp) (dx / d * DUEL_LASER_SPEED) (dy / d * DUEL_LASER_SPEED) 120])
      (set_lastLaserFrame (frameCount g) g)
  else g.

Definition throwBomb (g : Game) (boss : Bot) : Game :=
  if (3 <=? duelRound g)%Z && (DUEL_BOMB_INTERVAL <=? frameCount g - lastBombFrame g)%Z
  then
    let bp := position (body boss) in
    let dx := vx (position (player g)) - vx bp in
    let dy := vy (position (player g)) - vy bp in
    let d := guardedDist dx dy in
    set_duelBombs
      (duelBombs g ++
         [mkBomb (vx bp) (vy bp) (dx / d * DUEL_BOMB_SPEED) (dy / d * DUEL_BOMB_SPEED)
            (Z.max 30 (Int_part (d / DUEL_BOMB_SPEED))) false 0])
      (set_lastBombFrame (frameCount g) g)
  else g.

Definition projectileHit (dmg : R) (g : Game) : Game :=
  if negb (invulnerable g)
  then set_lastProjectileHitFrame (frameCount g)
         (set_currentRPM (Rmax 0 (currentRPM g - dmg)) g)
  else g.

(** One laser: [None] when it is spliced out of the array. *)
Definition laserStep (g : Game) (l : Laser) : Game * option Laser :=
  let l1 := mkLaser (laser_x l + laser_vx l) (laser_y l + laser_vy l)
              (laser_vx l) (laser_vy l) (life l - 1) in
  let ldx := laser_x l1 - vx (position (player g)) in
  let ldy := laser_y l1 - vy (position (player g)) in
  let lDist := sqrt (ldx * ldx + ldy * ldy) in
  if num_lt lDist (PLAYER_R + 6)
  then (projectileHit DUEL_LASER_DMG g, None)
  else if (life l1 <=? 0)%Z
          || num_lt (laser_x l1) 0 || num_gt (laser_x l1) CANVAS_W
          || num_lt (laser_y l1) 0 || num_gt (laser_y l1) CANVAS_H
  then (g, None)
  else (g, Some l1).

Definition bombStep (g : Game) (b : Bomb) : Game * option Bomb :=
  if negb (exploded b)
  then
    let x := bomb_x b + bomb_vx b in
    let y := bomb_y b + bomb_vy b in
    let t := (timer b - 1)%Z in
    if (t <=? 0)%Z
    then
      let bdx := x - vx (position (player g)) in
      let bdy := y - vy (position (player g)) in
      let bDist := sqrt (bdx * bdx + bdy * bdy) in
      let g1 := if num_lt bDist DUEL_BOMB_EXPLODE_R
                then projectileHit (DUEL_BOMB_DMG * (1 - bDist / DUEL_BOMB_EXPLODE_R)) g
                else g in
      (g1, Some (mkBomb x y (bomb_vx b) (bomb_vy b) t true 20))
    else (g, Some (mkBomb x y (bomb_vx b) (bomb_vy b) t false (explodeTimer b)))
  else
    let e := (explodeTimer b - 1)%Z in
    if (e <=? 0)%Z then (g, None)
    else (g, Some (mkBomb (bomb_x b) (bomb_y b) (bomb_vx b) (bomb_vy b) (timer b) true e)).

(** The projectile loops run from the last index down to 0. *)
Fixpoint lasersLoop (g : Game) (ls : list Laser) : Game * list Laser :=
  match ls with
  | [] => (g, [])
  | l :: rest =>
    let (g1, rest1) := lasersLoop g rest in
    let (g2, ol) := laserStep g1 l in
    (g2, match ol with Some l1 => l1 :: rest1 | None => rest1 end)
  end.

Fixpoint bombsLoop (g : Game) (bs : list Bomb) : Game * list Bomb :=
  match bs with
  | [] => (g, [])
  | b :: rest =>
    let (g1, rest1) := bombsLoop g rest in
    let (g2, ob) := bombStep g1 b in
    (g2, match ob with Some b1 => b1 :: rest1 | None => rest1 end)
  end.

Definition bossWeapons (g : Game) : Game :=
  if mode_eqb (gameMode g) duel && playerAlive g
  then
    let g1 := match bots g with
              | boss :: _ => if alive boss then throwBomb (fireLaser g boss) boss else g
              | [] => g
              end in
    let (g2, ls) := lasersLoop g1 (duelLasers g1) in
    let g3 := set_duelLasers ls g2 in
    let (g4, bs) := bombsLoop g3 (duelBombs g3) in
    set_duelBombs bs g4
  else g.

(** The update of [gameState] at the end of the step. *)
Definition updateAliveCount (aliveCount : Z) (g : Game) : Game :=
  match phase g with
  | playing =>
    if mode_eqb (gameMode g) arena && (aliveCount =? 0)%Z && playerAlive g
    then set_isWinner true (set_phase gameover (set_gameOver true g))
    else if mode_eqb (gameMode g) survival && negb (playerAlive g)
    then set_isWinner false (set_phase gameover g)
    else g
  | _ => g
  end.

(** One iteration of the loop [while (game.accumulator >= FIXED_DT)].
    [isGameOver] is the value of [gameOverRef.current] read at the start of
    the animation callback. *)
Definition fixedStep (isGameOver : bool) (ph : Physics) (g : Game) : Game :=
  if isGameOver then g
  else if duelTransition g
  then
    let g1 := set_duelTransitionTimer (duelTransitionTimer g - 1)%Z g in
    if (duelTransitionTimer g1 <=? 0)%Z then set_duelTransition false g1 else g1
  else
    let g1 := set_frameCount (frameCount g + 1)%Z g in
    let g2 := engineUpdate ph g1 in
    let g3 := spawnSurvivalBot g2 in
    let g4 := playerStep g3 in
    let g5 := safeZoneStep g4 in
    let (g6, aliveCount) := botAI g5 in
    let g7 := bossWeapons g6 in
    updateAliveCount aliveCount g7.

(** The session of a step that is not frozen, at the point where the loop
    over [game.bots] starts: the frame is counted, the engine has run, the
    player and the safe zone are updated. *)
Definition beforeBots (ph : Physics) (g : Game) : Game :=
  safeZoneStep (playerStep (spawnSurvivalBot
    (engineUpdate ph (set_frameCount (frameCount g + 1)%Z g)))).

(** Survival steering of a bot: "rush toward safe zone center". *)
Definition BOT_MOVE_FORCE : R := 0.004.

Definition survivalSteer (g : Game) (bot : Bot) : Force :=
  let dx := safeZoneCX g - vx (position (body bot)) in
  let dy := safeZoneCY g - vy (position (body bot)) in
  let d := guardedDist dx dy in
  applyForce (body bot) (dx / d * BOT_MOVE_FORCE * 1.8) (dy / d * BOT_MOVE_FORCE * 1.8).

(** ** Movement of the bodies: friction, player input, bowl gravity,
    bot separation *)

Definition PLAYER_MOVE_FORCE : R := 0.004.
Definition OUTSIDE_DRAG_MULT : R := 0.4.
Definition CENTER_GRAVITY : R := 0.0000225.
Definition BOT_SEPARATION_RADIUS : R := 100.
Definition BOT_SEPARATION_FORCE : R := 0.0015.

Definition rpmToFriction (rpm : R) : R :=
  if num_lt rpm SWEET_LOW then 0.10 - (rpm / SWEET_LOW) * 0.07
  else if num_le rpm SWEET_HIGH then 0.025
  else
    let overFactor := (rpm - SWEET_HIGH) / (100 - SWEET_HIGH) in
    0.025 - overFactor * 0.022.

(** The value of [mf] in the player movement block. *)
Definition moveForce (rpm : R) : R :=
  if num_lt rpm SWEET_LOW then PLAYER_MOVE_FORCE * 0.4
  else if num_ge rpm SWEET_LOW && num_le rpm SWEET_HIGH then PLAYER_MOVE_FORCE * 1.1
  else
    let overFactor := (rpm - SWEET_HIGH) / (100 - SWEET_HIGH) in
    PLAYER_MOVE_FORCE * (1.5 + overFactor * 0.8).

Definition dragMult (g : Game) : R :=
  let pDist := distToSafeZone g (player g) in
  let pOutside := num_gt pDist (safeZone g) in
  if pOutside then OUTSIDE_DRAG_MULT else 1.0.

(** The forces of the held movement keys, in the order W, S, A, D (the
    erratic shake of an over-spinning top, a random force of the same block,
    is left out). *)
Definition playerMovement (g : Game) : list Force :=
  if playerAlive g then
    let mf := moveForce (currentRPM g) in
    (if keys_has "w" (keys g) then [applyForce (player g) 0 (- mf * dragMult g)] else []) ++
    (if keys_has "s" (keys g) then [applyForce (player g) 0 (mf * dragMult g)] else []) ++
    (if keys_has "a" (keys g) then [applyForce (player g) (- mf * dragMult g) 0] else []) ++
    (if keys_has "d" (keys g) then [applyForce (player g) (mf * dragMult g) 0] else [])
  else [].

(** The sum of the impulses of a list of forces. *)
Fixpoint netForce (fs : list Force) : Vec :=
  match fs with
  | [] => mkVec 0 0
  | f :: rest =>
    mkVec (vx (impulse f) + vx (netForce rest)) (vy (impulse f) + vy (netForce rest))
  end.

(** Bowl gravity on one body. *)
Definition centerGravity (b : Body) : list Force :=
  let gdx := CX - vx (position b) in
  let gdy := CY - vy (position b) in
  let gd := sqrt (gdx * gdx + gdy * gdy) in
  if num_gt gd 5
  then
    let gForce := CENTER_GRAVITY * gd in
    [applyForce b (gdx / gd * gForce) (gdy / gd * gForce)]
  else [].

(** The accumulation of [sepX], [sepY] over [game.bots]; [other === bot] is
    the identity of the two bots' bodies. *)
Fixpoint separationSum (bot : Bot) (others : list Bot) (acc : Vec) : Vec :=
  match others with
  | [] => acc
  | other :: rest =>
    if same_body (body other) (body bot) || negb (alive other)
    then separationSum bot rest acc
    else
      let sdx := vx (position (body bot)) - vx (position (body other)) in
      let sdy := vy (position (body bot)) - vy (position (body other)) in
      let sDist := sqrt (sdx * sdx + sdy * sdy) in
      if num_lt sDist BOT_SEPARATION_RADIUS && num_gt sDist 0
      then
        let strength := (BOT_SEPARATION_RADIUS - sDist) / BOT_SEPARATION_RADIUS in
        separationSum bot rest
          (mkVec (vx acc + sdx / sDist * strength) (vy acc + sdy / sDist * strength))
      else separationSum bot rest acc
  end.

Definition separation (g : Game) (bot : Bot) : list Force :=
  let sep := separationSum bot (bots g) (mkVec 0 0) in
  let sepLen := sqrt (vx sep * vx sep + vy sep * vy sep) in
  if num_gt sepLen 0
  then [applyForce (body bot) (vx sep / sepLen * BOT_SEPARATION_FORCE)
                              (vy sep / sepLen * BOT_SEPARATION_FORCE)]
  else [].

(** ** Bot steering: danger avoidance and the AI decision

    The dodge accumulators [dodgeX], [dodgeY] divide by a distance that is 0
    for coincident bodies; 0/0 is NaN, which then stays in the accumulators.
    [None] stands for NaN.  The fields [wanderAngle] and [personality] of a
    bot are parameters. *)
Definition dodgePush (acc : option Vec) (ddx ddy reach weight : R) : option Vec :=
  let dd := sqrt (ddx * ddx + ddy * ddy) in
  if num_lt dd reach
  then
    match acc with
    | None => None
    | Some v =>
      if Req_dec_T dd 0 then None
      else
        let urgency := (reach - dd) / reach in
        Some (mkVec (vx v + ddx / dd * urgency * weight)
                    (vy v + ddy / dd * urgency * weight))
    end
  else acc.

Fixpoint dodgeBots (bot : Bot) (others : list Bot) (acc : option Vec) : option Vec :=
  match others with
  | [] => acc
  | other :: rest =>
    if same_body (body other) (body bot) || negb (alive other)
    then dodgeBots bot rest acc
    else if num_gt (rpm other) (rpm bot + 5)
    then dodgeBots bot rest
           (dodgePush acc (vx (position (body bot)) - vx (position (body other)))
                          (vy (position (body bot)) - vy (position (body other))) 120 2)
    else dodgeBots bot rest acc
  end.

Definition dodgePlayer (g : Game) (bot : Bot) (acc : option Vec) : option Vec :=
  if playerAlive g && num_gt (currentRPM g) (rpm bot + 5)
  then dodgePush acc (vx (position (body bot)) - vx (position (player g)))
                     (vy (position (body bot)) - vy (position (player g))) 140 3
  else acc.

Fixpoint dodgeHoles (bot : Bot) (holes : list R) (acc : option Vec) : option Vec :=
  match holes with
  | [] => acc
  | ha :: rest =>
    let hx := CX + cos ha * ARENA_R in
    let hy := CY + sin ha * ARENA_R in
    dodgeHoles bot rest
      (dodgePush acc (vx (position (body bot)) - hx) (vy (position (body bot)) - hy) 100 2.5)
  end.

Definition dodge (g : Game) (bot : Bot) : option Vec :=
  dodgeHoles bot HOLE_ANGLES (dodgePlayer g bot (dodgeBots bot (bots g) (Some (mkVec 0 0)))).

Definition MIN_RPM_ADVANTAGE : R := 10.

(** [sort((a, b) => a.dist - b.dist)]: a stable sort by distance. *)
Fixpoint insertByDist (x : Bot * R) (l : list (Bot * R)) : list (Bot * R) :=
  match l with
  | [] => [x]
  | y :: rest =>
    if num_le (snd x) (snd y) then x :: y :: rest else y :: insertByDist x rest
  end.

Fixpoint sortByDist (l : list (Bot * R)) : list (Bot * R) :=
  match l with
  | [] => []
  | x :: rest => insertByDist x (sortByDist rest)
  end.

(** The chain [filter], [map], [filter], [sort], [slice(0, 2)] over
    [game.bots]. *)
Definition otherBots (g : Game) (bot : Bot) : list (Bot * R) :=
  let weaker :=
    filter (fun o => negb (same_body (body o) (body bot)) && alive o
                     && num_lt (rpm o + MIN_RPM_ADVANTAGE) (rpm bot)) (bots g) in
  let withDist :=
    map (fun o =>
           let odx := vx (position (body o)) - vx (position (body bot)) in
           let ody := vy (position (body o)) - vy (position (body o)) in
           (o, sqrt (odx * odx + ody * ody))) weaker in
  firstn 2 (sortByDist (filter (fun od => num_lt (snd od) 200) withDist)).

(** [bestTarget] together with [bestScore]; [None] is the initial [null]
    with score [-Infinity]. *)
Definition considerPlayer (g : Game) (bot : Bot) (personality : R) : option (Body * R) :=
  if playerAlive g && num_lt (currentRPM g + MIN_RPM_ADVANTAGE) (rpm bot)
  then
    let pdx := vx (position (player g)) - vx (position (body bot)) in
    let pdy := vy (position (player g)) - vy (position (body bot)) in
    let pDist := sqrt (pdx * pdx + pdy * pdy) in
    if num_lt pDist 200
    then Some (player g,
               (rpm bot - currentRPM g) / (pDist + 1) * 100 * (0.5 + personality))
    else None
  else None.

Fixpoint considerBots (bot : Bot) (cands : list (Bot * R)) (best : option (Body * R))
    : option (Body * R) :=
  match cands with
  | [] => best
  | (other, oDist) :: rest =>
    let score := (rpm bot - rpm other) / (oDist + 1) * 100 in
    let better := match best with
                  | None => true
                  | Some (_, bestScore) => num_gt score bestScore
                  end in
    considerBots bot rest (if better then Some (body other, score) else best)
  end.

Definition bestTarget (g : Game) (bot : Bot) (personality : R) : option Body :=
  option_map fst (considerBots bot (otherBots g bot) (considerPlayer g bot personality)).

Definition fleePush (acc : Vec) (dx dy : R) : Vec :=
  let d := guardedDist dx dy in
  if num_lt d 180
  then mkVec (vx acc + dx / d * (180 - d) / 180) (vy acc + dy / d * (180 - d) / 180)
  else acc.

Fixpoint fleeBots (bot : Bot) (others : list Bot) (acc : Vec) : Vec :=
  match others with
  | [] => acc
  | other :: rest =>
    if same_body (body other) (body bot) || negb (alive other)
    then fleeBots bot rest acc
    else fleeBots bot rest
           (fleePush acc (vx (position (body bot)) - vx (position (body other)))
                         (vy (position (body bot)) - vy (position (body other))))
  end.

Definition flee (g : Game) (bot : Bot) : Vec :=
  let f1 := fleeBots bot (bots g) (mkVec 0 0) in
  let f2 := if playerAlive g
            then fleePush f1 (vx (position (body bot)) - vx (position (player g)))
                             (vy (position (body bot)) - vy (position (player g)))
            else f1 in
  mkVec (vx f2 + (safeZoneCX g - vx (position (body bot))) * 0.008)
        (vy f2 + (safeZoneCY g - vy (position (body bot))) * 0.008).

(** The branches of the decision after the dodge: survival, chase or wander,
    flee. *)
Definition undodged (g : Game) (bot : Bot) (wanderAngle personality : R) : Force :=
  let bf := BOT_MOVE_FORCE in
  let bDistSz := distToSafeZone g (body bot) in
  let bOutside := num_gt bDistSz (safeZone g) in
  if bOutside || num_gt bDistSz (safeZone g * 0.85) then survivalSteer g bot
  else if num_gt (rpm bot) (SWEET_LOW + 5) then
    match bestTarget g bot personality with
    | Some t =>
      let dx := vx (position t) - vx (position (body bot)) in
      let dy := vy (position t) - vy (position (body bot)) in
      let d := guardedDist dx dy in
      let perpX := - dy / d in
      let perpY := dx / d in
      let flankOffset := sin (IZR (frameCount g) * 0.03 + wanderAngle) * 0.35 in
      applyForce (body bot) ((dx / d + perpX * flankOffset) * bf)
                            ((dy / d + perpY * flankOffset) * bf)
    | None =>
      let wx := CX + cos wanderAngle * 150 - vx (position (body bot)) in
      let wy := CY + sin wanderAngle * 150 - vy (position (body bot)) in
      let wd := guardedDist wx wy in
      applyForce (body bot) (wx / wd * bf * 0.6) (wy / wd * bf * 0.6)
    end
  else
    let f := flee g bot in
    let fd := guardedDist (vx f) (vy f) in
    applyForce (body bot) (vx f / fd * bf * 0.9) (vy f / fd * bf * 0.9).

(** [isDodging] with the dodge vector; a NaN length is not [> 0.5]. *)
Definition dodging (g : Game) (bot : Bot) : option Vec :=
  match dodge g bot with
  | Some v => if num_gt (norm v) 0.5 then Some v else None
  | None => None
  end.

(** The steering force of one bot in one step. *)
Definition botSteer (g : Game) (bot : Bot) (wanderAngle personality : R) : Force :=
  match dodging g bot with
  | Some v =>
    applyForce (body bot) (vx v / norm v * BOT_MOVE_FORCE * 1.5)
                          (vy v / norm v * BOT_MOVE_FORCE * 1.5)
  | None => undodged g bot wanderAngle personality
  end.

(** The RPM helpers of the HUD. *)
Definition rpmColor (displayRPM : R) : string :=
  if num_ge displayRPM SWEET_HIGH then "#ff3333"
  else if num_ge displayRPM SWEET_LOW then "#00ff88"
  else "#888888".

Definition rpmZone (displayRPM : R) : string :=
  if num_ge displayRPM SWEET_HIGH then "OVER-SPIN!"
  else if num_ge displayRPM SWEET_LOW then "SWEET SPOT"
  else "WOBBLE".

(** [hit_state g g']: the projectiles of one step took [g] to [g'], either
    without touching the player or with a single hit, of at most
    [DUEL_BOMB_DMG], stamped with the current frame. *)
Definition hit_state (g g' : Game) : Prop :=
  frameCount g' = frameCount g /\
  player g' = player g /\
  ((currentRPM g' = currentRPM g /\
    lastProjectileHitFrame g' = lastProjectileHitFrame g) \/
   (invulnerable g = false /\
    lastProjectileHitFrame g' = frameCount g /\
    currentRPM g - DUEL_BOMB_DMG <= currentRPM g' <= currentRPM g)).

(** A laser after one step of flight. *)
Definition advance (l : Laser) : Laser :=
  mkLaser (laser_x l + laser_vx l) (laser_y l + laser_vy l)
    (laser_vx l) (laser_vy l) (life l - 1).

(** The four movement keys. *)
Definition move_key (k : string) : bool :=
  String.eqb k "w" || String.eqb k "a" || String.eqb k "s" || String.eqb k "d".

(** The outcome of the match as the session records it. *)
Definition outcome (g : Game) : bool * bool * Phase * bool * GameMode :=
  (playerAlive g, gameOver g, phase g, isWinner g, gameMode g).

(** The outcome flags agree with each other. *)
Definition outcome_ok (g : Game) : Prop :=
  (playerAlive g = false -> gameOver g = true) /\
  (gameOver g = true <-> phase g = gameover) /\
  (phase g = playing \/ phase g = paused \/ phase g = gameover) /\
  (isWinner g = true -> gameOver g = true /\ gameMode g <> survival).

(** What is settled in [g] is still settled in [g']. *)
Definition settled (g g' : Game) : Prop :=
  (playerAlive g = false -> playerAlive g' = false) /\
  (gameOver g = true -> gameOver g' = true) /\
  (phase g = gameover -> phase g' = gameover) /\
  gameMode g' = gameMode g.

(** [labelled k bs]: the bots of [bs] carry the labels [bot_k], [bot_(k+1)],
    ... and the identities [S k], [S (k+1)], ... *)
Fixpoint labelled (k : nat) (bs : list Bot) : Prop :=
  match bs with
  | [] => True
  | b :: rest =>
    handle (body b) = S k /\ label (body b) = bot_label k /\ labelled (S k) rest
  end.

(** The identity of a body: what the engine never changes. *)
Definition ident (b : Body) : nat * Label := (handle b, label b).

Definition roster_ok (g : Game) : Prop :=
  ident (player g) = (0%nat, player_label) /\
  labelled 0 (bots g) /\
  (gameMode g = survival -> List.length (bots g) = botSpawnIndex g).

(** The number of eliminated bots of a roster. *)
Fixpoint deadCount (bs : list Bot) : Z :=
  match bs with
  | [] => 0
  | b :: rest => ((if alive b then 0 else 1) + deadCount rest)%Z
  end.

Definition kills_ok (g : Game) : Prop :=
  kills g = (duelRound g - 1 + deadCount (bots g))%Z /\
  (gameMode g <> duel -> duelRound g = 1%Z).

(** The spawn schedule of survival mode: the next spawn frame is a
    multiple of the spawn interval, and the bots spawned so far were due. *)
Definition schedule_ok (g : Game) : Prop :=
  gameMode g = survival ->
  nextBotSpawnFrame g = (SURVIVAL_SPAWN_INTERVAL * (Z.of_nat (botSpawnIndex g) + 1))%Z /\
  (SURVIVAL_SPAWN_INTERVAL * Z.of_nat (botSpawnIndex g) <= frameCount g)%Z /\
  (playerAlive g = true -> (frameCount g < nextBotSpawnFrame g)%Z).

(** The point [(x, y)] lies within [r] of the arena centre. *)
Definition within (x y r : R) : Prop :=
  (x - CX) * (x - CX) + (y - CY) * (y - CY) <= r * r.

(** The safe zone's centre and its drift target stay away from the rim. *)
Definition centre_ok (g : Game) : Prop :=
  within (safeZoneCX g) (safeZoneCY g) (ARENA_R - 40) /\
  within (szTargetX g) (szTargetY g) (ARENA_R - 40).

(** An arena match that is recorded as won: the player is alive and every
    bot of the roster is eliminated. *)
Definition arena_won_ok (g : Game) : Prop :=
  gameMode g = arena -> isWinner g = true ->
  playerAlive g = true /\ deadCount (bots g) = Z.of_nat (List.length (bots g)).

(** The lasers of a list were fired at least [DUEL_LASER_INTERVAL] frames
    apart, the oldest first. *)
Fixpoint spaced (ls : list Laser) : Prop :=
  match ls with
  | [] => True
  | l :: rest =>
    Forall (fun l' => (life l + DUEL_LASER_INTERVAL <= life l')%Z) rest /\ spaced rest
  end.

Definition lasers_ok (g : Game) : Prop :=
  spaced (duelLasers g) /\
  Forall (fun l => (1 <= life l <= 119)%Z) (duelLasers g) /\
  (playerAlive g = true ->
     Forall (fun l => (life l <= 119 - (frameCount g - lastLaserFrame g))%Z) (duelLasers g)) /\
  ((duelRound g < 2)%Z -> duelLasers g = []) /\
  ((duelRound g < 3)%Z -> duelBombs g = []).

(** Outside duel mode the radius of the safe zone follows the frame
    counter: one shrink per 60 frames. *)
Definition radius_ok (g : Game) : Prop :=
  (0 <= frameCount g)%Z /\
  (gameMode g <> duel ->
   safeZone g
   = Rmax SAFE_ZONE_MIN (SAFE_ZONE_INITIAL - shrinkRate g * IZR (frameCount g / 60))).

(** A bot as [initGame] places it in the arena. *)
Definition placed (b : Bot) : Prop :=
  alive b = true /\ 50 <= rpm b < 70 /\ chainHits b = 0%Z /\
  velocity (body b) = mkVec 0 0 /\
  180 <= dist2Center (body b) < 260.

(** ** The pause

    The pause button ([togglePause]) and the second [keydown] listener, for
    the Escape key ([handlePause]).  Both write [isPausedRef.current]
    together with the phase: the reference is [true] exactly while the phase
    is [paused]. *)
Definition togglePause (g : Game) : Game :=
  match phase g with
  | playing => set_phase paused g
  | paused => set_phase playing g
  | _ => g
  end.

Definition handlePause (key : string) (g : Game) : Game :=
  if String.eqb key "Escape"
  then
    match phase g with
    | playing => set_phase paused g
    | paused => set_phase playing g
    | _ => g
    end
  else g.

(** ** Sessions

    What can happen to a session after [initGame]: key events (a key press
    reaches both [keydown] listeners), clicks on the pause button and fixed
    steps.  The animation callback runs no fixed step while the session is
    paused; [reachable] does not use that, it lets a step follow any event.
    [restartGame] ends the session: it discards the game object and goes
    back to the menu, and the next [startGame] begins a new session with
    [initGame].  The values of [Math.random()] lie in [0, 1). *)

Definition fair (rnd : nat -> R) : Prop := forall n, 0 <= rnd n < 1.

Inductive Event : Type :=
  | KeyDown (key : string)
  | KeyUp (key : string)
  | FixedStep (isGameOver : bool) (ph : Physics)
  | PauseButton.

Definition react (e : Event) (g : Game) : Game :=
  match e with
  | KeyDown key => handlePause key (onKeyDown key g)
  | KeyUp key => onKeyUp key g
  | FixedStep isGameOver ph => fixedStep isGameOver ph g
  | PauseButton => togglePause g
  end.

Inductive reachable : Game -> Prop :=
  | reach_init : forall mode botCount rnd,
      fair rnd -> reachable (initGame mode botCount rnd)
  | reach_event : forall g e,
      reachable g -> reachable (react e g).

(** A run of fixed steps, one [Physics] report per step. *)
Fixpoint run (phs : list Physics) (g : Game) : Game :=
  match phs with
  | [] => g
  | ph :: rest => run rest (fixedStep false ph g)
  end.

(** ** The animation callback [tick]

    The two timing fields of the game object, kept apart from [Game]. *)
Record Clock : Type := mkClock {
  lastTimestamp : R;
  accumulator : R
}.

(** JavaScript numbers are binary64 floating-point numbers: the result of
    an arithmetic operation is the exact result rounded.  The timing code is
    the one place of the step where this decides how many iterations run, so
    here the rounding [fl] of an operation is explicit.  [rounding fl] is what
    the code below needs of it: a non-negative exact result is rounded to a
    non-negative number, and up to 1000 the relative error is at most the
    unit roundoff 2^-53.  Rounding to nearest has both properties; so has
    exact arithmetic, [fl x = x]. *)
Definition UNIT_ROUNDOFF : R := / 9007199254740992.

Record rounding (fl : R -> R) : Prop := mkRounding {
  fl_sign : forall x, 0 <= x -> 0 <= fl x;
  fl_error : forall x, Rabs x <= 1000 -> Rabs (fl x - x) <= Rabs x * UNIT_ROUNDOFF
}.

(** [const FIXED_DT = 1000 / 60]. *)
Definition FIXED_DT (fl : R -> R) : R := fl (1000 / 60).

(** The loop [while (game.accumulator >= FIXED_DT)]; [phs k] is what the
    engine reports in the [k]-th iteration (read only by the iterations that
    reach [Matter.Engine.update]).  [None]: out of fuel. *)
Fixpoint accumulatorLoop (fl : R -> R) (fuel : nat) (isGameOver : bool)
    (phs : nat -> Physics) (k : nat) (acc : R) (g : Game) : option (R * Game) :=
  match fuel with
  | O => None
  | S fuel' =>
    if num_ge acc (FIXED_DT fl)
    then accumulatorLoop fl fuel' isGameOver phs (S k) (fl (acc - FIXED_DT fl))
           (fixedStep isGameOver (phs k) g)
    else Some (acc, g)
  end.

(** [tick], up to the end of the fixed-step loop (drawing follows). *)
Definition tick (fl : R -> R) (fuel : nat) (timestamp : R) (isPaused : bool)
    (phs : nat -> Physics) (c : Clock) (g : Game) : option (Clock * Game) :=
  let isGameOver := gameOver g in
  if isPaused then Some (mkClock timestamp (accumulator c), g)
  else
    let last := if Req_dec_T (lastTimestamp c) 0 then timestamp else lastTimestamp c in
    let elapsed := fl (timestamp - last) in
    let elapsed1 := if num_gt elapsed 200 then 200 else elapsed in
    match accumulatorLoop fl fuel isGameOver phs 0 (fl (accumulator c + elapsed1)) g with
    | Some (acc, g') => Some (mkClock timestamp acc, g')
    | None => None
    end.

(** The rounding error of one operation of the accumulator loop stays below
    [TIMING_SLACK]. *)
Definition TIMING_SLACK : R := 1 / 1000000000.

(** A rounding that rounds 1000/60 down by 10^-15 and is exact elsewhere. *)
Definition round_down_dt (x : R) : R :=
  if Req_dec_T x (1000 / 60) then 1000 / 60 - 1 / 1000000000000000 else x.

(** ** The session invariant *)

Definition bot_ok (b : Bot) : Prop :=
  0 <= rpm b <= 90 /\ (0 <= chainHits b)%Z.

(** The part of the invariant that does not mention the roster. *)
Record globals_ok (g : Game) : Prop := mkGlobalsOk {
  ok_rng : fair (rng g);
  ok_player : 0 <= currentRPM g <= 100;
  ok_zone : SAFE_ZONE_MIN <= safeZone g <= SAFE_ZONE_INITIAL;
  ok_round : (1 <= duelRound g <= 3)%Z;
  ok_bossMax :
    duelBossMaxRPM g =
    if (duelRound g =? 1)%Z then BOSS_RPM else BOSS_RPM + IZR (duelRound g) * 15
}.

Record session_ok (g : Game) : Prop := mkSessionOk {
  ok_globals : globals_ok g;
  ok_bots : Forall bot_ok (bots g);
  ok_duel : gameMode g = duel -> List.length (bots g) = 1%nat
}.

(** ** Round resets

    [round_reset g g'] tells that a duel round reset took the session from
    [g] to [g']: the boss was eliminated in round 1 or 2. *)
Definition round_reset (g g' : Game) : Prop :=
  gameMode g = duel /\
  (duelRound g < 3)%Z /\
  duelRound g' = (duelRound g + 1)%Z /\
  duelTransition g' = true /\
  safeZone g' = SAFE_ZONE_INITIAL.

(** The mode-level state that only a round reset changes. *)
Definition zone_kept (g g' : Game) : Prop :=
  safeZone g' = safeZone g /\
  duelRound g' = duelRound g /\
  duelTransition g' = duelTransition g.


(** Projectiles only touch the player's RPM and the invulnerability stamp. *)
Definition struck (g g' : Game) : Prop :=
  exists r f, 0 <= r <= 100 /\ g' = set_lastProjectileHitFrame f (set_currentRPM r g).

(** A sequence of zero draws, for concrete sessions. *)
Definition zero_rng : nat -> R := fun _ => 0.

(** A physics report in which nothing collides and every object rests
    at the origin, for concrete sessions. *)
Definition still_world : Physics :=
  mkPhysics [] (fun _ => (mkVec 0 0, mkVec 0 0)).

(** A collision of the first duel round: the player, moving with velocity
    (3, 4), runs into the boss. *)
Definition duel_hit_pair : Body * Body :=
  (mkBody 0 player_label (mkVec CX CY) (mkVec 3 4), body bossBot).

(** The duel session as the engine runs for the first time: frame 1. *)
Definition duel_first_update : Game :=
  set_frameCount 1 (initGame duel 1 zero_rng).

(** A sequence of draws all equal to 1/2. *)
Definition half_rng : nat -> R := fun _ => 1 / 2.

(** The start of an arena match against one bot, spawned with 60 RPM; the
    player starts with 50. *)
Definition weak_player_session : Game := initGame arena 1 half_rng.

Definition weak_player_bot : Bot := hd bossBot (bots weak_player_session).

Definition weak_player_roles : Roles :=
  mkRoles (currentRPM weak_player_session) (rpm weak_player_bot)
    (player weak_player_session) (body weak_player_bot).

(** Two bots in contact (38 apart), the first in Over-Spin and the
    second in Wobble. *)
Definition spin_bodyA : Body := mkBody 1 (bot_label 0) (mkVec 600 400) (mkVec 0 0).
Definition spin_bodyB : Body := mkBody 2 (bot_label 1) (mkVec 638 400) (mkVec 0 0).

Definition spin_session : Game :=
  set_bots [mkBot spin_bodyA 70 true (-999) 0; mkBot spin_bodyB 30 true (-999) 0]
    (initGame arena 0 zero_rng).

Definition spin_roles : Roles := mkRoles 70 30 spin_bodyA spin_bodyB.

(** The player and a bot on the same spot. *)
Definition coincident_roles : Roles :=
  mkRoles 50 50
    (mkBody 0 player_label (mkVec CX CY) (mkVec 0 0))
    (mkBody 1 (bot_label 0) (mkVec CX CY) (mkVec 0 0)).

(** A physics report that carries the boss (object 1) out of the arena
    through the right-hand hole while the player rests at the centre. *)
Definition boss_ejected : Physics :=
  mkPhysics []
    (fun h => if Nat.eqb h 1
              then (mkVec (CX + 500) CY, mkVec 0 0)
              else (mkVec CX CY, mkVec 0 0)).

(** The duel session after its first fixed step when that step carries the
    boss out of the arena: the round transition is running. *)
Definition transition_session : Game :=
  react (FixedStep false boss_ejected) (initGame duel 1 zero_rng).

(** A physics report of a duel in which nothing collides: the boss
    (object 1) rests on its starting position, the player at the centre. *)
Definition duel_calm : Physics :=
  mkPhysics []
    (fun h => if Nat.eqb h 1
              then (mkVec (CX + 200) CY, mkVec 0 0)
              else (mkVec CX CY, mkVec 0 0)).

(** A duel after 11 such steps, and the session after a twelfth step that
    carries the boss out of the arena. *)
Definition calm_session : Game :=
  run (repeat duel_calm 11) (initGame duel 1 zero_rng).

Definition laser_reset_session : Game :=
  react (FixedStep false boss_ejected) calm_session.

(** The first round of a duel after [n] steps without a hit. *)
Definition calm (n : Z) (g : Game) : Prop :=
  (gameMode g = duel) /\ (duelTransition g = false) /\ (duelRound g = 1%Z) /\
  (playerAlive g = true) /\ (handle (player g) = 0%nat) /\
  (frameCount g = n) /\ (lastLaserFrame g = 0%Z) /\
  (50 - 1.6 * IZR n <= currentRPM g) /\
  (duelLasers g = []) /\ (duelBombs g = []) /\
  (exists b, (bots g = [b]) /\ (alive b = true) /\ (handle (body b) = 1%nat) /\
             (40 - 0.56 * IZR n <= rpm b <= 90)).

(** An arena match against one bot after its first fixed step, when that
    step carries the bot (object 1) out of the arena and leaves the player
    at the centre. *)
Definition arena_won_session : Game :=
  react (FixedStep false boss_ejected) (initGame arena 1 zero_rng).

(** A strong bot 100 px to the right of the centre, and a session in which
    a stronger bot sits exactly on top of it. *)
Definition chaser : Bot :=
  mkBot (mkBody 1 (bot_label 0) (mkVec (CX + 100) CY) (mkVec 0 0)) 80 true (-999) 0.

Definition chaser_twin : Bot :=
  mkBot (mkBody 2 (bot_label 1) (mkVec (CX + 100) CY) (mkVec 0 0)) 90 true (-999) 0.

Definition twin_session : Game :=
  set_bots [chaser; chaser_twin] (initGame survival 0 zero_rng).

(** * Properties *)

(** ** The pause only writes the phase *)

Lemma togglePause_cases (g : Game) :
  togglePause g = g \/ exists p, togglePause g = set_phase p g.
Proof. unfold togglePause. destruct (phase g); eauto. Qed.

Lemma handlePause_cases (key : string) (g : Game) :
  handlePause key g = g \/ exists p, handlePause key g = set_phase p g.
Proof.
  unfold handlePause. destruct (String.eqb key "Escape"); [|auto].
  destruct (phase g); eauto.
Qed.

Lemma togglePause_inv (P : Game -> Prop) :
  (forall p g, P g -> P (set_phase p g)) -> forall g, P g -> P (togglePause g).
Proof.
  intros HP g H. destruct (togglePause_cases g) as [E | [p E]]; rewrite E; auto.
Qed.

Lemma handlePause_inv (P : Game -> Prop) :
  (forall p g, P g -> P (set_phase p g)) -> forall key g, P g -> P (handlePause key g).
Proof.
  intros HP key g H. destruct (handlePause_cases key g) as [E | [p E]]; rewrite E; auto.
Qed.

Lemma togglePause_field (A : Type) (proj : Game -> A) :
  (forall p g, proj (set_phase p g) = proj g) -> forall g, proj (togglePause g) = proj g.
Proof.
  intros HP g. destruct (togglePause_cases g) as [E | [p E]]; rewrite E; auto.
Qed.

Lemma handlePause_field (A : Type) (proj : Game -> A) :
  (forall p g, proj (set_phase p g) = proj g) ->
  forall key g, proj (handlePause key g) = proj g.
Proof.
  intros HP key g. destruct (handlePause_cases key g) as [E | [p E]]; rewrite E; auto.
Qed.

Lemma set_phase_ok (p : Phase) (g : Game) : session_ok g -> session_ok (set_phase p g).
Proof.
  intros [[Hrng Hp Hz Hrd Hbm] Hb Hd].
  constructor; [constructor|..]; cbn; auto.
Qed.

(** ** Comparisons, [Math.max], [Math.min] *)

Lemma num_lt_true (a b : R) : num_lt a b = true <-> a < b.
Proof. unfold num_lt. destruct (Rlt_dec a b); split; intros; try easy. Qed.

Lemma num_lt_false (a b : R) : num_lt a b = false <-> b <= a.
Proof.
  unfold num_lt. destruct (Rlt_dec a b); split; intros; try easy; lra.
Qed.

Lemma num_le_true (a b : R) : num_le a b = true <-> a <= b.
Proof. unfold num_le. destruct (Rle_dec a b); split; intros; try easy. Qed.

Lemma num_le_false (a b : R) : num_le a b = false <-> b < a.
Proof.
  unfold num_le. destruct (Rle_dec a b); split; intros; try easy; lra.
Qed.

Lemma num_gt_true (a b : R) : num_gt a b = true <-> b < a.
Proof. apply num_lt_true. Qed.

Lemma num_gt_false (a b : R) : num_gt a b = false <-> a <= b.
Proof. apply num_lt_false. Qed.

Lemma num_ge_true (a b : R) : num_ge a b = true <-> b <= a.
Proof. apply num_le_true. Qed.

Lemma num_ge_false (a b : R) : num_ge a b = false <-> a < b.
Proof. apply num_le_false. Qed.

Lemma Rmax0_bounds (x d hi : R) : 0 <= x <= hi -> 0 <= d -> 0 <= Rmax 0 (x - d) <= hi.
Proof.
  intros Hx Hd. unfold Rmax. destruct (Rle_dec 0 (x - d)); lra.
Qed.

Lemma Rmin_cap_bounds (cap x d : R) :
  0 <= x <= cap -> 0 <= d -> 0 <= Rmin cap (x + d) <= cap.
Proof.
  intros Hx Hd. unfold Rmin. destruct (Rle_dec cap (x + d)); lra.
Qed.

(** ** The invariant is kept by the collision handler *)

Lemma momentumBonus_nonneg (g : Game) (r : Roles) : 0 <= momentumBonus g r.
Proof.
  unfold momentumBonus.
  destruct (mode_eqb (gameMode g) duel && label_eqb (label (attacker r)) player_label).
  - pose proof (sqrt_pos (vx (velocity (attacker r)) ^ 2 + vy (velocity (attacker r)) ^ 2)).
    lra.
  - lra.
Qed.

Lemma chainLevel_pos (g : Game) (b : Bot) :
  (0 <= chainHits b)%Z -> (1 <= chainLevel g b)%Z.
Proof.
  intros H. unfold chainLevel.
  destruct (frameCount g - lastHitFrame b <? BOT_CHAIN_WINDOW)%Z; lia.
Qed.

Lemma chainDrain_lower (g : Game) (r : Roles) (hits : Z) :
  (1 <= hits)%Z -> 5 <= chainDrain g r hits.
Proof.
  intros H. unfold chainDrain.
  pose proof (momentumBonus_nonneg g r).
  apply IZR_le in H. lra.
Qed.

Lemma hitBot_ok (g : Game) (r : Roles) (b : Bot) : bot_ok b -> bot_ok (hitBot g r b).
Proof.
  intros [Hr Hc]. unfold bot_ok, hitBot. cbn.
  pose proof (chainLevel_pos g b Hc) as Hl.
  pose proof (chainDrain_lower g r _ Hl) as Hd.
  split.
  - apply Rmax0_bounds; lra.
  - lia.
Qed.

Lemma updateFirst_Forall (P : Bot -> Prop) (p : Bot -> bool) (f : Bot -> Bot) (bs : list Bot) :
  (forall b, P b -> P (f b)) -> Forall P bs -> Forall P (updateFirst p f bs).
Proof.
  intros Hf. induction 1 as [|b rest Hb Hrest IH]; cbn.
  - constructor.
  - destruct (p b); constructor; auto.
Qed.

Lemma updateFirst_length (p : Bot -> bool) (f : Bot -> Bot) (bs : list Bot) :
  List.length (updateFirst p f bs) = List.length bs.
Proof.
  induction bs as [|b rest IH]; cbn; [reflexivity|].
  destruct (p b); cbn; congruence.
Qed.

Lemma playerDrain_nonneg (g : Game) (r : Roles) : 0 <= playerDrain g r.
Proof.
  unfold playerDrain, DUEL_COLLISION_MULT.
  pose proof (Rmax_l 0 (attackerRPM r - defenderRPM r)).
  destruct (isDuelBoss g r); nra.
Qed.

Lemma applyDrain_ok (g : Game) (r : Roles) : session_ok g -> session_ok (applyDrain g r).
Proof.
  intros [[Hrng Hp Hz Hrd Hbm] Hb Hd]. unfold applyDrain.
  destruct (label_eqb (label (defender r)) player_label).
  - constructor; [constructor|..]; cbn; auto.
    apply Rmax0_bounds; auto using playerDrain_nonneg.
  - constructor; [constructor|..]; cbn; auto.
    + apply updateFirst_Forall; auto using hitBot_ok.
    + rewrite updateFirst_length. exact Hd.
Qed.

Lemma collidePair_ok (g : Game) (pr : Body * Body) :
  session_ok g -> session_ok (fst (collidePair g pr)).
Proof.
  intros H. unfold collidePair. destruct pr as [bodyA bodyB].
  destruct (is_wall bodyA || is_wall bodyB); [exact H|].
  destruct (selectRoles g bodyA bodyB); cbn; auto using applyDrain_ok.
Qed.

Lemma collisionStart_ok (prs : list (Body * Body)) (g : Game) :
  session_ok g -> session_ok (fst (collisionStart g prs)).
Proof.
  revert g. induction prs as [|pr rest IH]; intros g H; cbn; [exact H|].
  pose proof (collidePair_ok g pr H) as H1.
  destruct (collidePair g pr) as [g1 fs1]. cbn in H1.
  specialize (IH g1 H1).
  destruct (collisionStart g1 rest) as [g2 fs2]. exact IH.
Qed.

(** ** The invariant is kept by the keyboard handlers and holds at the start *)

Lemma spinGain_pos (g : Game) : 0 < spinGain g.
Proof.
  unfold spinGain, RPM_GAIN_PER_PRESS, OUTSIDE_GAIN_MULT.
  destruct (num_gt (distToSafeZone g (player g)) (safeZone g)); lra.
Qed.

Lemma onKeyDown_ok (key : string) (g : Game) : session_ok g -> session_ok (onKeyDown key g).
Proof.
  intros H. unfold onKeyDown.
  destruct (duelTransition g); [exact H|].
  set (k := toLowerCase key).
  assert (H1 : session_ok
            (if includes "wasd" k && (String.length k =? 1)%nat
             then set_keys (keys_add k (keys g)) g else g)).
  { destruct (includes "wasd" k && (String.length k =? 1)%nat); [|exact H].
    destruct H as [[Hrng Hp Hz Hrd Hbm] Hb Hd].
    constructor; [constructor|..]; cbn; auto. }
  set (g1 := if includes "wasd" k && (String.length k =? 1)%nat
             then set_keys (keys_add k (keys g)) g else g) in *.
  destruct ((String.eqb k "j" || String.eqb k "k") && playerAlive g1); [|exact H1].
  destruct (negb (String.eqb (lastSpinKey g1) k)); [|exact H1].
  pose proof (spinGain_pos g1) as Hg.
  destruct H1 as [[Hrng Hp Hz Hrd Hbm] Hb Hd].
  constructor; [constructor|..]; cbn; auto.
  apply Rmin_cap_bounds; lra.
Qed.

Lemma onKeyUp_ok (key : string) (g : Game) : session_ok g -> session_ok (onKeyUp key g).
Proof.
  intros [[Hrng Hp Hz Hrd Hbm] Hb Hd]. unfold onKeyUp.
  constructor; [constructor|..]; cbn; auto.
Qed.

Lemma arenaBots_spec (botCount count i : nat) (g : Game) :
  fair (rng g) ->
  Forall bot_ok (fst (arenaBots botCount i count g)) /\
  rng (snd (arenaBots botCount i count g)) = rng g /\
  currentRPM (snd (arenaBots botCount i count g)) = currentRPM g /\
  safeZone (snd (arenaBots botCount i count g)) = safeZone g /\
  duelRound (snd (arenaBots botCount i count g)) = duelRound g /\
  duelBossMaxRPM (snd (arenaBots botCount i count g)) = duelBossMaxRPM g /\
  gameMode (snd (arenaBots botCount i count g)) = gameMode g.
Proof.
  revert i g. induction count as [|count IH]; intros i g Hf; cbn.
  - repeat split; auto.
  - set (g2 := set_rngUsed (S (S (rngUsed g))) (set_rngUsed (S (rngUsed g)) g)).
    assert (Hf2 : fair (rng g2)) by exact Hf.
    specialize (IH (S i) g2 Hf2).
    change (set_rngUsed (S (rngUsed (set_rngUsed (S (rngUsed g)) g)))
              (set_rngUsed (S (rngUsed g)) g)) with g2.
    destruct (arenaBots botCount (S i) count g2) as [rest g3]. cbn in *.
    destruct IH as (Hb & Hr & Hc & Hs & Hd & Hm & Hg).
    repeat split; auto.
    constructor; auto.
    unfold bot_ok. cbn. pose proof (Hf (S (rngUsed g))). split; [lra|lia].
Qed.

Lemma initGame_ok (mode : GameMode) (botCount : nat) (rnd : nat -> R) :
  fair rnd -> session_ok (initGame mode botCount rnd).
Proof.
  intros Hf. unfold initGame.
  set (g0 := mkGame _ _ _ _ _ _ _ _ _ _ _ _ _ _ _ _ _ _ _ _ _ _ _ _ _ _ _ _ _ _).
  assert (Hroster : forall roster g1,
    Forall bot_ok roster -> rng g1 = rnd -> currentRPM g1 = STARTING_RPM ->
    safeZone g1 = SAFE_ZONE_INITIAL -> duelRound g1 = 1%Z ->
    duelBossMaxRPM g1 = BOSS_RPM -> gameMode g1 = mode ->
    (mode = duel -> List.length roster = 1%nat) ->
    session_ok
      (let (r1, g2) := random g1 in
       let (r2, g3) := random g2 in
       set_szTargetY (CY + (r2 - 0.5) * 100)
         (set_szTargetX (CX + (r1 - 0.5) * 100) (set_bots roster g3)))).
  { intros roster g1 Hb Hr Hc Hs Hd Hm Hg Hl. cbn.
    constructor; [constructor|..]; cbn; auto.
    - rewrite Hr. exact Hf.
    - rewrite Hc. unfold STARTING_RPM. lra.
    - rewrite Hs. unfold SAFE_ZONE_MIN, SAFE_ZONE_INITIAL. lra.
    - rewrite Hd. lia.
    - rewrite Hd, Hm. reflexivity.
    - rewrite Hg. exact Hl. }
  destruct mode.
  - pose proof (arenaBots_spec botCount botCount 0 g0 Hf) as Ha.
    destruct (arenaBots botCount 0 botCount g0) as [roster g1]. cbn in Ha.
    destruct Ha as (Hb & Hr & Hc & Hs & Hd & Hm & Hg).
    apply Hroster; auto. discriminate.
  - apply Hroster; auto. discriminate.
  - apply Hroster; auto.
    constructor; [|constructor]. unfold bot_ok, bossBot, BOSS_RPM. cbn. split; [lra|lia].
Qed.

(** ** The invariant is kept by a fixed step *)

Lemma engineUpdate_ok (ph : Physics) (g : Game) : session_ok g -> session_ok (engineUpdate ph g).
Proof.
  intros H. unfold engineUpdate.
  pose proof (collisionStart_ok (pairs ph) g H) as [[Hrng Hp Hz Hrd Hbm] Hb Hd].
  constructor; [constructor|..]; cbn; auto.
  - apply Forall_map. eapply Forall_impl; [|exact Hb]. intros b Hok. exact Hok.
  - rewrite length_map. exact Hd.
Qed.

Lemma spawnSurvivalBot_ok (g : Game) : session_ok g -> session_ok (spawnSurvivalBot g).
Proof.
  intros H. unfold spawnSurvivalBot.
  destruct (mode_eqb (gameMode g) survival) eqn:Hm; cbn; [|exact H].
  destruct ((nextBotSpawnFrame g <=? frameCount g)%Z && playerAlive g); [|exact H].
  destruct H as [[Hrng Hp Hz Hrd Hbm] Hb Hd].
  constructor; [constructor|..]; cbn; auto.
  - apply Forall_app. split; [exact Hb|].
    constructor; [|constructor]. unfold bot_ok. cbn.
    pose proof (Hrng (S (rngUsed g))). split; [lra|lia].
  - intros Hduel. rewrite Hduel in Hm. discriminate.
Qed.

Lemma playerDecay_pos (g : Game) : 0 < playerDecay g.
Proof.
  unfold playerDecay, RPM_DECAY_PER_FRAME, OUTSIDE_DECAY_MULT.
  destruct (num_gt (distToSafeZone g (player g)) (safeZone g)); lra.
Qed.

Lemma playerStep_ok (g : Game) : session_ok g -> session_ok (playerStep g).
Proof.
  intros H. unfold playerStep.
  destruct (playerAlive g); [|exact H].
  pose proof (playerDecay_pos g) as Hdec.
  destruct H as [[Hrng Hp Hz Hrd Hbm] Hb Hd].
  assert (Hnew : 0 <= Rmax 0 (currentRPM g - playerDecay g) <= 100)
    by (apply Rmax0_bounds; lra).
  match goal with |- session_ok (if ?c then _ else _) => destruct c end;
    (constructor; [constructor|..]); cbn; auto.
Qed.

Lemma shrinkRate_pos (g : Game) : 0 < shrinkRate g.
Proof.
  unfold shrinkRate, DUEL_SAFE_ZONE_SHRINK, SURVIVAL_SAFE_ZONE_SHRINK, SAFE_ZONE_SHRINK_PER_SEC.
  destruct (gameMode g); lra.
Qed.

Lemma safeZoneShrink_bounds (g : Game) :
  SAFE_ZONE_MIN <= safeZone g ->
  SAFE_ZONE_MIN <= safeZone (safeZoneShrink g) <= safeZone g.
Proof.
  intros H. unfold safeZoneShrink. pose proof (shrinkRate_pos g) as Hs.
  destruct ((Z.rem (frameCount g) 60 =? 0)%Z && num_gt (safeZone g) SAFE_ZONE_MIN);
    cbn; [|lra].
  unfold Rmax. destruct (Rle_dec SAFE_ZONE_MIN (safeZone g - shrinkRate g)); lra.
Qed.

Lemma safeZoneShrink_ok (g : Game) : session_ok g -> session_ok (safeZoneShrink g).
Proof.
  intros H. pose proof (safeZoneShrink_bounds g) as Hsz. revert Hsz.
  unfold safeZoneShrink.
  destruct ((Z.rem (frameCount g) 60 =? 0)%Z && num_gt (safeZone g) SAFE_ZONE_MIN);
    [|intros _; exact H].
  destruct H as [[Hrng Hp Hz Hrd Hbm] Hb Hd]. cbn. intros Hsz.
  constructor; [constructor|..]; cbn; auto. lra.
Qed.

Lemma safeZoneDrift_ok (g : Game) : session_ok g -> session_ok (safeZoneDrift g).
Proof.
  intros [[Hrng Hp Hz Hrd Hbm] Hb Hd]. unfold safeZoneDrift.
  match goal with |- session_ok (if ?c then _ else _) => destruct c end;
    cbn; (constructor; [constructor|..]); cbn; auto.
Qed.

Lemma safeZoneStep_ok (g : Game) : session_ok g -> session_ok (safeZoneStep g).
Proof. intros H. apply safeZoneDrift_ok, safeZoneShrink_ok, H. Qed.

Lemma set_rngUsed_same (g : Game) : set_rngUsed (rngUsed g) g = g.
Proof. destruct g. reflexivity. Qed.

Lemma botSpin_spec (g : Game) (bOutside : bool) (r : R) :
  0 <= r <= 90 ->
  0 <= fst (botSpin g bOutside r) <= 90 /\
  snd (botSpin g bOutside r) = set_rngUsed (S (rngUsed g)) g.
Proof.
  intros Hr. unfold botSpin, random.
  unfold DUEL_BOSS_SPIN_GAIN, BOT_SPIN_GAIN, OUTSIDE_GAIN_MULT.
  match goal with |- context [num_lt ?a ?b] => destruct (num_lt a b) end; cbn;
    (split; [|reflexivity]); [|lra].
  apply Rmin_cap_bounds; [lra|].
  destruct (mode_eqb (gameMode g) duel), bOutside; lra.
Qed.

Lemma botEmergencySpin_spec (g : Game) (bOutside : bool) (r : R) :
  0 <= r <= 90 ->
  0 <= fst (botEmergencySpin g bOutside r) <= 90 /\
  exists n, snd (botEmergencySpin g bOutside r) = set_rngUsed n g.
Proof.
  intros Hr. unfold botEmergencySpin, random.
  unfold BOT_EMERGENCY_SPIN_GAIN, OUTSIDE_GAIN_MULT.
  destruct (negb (mode_eqb (gameMode g) duel) && num_lt r SWEET_LOW); cbn.
  - match goal with |- context [num_lt ?a ?b] => destruct (num_lt a b) end; cbn;
      (split; [|eexists; reflexivity]); [|lra].
    apply Rmin_cap_bounds; [lra|]. destruct bOutside; lra.
  - split; [lra|]. exists (rngUsed g). symmetry. apply set_rngUsed_same.
Qed.

Lemma botRegen_bounds (g : Game) (bOutside : bool) (r : R) :
  0 <= r <= 90 -> 0 <= botRegen g bOutside r <= 90.
Proof.
  intros Hr. unfold botRegen, BOT_PASSIVE_REGEN.
  destruct (negb bOutside && negb (mode_eqb (gameMode g) duel)); [|lra].
  apply Rmin_cap_bounds; lra.
Qed.

Lemma botFloor_bounds (g : Game) (bOutside : bool) (r : R) :
  0 <= r <= 90 -> 0 <= botFloor g bOutside r <= 90.
Proof.
  intros Hr. unfold botFloor, BOT_RPM_FLOOR_INSIDE.
  match goal with |- context [if ?c then _ else _] => destruct c end; lra.
Qed.

Lemma botDecay_pos (bOutside : bool) : 0 < botDecay bOutside.
Proof.
  unfold botDecay, RPM_DECAY_PER_FRAME, OUTSIDE_DECAY_MULT. destruct bOutside; lra.
Qed.

Lemma botHousekeeping_spec (g : Game) (bot : Bot) :
  bot_ok bot ->
  bot_ok (snd (botHousekeeping g bot)) /\
  exists n, fst (botHousekeeping g bot) = set_rngUsed n g.
Proof.
  intros [Hr Hc]. unfold botHousekeeping.
  set (bOutside := num_gt (distToSafeZone g (body bot)) (safeZone g)).
  pose proof (botDecay_pos bOutside) as Hdec.
  assert (H1 : 0 <= Rmax 0 (rpm bot - botDecay bOutside) <= 90)
    by (apply Rmax0_bounds; lra).
  pose proof (botRegen_bounds g bOutside _ H1) as H2.
  pose proof (botFloor_bounds g bOutside _ H2) as H3.
  pose proof (botSpin_spec g bOutside _ H3) as [H4 Hg1].
  destruct (botSpin g bOutside _) as [r4 g1]. cbn in H4, Hg1.
  pose proof (botEmergencySpin_spec g1 bOutside _ H4) as [H5 [n Hg2]].
  destruct (botEmergencySpin g1 bOutside r4) as [r5 g2]. cbn in H5, Hg2. cbn.
  split.
  - split; [exact H5|]. cbn. unfold botChainReset.
    destruct (BOT_CHAIN_WINDOW <? frameCount g - lastHitFrame bot)%Z; lia.
  - exists n. rewrite Hg2, Hg1. reflexivity.
Qed.

Lemma globals_ok_rngUsed (n : nat) (g : Game) : globals_ok g -> globals_ok (set_rngUsed n g).
Proof. intros [Hrng Hp Hz Hrd Hbm]. constructor; cbn; auto. Qed.

Lemma eliminateBot_spec (g : Game) (bot : Bot) :
  globals_ok g -> bot_ok bot ->
  globals_ok (fst (eliminateBot g bot)) /\
  bot_ok (snd (eliminateBot g bot)) /\
  gameMode (fst (eliminateBot g bot)) = gameMode g /\
  (zone_kept g (fst (eliminateBot g bot)) \/ round_reset g (fst (eliminateBot g bot))).
Proof.
  intros [Hrng Hp Hz Hrd Hbm] [Hr Hc]. unfold eliminateBot.
  destruct (mode_eqb (gameMode g) duel) eqn:Hm; cbn; rewrite Hm.
  - destruct (duelRound g <? 3)%Z eqn:Hlt; cbn.
    + apply Z.ltb_lt in Hlt.
      assert (Hnew : 70 <= BOSS_RPM + IZR (duelRound g + 1) * 15 <= 85).
      { unfold BOSS_RPM. rewrite plus_IZR.
        assert (Hlo : 1 <= IZR (duelRound g)) by (apply IZR_le; lia).
        assert (Hhi : IZR (duelRound g) <= 2) by (apply IZR_le; lia).
        lra. }
      split; [|split; [|split]].
      * constructor; cbn; auto.
        -- unfold STARTING_RPM. lra.
        -- unfold SAFE_ZONE_MIN, SAFE_ZONE_INITIAL. lra.
        -- lia.
        -- destruct (duelRound g + 1 =? 1)%Z eqn:He; [|reflexivity].
           apply Z.eqb_eq in He. lia.
      * split; cbn; [lra|exact Hc].
      * reflexivity.
      * right. unfold round_reset. cbn.
        destruct (gameMode g); try discriminate. auto.
    + split; [|split; [|split]].
      * constructor; cbn; auto.
      * split; cbn; auto.
      * reflexivity.
      * left. unfold zone_kept. cbn. auto.
  - split; [|split; [|split]].
    + constructor; cbn; auto.
    + split; cbn; auto.
    + reflexivity.
    + left. unfold zone_kept. cbn. auto.
Qed.

Lemma zone_kept_refl (g : Game) : zone_kept g g.
Proof. unfold zone_kept. auto. Qed.

Lemma zone_kept_trans (g1 g2 g3 : Game) :
  zone_kept g1 g2 -> zone_kept g2 g3 -> zone_kept g1 g3.
Proof. unfold zone_kept. intros (A & B & C) (D & E & F). repeat split; congruence. Qed.

Lemma botStep_spec (g : Game) (bot : Bot) :
  globals_ok g -> bot_ok bot ->
  globals_ok (fst (fst (botStep g bot))) /\
  bot_ok (snd (fst (botStep g bot))) /\
  gameMode (fst (fst (botStep g bot))) = gameMode g /\
  (zone_kept g (fst (fst (botStep g bot))) \/ round_reset g (fst (fst (botStep g bot)))).
Proof.
  intros Hg Hb. unfold botStep.
  destruct (negb (alive bot)); cbn.
  - auto using zone_kept_refl.
  - match goal with |- context [if ?c then _ else _] => destruct c end.
    + pose proof (eliminateBot_spec g bot Hg Hb) as H.
      destruct (eliminateBot g bot) as [g1 bot1]. exact H.
    + pose proof (botHousekeeping_spec g bot Hb) as [H1 [n H2]].
      destruct (botHousekeeping g bot) as [g1 bot1]. cbn in *. subst g1.
      split; [apply globals_ok_rngUsed, Hg|]. split; [exact H1|].
      split; [reflexivity|]. left. unfold zone_kept. cbn. auto.
Qed.

Lemma botLoop_spec (todo : list Bot) (g : Game) :
  globals_ok g -> Forall bot_ok todo ->
  globals_ok (fst (fst (botLoop g todo))) /\
  Forall bot_ok (snd (fst (botLoop g todo))) /\
  List.length (snd (fst (botLoop g todo))) = List.length todo /\
  gameMode (fst (fst (botLoop g todo))) = gameMode g /\
  (gameMode g <> duel -> zone_kept g (fst (fst (botLoop g todo)))).
Proof.
  revert g. induction todo as [|bot rest IH]; intros g Hg Hall; cbn.
  - auto using zone_kept_refl.
  - inversion Hall as [|? ? Hb Hrest]; subst.
    pose proof (botStep_spec g bot Hg Hb) as (Hg1 & Hb1 & Hm1 & Hz1).
    destruct (botStep g bot) as [[g1 bot1] counted]. cbn in *.
    specialize (IH g1 Hg1 Hrest) as (Hg2 & Hb2 & Hl2 & Hm2 & Hz2).
    destruct (botLoop g1 rest) as [[g2 rest1] n]. cbn in *.
    split; [exact Hg2|]. split; [constructor; assumption|].
    split; [congruence|]. split; [congruence|].
    intros Hnd. destruct Hz1 as [Hk | Hr].
    + apply (zone_kept_trans g g1 g2); [exact Hk|]. apply Hz2. congruence.
    + destruct Hr as [Hduel _]. contradiction.
Qed.

Lemma botAI_ok (g : Game) : session_ok g -> session_ok (fst (botAI g)).
Proof.
  intros [Hg Hb Hd]. unfold botAI.
  pose proof (botLoop_spec (bots g) g Hg Hb) as (Hg1 & Hb1 & Hl1 & Hm1 & _).
  destruct (botLoop g (bots g)) as [[g1 bs] n]. cbn in *.
  destruct Hg1 as [Hrng Hp Hz Hrd Hbm].
  constructor; [constructor|..]; cbn; auto.
  rewrite Hm1, Hl1. exact Hd.
Qed.

Lemma botAI_zone (g : Game) :
  session_ok g ->
  zone_kept g (fst (botAI g)) \/ round_reset g (fst (botAI g)).
Proof.
  intros [Hg Hb Hd]. unfold botAI.
  destruct (mode_eqb (gameMode g) duel) eqn:Hm.
  - assert (Hduel : gameMode g = duel) by (destruct (gameMode g); try discriminate; reflexivity).
    specialize (Hd Hduel).
    destruct (bots g) as [|boss [|b2 rest]]; try discriminate.
    inversion Hb as [|? ? Hboss _]; subst.
    pose proof (botStep_spec g boss Hg Hboss) as (_ & _ & _ & Hz).
    cbn. destruct (botStep g boss) as [[g1 boss1] counted]. cbn in *.
    destruct Hz as [Hk | Hr]; [left | right].
    + unfold zone_kept in *. cbn. exact Hk.
    + unfold round_reset in *. cbn. exact Hr.
  - assert (Hnd : gameMode g <> duel) by (intros E; rewrite E in Hm; discriminate).
    pose proof (botLoop_spec (bots g) g Hg Hb) as (_ & _ & _ & _ & Hz).
    specialize (Hz Hnd).
    destruct (botLoop g (bots g)) as [[g1 bs] n]. cbn in *.
    left. unfold zone_kept in *. cbn. exact Hz.
Qed.

Lemma struck_refl (g : Game) : 0 <= currentRPM g <= 100 -> struck g g.
Proof.
  intros H. exists (currentRPM g), (lastProjectileHitFrame g). split; [exact H|].
  destruct g. reflexivity.
Qed.

Lemma struck_trans (g1 g2 g3 : Game) : struck g1 g2 -> struck g2 g3 -> struck g1 g3.
Proof.
  intros (r1 & f1 & H1 & E1) (r2 & f2 & H2 & E2). exists r2, f2. split; [exact H2|].
  subst. reflexivity.
Qed.

Lemma struck_rpm (g g' : Game) : struck g g' -> 0 <= currentRPM g' <= 100.
Proof. intros (r & f & H & E). subst. exact H. Qed.

Lemma projectileHit_struck (dmg : R) (g : Game) :
  0 <= currentRPM g <= 100 -> 0 <= dmg -> struck g (projectileHit dmg g).
Proof.
  intros Hp Hd. unfold projectileHit.
  destruct (negb (invulnerable g)); [|apply struck_refl, Hp].
  exists (Rmax 0 (currentRPM g - dmg)), (frameCount g).
  split; [apply Rmax0_bounds; assumption|reflexivity].
Qed.

Lemma laserStep_struck (g : Game) (l : Laser) :
  0 <= currentRPM g <= 100 -> struck g (fst (laserStep g l)).
Proof.
  intros Hp. unfold laserStep.
  repeat match goal with |- context [if ?c then _ else _] => destruct c end; cbn;
    try (apply struck_refl, Hp).
  apply projectileHit_struck; [exact Hp|]. unfold DUEL_LASER_DMG. lra.
Qed.

Lemma bombStep_struck (g : Game) (b : Bomb) :
  0 <= currentRPM g <= 100 -> struck g (fst (bombStep g b)).
Proof.
  intros Hp. unfold bombStep.
  destruct (negb (exploded b)); cbn.
  - destruct (timer b - 1 <=? 0)%Z; cbn; [|apply struck_refl, Hp].
    match goal with |- context [num_lt ?a ?b] =>
      destruct (num_lt a b) eqn:Hlt; [apply num_lt_true in Hlt|apply struck_refl, Hp]
    end.
    apply projectileHit_struck; [exact Hp|].
    unfold DUEL_BOMB_DMG, DUEL_BOMB_EXPLODE_R in *. lra.
  - destruct (explodeTimer b - 1 <=? 0)%Z; cbn; apply struck_refl, Hp.
Qed.

Lemma lasersLoop_struck (ls : list Laser) (g : Game) :
  0 <= currentRPM g <= 100 -> struck g (fst (lasersLoop g ls)).
Proof.
  intros Hp. induction ls as [|l rest IH]; cbn; [apply struck_refl, Hp|].
  destruct (lasersLoop g rest) as [g1 rest1]. cbn in IH.
  pose proof (laserStep_struck g1 l (struck_rpm _ _ IH)) as H.
  destruct (laserStep g1 l) as [g2 ol]. cbn in *.
  eapply struck_trans; eassumption.
Qed.

Lemma bombsLoop_struck (bs : list Bomb) (g : Game) :
  0 <= currentRPM g <= 100 -> struck g (fst (bombsLoop g bs)).
Proof.
  intros Hp. induction bs as [|b rest IH]; cbn; [apply struck_refl, Hp|].
  destruct (bombsLoop g rest) as [g1 rest1]. cbn in IH.
  pose proof (bombStep_struck g1 b (struck_rpm _ _ IH)) as H.
  destruct (bombStep g1 b) as [g2 ob]. cbn in *.
  eapply struck_trans; eassumption.
Qed.

(** What the boss weapons leave alone. *)
Lemma bossWeapons_frame (g : Game) :
  0 <= currentRPM g <= 100 ->
  0 <= currentRPM (bossWeapons g) <= 100 /\
  rng (bossWeapons g) = rng g /\
  bots (bossWeapons g) = bots g /\
  gameMode (bossWeapons g) = gameMode g /\
  duelBossMaxRPM (bossWeapons g) = duelBossMaxRPM g /\
  zone_kept g (bossWeapons g).
Proof.
  intros Hp. unfold bossWeapons.
  destruct (mode_eqb (gameMode g) duel && playerAlive g);
    [|unfold zone_kept; auto 10].
  set (g1 := match bots g with
             | boss :: _ => if alive boss then throwBomb (fireLaser g boss) boss else g
             | [] => g
             end).
  assert (H1 : currentRPM g1 = currentRPM g /\ rng g1 = rng g /\ bots g1 = bots g /\
               gameMode g1 = gameMode g /\ duelBossMaxRPM g1 = duelBossMaxRPM g /\
               zone_kept g g1).
  { subst g1. destruct (bots g) as [|boss rest] eqn:Hbots;
      [unfold zone_kept; auto 10|].
    destruct (alive boss); [|unfold zone_kept; auto 10].
    unfold throwBomb, fireLaser, zone_kept.
    repeat match goal with |- context [if ?c then _ else _] => destruct c end;
      cbn; auto 10. }
  destruct H1 as (E1 & E2 & E3 & E4 & E5 & E6).
  assert (Hp1 : 0 <= currentRPM g1 <= 100) by (rewrite E1; exact Hp).
  pose proof (lasersLoop_struck (duelLasers g1) g1 Hp1) as (r2 & f2 & Hr2 & Eg2).
  destruct (lasersLoop g1 (duelLasers g1)) as [g2 ls]. cbn in Eg2. subst g2.
  match goal with |- context [bombsLoop ?g3 ?bs] =>
    pose proof (bombsLoop_struck bs g3 Hr2) as (r4 & f4 & Hr4 & Eg4);
    destruct (bombsLoop g3 bs) as [g4 bs4]
  end.
  cbn in Eg4. subst g4. unfold zone_kept in *. cbn. auto 10.
Qed.

Lemma bossWeapons_ok (g : Game) : session_ok g -> session_ok (bossWeapons g).
Proof.
  intros [[Hrng Hp Hz Hrd Hbm] Hb Hd].
  pose proof (bossWeapons_frame g Hp) as (H1 & H2 & H3 & H4 & H5 & H6 & H7 & H8).
  constructor; [constructor|..].
  - rewrite H2. exact Hrng.
  - exact H1.
  - rewrite H6. exact Hz.
  - rewrite H7. exact Hrd.
  - rewrite H7, H5. exact Hbm.
  - rewrite H3. exact Hb.
  - rewrite H4, H3. exact Hd.
Qed.

Lemma updateAliveCount_ok (n : Z) (g : Game) : session_ok g -> session_ok (updateAliveCount n g).
Proof.
  intros H. unfold updateAliveCount.
  destruct (phase g); try exact H.
  destruct H as [[Hrng Hp Hz Hrd Hbm] Hb Hd].
  repeat match goal with |- context [if ?c then _ else _] => destruct c end;
    (constructor; [constructor|..]); cbn; auto.
Qed.

Lemma fixedStep_ok (isGameOver : bool) (ph : Physics) (g : Game) :
  session_ok g -> session_ok (fixedStep isGameOver ph g).
Proof.
  intros H. unfold fixedStep.
  destruct isGameOver; [exact H|].
  destruct (duelTransition g).
  - destruct H as [[Hrng Hp Hz Hrd Hbm] Hb Hd].
    match goal with |- context [if ?c then _ else _] => destruct c end;
      (constructor; [constructor|..]); cbn; auto.
  - set (g1 := set_frameCount (frameCount g + 1)%Z g).
    assert (H1 : session_ok g1).
    { destruct H as [[Hrng Hp Hz Hrd Hbm] Hb Hd].
      constructor; [constructor|..]; cbn; auto. }
    pose proof (safeZoneStep_ok _ (playerStep_ok _
                  (spawnSurvivalBot_ok _ (engineUpdate_ok ph g1 H1)))) as H5.
    pose proof (botAI_ok _ H5) as H6.
    destruct (botAI _) as [g6 aliveCount]. cbn in H6.
    apply updateAliveCount_ok, bossWeapons_ok, H6.
Qed.

(** Every reachable session satisfies the invariant. *)
Lemma reachable_ok (g : Game) : reachable g -> session_ok g.
Proof.
  induction 1 as [mode botCount rnd Hf | g e Hr IH].
  - apply initGame_ok, Hf.
  - destruct e as [key | key | isGameOver ph | ]; cbn [react].
    + apply (handlePause_inv session_ok set_phase_ok), onKeyDown_ok, IH.
    + apply onKeyUp_ok, IH.
    + apply fixedStep_ok, IH.
    + apply (togglePause_inv session_ok set_phase_ok), IH.
Qed.

Lemma fair_zero_rng : fair zero_rng.
Proof. intros n. unfold zero_rng. lra. Qed.

(** ** RPM ranges *)

(** C2: in every reachable session, hence at every tick, the RPM of the
    player and of every bot lies in [0, 100]; the invariant is kept by every
    handler that writes an RPM (spin gain, decay, combat drain, projectile
    damage, bot regeneration and floor, spawn, duel round reset). *)
Theorem rpm_in_range (g : Game) :
  reachable g ->
  0 <= currentRPM g <= 100 /\ Forall (fun b => 0 <= rpm b <= 100) (bots g).
Proof.
  intros Hr. destruct (reachable_ok g Hr) as [[_ Hp _ _ _] Hb _].
  split; [exact Hp|].
  eapply Forall_impl; [|exact Hb].
  intros b [Hb1 _]. lra.
Qed.

Lemma rpm_in_range_witness :
  0 <= currentRPM (react (KeyDown "j") (initGame arena 2 zero_rng)) <= 100 /\
  Forall (fun b => 0 <= rpm b <= 100)
    (bots (react (KeyDown "j") (initGame arena 2 zero_rng))).
Proof.
  apply rpm_in_range. apply reach_event. apply reach_init. exact fair_zero_rng.
Defined.

Lemma arenaBots_spawn_rpm (botCount count i : nat) (g : Game) :
  fair (rng g) ->
  Forall (fun b => 50 <= rpm b <= 70) (fst (arenaBots botCount i count g)).
Proof.
  revert i g. induction count as [|count IH]; intros i g Hf; cbn.
  - constructor.
  - set (g2 := set_rngUsed (S (S (rngUsed g))) (set_rngUsed (S (rngUsed g)) g)).
    assert (Hf2 : fair (rng g2)) by exact Hf.
    specialize (IH (S i) g2 Hf2).
    change (set_rngUsed (S (rngUsed (set_rngUsed (S (rngUsed g)) g)))
              (set_rngUsed (S (rngUsed g)) g)) with g2.
    destruct (arenaBots botCount (S i) count g2) as [rest g3]. cbn in *.
    constructor; [|exact IH]. cbn. pose proof (Hf (S (rngUsed g))). lra.
Qed.

Lemma initGame_spawn_rpm (mode : GameMode) (botCount : nat) (rnd : nat -> R) :
  fair rnd -> Forall (fun b => rpm b <= 70) (bots (initGame mode botCount rnd)).
Proof.
  intros Hf. unfold initGame.
  set (g0 := mkGame _ _ _ _ _ _ _ _ _ _ _ _ _ _ _ _ _ _ _ _ _ _ _ _ _ _ _ _ _ _).
  destruct mode.
  - pose proof (arenaBots_spawn_rpm botCount botCount 0 g0 Hf) as Ha.
    destruct (arenaBots botCount 0 botCount g0) as [roster g1]. cbn in *.
    eapply Forall_impl; [|exact Ha]. intros b Hb. cbn in Hb. lra.
  - cbn. constructor.
  - cbn. constructor; [|constructor]. unfold bossBot, newBot, BOSS_RPM. cbn. lra.
Qed.

Lemma survival_spawn_rpm (g : Game) :
  fair (rng g) -> Forall (fun b => rpm b <= 70) (bots g) ->
  Forall (fun b => rpm b <= 70) (bots (spawnSurvivalBot g)).
Proof.
  intros Hf Hb. unfold spawnSurvivalBot.
  match goal with |- context [if ?c then _ else _] => destruct c end; [|exact Hb].
  cbn. apply Forall_app. split; [exact Hb|].
  constructor; [|constructor]. unfold newBot. cbn.
  pose proof (Hf (S (rngUsed g))). lra.
Qed.

Lemma duelRoundReset_rpm (g : Game) (bot : Bot) :
  (1 <= duelRound g < 3)%Z ->
  70 <= rpm (snd (duelRoundReset g bot)) <= 85.
Proof.
  intros Hrd. unfold duelRoundReset, BOSS_RPM. cbn. rewrite plus_IZR.
  assert (Hlo : 1 <= IZR (duelRound g)) by (apply IZR_le; lia).
  assert (Hhi : IZR (duelRound g) <= 2) by (apply IZR_le; lia).
  lra.
Qed.

(** C10: the RPM of a bot, the duel boss included, never exceeds 90: it
    lies in [0, 90] in every reachable session.  Bots are spawned with at
    most 70, a duel round reset gives the boss at most 85, and the three
    gains (regular spin, emergency spin, passive regeneration) stop at 90. *)
Theorem bot_rpm_at_most_90 (g : Game) :
  reachable g ->
  Forall (fun b => 0 <= rpm b <= 90) (bots g) /\
  (forall mode botCount rnd, fair rnd ->
     Forall (fun b => rpm b <= 70) (bots (initGame mode botCount rnd))) /\
  (Forall (fun b => rpm b <= 70) (bots g) ->
     Forall (fun b => rpm b <= 70) (bots (spawnSurvivalBot g))) /\
  (forall bot, (duelRound g < 3)%Z -> rpm (snd (duelRoundReset g bot)) <= 85) /\
  (forall bOutside r, 0 <= r <= 90 ->
     botRegen g bOutside r <= 90 /\
     fst (botSpin g bOutside r) <= 90 /\
     fst (botEmergencySpin g bOutside r) <= 90).
Proof.
  intros Hr. destruct (reachable_ok g Hr) as [[Hrng _ _ Hrd _] Hb _].
  split; [|split; [|split; [|split]]].
  - eapply Forall_impl; [|exact Hb]. intros b [Hb1 _]. exact Hb1.
  - intros mode botCount rnd Hf. apply initGame_spawn_rpm, Hf.
  - apply survival_spawn_rpm, Hrng.
  - intros bot Hlt. apply duelRoundReset_rpm. lia.
  - intros bOutside r Hr90.
    pose proof (botRegen_bounds g bOutside r Hr90).
    pose proof (botSpin_spec g bOutside r Hr90) as [? _].
    pose proof (botEmergencySpin_spec g bOutside r Hr90) as [? _].
    repeat split; lra.
Qed.

Lemma bot_rpm_at_most_90_witness :
  Forall (fun b => 0 <= rpm b <= 90) (bots (initGame duel 1 zero_rng)).
Proof.
  exact (proj1 (bot_rpm_at_most_90 (initGame duel 1 zero_rng)
                  (reach_init duel 1 zero_rng fair_zero_rng))).
Defined.

(** ** The safe zone *)

Lemma applyDrain_frame (g : Game) (r : Roles) :
  gameMode (applyDrain g r) = gameMode g /\ zone_kept g (applyDrain g r).
Proof.
  unfold applyDrain, zone_kept.
  destruct (label_eqb (label (defender r)) player_label); cbn; auto.
Qed.

Lemma collisionStart_frame (prs : list (Body * Body)) (g : Game) :
  gameMode (fst (collisionStart g prs)) = gameMode g /\
  zone_kept g (fst (collisionStart g prs)).
Proof.
  revert g. induction prs as [|pr rest IH]; intros g; cbn.
  - auto using zone_kept_refl.
  - assert (H1 : gameMode (fst (collidePair g pr)) = gameMode g /\
                 zone_kept g (fst (collidePair g pr))).
    { unfold collidePair. destruct pr as [bodyA bodyB].
      destruct (is_wall bodyA || is_wall bodyB); cbn; [auto using zone_kept_refl|].
      destruct (selectRoles g bodyA bodyB); cbn;
        [apply applyDrain_frame | auto using zone_kept_refl]. }
    destruct (collidePair g pr) as [g1 fs1]. cbn in H1.
    specialize (IH g1). destruct (collisionStart g1 rest) as [g2 fs2]. cbn in *.
    destruct H1 as [Hm1 Hz1], IH as [Hm2 Hz2].
    split; [congruence|]. eapply zone_kept_trans; eassumption.
Qed.

Lemma engineUpdate_frame (ph : Physics) (g : Game) :
  gameMode (engineUpdate ph g) = gameMode g /\ zone_kept g (engineUpdate ph g).
Proof.
  unfold engineUpdate. pose proof (collisionStart_frame (pairs ph) g) as [Hm Hz].
  unfold zone_kept in *. cbn. auto.
Qed.

Lemma spawnSurvivalBot_frame (g : Game) :
  gameMode (spawnSurvivalBot g) = gameMode g /\ zone_kept g (spawnSurvivalBot g).
Proof.
  unfold spawnSurvivalBot, zone_kept.
  match goal with |- context [if ?c then _ else _] => destruct c end; cbn; auto.
Qed.

Lemma playerStep_frame (g : Game) :
  gameMode (playerStep g) = gameMode g /\ zone_kept g (playerStep g).
Proof.
  unfold playerStep, zone_kept.
  destruct (playerAlive g); [|auto].
  match goal with |- context [if ?c then _ else _] => destruct c end; cbn; auto.
Qed.

Lemma safeZoneShrink_frame (g : Game) :
  gameMode (safeZoneShrink g) = gameMode g /\
  duelRound (safeZoneShrink g) = duelRound g /\
  duelTransition (safeZoneShrink g) = duelTransition g.
Proof.
  unfold safeZoneShrink.
  match goal with |- context [if ?c then _ else _] => destruct c end; cbn; auto.
Qed.

Lemma safeZoneDrift_frame (g : Game) :
  gameMode (safeZoneDrift g) = gameMode g /\ zone_kept g (safeZoneDrift g).
Proof.
  unfold safeZoneDrift, zone_kept.
  match goal with |- context [if ?c then _ else _] => destruct c end; cbn; auto.
Qed.

Lemma updateAliveCount_frame (n : Z) (g : Game) :
  gameMode (updateAliveCount n g) = gameMode g /\ zone_kept g (updateAliveCount n g).
Proof.
  unfold updateAliveCount, zone_kept.
  destruct (phase g); auto.
  repeat match goal with |- context [if ?c then _ else _] => destruct c end; cbn; auto.
Qed.

(** The safe zone before the bot loop of a step: it can only have shrunk. *)
Lemma before_bots_zone (ph : Physics) (g : Game) :
  session_ok g ->
  let g5 := safeZoneStep (playerStep (spawnSurvivalBot
              (engineUpdate ph (set_frameCount (frameCount g + 1)%Z g)))) in
  session_ok g5 /\
  safeZone g5 <= safeZone g /\
  gameMode g5 = gameMode g /\
  duelRound g5 = duelRound g /\
  duelTransition g5 = duelTransition g.
Proof.
  intros H.
  set (g1 := set_frameCount (frameCount g + 1)%Z g).
  assert (H1 : session_ok g1).
  { destruct H as [[Hrng Hp Hz Hrd Hbm] Hb Hd].
    constructor; [constructor|..]; cbn; auto. }
  pose proof (engineUpdate_ok ph g1 H1) as H2.
  pose proof (engineUpdate_frame ph g1) as [M2 (Z2 & R2 & T2)].
  set (g2 := engineUpdate ph g1) in *.
  pose proof (spawnSurvivalBot_ok g2 H2) as H3.
  pose proof (spawnSurvivalBot_frame g2) as [M3 (Z3 & R3 & T3)].
  set (g3 := spawnSurvivalBot g2) in *.
  pose proof (playerStep_ok g3 H3) as H4.
  pose proof (playerStep_frame g3) as [M4 (Z4 & R4 & T4)].
  set (g4 := playerStep g3) in *.
  pose proof (safeZoneShrink_ok g4 H4) as H5.
  pose proof (safeZoneShrink_frame g4) as (M5 & R5 & T5).
  assert (Hlo4 : SAFE_ZONE_MIN <= safeZone g4) by (destruct H4 as [[_ _ Hz _ _] _ _]; lra).
  pose proof (safeZoneShrink_bounds g4 Hlo4) as Z5.
  set (g5 := safeZoneShrink g4) in *.
  pose proof (safeZoneDrift_ok g5 H5) as H6.
  pose proof (safeZoneDrift_frame g5) as [M6 (Z6 & R6 & T6)].
  cbn. unfold safeZoneStep. fold g1 g2 g3 g4 g5.
  split; [exact H6|].
  assert (E1 : safeZone g1 = safeZone g) by reflexivity.
  assert (E2 : gameMode g1 = gameMode g) by reflexivity.
  assert (E3 : duelRound g1 = duelRound g) by reflexivity.
  assert (E4 : duelTransition g1 = duelTransition g) by reflexivity.
  repeat split; try congruence. lra.
Qed.

Lemma round_reset_shift (g g5 g6 g7 : Game) :
  gameMode g5 = gameMode g -> duelRound g5 = duelRound g ->
  round_reset g5 g6 -> zone_kept g6 g7 -> round_reset g g7.
Proof.
  unfold round_reset, zone_kept.
  intros M R (A & B & C & D & E) (F & G & H).
  repeat split; congruence.
Qed.

Lemma fixedStep_zone (isGameOver : bool) (ph : Physics) (g : Game) :
  session_ok g ->
  safeZone (fixedStep isGameOver ph g) <= safeZone g \/
  round_reset g (fixedStep isGameOver ph g).
Proof.
  intros H. unfold fixedStep.
  destruct isGameOver; [left; lra|].
  destruct (duelTransition g).
  - left. match goal with |- context [if ?c then _ else _] => destruct c end; cbn; lra.
  - pose proof (before_bots_zone ph g H) as (H5 & Z5 & M5 & R5 & T5). cbn in *.
    set (g5 := safeZoneStep _) in *.
    pose proof (botAI_zone g5 H5) as Hz6.
    pose proof (botAI_ok g5 H5) as H6.
    destruct (botAI g5) as [g6 aliveCount]. cbn in *.
    destruct H6 as [[_ Hp6 _ _ _] _ _].
    pose proof (bossWeapons_frame g6 Hp6) as (_ & _ & _ & _ & _ & Z7).
    pose proof (updateAliveCount_frame aliveCount (bossWeapons g6)) as [_ Z8].
    pose proof (zone_kept_trans _ _ _ Z7 Z8) as Z78.
    destruct Hz6 as [Hk | Hr].
    + left. destruct Hk as (A & _), Z78 as (B & _). lra.
    + right. eapply round_reset_shift; eassumption.
Qed.

(** The exception does occur: in the first step of a duel the engine
    carries the boss out of the arena, and the step resets the round. *)
Lemma before_bots_roster (ph : Physics) (g : Game) :
  gameMode g <> survival ->
  bots (safeZoneStep (playerStep (spawnSurvivalBot
          (engineUpdate ph (set_frameCount (frameCount g + 1)%Z g)))))
  = map (fun b => set_body (moveBody ph (body b)) b)
      (bots (fst (collisionStart (set_frameCount (frameCount g + 1)%Z g) (pairs ph)))).
Proof.
  intros Hm.
  set (g2 := engineUpdate ph _).
  assert (E3 : spawnSurvivalBot g2 = g2).
  { unfold spawnSurvivalBot.
    assert (M : gameMode g2 = gameMode g)
      by (destruct (engineUpdate_frame ph (set_frameCount (frameCount g + 1)%Z g))
            as [M _]; exact M).
    rewrite M. destruct (gameMode g); try reflexivity. contradiction. }
  rewrite E3.
  assert (E4 : bots (playerStep g2) = bots g2).
  { unfold playerStep. destruct (playerAlive g2); [|reflexivity].
    match goal with |- context [if ?c then _ else _] => destruct c end; reflexivity. }
  assert (E5 : forall x, bots (safeZoneStep x) = bots x).
  { intros x. unfold safeZoneStep, safeZoneDrift, safeZoneShrink.
    repeat match goal with |- context [if ?c then _ else _] => destruct c end;
      reflexivity. }
  rewrite E5, E4. reflexivity.
Qed.

Lemma botAI_boss_out (g : Game) (boss : Bot) :
  gameMode g = duel -> bots g = [boss] -> alive boss = true ->
  (duelRound g < 3)%Z ->
  ARENA_R + 50 < dist2Center (body boss) ->
  round_reset g (fst (botAI g)).
Proof.
  intros Hm Hb Ha Hr Hout. unfold botAI. rewrite Hb. cbn [botLoop].
  unfold botStep. rewrite Ha. cbn [negb].
  rewrite (proj2 (num_gt_true _ _) Hout), orb_true_r.
  unfold eliminateBot. cbn [gameMode set_kills duelRound]. rewrite Hm.
  cbn [mode_eqb]. apply Z.ltb_lt in Hr. rewrite Hr. cbn.
  unfold round_reset. cbn. apply Z.ltb_lt in Hr. auto.
Qed.

Lemma boss_ejected_resets_round :
  round_reset (initGame duel 1 zero_rng)
    (fixedStep false boss_ejected (initGame duel 1 zero_rng)).
Proof.
  set (g := initGame duel 1 zero_rng).
  pose proof (initGame_ok duel 1 zero_rng fair_zero_rng) as H. fold g in H.
  unfold fixedStep. cbn [duelTransition g].
  change (duelTransition g) with false. cbn iota.
  pose proof (before_bots_zone boss_ejected g H) as (H5 & _ & M5 & R5 & _).
  assert (Hns : gameMode g <> survival) by discriminate.
  pose proof (before_bots_roster boss_ejected g Hns) as B5.
  cbn zeta in H5, M5, R5.
  set (g5 := safeZoneStep _) in *.
  assert (B5' : bots g5 = [set_body (mkBody 1 (bot_label 0) (mkVec (CX + 500) CY) (mkVec 0 0))
                             bossBot]) by (rewrite B5; reflexivity).
  assert (Hreset : round_reset g5 (fst (botAI g5))).
  { eapply botAI_boss_out; [rewrite M5; reflexivity|exact B5'|reflexivity| |].
    - rewrite R5. cbn. lia.
    - unfold dist2Center. cbn.
      replace ((CX + 500 - CX) * (CX + 500 - CX) + (CY - CY) * (CY - CY))
        with (500 * 500) by lra.
      rewrite sqrt_square by lra. unfold ARENA_R. lra. }
  pose proof (botAI_ok g5 H5) as H6.
  destruct (botAI g5) as [g6 aliveCount]. cbn [fst] in *.
  destruct H6 as [[_ Hp6 _ _ _] _ _].
  pose proof (bossWeapons_frame g6 Hp6) as (_ & _ & _ & _ & _ & Z7).
  pose proof (updateAliveCount_frame aliveCount (bossWeapons g6)) as [_ Z8].
  eapply round_reset_shift; [exact M5|exact R5|exact Hreset|].
  eapply zone_kept_trans; eassumption.
Qed.

(** C3: across any event, and so between two consecutive ticks, the
    safe-zone radius does not grow, unless the event is a fixed step that
    performs a duel round reset (the boss eliminated in round 1 or 2), after
    which the radius is the initial one; and the radius is never below
    [SAFE_ZONE_MIN]. *)
Theorem safe_zone_non_increasing (g : Game) (e : Event) :
  reachable g ->
  SAFE_ZONE_MIN <= safeZone g /\
  SAFE_ZONE_MIN <= safeZone (react e g) /\
  (safeZone (react e g) <= safeZone g \/ round_reset g (react e g)).
Proof.
  intros Hr.
  pose proof (reachable_ok g Hr) as H.
  pose proof (reachable_ok _ (reach_event g e Hr)) as H'.
  split; [destruct H as [[_ _ Hz _ _] _ _]; lra|].
  split; [destruct H' as [[_ _ Hz _ _] _ _]; lra|].
  destruct e as [key | key | isGameOver ph | ]; cbn [react].
  - left. rewrite (handlePause_field _ safeZone) by (intros; reflexivity).
    unfold onKeyDown.
    repeat match goal with |- context [if ?c then _ else _] => destruct c end; cbn; lra.
  - left. cbn. lra.
  - apply fixedStep_zone, H.
  - left. rewrite (togglePause_field _ safeZone) by (intros; reflexivity). lra.
Qed.

Lemma safe_zone_non_increasing_witness :
  SAFE_ZONE_MIN <= safeZone (initGame survival 0 zero_rng) /\
  SAFE_ZONE_MIN
    <= safeZone (react (FixedStep false still_world) (initGame survival 0 zero_rng)) /\
  (safeZone (react (FixedStep false still_world) (initGame survival 0 zero_rng))
     <= safeZone (initGame survival 0 zero_rng) \/
   round_reset (initGame survival 0 zero_rng)
     (react (FixedStep false still_world) (initGame survival 0 zero_rng))).
Proof.
  apply safe_zone_non_increasing. apply reach_init. exact fair_zero_rng.
Defined.

(** ** Duel rounds *)

Lemma fixedStep_frozen (ph : Physics) (g : Game) :
  duelTransition g = true ->
  fixedStep false ph g =
  if (duelTransitionTimer g - 1 <=? 0)%Z
  then set_duelTransition false (set_duelTransitionTimer (duelTransitionTimer g - 1)%Z g)
  else set_duelTransitionTimer (duelTransitionTimer g - 1)%Z g.
Proof. intros H. unfold fixedStep. rewrite H. reflexivity. Qed.

Lemma set_duelTransitionTimer_same (g : Game) :
  set_duelTransitionTimer (duelTransitionTimer g) g = g.
Proof. destruct g. reflexivity. Qed.

(** While the countdown has not run out, a run of steps only counts down. *)
Lemma run_frozen (phs : list Physics) (g : Game) :
  duelTransition g = true ->
  (Z.of_nat (List.length phs) < duelTransitionTimer g)%Z ->
  run phs g =
  set_duelTransitionTimer (duelTransitionTimer g - Z.of_nat (List.length phs))%Z g.
Proof.
  revert g. induction phs as [|ph rest IH]; intros g Ht Hlen.
  - cbn [run List.length Z.of_nat]. rewrite Z.sub_0_r.
    symmetry. apply set_duelTransitionTimer_same.
  - cbn [run]. rewrite (fixedStep_frozen ph g Ht).
    cbn [List.length] in *. rewrite Nat2Z.inj_succ in *.
    destruct (duelTransitionTimer g - 1 <=? 0)%Z eqn:Hz;
      [apply Z.leb_le in Hz; lia|].
    rewrite IH.
    + transitivity (set_duelTransitionTimer
                      (duelTransitionTimer g - 1 - Z.of_nat (List.length rest))%Z g);
        [reflexivity|].
      f_equal. lia.
    + exact Ht.
    + cbn. lia.
Qed.

(** The step on which the countdown reaches 0 clears the lock. *)
Lemma run_thaw (phs : list Physics) (g : Game) :
  duelTransition g = true ->
  phs <> [] ->
  duelTransitionTimer g = Z.of_nat (List.length phs) ->
  run phs g = set_duelTransition false (set_duelTransitionTimer 0 g).
Proof.
  revert g. induction phs as [|ph rest IH]; intros g Ht Hne Hlen; [contradiction|].
  cbn [run]. rewrite (fixedStep_frozen ph g Ht).
  cbn [List.length] in Hlen. rewrite Nat2Z.inj_succ in Hlen.
  destruct rest as [|ph2 rest2].
  - cbn in Hlen. rewrite Hlen. cbn. reflexivity.
  - destruct (duelTransitionTimer g - 1 <=? 0)%Z eqn:Hz.
    + apply Z.leb_le in Hz. cbn [List.length] in Hlen.
      rewrite Nat2Z.inj_succ in Hlen. lia.
    + rewrite IH; cbn [duelTransition duelTransitionTimer set_duelTransitionTimer];
        [reflexivity|exact Ht|discriminate|lia].
Qed.

(** The elimination of the boss, as the loop over the bots performs it:
    in round 1 or 2 the next round starts with the transition of
    [DUEL_ROUND_TRANSITION_FRAMES] steps, player and boss back at rest on
    their starting positions with their round RPM, the initial safe zone
    around the arena centre and the projectile lists emptied; in round 3 the
    match ends with the player as winner and nothing is reset. *)
Lemma eliminateBot_duel (g : Game) (boss : Bot) :
  session_ok g ->
  gameMode g = duel ->
  (alive boss = true -> rpm boss <= 0 ->
     botStep g boss = (fst (eliminateBot g boss), snd (eliminateBot g boss), false)) /\
  ((duelRound g < 3)%Z ->
     duelRound (fst (eliminateBot g boss)) = (duelRound g + 1)%Z /\
     duelTransition (fst (eliminateBot g boss)) = true /\
     duelTransitionTimer (fst (eliminateBot g boss)) = DUEL_ROUND_TRANSITION_FRAMES /\
     position (player (fst (eliminateBot g boss))) = mkVec (CX - 200) CY /\
     velocity (player (fst (eliminateBot g boss))) = mkVec 0 0 /\
     currentRPM (fst (eliminateBot g boss)) = STARTING_RPM /\
     alive (snd (eliminateBot g boss)) = true /\
     position (body (snd (eliminateBot g boss))) = mkVec (CX + 200) CY /\
     velocity (body (snd (eliminateBot g boss))) = mkVec 0 0 /\
     rpm (snd (eliminateBot g boss)) = BOSS_RPM + IZR (duelRound g + 1) * 15 /\
     safeZone (fst (eliminateBot g boss)) = SAFE_ZONE_INITIAL /\
     safeZoneCX (fst (eliminateBot g boss)) = CX /\
     safeZoneCY (fst (eliminateBot g boss)) = CY /\
     duelLasers (fst (eliminateBot g boss)) = [] /\
     duelBombs (fst (eliminateBot g boss)) = [] /\
     duelBossMaxRPM (fst (eliminateBot g boss)) = rpm (snd (eliminateBot g boss)) /\
     duelBossMaxRPM g < duelBossMaxRPM (fst (eliminateBot g boss)) /\
     gameOver (fst (eliminateBot g boss)) = gameOver g /\
     (forall phs, (List.length phs < 180)%nat ->
        run phs (fst (eliminateBot g boss)) =
        set_duelTransitionTimer (180 - Z.of_nat (List.length phs))%Z
          (fst (eliminateBot g boss))) /\
     (forall phs, List.length phs = 180%nat ->
        run phs (fst (eliminateBot g boss)) =
        set_duelTransition false
          (set_duelTransitionTimer 0 (fst (eliminateBot g boss))))) /\
  ((3 <= duelRound g)%Z ->
     fst (eliminateBot g boss) =
       set_isWinner true (set_phase gameover (set_gameOver true
         (set_kills (kills g + 1)%Z g))) /\
     snd (eliminateBot g boss) = set_alive false boss).
Proof.
  intros [[Hrng Hp Hz Hrd Hbm] Hb Hd] Hduel.
  assert (Hm : mode_eqb (gameMode g) duel = true) by (rewrite Hduel; reflexivity).
  split; [|split].
  - intros Ha Hr. unfold botStep. rewrite Ha. cbn [negb].
    assert (Hle : num_le (rpm boss) 0 = true) by (apply num_le_true; exact Hr).
    rewrite Hle. cbn [orb]. destruct (eliminateBot g boss). reflexivity.
  - intros Hlt.
    assert (Hgo : eliminateBot g boss =
                  duelRoundReset (set_kills (kills g + 1)%Z g) (set_alive false boss)).
    { unfold eliminateBot. cbn [gameMode set_kills duelRound]. rewrite Hm.
      apply Z.ltb_lt in Hlt. rewrite Hlt. reflexivity. }
    rewrite Hgo. set (g' := fst (duelRoundReset _ _)).
    assert (Ht : duelTransition g' = true) by reflexivity.
    assert (Htimer : duelTransitionTimer g' = 180%Z) by reflexivity.
    repeat (split; [reflexivity|]).
    split.
    { cbn. rewrite Hbm, plus_IZR. unfold BOSS_RPM.
      assert (Hlo : 1 <= IZR (duelRound g)) by (apply IZR_le; lia).
      destruct (duelRound g =? 1)%Z; lra. }
    split; [reflexivity|]. split.
    + intros phs Hlen. rewrite run_frozen; [rewrite Htimer; reflexivity|exact Ht|].
      rewrite Htimer. lia.
    + intros phs Hlen. apply run_thaw; [exact Ht| |rewrite Htimer, Hlen; reflexivity].
      intros E. rewrite E in Hlen. discriminate.
  - intros Hge. unfold eliminateBot. cbn [gameMode set_kills duelRound]. rewrite Hm.
    assert (Hnlt : (duelRound g <? 3)%Z = false) by (apply Z.ltb_ge; lia).
    rewrite Hnlt. cbn. split; reflexivity.
Qed.

(** ** The simulation never writes the keyboard state *)

Lemma collisionStart_keys (prs : list (Body * Body)) (g : Game) :
  keys (fst (collisionStart g prs)) = keys g.
Proof.
  revert g. induction prs as [|pr rest IH]; intros g; cbn; [reflexivity|].
  assert (H1 : keys (fst (collidePair g pr)) = keys g).
  { unfold collidePair. destruct pr as [bodyA bodyB].
    destruct (is_wall bodyA || is_wall bodyB); [reflexivity|].
    destruct (selectRoles g bodyA bodyB); [|reflexivity].
    unfold applyDrain. cbn.
    destruct (label_eqb (label (defender r)) player_label); reflexivity. }
  destruct (collidePair g pr) as [g1 fs1]. cbn in H1.
  specialize (IH g1). destruct (collisionStart g1 rest) as [g2 fs2]. cbn in *.
  congruence.
Qed.

Lemma botStep_keys (g : Game) (bot : Bot) : keys (fst (fst (botStep g bot))) = keys g.
Proof.
  unfold botStep. destruct (negb (alive bot)); [reflexivity|].
  match goal with |- context [if ?c then _ else _] => destruct c end.
  - unfold eliminateBot. cbn [gameMode set_kills duelRound].
    destruct (mode_eqb (gameMode g) duel); [|reflexivity].
    destruct (duelRound g <? 3)%Z; reflexivity.
  - assert (Hb : exists n, fst (botHousekeeping g bot) = set_rngUsed n g).
    { unfold botHousekeeping.
      set (bOutside := num_gt (distToSafeZone g (body bot)) (safeZone g)).
      set (r3 := botFloor g bOutside _).
      assert (E1 : snd (botSpin g bOutside r3) = set_rngUsed (S (rngUsed g)) g).
      { unfold botSpin, random.
        match goal with |- context [num_lt ?a ?b] => destruct (num_lt a b) end;
          reflexivity. }
      destruct (botSpin g bOutside r3) as [r4 g1]. cbn in E1. subst g1.
      unfold botEmergencySpin, random.
      repeat match goal with |- context [if ?c then _ else _] => destruct c end;
        cbn; eexists; reflexivity. }
    destruct Hb as [n Hb]. destruct (botHousekeeping g bot) as [g1 bot1].
    cbn in *. subst g1. reflexivity.
Qed.

Lemma botLoop_keys (todo : list Bot) (g : Game) :
  keys (fst (fst (botLoop g todo))) = keys g.
Proof.
  revert g. induction todo as [|bot rest IH]; intros g; cbn; [reflexivity|].
  pose proof (botStep_keys g bot) as H1.
  destruct (botStep g bot) as [[g1 bot1] counted]. cbn in H1.
  specialize (IH g1). destruct (botLoop g1 rest) as [[g2 rest1] n]. cbn in *.
  congruence.
Qed.

Lemma bossWeapons_keys (g : Game) :
  0 <= currentRPM g <= 100 -> keys (bossWeapons g) = keys g.
Proof.
  intros Hp. unfold bossWeapons.
  destruct (mode_eqb (gameMode g) duel && playerAlive g); [|reflexivity].
  set (g1 := match bots g with
             | boss :: _ => if alive boss then throwBomb (fireLaser g boss) boss else g
             | [] => g
             end).
  assert (H1 : currentRPM g1 = currentRPM g /\ keys g1 = keys g).
  { subst g1. destruct (bots g) as [|boss rest]; [auto|].
    destruct (alive boss); [|auto].
    unfold throwBomb, fireLaser.
    repeat match goal with |- context [if ?c then _ else _] => destruct c end;
      cbn; auto. }
  destruct H1 as [E1 E2].
  assert (Hp1 : 0 <= currentRPM g1 <= 100) by (rewrite E1; exact Hp).
  pose proof (lasersLoop_struck (duelLasers g1) g1 Hp1) as (r2 & f2 & Hr2 & Eg2).
  destruct (lasersLoop g1 (duelLasers g1)) as [g2 ls]. cbn in Eg2. subst g2.
  match goal with |- context [bombsLoop ?g3 ?bs] =>
    pose proof (bombsLoop_struck bs g3 Hr2) as (r4 & f4 & Hr4 & Eg4);
    destruct (bombsLoop g3 bs) as [g4 bs4]
  end.
  cbn in Eg4. subst g4. cbn. exact E2.
Qed.

Lemma fixedStep_keys (isGameOver : bool) (ph : Physics) (g : Game) :
  session_ok g -> keys (fixedStep isGameOver ph g) = keys g.
Proof.
  intros H. unfold fixedStep.
  destruct isGameOver; [reflexivity|].
  destruct (duelTransition g).
  - match goal with |- context [if ?c then _ else _] => destruct c end; reflexivity.
  - pose proof (before_bots_zone ph g H) as (H5 & _). cbn zeta in H5.
    set (g1 := set_frameCount (frameCount g + 1)%Z g) in *.
    assert (K2 : keys (engineUpdate ph g1) = keys g).
    { unfold engineUpdate. cbn. rewrite collisionStart_keys. reflexivity. }
    set (g2 := engineUpdate ph g1) in *.
    assert (K3 : keys (spawnSurvivalBot g2) = keys g2).
    { unfold spawnSurvivalBot.
      match goal with |- context [if ?c then _ else _] => destruct c end; reflexivity. }
    set (g3 := spawnSurvivalBot g2) in *.
    assert (K4 : keys (playerStep g3) = keys g3).
    { unfold playerStep. destruct (playerAlive g3); [|reflexivity].
      match goal with |- context [if ?c then _ else _] => destruct c end; reflexivity. }
    set (g4 := playerStep g3) in *.
    assert (K5 : keys (safeZoneStep g4) = keys g4).
    { unfold safeZoneStep, safeZoneDrift, safeZoneShrink.
      repeat match goal with |- context [if ?c then _ else _] => destruct c end;
        reflexivity. }
    set (g5 := safeZoneStep g4) in *.
    pose proof (botAI_ok g5 H5) as H6.
    assert (K6 : keys (fst (botAI g5)) = keys g5).
    { unfold botAI. pose proof (botLoop_keys (bots g5) g5) as K.
      destruct (botLoop g5 (bots g5)) as [[g6 bs] n]. cbn in *. exact K. }
    destruct (botAI g5) as [g6 aliveCount]. cbn [fst] in *.
    destruct H6 as [[_ Hp6 _ _ _] _ _].
    pose proof (bossWeapons_keys g6 Hp6) as K7.
    assert (K8 : keys (updateAliveCount aliveCount (bossWeapons g6)) = keys (bossWeapons g6)).
    { unfold updateAliveCount. destruct (phase (bossWeapons g6)); try reflexivity.
      repeat match goal with |- context [if ?c then _ else _] => destruct c end;
        reflexivity. }
    congruence.
Qed.

Lemma react_step (isGameOver : bool) (ph : Physics) (g : Game) :
  react (FixedStep isGameOver ph) g = fixedStep isGameOver ph g.
Proof. reflexivity. Qed.

Lemma transition_session_locked : duelTransition transition_session = true.
Proof.
  destruct boss_ejected_resets_round as (_ & _ & _ & Ht & _).
  unfold transition_session. rewrite react_step. exact Ht.
Qed.

(** ** Keyboard input *)

(** C8, as stated, fails: a movement key pressed during the round transition
    is not put into the key set. *)
Lemma key_during_transition_not_recorded :
  reachable transition_session /\
  duelTransition transition_session = true /\
  keys_has "w" (keys (onKeyDown "w" transition_session)) = false.
Proof.
  split; [|split].
  - unfold transition_session. apply reach_event.
    apply reach_init. exact fair_zero_rng.
  - exact transition_session_locked.
  - assert (E : onKeyDown "w" transition_session = transition_session).
    { unfold onKeyDown. rewrite transition_session_locked. reflexivity. }
    rewrite E. unfold transition_session.
    rewrite react_step, fixedStep_keys by (apply initGame_ok, fair_zero_rng).
    reflexivity.
Qed.

(** C8, amended: a key-down event that arrives during a duel round
    transition is dropped: the session, its key set and the player's RPM
    included, is unchanged, and a fixed step taken during the transition
    moves nothing and changes neither the key set nor the RPM.  Once the lock
    is clear a movement key is recorded. *)
Theorem key_down_during_transition (g : Game) (key : string) :
  duelTransition g = true ->
  onKeyDown key g = g /\
  (forall ph,
     keys (fixedStep false ph g) = keys g /\
     currentRPM (fixedStep false ph g) = currentRPM g /\
     player (fixedStep false ph g) = player g /\
     bots (fixedStep false ph g) = bots g) /\
  (forall g', duelTransition g' = false ->
     includes "wasd" (toLowerCase key) && (String.length (toLowerCase key) =? 1)%nat = true ->
     keys_has (toLowerCase key) (keys (onKeyDown key g')) = true).
Proof.
  intros Ht. split; [|split].
  - unfold onKeyDown. rewrite Ht. reflexivity.
  - intros ph. rewrite (fixedStep_frozen ph g Ht).
    destruct (duelTransitionTimer g - 1 <=? 0)%Z; cbn; auto.
  - intros g' Hf Hmove. unfold onKeyDown. rewrite Hf, Hmove.
    set (k := toLowerCase key).
    assert (Hin : keys_has k (keys_add k (keys g')) = true).
    { unfold keys_has, keys_add.
      destruct (existsb (String.eqb k) (keys g')) eqn:He; [exact He|].
      rewrite existsb_app. cbn. rewrite String.eqb_refl. 
      rewrite orb_true_r. reflexivity. }
    repeat match goal with |- context [if ?c then _ else _] => destruct c end;
      cbn; exact Hin.
Qed.

Lemma key_down_during_transition_witness :
  onKeyDown "j" transition_session = transition_session.
Proof.
  apply (key_down_during_transition transition_session "j").
  exact transition_session_locked.
Defined.

Lemma onKeyDown_spin (k : string) (g : Game) :
  k = "j"%string \/ k = "k"%string ->
  duelTransition g = false ->
  playerAlive g = true ->
  onKeyDown k g =
  if String.eqb (lastSpinKey g) k then g
  else set_lastSpinKey k (set_currentRPM (Rmin 100 (currentRPM g + spinGain g)) g).
Proof.
  intros Hk Ht Ha.
  assert (L : toLowerCase k = k) by (destruct Hk as [-> | ->]; vm_compute; reflexivity).
  assert (I : includes "wasd" k && (String.length k =? 1)%nat = false)
    by (destruct Hk as [-> | ->]; vm_compute; reflexivity).
  assert (J : String.eqb k "j" || String.eqb k "k" = true)
    by (destruct Hk as [-> | ->]; vm_compute; reflexivity).
  unfold onKeyDown. rewrite Ht, L, I, J, Ha. cbn [andb].
  destruct (String.eqb (lastSpinKey g) k); reflexivity.
Qed.

Lemma Rmin_cap_twice (cap x a b : R) :
  0 <= a -> 0 <= b -> Rmin cap (Rmin cap (x + a) + b) = Rmin cap (x + (a + b)).
Proof.
  intros Ha Hb. unfold Rmin.
  destruct (Rle_dec cap (x + a));
    match goal with |- context [Rle_dec cap (?u + b)] => destruct (Rle_dec cap (u + b)) end;
    destruct (Rle_dec cap (x + (a + b))); lra.
Qed.

(** C4: a spin key equal to the last accepted one gives nothing, an
    alternating one gives one gain [spinGain g], which is the per-press gain
    inside the safe zone and 0.15 of it outside.  With no tick and no
    collision in between, J,K,J takes the RPM to [min(100, rpm + 3g)] and J,J
    to [min(100, rpm + g)]; from 50 these are [50 + 3g] and [50 + g]. *)
Theorem spin_alternation (g : Game) :
  duelTransition g = false ->
  playerAlive g = true ->
  lastSpinKey g <> "j"%string ->
  (distToSafeZone g (player g) <= safeZone g -> spinGain g = RPM_GAIN_PER_PRESS) /\
  (safeZone g < distToSafeZone g (player g) ->
     spinGain g = RPM_GAIN_PER_PRESS * OUTSIDE_GAIN_MULT) /\
  currentRPM (onKeyDown "j" g) = Rmin 100 (currentRPM g + spinGain g) /\
  onKeyDown "j" (onKeyDown "j" g) = onKeyDown "j" g /\
  onKeyDown "k" (onKeyDown "k" (onKeyDown "j" g)) = onKeyDown "k" (onKeyDown "j" g) /\
  currentRPM (onKeyDown "j" (onKeyDown "k" (onKeyDown "j" g)))
    = Rmin 100 (currentRPM g + 3 * spinGain g) /\
  (currentRPM g = 50 ->
     currentRPM (onKeyDown "j" (onKeyDown "k" (onKeyDown "j" g))) = 50 + 3 * spinGain g /\
     currentRPM (onKeyDown "j" (onKeyDown "j" g)) = 50 + spinGain g).
Proof.
  intros Ht Ha Hlast.
  pose proof (spinGain_pos g) as Hpos.
  assert (Hgain : spinGain g = RPM_GAIN_PER_PRESS \/
                  spinGain g = RPM_GAIN_PER_PRESS * OUTSIDE_GAIN_MULT).
  { unfold spinGain. destruct (num_gt _ _); auto. }
  assert (Hne : String.eqb (lastSpinKey g) "j" = false) by (apply String.eqb_neq; exact Hlast).
  set (g1 := set_lastSpinKey "j" (set_currentRPM (Rmin 100 (currentRPM g + spinGain g)) g)).
  assert (E1 : onKeyDown "j" g = g1).
  { rewrite onKeyDown_spin; auto. rewrite Hne. reflexivity. }
  assert (E11 : onKeyDown "j" g1 = g1).
  { rewrite onKeyDown_spin; auto. }
  set (g2 := set_lastSpinKey "k" (set_currentRPM (Rmin 100 (currentRPM g1 + spinGain g1)) g1)).
  assert (E2 : onKeyDown "k" g1 = g2).
  { rewrite onKeyDown_spin; auto. }
  assert (E22 : onKeyDown "k" g2 = g2).
  { rewrite onKeyDown_spin; auto. }
  set (g3 := set_lastSpinKey "j" (set_currentRPM (Rmin 100 (currentRPM g2 + spinGain g2)) g2)).
  assert (E3 : onKeyDown "j" g2 = g3).
  { rewrite onKeyDown_spin; auto. }
  assert (S1 : spinGain g1 = spinGain g) by reflexivity.
  assert (S2 : spinGain g2 = spinGain g) by reflexivity.
  assert (R3 : currentRPM g3 = Rmin 100 (currentRPM g + 3 * spinGain g)).
  { cbn. change (spinGain g2) with (spinGain g). change (spinGain g1) with (spinGain g).
    rewrite !Rmin_cap_twice by lra. f_equal. lra. }
  rewrite E1, E11, E2, E22, E3.
  split.
  { intros Hin. unfold spinGain.
    rewrite (proj2 (num_gt_false _ _) Hin). reflexivity. }
  split.
  { intros Hout. unfold spinGain.
    rewrite (proj2 (num_gt_true _ _) Hout). reflexivity. }
  repeat (split; [assumption || reflexivity|]).
  intros H50. rewrite R3. cbn. rewrite H50.
  unfold Rmin, RPM_GAIN_PER_PRESS, OUTSIDE_GAIN_MULT in *.
  repeat match goal with |- context [Rle_dec ?u ?v] => destruct (Rle_dec u v) end;
    destruct Hgain; lra.
Qed.

Lemma spin_alternation_witness :
  currentRPM (onKeyDown "j" (onKeyDown "k" (onKeyDown "j" (initGame arena 3 zero_rng))))
  = 50 + 3 * spinGain (initGame arena 3 zero_rng).
Proof.
  assert (Hne : lastSpinKey (initGame arena 3 zero_rng) <> "j"%string)
    by (cbn; discriminate).
  destruct (spin_alternation (initGame arena 3 zero_rng) eq_refl eq_refl Hne)
    as (_ & _ & _ & _ & _ & _ & H).
  apply H. reflexivity.
Defined.

(** ** Chain hits *)

Lemma sqrt_3_4 : sqrt (3 ^ 2 + 4 ^ 2) = 5.
Proof.
  replace (3 ^ 2 + 4 ^ 2) with (5 * 5) by lra.
  apply sqrt_square. lra.
Qed.

(** C5, as stated, fails: in a duel the first hit of a chain
    ([chainHits = 1]) by a player moving at speed 5 takes 20 RPM off the
    boss (from 40 to 20), not 5 + (1 - 1) * 5 = 5. *)
Lemma duel_first_hit_drains_20 :
  bots (fst (collidePair duel_first_update duel_hit_pair))
  = [mkBot (body bossBot) 20 true 1 1].
Proof.
  unfold collidePair, duel_hit_pair. cbn.
  unfold hitBot, chainDrain, momentumBonus, chainLevel. cbn -[pow].
  rewrite sqrt_3_4.
  replace (Rmax 0 (BOSS_RPM - (5 + (1 - 1) * 5 + 5 * 3))) with 20; [reflexivity|].
  unfold BOSS_RPM, Rmax.
  destruct (Rle_dec 0 (40 - (5 + (1 - 1) * 5 + 5 * 3))); lra.
Qed.

(** C5, amended: a hit on a bot raises [chainHits] by 1 when it comes less
    than [BOT_CHAIN_WINDOW] frames after the previous one and sets it to 1
    otherwise; it takes [5 + (chainHits - 1) * 5] RPM off the bot, plus three
    times the player's speed when the player hits the boss in a duel.  Apart
    from that duel bonus, the next hit inside the window drains strictly
    more; a bot step more than [BOT_CHAIN_WINDOW] frames after the last hit
    puts [chainHits] back to 0, so that the next hit counts as the first. *)
Theorem chain_hit_drain (g : Game) (r : Roles) (b : Bot) :
  ((frameCount g - lastHitFrame b < BOT_CHAIN_WINDOW)%Z ->
     chainHits (hitBot g r b) = (chainHits b + 1)%Z) /\
  ((BOT_CHAIN_WINDOW <= frameCount g - lastHitFrame b)%Z ->
     chainHits (hitBot g r b) = 1%Z) /\
  lastHitFrame (hitBot g r b) = frameCount g /\
  rpm (hitBot g r b)
    = Rmax 0 (rpm b - (5 + (IZR (chainHits (hitBot g r b)) - 1) * 5 + momentumBonus g r)) /\
  (gameMode g <> duel \/ label (attacker r) <> player_label -> momentumBonus g r = 0) /\
  (gameMode g = duel -> label (attacker r) = player_label ->
     momentumBonus g r = norm (velocity (attacker r)) * 3) /\
  (forall g2 r2,
     (frameCount g2 - frameCount g < BOT_CHAIN_WINDOW)%Z ->
     momentumBonus g r = 0 -> momentumBonus g2 r2 = 0 ->
     chainHits (hitBot g2 r2 (hitBot g r b)) = (chainHits (hitBot g r b) + 1)%Z /\
     chainDrain g r (chainLevel g b) < chainDrain g2 r2 (chainLevel g2 (hitBot g r b))) /\
  ((BOT_CHAIN_WINDOW < frameCount g - lastHitFrame b)%Z ->
     botChainReset g b = 0%Z /\
     forall g2 r2, chainHits (hitBot g2 r2 (set_chainHits (botChainReset g b) b)) = 1%Z) /\
  ((frameCount g - lastHitFrame b <= BOT_CHAIN_WINDOW)%Z ->
     botChainReset g b = chainHits b).
Proof.
  split.
  { intros H. cbn. unfold chainLevel. apply Z.ltb_lt in H. rewrite H. reflexivity. }
  split.
  { intros H. cbn. unfold chainLevel. apply Z.ltb_ge in H. rewrite H. reflexivity. }
  split; [reflexivity|].
  split; [reflexivity|].
  split.
  { intros H. unfold momentumBonus.
    destruct (mode_eqb (gameMode g) duel) eqn:Hm; cbn; [|reflexivity].
    destruct (label_eqb (label (attacker r)) player_label) eqn:Hl; [|reflexivity].
    destruct H as [H | H]; exfalso; apply H.
    - destruct (gameMode g); try discriminate; reflexivity.
    - destruct (label (attacker r)); try discriminate; reflexivity. }
  split.
  { intros Hm Hl. unfold momentumBonus, norm. rewrite Hm, Hl. cbn -[pow].
    f_equal. f_equal. lra. }
  split.
  { intros g2 r2 Hw H1 H2.
    assert (E : (frameCount g2 - frameCount g <? BOT_CHAIN_WINDOW)%Z = true)
      by (apply Z.ltb_lt; assumption).
    assert (L : chainLevel g2 (hitBot g r b) = (chainLevel g b + 1)%Z).
    { unfold chainLevel at 1. cbn. rewrite E. reflexivity. }
    split.
    - cbn. exact L.
    - unfold chainDrain. rewrite H1, H2, L, plus_IZR. lra. }
  split.
  { intros H. apply Z.ltb_lt in H. unfold botChainReset. rewrite H.
    split; [reflexivity|].
    intros g2 r2. cbn. unfold chainLevel. cbn.
    destruct (frameCount g2 - lastHitFrame b <? BOT_CHAIN_WINDOW)%Z; reflexivity. }
  intros H. unfold botChainReset. apply Z.ltb_ge in H. rewrite H. reflexivity.
Qed.

(** ** Attacker and defender *)

(** Between two live bots the one with the higher RPM attacks, the first
    body of the pair on a tie. *)
Lemma bots_higher_rpm_attacks (g : Game) (bodyA bodyB : Body) (bA bB : Bot) :
  label bodyA <> player_label -> label bodyB <> player_label ->
  findAlive (bots g) bodyA = Some bA ->
  findAlive (bots g) bodyB = Some bB ->
  exists r, selectRoles g bodyA bodyB = Some r /\
    defenderRPM r <= attackerRPM r /\
    (rpm bB <= rpm bA -> r = mkRoles (rpm bA) (rpm bB) bodyA bodyB) /\
    (rpm bA < rpm bB -> r = mkRoles (rpm bB) (rpm bA) bodyB bodyA).
Proof.
  intros HA HB FA FB. unfold selectRoles. rewrite FA, FB.
  assert (EA : label_eqb (label bodyA) player_label = false)
    by (destruct (label bodyA); try reflexivity; contradiction).
  assert (EB : label_eqb (label bodyB) player_label = false)
    by (destruct (label bodyB); try reflexivity; contradiction).
  rewrite EA, EB.
  destruct (num_ge (rpm bA) (rpm bB)) eqn:Hc;
    [apply num_ge_true in Hc | apply num_ge_false in Hc];
    eexists; (split; [reflexivity|]); cbn; repeat split; intros; try reflexivity; lra.
Qed.

(** When the player is one of the two bodies the RPMs are not compared:
    the player is the attacker. *)
Lemma player_always_attacker (g : Game) (bodyA bodyB : Body) (b : Bot) :
  label bodyA = player_label ->
  findAlive (bots g) bodyB = Some b ->
  selectRoles g bodyA bodyB = Some (mkRoles (currentRPM g) (rpm b) bodyA bodyB).
Proof.
  intros HA FB. unfold selectRoles. rewrite HA, FB. reflexivity.
Qed.

(** Consequently the player is never the defender, and a collision with
    the player is never a duel-boss attack: the branch of the handler that
    drains the player's RPM and the boss multipliers are out of reach. *)
Lemma player_never_defends (g : Game) (bodyA bodyB : Body) (r : Roles) :
  (forall b, label b = player_label -> findAlive (bots g) b = None) ->
  selectRoles g bodyA bodyB = Some r ->
  label (defender r) <> player_label /\
  (label bodyA = player_label \/ label bodyB = player_label -> isDuelBoss g r = false).
Proof.
  intros Hwf. unfold selectRoles.
  destruct (label_eqb (label bodyA) player_label) eqn:EA;
    destruct (label_eqb (label bodyB) player_label) eqn:EB.
  - assert (LB : label bodyB = player_label)
      by (destruct (label bodyB); try discriminate; reflexivity).
    rewrite (Hwf bodyB LB).
    assert (LA : label bodyA = player_label)
      by (destruct (label bodyA); try discriminate; reflexivity).
    rewrite (Hwf bodyA LA). discriminate.
  - assert (LA : label bodyA = player_label)
      by (destruct (label bodyA); try discriminate; reflexivity).
    rewrite (Hwf bodyA LA).
    destruct (findAlive (bots g) bodyB) as [bB|]; [|discriminate].
    intros E. inversion E; subst; clear E. cbn. split.
    + intros L. rewrite L in EB. discriminate.
    + intros _. unfold isDuelBoss. cbn. rewrite LA.
      destruct (mode_eqb (gameMode g) duel); reflexivity.
  - assert (LB : label bodyB = player_label)
      by (destruct (label bodyB); try discriminate; reflexivity).
    rewrite (Hwf bodyB LB).
    destruct (findAlive (bots g) bodyA) as [bA|]; [|discriminate].
    intros E. inversion E; subst; clear E. cbn. split.
    + intros L. rewrite L in EA. discriminate.
    + intros _. unfold isDuelBoss. cbn. rewrite LB.
      destruct (mode_eqb (gameMode g) duel); reflexivity.
  - destruct (findAlive (bots g) bodyA) as [bA|]; [|discriminate].
    destruct (findAlive (bots g) bodyB) as [bB|]; [|discriminate].
    destruct (num_ge (rpm bA) (rpm bB)); intros E; inversion E; subst; clear E; cbn;
      (split; [intros L; rewrite L in *; discriminate|]);
      intros [L | L]; rewrite L in *; discriminate.
Qed.

Lemma fair_half_rng : fair half_rng.
Proof. intros n. unfold half_rng. lra. Qed.

(** C1 at a failing input: at the start of an arena match the player
    (50 RPM) meets the bot (60 RPM); in either order of the pair the player
    is the attacker and the knockback goes to the bot, the body with the
    higher RPM. *)
Theorem player_attacks_stronger_bot :
  reachable weak_player_session /\
  currentRPM weak_player_session = 50 /\
  rpm weak_player_bot = 60 /\
  selectRoles weak_player_session (player weak_player_session) (body weak_player_bot)
    = Some weak_player_roles /\
  selectRoles weak_player_session (body weak_player_bot) (player weak_player_session)
    = Some weak_player_roles /\
  attackerRPM weak_player_roles < defenderRPM weak_player_roles /\
  target (knockback weak_player_session weak_player_roles) = body weak_player_bot.
Proof.
  split; [apply reach_init, fair_half_rng|].
  split; [reflexivity|].
  split; [cbn; unfold half_rng; lra|].
  split; [reflexivity|].
  split; [reflexivity|].
  split; [cbn; unfold half_rng, STARTING_RPM; lra|reflexivity].
Qed.

(** ** Directions *)

Lemma orElse_nonzero (x d : R) : d <> 0 -> orElse x d <> 0.
Proof. intros Hd. unfold orElse. destruct (Req_dec_T x 0); assumption. Qed.

Lemma guardedDist_nonzero (dx dy : R) : guardedDist dx dy <> 0.
Proof. apply orElse_nonzero. lra. Qed.

Lemma guardedDist_zero : guardedDist 0 0 = 1.
Proof.
  unfold guardedDist, orElse.
  replace (0 * 0 + 0 * 0) with 0 by lra. rewrite sqrt_0.
  destruct (Req_dec_T 0 0); [reflexivity|contradiction].
Qed.

Lemma guardedDist_far (dx dy : R) :
  dx <> 0 \/ dy <> 0 ->
  guardedDist dx dy = sqrt (dx * dx + dy * dy) /\ 0 < sqrt (dx * dx + dy * dy).
Proof.
  intros H.
  assert (Hs : 0 < dx * dx + dy * dy) by (destruct H; nra).
  pose proof (sqrt_lt_R0 _ Hs) as Hd.
  split; [|exact Hd].
  unfold guardedDist, orElse.
  destruct (Req_dec_T (sqrt (dx * dx + dy * dy)) 0); [lra|reflexivity].
Qed.

Lemma direction_same (p : Vec) : direction p p = mkVec 0 0.
Proof.
  unfold direction.
  replace (vx p - vx p) with 0 by lra. replace (vy p - vy p) with 0 by lra.
  rewrite guardedDist_zero. f_equal; lra.
Qed.

Lemma norm_zero : norm (mkVec 0 0) = 0.
Proof. unfold norm. cbn. replace (0 * 0 + 0 * 0) with 0 by lra. apply sqrt_0. Qed.

Lemma direction_unit (p q : Vec) : p <> q -> norm (direction p q) = 1.
Proof.
  intros Hpq.
  assert (Hfar : vx q - vx p <> 0 \/ vy q - vy p <> 0).
  { destruct (Req_dec_T (vx q - vx p) 0) as [Ex|Ex]; [|left; exact Ex].
    destruct (Req_dec_T (vy q - vy p) 0) as [Ey|Ey]; [|right; exact Ey].
    exfalso. apply Hpq. destruct p, q. cbn in *. f_equal; lra. }
  destruct (guardedDist_far _ _ Hfar) as [Eg Hd].
  unfold direction, norm. cbn. rewrite Eg.
  set (dx := vx q - vx p) in *. set (dy := vy q - vy p) in *.
  set (d := sqrt (dx * dx + dy * dy)) in *.
  assert (Hd2 : d * d = dx * dx + dy * dy) by (apply sqrt_sqrt; nra).
  replace (dx / d * (dx / d) + dy / d * (dy / d)) with 1; [apply sqrt_1|].
  replace (dx / d * (dx / d) + dy / d * (dy / d))
    with ((dx * dx + dy * dy) / (d * d)) by (field; lra).
  rewrite <- Hd2. field. lra.
Qed.

(** C9, as stated, fails: for an attacker and a defender on the same spot
    the knockback direction is the zero vector, which is not a unit vector. *)
Lemma coincident_direction_not_unit :
  knockDir coincident_roles = mkVec 0 0 /\ norm (knockDir coincident_roles) <> 1.
Proof.
  assert (E : knockDir coincident_roles = mkVec 0 0) by apply direction_same.
  split; [exact E|]. rewrite E, norm_zero. lra.
Qed.

(** C9, amended: the divisor [Math.sqrt(dx * dx + dy * dy) || 1] is never 0,
    so these normalisations do not divide by zero; for two coincident
    positions it is 1 and the direction obtained is the zero vector (the
    knockback and the survival steering force are then zero), and for two
    distinct positions the direction is a unit vector. *)
Theorem coincident_direction_fallback (p q : Vec) :
  guardedDist (vx q - vx p) (vy q - vy p) <> 0 /\
  guardedDist (vx p - vx p) (vy p - vy p) = 1 /\
  direction p p = mkVec 0 0 /\
  norm (direction p p) = 0 /\
  (p <> q -> norm (direction p q) = 1) /\
  (forall g r, position (attacker r) = position (defender r) ->
     impulse (knockback g r) = mkVec 0 0) /\
  (forall g bot, position (body bot) = mkVec (safeZoneCX g) (safeZoneCY g) ->
     impulse (survivalSteer g bot) = mkVec 0 0).
Proof.
  split; [apply guardedDist_nonzero|].
  split.
  { replace (vx p - vx p) with 0 by lra. replace (vy p - vy p) with 0 by lra.
    apply guardedDist_zero. }
  split; [apply direction_same|].
  split; [rewrite direction_same; apply norm_zero|].
  split; [apply direction_unit|].
  split.
  - intros g r E. unfold knockback, knockDir. rewrite E, direction_same. cbn.
    f_equal; lra.
  - intros g bot E. unfold survivalSteer. rewrite E. cbn.
    replace (safeZoneCX g - safeZoneCX g) with 0 by lra.
    replace (safeZoneCY g - safeZoneCY g) with 0 by lra.
    rewrite guardedDist_zero. f_equal; lra.
Qed.

(** ** Over-Spin *)

Lemma spin_knockDir : knockDir spin_roles = mkVec 1 0.
Proof.
  unfold knockDir, direction. cbn.
  assert (E : guardedDist (638 - 600) (400 - 400) = 38).
  { destruct (guardedDist_far (638 - 600) (400 - 400)) as [E _]; [left; lra|].
    rewrite E.
    replace ((638 - 600) * (638 - 600) + (400 - 400) * (400 - 400)) with (38 * 38) by lra.
    apply sqrt_square. lra. }
  rewrite E. f_equal; lra.
Qed.

Lemma spin_baseForce : baseForce spin_roles = 71.096.
Proof.
  unfold baseForce, relSpeed. rewrite spin_knockDir. cbn.
  replace ((0 - 0) * 1 + (0 - 0) * 0) with 0 by lra. rewrite Rabs_R0.
  unfold KNOCKBACK_BASE, KNOCKBACK_RPM_MULT, VELOCITY_KNOCKBACK. lra.
Qed.

Lemma spin_overSpin : overSpin spin_roles = true.
Proof. apply num_ge_true. cbn. unfold SWEET_HIGH. lra. Qed.

Lemma spin_wobble : wobbleDefender spin_roles = true.
Proof. apply num_lt_true. cbn. unfold SWEET_LOW. lra. Qed.

(** C6, as stated, fails: a bot at 70 RPM hits a bot at 30 RPM; the
    knockback is 170.6304 along (1, 0) and the self-recoil 56.8768 the other
    way, a third of the knockback and not half of it. *)
Lemma over_spin_recoil_not_half :
  selectRoles spin_session spin_bodyA spin_bodyB = Some spin_roles /\
  SWEET_HIGH < attackerRPM spin_roles /\
  snd (collidePair spin_session (spin_bodyA, spin_bodyB))
    = [selfRecoil spin_session spin_roles; knockback spin_session spin_roles] /\
  impulse (knockback spin_session spin_roles) = mkVec 170.6304 0 /\
  impulse (selfRecoil spin_session spin_roles) = mkVec (- 56.8768) 0 /\
  vx (impulse (selfRecoil spin_session spin_roles))
    <> - (vx (impulse (knockback spin_session spin_roles)) / 2).
Proof.
  assert (Hsel : selectRoles spin_session spin_bodyA spin_bodyB = Some spin_roles).
  { unfold selectRoles. cbn.
    assert (Hge : num_ge 70 30 = true) by (apply num_ge_true; lra).
    rewrite Hge. reflexivity. }
  assert (Hspin : spinForce spin_session spin_roles = 113.7536).
  { unfold spinForce, bossForce. rewrite spin_overSpin, spin_baseForce. cbn. lra. }
  assert (Hfinal : finalForce spin_session spin_roles = 170.6304).
  { unfold finalForce. rewrite spin_wobble, Hspin. lra. }
  assert (Hk : impulse (knockback spin_session spin_roles) = mkVec 170.6304 0).
  { unfold knockback. cbn [impulse applyForce]. rewrite spin_knockDir, Hfinal. cbn.
    f_equal; lra. }
  assert (Hr : impulse (selfRecoil spin_session spin_roles) = mkVec (- 56.8768) 0).
  { unfold selfRecoil. cbn [impulse applyForce]. rewrite spin_knockDir, Hspin. cbn.
    f_equal; lra. }
  split; [exact Hsel|].
  split; [cbn; unfold SWEET_HIGH; lra|].
  split.
  { unfold collidePair. rewrite Hsel. cbn [is_wall label_eqb label spin_bodyA spin_bodyB orb snd].
    unfold collisionForces. rewrite spin_overSpin. reflexivity. }
  split; [exact Hk|]. split; [exact Hr|].
  rewrite Hk, Hr. cbn. lra.
Qed.

(** C6, amended: when the attacker's RPM is above [SWEET_HIGH] the force is
    multiplied by 1.6 after the duel-boss doubling and before the Wobble
    factor 1.5, so the knockback is base x (2) x 1.6 x (1.5), and the attacker
    receives a recoil opposite to the knockback direction whose size is half
    the force as it stands after the Over-Spin factor: half the knockback
    when the defender is not in Wobble, a third of it when it is. *)
Theorem over_spin_recoil (g : Game) (r : Roles) :
  SWEET_HIGH < attackerRPM r ->
  spinForce g r = bossForce g r * 1.6 /\
  finalForce g r
    = baseForce r * (if isDuelBoss g r then 2 else 1) * 1.6
      * (if wobbleDefender r then 1.5 else 1) /\
  collisionForces g r = [selfRecoil g r; knockback g r] /\
  target (selfRecoil g r) = attacker r /\
  target (knockback g r) = defender r /\
  impulse (selfRecoil g r)
    = mkVec (- (vx (knockDir r) * (spinForce g r / 2)))
            (- (vy (knockDir r) * (spinForce g r / 2))) /\
  impulse (knockback g r)
    = mkVec (vx (knockDir r) * finalForce g r) (vy (knockDir r) * finalForce g r) /\
  (wobbleDefender r = false ->
     impulse (selfRecoil g r)
       = mkVec (- (vx (impulse (knockback g r)) / 2))
               (- (vy (impulse (knockback g r)) / 2))) /\
  (wobbleDefender r = true ->
     impulse (selfRecoil g r)
       = mkVec (- (vx (impulse (knockback g r)) / 3))
               (- (vy (impulse (knockback g r)) / 3))).
Proof.
  intros Hhigh.
  assert (Hover : overSpin r = true) by (apply num_ge_true; lra).
  assert (Hspin : spinForce g r = bossForce g r * 1.6)
    by (unfold spinForce; rewrite Hover; reflexivity).
  split; [exact Hspin|].
  split.
  { unfold finalForce. rewrite Hspin. unfold bossForce.
    destruct (isDuelBoss g r), (wobbleDefender r); lra. }
  split; [unfold collisionForces; rewrite Hover; reflexivity|].
  split; [reflexivity|]. split; [reflexivity|].
  split; [unfold selfRecoil; cbn; f_equal; lra|].
  split; [reflexivity|].
  split; intros Hw; unfold selfRecoil, knockback, finalForce; rewrite Hw; cbn;
    f_equal; lra.
Qed.

Lemma over_spin_recoil_witness :
  spinForce spin_session spin_roles = bossForce spin_session spin_roles * 1.6.
Proof.
  apply (over_spin_recoil spin_session spin_roles). cbn. unfold SWEET_HIGH. lra.
Defined.

(** * Further properties of the simulation *)

(** ** Friction and movement force *)

(** The air friction given to a body is at most 0.10 and at least 0.003
    for an RPM in [0, 100], and never grows with the RPM: the faster a top
    spins, the less it is braked. *)
Theorem friction_range_and_monotone (a b : R) :
  0 <= a -> a <= b -> b <= 100 ->
  0.003 <= rpmToFriction b /\
  rpmToFriction b <= rpmToFriction a /\
  rpmToFriction a <= 0.10.
Proof.
  intros Ha Hab Hb. unfold rpmToFriction, SWEET_LOW, SWEET_HIGH.
  destruct (num_lt a 40) eqn:A1; [apply num_lt_true in A1 | apply num_lt_false in A1];
  destruct (num_lt b 40) eqn:B1; [apply num_lt_true in B1 | apply num_lt_false in B1 |
                                  apply num_lt_true in B1 | apply num_lt_false in B1];
  destruct (num_le a 60) eqn:A2; [apply num_le_true in A2 | apply num_le_false in A2 |
                                  apply num_le_true in A2 | apply num_le_false in A2 |
                                  apply num_le_true in A2 | apply num_le_false in A2 |
                                  apply num_le_true in A2 | apply num_le_false in A2];
  destruct (num_le b 60) eqn:B2;
    try apply num_le_true in B2; try apply num_le_false in B2;
    repeat split; lra.
Qed.

Lemma friction_range_and_monotone_witness :
  0.003 <= rpmToFriction 70 /\
  rpmToFriction 70 <= rpmToFriction 30 /\
  rpmToFriction 30 <= 0.10.
Proof. apply friction_range_and_monotone; lra. Defined.

(** The movement force of the player lies between 0.4 and 2.3 times
    [PLAYER_MOVE_FORCE] for an RPM in [0, 100] and never shrinks when the RPM
    grows. *)
Theorem move_force_range_and_monotone (a b : R) :
  0 <= a -> a <= b -> b <= 100 ->
  PLAYER_MOVE_FORCE * 0.4 <= moveForce a /\
  moveForce a <= moveForce b /\
  moveForce b <= PLAYER_MOVE_FORCE * 2.3.
Proof.
  intros Ha Hab Hb. unfold moveForce, PLAYER_MOVE_FORCE, SWEET_LOW, SWEET_HIGH, num_ge.
  destruct (num_lt a 40) eqn:A1; [apply num_lt_true in A1 | apply num_lt_false in A1];
  destruct (num_lt b 40) eqn:B1; [apply num_lt_true in B1 | apply num_lt_false in B1 |
                                  apply num_lt_true in B1 | apply num_lt_false in B1];
  destruct (num_le 40 a) eqn:A3; try apply num_le_true in A3; try apply num_le_false in A3;
  destruct (num_le 40 b) eqn:B3; try apply num_le_true in B3; try apply num_le_false in B3;
  destruct (num_le a 60) eqn:A2; try apply num_le_true in A2; try apply num_le_false in A2;
  destruct (num_le b 60) eqn:B2; try apply num_le_true in B2; try apply num_le_false in B2;
  cbn [andb]; repeat split; lra.
Qed.

Lemma move_force_range_and_monotone_witness :
  PLAYER_MOVE_FORCE * 0.4 <= moveForce 20 /\
  moveForce 20 <= moveForce 90 /\
  moveForce 90 <= PLAYER_MOVE_FORCE * 2.3.
Proof. apply move_force_range_and_monotone; lra. Defined.

Lemma dragMult_range (g : Game) : 0 < dragMult g <= 1.
Proof.
  unfold dragMult, OUTSIDE_DRAG_MULT.
  destruct (num_gt (distToSafeZone g (player g)) (safeZone g)); lra.
Qed.

Lemma moveForce_range (r : R) :
  0 <= r <= 100 -> PLAYER_MOVE_FORCE * 0.4 <= moveForce r <= PLAYER_MOVE_FORCE * 2.3.
Proof.
  intros Hr. unfold moveForce, PLAYER_MOVE_FORCE, SWEET_LOW, SWEET_HIGH, num_ge.
  destruct (num_lt r 40) eqn:H1; [lra|]. apply num_lt_false in H1.
  rewrite (proj2 (num_le_true 40 r) H1). cbn [andb].
  destruct (num_le r 60) eqn:H2; [lra|]. apply num_le_false in H2. lra.
Qed.

(** The movement keys act on a living player only, and the forces of the
    held keys add up to [moveForce * dragMult] times (D - A, S - W).
    Opposite keys cancel, no key gives no force, and with an RPM in [0, 100]
    no component exceeds 2.3 times [PLAYER_MOVE_FORCE]. *)
Theorem player_movement_net (g : Game) :
  let w := if keys_has "w" (keys g) then 1 else 0 in
  let s := if keys_has "s" (keys g) then 1 else 0 in
  let a := if keys_has "a" (keys g) then 1 else 0 in
  let d := if keys_has "d" (keys g) then 1 else 0 in
  (playerAlive g = false -> playerMovement g = []) /\
  (playerAlive g = true ->
     netForce (playerMovement g)
       = mkVec ((d - a) * (moveForce (currentRPM g) * dragMult g))
               ((s - w) * (moveForce (currentRPM g) * dragMult g))) /\
  (keys_has "w" (keys g) = keys_has "s" (keys g) ->
     vy (netForce (playerMovement g)) = 0) /\
  (keys_has "a" (keys g) = keys_has "d" (keys g) ->
     vx (netForce (playerMovement g)) = 0) /\
  (keys g = [] -> playerMovement g = []) /\
  (0 <= currentRPM g <= 100 ->
     Rabs (vx (netForce (playerMovement g))) <= PLAYER_MOVE_FORCE * 2.3 /\
     Rabs (vy (netForce (playerMovement g))) <= PLAYER_MOVE_FORCE * 2.3).
Proof.
  cbn zeta. unfold playerMovement.
  destruct (playerAlive g).
  2:{ cbn. split; [reflexivity|]. split; [discriminate|].
      split; [reflexivity|]. split; [reflexivity|]. split; [reflexivity|].
      intros _. rewrite Rabs_R0. unfold PLAYER_MOVE_FORCE. lra. }
  cbn zeta.
  set (fs := (if keys_has "w" (keys g) then _ else _) ++ _).
  assert (E : netForce fs
    = mkVec (((if keys_has "d" (keys g) then 1 else 0)
              - (if keys_has "a" (keys g) then 1 else 0))
             * (moveForce (currentRPM g) * dragMult g))
            (((if keys_has "s" (keys g) then 1 else 0)
              - (if keys_has "w" (keys g) then 1 else 0))
             * (moveForce (currentRPM g) * dragMult g))).
  { subst fs.
    destruct (keys_has "w" (keys g)), (keys_has "s" (keys g)),
             (keys_has "a" (keys g)), (keys_has "d" (keys g)); cbn; f_equal; lra. }
  split; [discriminate|]. split; [intros _; exact E|]. rewrite E. cbn [vx vy].
  split; [intros ->; lra|]. split; [intros ->; lra|].
  split.
  { intros K. subst fs. rewrite K. reflexivity. }
  intros Hr.
  pose proof (moveForce_range (currentRPM g) Hr) as [Hlo Hhi].
  pose proof (dragMult_range g) as Hd. unfold PLAYER_MOVE_FORCE in *.
  assert (Hm : 0 <= moveForce (currentRPM g) * dragMult g <= 0.004 * 2.3) by nra.
  destruct (keys_has "w" (keys g)), (keys_has "s" (keys g)),
           (keys_has "a" (keys g)), (keys_has "d" (keys g));
    split; apply Rabs_le; lra.
Qed.

(** ** Bowl gravity *)

(** The pull toward the arena centre is a linear spring: no force within 5
    pixels of the centre, and beyond that the force [CENTER_GRAVITY] times the
    vector from the body to the centre, of size [CENTER_GRAVITY] times the
    distance. *)
Theorem center_gravity_linear (b : Body) :
  (dist2Center b <= 5 -> centerGravity b = []) /\
  (5 < dist2Center b ->
     centerGravity b
       = [applyForce b (CENTER_GRAVITY * (CX - vx (position b)))
                       (CENTER_GRAVITY * (CY - vy (position b)))]).
Proof.
  assert (E : sqrt ((CX - vx (position b)) * (CX - vx (position b))
                    + (CY - vy (position b)) * (CY - vy (position b)))
              = dist2Center b).
  { unfold dist2Center. cbn zeta. f_equal. ring. }
  unfold centerGravity. cbn zeta. rewrite E. split; intros H.
  - rewrite (proj2 (num_gt_false _ _) H). reflexivity.
  - rewrite (proj2 (num_gt_true _ _) H). unfold applyForce.
    do 2 f_equal. f_equal; field; lra.
Qed.

(** ** Bot separation *)

Lemma norm_scaled (x y F : R) :
  0 < sqrt (x * x + y * y) -> 0 <= F ->
  norm (mkVec (x / sqrt (x * x + y * y) * F) (y / sqrt (x * x + y * y) * F)) = F.
Proof.
  intros Hl HF. unfold norm. cbn [vx vy].
  set (l := sqrt (x * x + y * y)) in *.
  assert (Hs : 0 <= x * x + y * y) by nra.
  assert (Hl2 : l * l = x * x + y * y) by (apply sqrt_sqrt; exact Hs).
  replace (x / l * F * (x / l * F) + y / l * F * (y / l * F))
    with (F * F * ((x * x + y * y) / (l * l))) by (field; lra).
  rewrite <- Hl2. replace (F * F * (l * l / (l * l))) with (F * F) by (field; lra).
  apply sqrt_square. exact HF.
Qed.

Lemma separationSum_none (bot : Bot) (others : list Bot) (acc : Vec) :
  Forall (fun other =>
            same_body (body other) (body bot) = true \/ alive other = false \/
            BOT_SEPARATION_RADIUS
              <= sqrt ((vx (position (body bot)) - vx (position (body other)))
                       * (vx (position (body bot)) - vx (position (body other)))
                       + (vy (position (body bot)) - vy (position (body other)))
                         * (vy (position (body bot)) - vy (position (body other)))))
         others ->
  separationSum bot others acc = acc.
Proof.
  induction 1 as [|other rest H Hrest IH]; cbn; [reflexivity|].
  destruct (same_body (body other) (body bot)) eqn:Es; cbn; [exact IH|].
  destruct (alive other) eqn:Ea; cbn; [|exact IH].
  destruct H as [H | [H | H]]; try discriminate.
  rewrite (proj2 (num_lt_false _ _) H). cbn. exact IH.
Qed.

(** The anti-clumping push on a bot, when there is one, has exactly the
    size [BOT_SEPARATION_FORCE] whatever the number and distance of the
    neighbours; a bot whose live neighbours are all at least
    [BOT_SEPARATION_RADIUS] away gets none. *)
Theorem separation_force_size (g : Game) (bot : Bot) :
  (forall f, In f (separation g bot) ->
     target f = body bot /\ norm (impulse f) = BOT_SEPARATION_FORCE) /\
  (Forall (fun other =>
             same_body (body other) (body bot) = true \/ alive other = false \/
             BOT_SEPARATION_RADIUS
               <= sqrt ((vx (position (body bot)) - vx (position (body other)))
                        * (vx (position (body bot)) - vx (position (body other)))
                        + (vy (position (body bot)) - vy (position (body other)))
                          * (vy (position (body bot)) - vy (position (body other)))))
          (bots g) ->
   separation g bot = []).
Proof.
  split.
  - intros f. unfold separation. cbn zeta.
    set (sep := separationSum bot (bots g) (mkVec 0 0)).
    destruct (num_gt (sqrt (vx sep * vx sep + vy sep * vy sep)) 0) eqn:Hc;
      [apply num_gt_true in Hc | intros []].
    intros [<- | []]. split; [reflexivity|].
    cbn [impulse applyForce]. apply norm_scaled; [exact Hc|].
    unfold BOT_SEPARATION_FORCE. lra.
  - intros Hfar. unfold separation. cbn zeta.
    rewrite (separationSum_none bot (bots g) (mkVec 0 0) Hfar). cbn [vx vy].
    replace (0 * 0 + 0 * 0) with 0 by lra. rewrite sqrt_0.
    rewrite (proj2 (num_gt_false 0 0)) by lra. reflexivity.
Qed.

(** ** Knockback *)

(** With everything else fixed, a higher attacker RPM never gives a weaker
    knockback, and the knockback of an attacker with non-negative RPM is at
    least [KNOCKBACK_BASE]. *)
Theorem knockback_monotone (g : Game) (r : Roles) (rpm2 : R) :
  0 <= attackerRPM r -> attackerRPM r <= rpm2 ->
  KNOCKBACK_BASE <= finalForce g r /\
  finalForce g r
    <= finalForce g (mkRoles rpm2 (defenderRPM r) (attacker r) (defender r)).
Proof.
  intros H0 Hle.
  set (r2 := mkRoles rpm2 (defenderRPM r) (attacker r) (defender r)).
  assert (Hs : relSpeed r2 = relSpeed r) by reflexivity.
  assert (Hd : isDuelBoss g r2 = isDuelBoss g r) by reflexivity.
  assert (Hw : wobbleDefender r2 = wobbleDefender r) by reflexivity.
  assert (Hrel : 0 <= relSpeed r) by (unfold relSpeed; apply Rabs_pos).
  unfold finalForce, spinForce, bossForce, overSpin. rewrite Hd, Hw.
  unfold baseForce. rewrite Hs. cbn [attackerRPM r2].
  unfold KNOCKBACK_BASE, KNOCKBACK_RPM_MULT, VELOCITY_KNOCKBACK, SWEET_HIGH.
  destruct (num_ge (attackerRPM r) 60) eqn:O1;
    [apply num_ge_true in O1 | apply num_ge_false in O1];
  (destruct (num_ge rpm2 60) eqn:O2;
    [apply num_ge_true in O2 | apply num_ge_false in O2]);
  destruct (isDuelBoss g r), (wobbleDefender r); split; nra.
Qed.

Lemma knockback_monotone_witness :
  KNOCKBACK_BASE <= finalForce spin_session spin_roles /\
  finalForce spin_session spin_roles
    <= finalForce spin_session
         (mkRoles 90 (defenderRPM spin_roles) (attacker spin_roles) (defender spin_roles)).
Proof. apply knockback_monotone; cbn; lra. Defined.

(** ** The player's decay and elimination *)

(** A living player loses [RPM_DECAY_PER_FRAME] per step inside the safe
    zone and [OUTSIDE_DECAY_MULT] times as much outside, never below 0.  The
    player is eliminated exactly when the RPM after the decay is 0 or the
    player is more than 50 beyond the arena radius; the match is then over and
    lost. *)
Theorem player_decay_and_elimination (g : Game) :
  playerAlive g = true ->
  (distToSafeZone g (player g) <= safeZone g -> playerDecay g = RPM_DECAY_PER_FRAME) /\
  (safeZone g < distToSafeZone g (player g) ->
     playerDecay g = RPM_DECAY_PER_FRAME * OUTSIDE_DECAY_MULT) /\
  currentRPM (playerStep g) = Rmax 0 (currentRPM g - playerDecay g) /\
  (playerAlive (playerStep g) = false <->
     currentRPM g <= playerDecay g \/ ARENA_R + 50 < dist2Center (player g)) /\
  (playerAlive (playerStep g) = false ->
     gameOver (playerStep g) = true /\
     phase (playerStep g) = gameover /\
     isWinner (playerStep g) = false).
Proof.
  intros Ha.
  split.
  { intros H. unfold playerDecay. cbn zeta. rewrite (proj2 (num_gt_false _ _) H).
    reflexivity. }
  split.
  { intros H. unfold playerDecay. cbn zeta. rewrite (proj2 (num_gt_true _ _) H).
    reflexivity. }
  unfold playerStep. rewrite Ha.
  set (d := playerDecay g).
  cbn [currentRPM set_currentRPM player].
  destruct (num_le (Rmax 0 (currentRPM g - d)) 0) eqn:Hz;
    [apply num_le_true in Hz | apply num_le_false in Hz].
  - cbn [orb]. cbn. split; [reflexivity|]. split; [|auto].
    split; [intros _|reflexivity]. left.
    unfold Rmax in Hz. destruct (Rle_dec 0 (currentRPM g - d)); lra.
  - cbn [orb].
    destruct (num_gt (dist2Center (player g)) (ARENA_R + 50)) eqn:Ho;
      [apply num_gt_true in Ho | apply num_gt_false in Ho]; cbn.
    + split; [reflexivity|]. split; [|auto].
      split; [intros _; right; exact Ho|reflexivity].
    + split; [reflexivity|]. rewrite Ha. split; [|discriminate].
      split; [discriminate|].
      intros [H | H]; [|lra].
      unfold Rmax in Hz. destruct (Rle_dec 0 (currentRPM g - d)); lra.
Qed.

Lemma player_decay_and_elimination_witness :
  currentRPM (playerStep (initGame arena 1 zero_rng))
  = Rmax 0 (currentRPM (initGame arena 1 zero_rng)
            - playerDecay (initGame arena 1 zero_rng)).
Proof.
  apply (player_decay_and_elimination (initGame arena 1 zero_rng)). reflexivity.
Defined.

Lemma rpm_bounds_of_ok (g : Game) : session_ok g -> 0 <= currentRPM g <= 100.
Proof. intros [[_ Hp _ _ _] _ _]. exact Hp. Qed.

(** ** Projectiles *)

Lemma hit_state_refl (g : Game) : hit_state g g.
Proof. unfold hit_state. auto. Qed.

Lemma projectileHit_hit_state (dmg : R) (g0 g : Game) :
  hit_state g0 g -> 0 <= currentRPM g0 -> 0 <= dmg <= DUEL_BOMB_DMG ->
  hit_state g0 (projectileHit dmg g).
Proof.
  intros (Hf & Hp & Hc) H0 Hd. unfold projectileHit, invulnerable.
  destruct Hc as [[Hr Hs] | (Hi & Hs & Hr)].
  - rewrite Hf, Hs. fold (invulnerable g0).
    destruct (invulnerable g0) eqn:Hi; cbn [negb].
    + unfold hit_state. auto.
    + unfold hit_state. cbn. rewrite Hf, Hr. split; [reflexivity|]. split; [exact Hp|].
      right. split; [exact Hi|]. split; [reflexivity|].
      unfold Rmax. destruct (Rle_dec 0 (currentRPM g0 - dmg)); lra.
  - rewrite Hf, Hs, Z.sub_diag. cbn. unfold hit_state.
    split; [exact Hf|]. split; [exact Hp|]. right. auto.
Qed.

Lemma laserStep_hit_state (g0 g : Game) (l : Laser) :
  hit_state g0 g -> 0 <= currentRPM g0 -> hit_state g0 (fst (laserStep g l)).
Proof.
  intros H H0. unfold laserStep.
  repeat match goal with |- context [if ?c then _ else _] => destruct c end;
    cbn [fst]; try exact H.
  apply projectileHit_hit_state; auto. unfold DUEL_LASER_DMG, DUEL_BOMB_DMG. lra.
Qed.

Lemma bombStep_hit_state (g0 g : Game) (b : Bomb) :
  hit_state g0 g -> 0 <= currentRPM g0 -> hit_state g0 (fst (bombStep g b)).
Proof.
  intros H H0. unfold bombStep.
  destruct (negb (exploded b)); cbn.
  - destruct (timer b - 1 <=? 0)%Z; cbn [fst]; [|exact H].
    match goal with |- context [num_lt ?a ?b] =>
      destruct (num_lt a b) eqn:Hlt; [apply num_lt_true in Hlt|exact H]
    end.
    apply projectileHit_hit_state; auto.
    match type of Hlt with sqrt ?x < _ => pose proof (sqrt_pos x) as Hs end.
    unfold DUEL_BOMB_DMG, DUEL_BOMB_EXPLODE_R in *. lra.
  - destruct (explodeTimer b - 1 <=? 0)%Z; exact H.
Qed.

Lemma lasersLoop_hit_state (ls : list Laser) (g0 g : Game) :
  hit_state g0 g -> 0 <= currentRPM g0 -> hit_state g0 (fst (lasersLoop g ls)).
Proof.
  intros H H0. induction ls as [|l rest IH]; cbn; [exact H|].
  destruct (lasersLoop g rest) as [g1 rest1]. cbn [fst] in IH.
  pose proof (laserStep_hit_state g0 g1 l IH H0) as H2.
  destruct (laserStep g1 l) as [g2 ol]. exact H2.
Qed.

Lemma bombsLoop_hit_state (bs : list Bomb) (g0 g : Game) :
  hit_state g0 g -> 0 <= currentRPM g0 -> hit_state g0 (fst (bombsLoop g bs)).
Proof.
  intros H H0. induction bs as [|b rest IH]; cbn; [exact H|].
  destruct (bombsLoop g rest) as [g1 rest1]. cbn [fst] in IH.
  pose proof (bombStep_hit_state g0 g1 b IH H0) as H2.
  destruct (bombStep g1 b) as [g2 ob]. exact H2.
Qed.

Lemma bossWeapons_hit_state (g : Game) : 0 <= currentRPM g -> hit_state g (bossWeapons g).
Proof.
  intros H0. unfold bossWeapons.
  destruct (mode_eqb (gameMode g) duel && playerAlive g); [|apply hit_state_refl].
  set (g1 := match bots g with
             | boss :: _ => if alive boss then throwBomb (fireLaser g boss) boss else g
             | [] => g
             end).
  assert (H1 : hit_state g g1).
  { subst g1. destruct (bots g) as [|boss rest]; [apply hit_state_refl|].
    destruct (alive boss); [|apply hit_state_refl].
    unfold throwBomb, fireLaser, hit_state.
    repeat match goal with |- context [if ?c then _ else _] => destruct c end;
      cbn; auto. }
  pose proof (lasersLoop_hit_state (duelLasers g1) g g1 H1 H0) as H2.
  destruct (lasersLoop g1 (duelLasers g1)) as [g2 ls]. cbn [fst] in H2.
  assert (H3 : hit_state g (set_duelLasers ls g2)) by exact H2.
  match goal with |- context [bombsLoop ?g3 ?bs] =>
    pose proof (bombsLoop_hit_state bs g g3 H3 H0) as H4;
    destruct (bombsLoop g3 bs) as [g4 bs4]
  end.
  exact H4.
Qed.

(** However many lasers and bombs reach the player in one step, at most one
    of them takes effect: the boss weapons lower the player's RPM by at most
    [DUEL_BOMB_DMG] per step and never raise it, they leave it untouched
    while the player is invulnerable (less than [DUEL_PROJECTILE_INVULN]
    frames after the last hit), and a hit stamps the current frame. *)
Theorem projectiles_hit_once_per_step (g : Game) :
  0 <= currentRPM g ->
  currentRPM g - DUEL_BOMB_DMG <= currentRPM (bossWeapons g) <= currentRPM g /\
  (invulnerable g = true -> currentRPM (bossWeapons g) = currentRPM g) /\
  (currentRPM (bossWeapons g) <> currentRPM g ->
     lastProjectileHitFrame (bossWeapons g) = frameCount g /\
     invulnerable (bossWeapons g) = true).
Proof.
  intros H0. destruct (bossWeapons_hit_state g H0) as (Hf & _ & Hc).
  unfold DUEL_BOMB_DMG in *.
  destruct Hc as [[Hr Hs] | (Hi & Hs & Hr)].
  - rewrite Hr. split; [lra|]. split; [reflexivity|]. intros Hne. contradiction.
  - split; [exact Hr|]. split; [intros Ht; rewrite Ht in Hi; discriminate|].
    intros _. split; [exact Hs|].
    unfold invulnerable. rewrite Hf, Hs, Z.sub_diag. reflexivity.
Qed.

Lemma projectiles_hit_once_per_step_witness :
  currentRPM transition_session - DUEL_BOMB_DMG
    <= currentRPM (bossWeapons transition_session)
    <= currentRPM transition_session.
Proof.
  apply projectiles_hit_once_per_step.
  destruct (rpm_bounds_of_ok transition_session) as [H _].
  - apply reachable_ok. unfold transition_session. apply reach_event.
    apply reach_init. exact fair_zero_rng.
  - exact H.
Defined.

Lemma projectileHit_player (dmg : R) (g : Game) : player (projectileHit dmg g) = player g.
Proof. unfold projectileHit. destruct (negb (invulnerable g)); reflexivity. Qed.

Lemma laserStep_player (g : Game) (l : Laser) : player (fst (laserStep g l)) = player g.
Proof.
  unfold laserStep.
  repeat match goal with |- context [if ?c then _ else _] => destruct c end;
    cbn [fst]; auto using projectileHit_player.
Qed.

Lemma lasersLoop_player (ls : list Laser) (g : Game) :
  player (fst (lasersLoop g ls)) = player g.
Proof.
  induction ls as [|l rest IH]; cbn; [reflexivity|].
  destruct (lasersLoop g rest) as [g1 rest1]. cbn [fst] in IH.
  pose proof (laserStep_player g1 l) as H.
  destruct (laserStep g1 l) as [g2 ol]. cbn [fst] in *. congruence.
Qed.

Lemma laserStep_kept (g : Game) (l l' : Laser) :
  snd (laserStep g l) = Some l' ->
  l' = advance l /\
  (1 <= life l')%Z /\
  0 <= laser_x l' <= CANVAS_W /\
  0 <= laser_y l' <= CANVAS_H /\
  PLAYER_R + 6
    <= sqrt ((laser_x l' - vx (position (player g))) * (laser_x l' - vx (position (player g)))
             + (laser_y l' - vy (position (player g))) * (laser_y l' - vy (position (player g)))).
Proof.
  unfold laserStep. fold (advance l). cbn zeta.
  destruct (num_lt _ (PLAYER_R + 6)) eqn:Hhit; [discriminate|].
  apply num_lt_false in Hhit.
  destruct (life (advance l) <=? 0)%Z eqn:Hl; [discriminate|]. cbn [orb].
  destruct (num_lt (laser_x (advance l)) 0) eqn:H1; [discriminate|]. cbn [orb].
  destruct (num_gt (laser_x (advance l)) CANVAS_W) eqn:H2; [discriminate|]. cbn [orb].
  destruct (num_lt (laser_y (advance l)) 0) eqn:H3; [discriminate|]. cbn [orb].
  destruct (num_gt (laser_y (advance l)) CANVAS_H) eqn:H4; [discriminate|].
  cbn [snd]. intros E. inversion E; subst l'; clear E.
  apply num_lt_false in H1, H3. apply num_gt_false in H2, H4.
  apply Z.leb_gt in Hl.
  repeat split; try assumption; lia.
Qed.

(** After the laser loop of a step, every laser still in flight is one of
    the previous lasers moved by its velocity with one frame less to live; it
    has at least one frame left, lies on the canvas and is not within reach of
    the player (lasers that hit, expire or leave the canvas are removed). *)
Theorem lasers_after_step (g : Game) (ls : list Laser) :
  (List.length (snd (lasersLoop g ls)) <= List.length ls)%nat /\
  forall l', In l' (snd (lasersLoop g ls)) ->
    (exists l, In l ls /\ l' = advance l) /\
    (1 <= life l')%Z /\
    0 <= laser_x l' <= CANVAS_W /\
    0 <= laser_y l' <= CANVAS_H /\
    PLAYER_R + 6
      <= sqrt ((laser_x l' - vx (position (player g))) * (laser_x l' - vx (position (player g)))
               + (laser_y l' - vy (position (player g))) * (laser_y l' - vy (position (player g)))).
Proof.
  induction ls as [|l rest [IHlen IH]]; cbn.
  - split; [lia|]. intros l' [].
  - pose proof (lasersLoop_player rest g) as Hp.
    destruct (lasersLoop g rest) as [g1 rest1]. cbn [fst snd] in *.
    pose proof (laserStep_kept g1 l) as Hk.
    destruct (laserStep g1 l) as [g2 [l1|]]; cbn [snd List.length] in *.
    + split; [lia|]. intros l' [<- | Hin].
      * destruct (Hk l1 eq_refl) as (E & H1 & H2 & H3 & H4).
        rewrite Hp in H4. split; [exists l; auto|]. auto.
      * destruct (IH l' Hin) as ((l0 & Hl0 & E) & Hrest).
        split; [exists l0; auto|exact Hrest].
    + split; [lia|]. intros l' Hin.
      destruct (IH l' Hin) as ((l0 & Hl0 & E) & Hrest).
      split; [exists l0; auto|exact Hrest].
Qed.

(** A bomb can change the session only on the step on which its timer runs
    out: a bomb still counting down, or one already exploded, leaves the
    session as it is.  A bomb that stays in the list is either counting down
    with at least one frame to go, or exploded with between 1 and 20 frames of
    its explosion left to show, and a bomb just thrown counts down from at
    least 30. *)
Theorem bomb_life_cycle (g : Game) (b : Bomb) :
  (exploded b = true -> fst (bombStep g b) = g) /\
  (exploded b = false -> (1 < timer b)%Z -> fst (bombStep g b) = g) /\
  (forall b', snd (bombStep g b) = Some b' ->
     (exploded b' = false -> exploded b = false /\ (1 <= timer b')%Z) /\
     (exploded b' = true ->
        (1 <= explodeTimer b')%Z /\
        ((explodeTimer b <= 20)%Z \/ exploded b = false -> (explodeTimer b' <= 20)%Z) /\
        (exploded b = true -> bomb_x b' = bomb_x b /\ bomb_y b' = bomb_y b))) /\
  (forall boss b', In b' (duelBombs (throwBomb g boss)) ->
     In b' (duelBombs g) \/ (exploded b' = false /\ (30 <= timer b')%Z)).
Proof.
  split; [|split; [|split]].
  - intros He. unfold bombStep. rewrite He. cbn [negb].
    destruct (explodeTimer b - 1 <=? 0)%Z; reflexivity.
  - intros He Ht. unfold bombStep. rewrite He. cbn [negb].
    destruct (timer b - 1 <=? 0)%Z eqn:Hz; [apply Z.leb_le in Hz; lia|reflexivity].
  - intros b'. unfold bombStep.
    destruct (exploded b) eqn:He; cbn [negb].
    + destruct (explodeTimer b - 1 <=? 0)%Z eqn:Hz; [discriminate|].
      apply Z.leb_gt in Hz. cbn [snd]. intros E. inversion E; subst b'; clear E. cbn.
      split; [discriminate|]. intros _. split; [lia|].
      split; [intros [H | H]; [lia|discriminate]|].
      intros _. split; reflexivity.
    + destruct (timer b - 1 <=? 0)%Z eqn:Hz; cbn [snd]; intros E;
        inversion E; subst b'; clear E; cbn.
      * split; [discriminate|]. intros _. split; [lia|].
        split; [intros _; lia|discriminate].
      * apply Z.leb_gt in Hz. split; [intros _; split; [reflexivity|lia]|discriminate].
  - intros boss b'. unfold throwBomb.
    match goal with |- context [if ?c then _ else _] => destruct c end; [|auto].
    cbn. intros Hin. apply in_app_or in Hin. destruct Hin as [Hin | [<- | []]]; [auto|].
    right. cbn. split; [reflexivity|]. lia.
Qed.

(** ** What a fixed step leaves alone

    A field of the session that none of the assignments made by a part of
    the step writes is the same before and after that part. *)
Section Untouched.

Variable A : Type.
Variable proj : Game -> A.

Hypothesis H_player : forall v g, proj (set_player v g) = proj g.
Hypothesis H_bots : forall v g, proj (set_bots v g) = proj g.
Hypothesis H_currentRPM : forall v g, proj (set_currentRPM v g) = proj g.
Hypothesis H_safeZone : forall v g, proj (set_safeZone v g) = proj g.
Hypothesis H_safeZoneCX : forall v g, proj (set_safeZoneCX v g) = proj g.
Hypothesis H_safeZoneCY : forall v g, proj (set_safeZoneCY v g) = proj g.
Hypothesis H_szTargetX : forall v g, proj (set_szTargetX v g) = proj g.
Hypothesis H_szTargetY : forall v g, proj (set_szTargetY v g) = proj g.
Hypothesis H_frameCount : forall v g, proj (set_frameCount v g) = proj g.
Hypothesis H_playerAlive : forall v g, proj (set_playerAlive v g) = proj g.
Hypothesis H_kills : forall v g, proj (set_kills v g) = proj g.
Hypothesis H_nextBotSpawnFrame : forall v g, proj (set_nextBotSpawnFrame v g) = proj g.
Hypothesis H_botSpawnIndex : forall v g, proj (set_botSpawnIndex v g) = proj g.
Hypothesis H_duelRound : forall v g, proj (set_duelRound v g) = proj g.
Hypothesis H_duelLasers : forall v g, proj (set_duelLasers v g) = proj g.
Hypothesis H_duelBombs : forall v g, proj (set_duelBombs v g) = proj g.
Hypothesis H_lastLaserFrame : forall v g, proj (set_lastLaserFrame v g) = proj g.
Hypothesis H_lastBombFrame : forall v g, proj (set_lastBombFrame v g) = proj g.
Hypothesis H_duelBossMaxRPM : forall v g, proj (set_duelBossMaxRPM v g) = proj g.
Hypothesis H_duelTransition : forall v g, proj (set_duelTransition v g) = proj g.
Hypothesis H_duelTransitionTimer :
  forall v g, proj (set_duelTransitionTimer v g) = proj g.
Hypothesis H_lastProjectileHitFrame :
  forall v g, proj (set_lastProjectileHitFrame v g) = proj g.
Hypothesis H_gameOver : forall v g, proj (set_gameOver v g) = proj g.
Hypothesis H_phase : forall v g, proj (set_phase v g) = proj g.
Hypothesis H_isWinner : forall v g, proj (set_isWinner v g) = proj g.
Hypothesis H_rngUsed : forall v g, proj (set_rngUsed v g) = proj g.

Ltac untouched_if :=
  repeat match goal with
         | |- context [if ?c then _ else _] => destruct c
         | |- context [match ?c with Some _ => _ | None => _ end] => destruct c
         end.

Lemma collisionStart_untouched (prs : list (Body * Body)) (g : Game) :
  proj (fst (collisionStart g prs)) = proj g.
Proof.
  revert g. induction prs as [|pr rest IH]; intros g; cbn; [reflexivity|].
  assert (H1 : proj (fst (collidePair g pr)) = proj g).
  { unfold collidePair, applyDrain. destruct pr as [bodyA bodyB].
    untouched_if; cbn [fst]; rewrite ?H_currentRPM, ?H_bots; reflexivity. }
  destruct (collidePair g pr) as [g1 fs1]. cbn [fst] in H1.
  specialize (IH g1). destruct (collisionStart g1 rest) as [g2 fs2]. cbn [fst] in *.
  congruence.
Qed.

Lemma engineUpdate_untouched (ph : Physics) (g : Game) :
  proj (engineUpdate ph g) = proj g.
Proof.
  unfold engineUpdate. rewrite H_player, H_bots. apply collisionStart_untouched.
Qed.

Lemma spawnSurvivalBot_untouched (g : Game) : proj (spawnSurvivalBot g) = proj g.
Proof.
  unfold spawnSurvivalBot, random. untouched_if; [|reflexivity].
  cbn zeta. rewrite H_nextBotSpawnFrame, H_botSpawnIndex, H_bots, !H_rngUsed.
  reflexivity.
Qed.

Lemma playerStep_untouched (g : Game) : proj (playerStep g) = proj g.
Proof.
  unfold playerStep. untouched_if;
    rewrite ?H_isWinner, ?H_phase, ?H_gameOver, ?H_playerAlive, ?H_currentRPM;
    reflexivity.
Qed.

Lemma safeZoneStep_untouched (g : Game) : proj (safeZoneStep g) = proj g.
Proof.
  unfold safeZoneStep, safeZoneDrift, safeZoneShrink, random. untouched_if; cbn zeta;
    rewrite ?H_szTargetY, ?H_szTargetX, ?H_rngUsed, ?H_safeZoneCY, ?H_safeZoneCX,
            ?H_safeZone;
    reflexivity.
Qed.

Lemma eliminateBot_untouched (g : Game) (bot : Bot) :
  proj (fst (eliminateBot g bot)) = proj g.
Proof.
  unfold eliminateBot, duelRoundReset. untouched_if; cbn [fst];
    rewrite ?H_duelBombs, ?H_duelLasers, ?H_safeZoneCY, ?H_safeZoneCX, ?H_safeZone,
            ?H_currentRPM, ?H_player, ?H_duelBossMaxRPM, ?H_duelTransitionTimer,
            ?H_duelTransition, ?H_duelRound, ?H_isWinner, ?H_phase, ?H_gameOver,
            ?H_kills;
    reflexivity.
Qed.

Lemma botHousekeeping_untouched (g : Game) (bot : Bot) :
  proj (fst (botHousekeeping g bot)) = proj g.
Proof.
  unfold botHousekeeping, botSpin, botEmergencySpin, random. cbn zeta.
  untouched_if; cbn [fst]; rewrite ?H_rngUsed; reflexivity.
Qed.

Lemma botStep_untouched (g : Game) (bot : Bot) :
  proj (fst (fst (botStep g bot))) = proj g.
Proof.
  unfold botStep. destruct (negb (alive bot)); [reflexivity|].
  match goal with |- context [if ?c then _ else _] => destruct c end.
  - pose proof (eliminateBot_untouched g bot) as H.
    destruct (eliminateBot g bot) as [g1 bot1]. exact H.
  - pose proof (botHousekeeping_untouched g bot) as H.
    destruct (botHousekeeping g bot) as [g1 bot1]. exact H.
Qed.

Lemma botLoop_untouched (todo : list Bot) (g : Game) :
  proj (fst (fst (botLoop g todo))) = proj g.
Proof.
  revert g. induction todo as [|bot rest IH]; intros g; cbn; [reflexivity|].
  pose proof (botStep_untouched g bot) as H1.
  destruct (botStep g bot) as [[g1 bot1] counted]. cbn [fst] in H1.
  specialize (IH g1). destruct (botLoop g1 rest) as [[g2 rest1] n]. cbn [fst] in *.
  congruence.
Qed.

Lemma botAI_untouched (g : Game) : proj (fst (botAI g)) = proj g.
Proof.
  unfold botAI. pose proof (botLoop_untouched (bots g) g) as H.
  destruct (botLoop g (bots g)) as [[g1 bs] n]. cbn [fst] in *.
  rewrite H_bots. exact H.
Qed.

Lemma projectileHit_untouched (dmg : R) (g : Game) : proj (projectileHit dmg g) = proj g.
Proof.
  unfold projectileHit. untouched_if;
    rewrite ?H_lastProjectileHitFrame, ?H_currentRPM; reflexivity.
Qed.

Lemma lasersLoop_untouched (ls : list Laser) (g : Game) :
  proj (fst (lasersLoop g ls)) = proj g.
Proof.
  induction ls as [|l rest IH]; cbn; [reflexivity|].
  destruct (lasersLoop g rest) as [g1 rest1]. cbn [fst] in IH.
  assert (H : proj (fst (laserStep g1 l)) = proj g1).
  { unfold laserStep. untouched_if; cbn [fst]; auto using projectileHit_untouched. }
  destruct (laserStep g1 l) as [g2 ol]. cbn [fst] in *. congruence.
Qed.

Lemma bombsLoop_untouched (bs : list Bomb) (g : Game) :
  proj (fst (bombsLoop g bs)) = proj g.
Proof.
  induction bs as [|b rest IH]; cbn; [reflexivity|].
  destruct (bombsLoop g rest) as [g1 rest1]. cbn [fst] in IH.
  assert (H : proj (fst (bombStep g1 b)) = proj g1).
  { unfold bombStep. untouched_if; cbn [fst]; auto using projectileHit_untouched. }
  destruct (bombStep g1 b) as [g2 ob]. cbn [fst] in *. congruence.
Qed.

Lemma fireLaser_untouched (g : Game) (boss : Bot) : proj (fireLaser g boss) = proj g.
Proof.
  unfold fireLaser. untouched_if; cbn zeta;
    rewrite ?H_duelLasers, ?H_lastLaserFrame; reflexivity.
Qed.

Lemma throwBomb_untouched (g : Game) (boss : Bot) : proj (throwBomb g boss) = proj g.
Proof.
  unfold throwBomb. untouched_if; cbn zeta;
    rewrite ?H_duelBombs, ?H_lastBombFrame; reflexivity.
Qed.

Lemma bossWeapons_untouched (g : Game) : proj (bossWeapons g) = proj g.
Proof.
  unfold bossWeapons.
  destruct (mode_eqb (gameMode g) duel && playerAlive g); [|reflexivity].
  set (g1 := match bots g with
             | boss :: _ => if alive boss then throwBomb (fireLaser g boss) boss else g
             | [] => g
             end).
  assert (H1 : proj g1 = proj g).
  { subst g1. destruct (bots g) as [|boss rest]; [reflexivity|].
    destruct (alive boss); [|reflexivity].
    rewrite throwBomb_untouched. apply fireLaser_untouched. }
  pose proof (lasersLoop_untouched (duelLasers g1) g1) as H2.
  destruct (lasersLoop g1 (duelLasers g1)) as [g2 ls]. cbn [fst] in H2.
  match goal with |- context [bombsLoop ?g3 ?bs] =>
    pose proof (bombsLoop_untouched bs g3) as H4;
    destruct (bombsLoop g3 bs) as [g4 bs4]
  end.
  cbn [fst] in H4. rewrite H_duelBombs, H4, H_duelLasers. congruence.
Qed.

Lemma updateAliveCount_untouched (n : Z) (g : Game) :
  proj (updateAliveCount n g) = proj g.
Proof.
  unfold updateAliveCount. destruct (phase g); try reflexivity.
  untouched_if; rewrite ?H_isWinner, ?H_phase, ?H_gameOver; reflexivity.
Qed.

(** The step proper, after the frame counter has been advanced. *)
Lemma afterFrame_untouched (ph : Physics) (g : Game) :
  proj (let (g6, aliveCount) :=
          botAI (safeZoneStep (playerStep (spawnSurvivalBot (engineUpdate ph g)))) in
        updateAliveCount aliveCount (bossWeapons g6))
  = proj g.
Proof.
  pose proof (botAI_untouched
                (safeZoneStep (playerStep (spawnSurvivalBot (engineUpdate ph g))))) as H.
  destruct (botAI _) as [g6 aliveCount]. cbn [fst] in H.
  rewrite updateAliveCount_untouched, bossWeapons_untouched, H.
  rewrite safeZoneStep_untouched, playerStep_untouched, spawnSurvivalBot_untouched.
  apply engineUpdate_untouched.
Qed.

Lemma fixedStep_untouched (isGameOver : bool) (ph : Physics) (g : Game) :
  proj (fixedStep isGameOver ph g) = proj g.
Proof.
  unfold fixedStep. destruct isGameOver; [reflexivity|].
  destruct (duelTransition g).
  - match goal with |- context [if ?c then _ else _] => destruct c end;
      rewrite ?H_duelTransition, ?H_duelTransitionTimer; reflexivity.
  - cbn zeta. rewrite afterFrame_untouched. apply H_frameCount.
Qed.

End Untouched.

Ltac by_untouched lem := apply lem; intros; reflexivity.

(** ** The keyboard state *)

Lemma onKeyDown_keys (key : string) (g : Game) :
  keys (onKeyDown key g)
  = if duelTransition g then keys g
    else if includes "wasd" (toLowerCase key) && (String.length (toLowerCase key) =? 1)%nat
         then keys_add (toLowerCase key) (keys g)
         else keys g.
Proof.
  unfold onKeyDown. destruct (duelTransition g); [reflexivity|].
  destruct (includes "wasd" (toLowerCase key) && (String.length (toLowerCase key) =? 1)%nat);
    repeat match goal with |- context [if ?c then _ else _] => destruct c end; reflexivity.
Qed.

Lemma keys_has_add (k k' : string) (ks : list string) :
  keys_has k' (keys_add k ks) = String.eqb k' k || keys_has k' ks.
Proof.
  unfold keys_has, keys_add.
  destruct (existsb (String.eqb k) ks) eqn:He.
  - destruct (String.eqb k' k) eqn:Ek; [|reflexivity].
    apply String.eqb_eq in Ek. subst k'. rewrite He. reflexivity.
  - rewrite existsb_app. cbn. rewrite orb_false_r. apply orb_comm.
Qed.

Lemma keys_has_delete (k k' : string) (ks : list string) :
  keys_has k' (keys_delete k ks) = negb (String.eqb k' k) && keys_has k' ks.
Proof.
  unfold keys_has, keys_delete. induction ks as [|x rest IH]; cbn.
  - rewrite andb_false_r. reflexivity.
  - destruct (String.eqb k x) eqn:Ekx; cbn.
    + apply String.eqb_eq in Ekx. subst x. rewrite IH.
      destruct (String.eqb k' k); reflexivity.
    + rewrite IH. destruct (String.eqb k' x) eqn:Ex; cbn; [|reflexivity].
      apply String.eqb_eq in Ex. subst x.
      rewrite String.eqb_sym, Ekx. reflexivity.
Qed.

(** Releasing a key takes it out of the key set, also during a round
    transition, and touches neither the other keys nor the RPM; pressing a key
    touches no other key, and pressing it a second time changes nothing in
    the key set. *)
Theorem key_press_release (g : Game) (key : string) :
  keys_has (toLowerCase key) (keys (onKeyUp key g)) = false /\
  (forall k', k' <> toLowerCase key ->
     keys_has k' (keys (onKeyUp key g)) = keys_has k' (keys g) /\
     keys_has k' (keys (onKeyDown key g)) = keys_has k' (keys g)) /\
  keys_has (toLowerCase key) (keys (onKeyUp key (onKeyDown key g))) = false /\
  keys (onKeyDown key (onKeyDown key g)) = keys (onKeyDown key g) /\
  currentRPM (onKeyUp key g) = currentRPM g /\
  lastSpinKey (onKeyUp key g) = lastSpinKey g.
Proof.
  assert (Hup : forall g0, keys_has (toLowerCase key) (keys (onKeyUp key g0)) = false).
  { intros g0. unfold onKeyUp. cbn [keys set_keys]. rewrite keys_has_delete.
    rewrite String.eqb_refl. reflexivity. }
  split; [apply Hup|]. split; [|split; [apply Hup|split; [|split; reflexivity]]].
  - intros k' Hne. apply String.eqb_neq in Hne. split.
    + unfold onKeyUp. cbn [keys set_keys]. rewrite keys_has_delete, Hne. reflexivity.
    + rewrite onKeyDown_keys. destruct (duelTransition g); [reflexivity|].
      destruct (includes "wasd" (toLowerCase key)
                && (String.length (toLowerCase key) =? 1)%nat); [|reflexivity].
      rewrite keys_has_add, Hne. reflexivity.
  - rewrite !onKeyDown_keys.
    assert (Ht : duelTransition (onKeyDown key g) = duelTransition g).
    { unfold onKeyDown. destruct (duelTransition g) eqn:Ht0; [exact Ht0|].
      repeat match goal with |- context [if ?c then _ else _] => destruct c end;
        exact Ht0. }
    rewrite Ht. destruct (duelTransition g); [reflexivity|].
    destruct (includes "wasd" (toLowerCase key) && (String.length (toLowerCase key) =? 1)%nat);
      [|reflexivity].
    unfold keys_add at 1.
    assert (Hin : existsb (String.eqb (toLowerCase key))
                    (keys_add (toLowerCase key) (keys g)) = true).
    { change (keys_has (toLowerCase key) (keys_add (toLowerCase key) (keys g)) = true).
      rewrite keys_has_add, String.eqb_refl. reflexivity. }
    rewrite Hin. reflexivity.
Qed.

Lemma includes_wasd_move_key (k : string) :
  includes "wasd" k && (String.length k =? 1)%nat = true -> move_key k = true.
Proof.
  destruct k as [|c [|c2 rest]]; cbn [String.length Nat.eqb];
    [rewrite andb_false_r; discriminate | | rewrite andb_false_r; discriminate].
  rewrite andb_true_r.
  destruct c as [[] [] [] [] [] [] [] []]; vm_compute; intros H;
    first [reflexivity | discriminate H].
Qed.

Lemma keys_add_NoDup (k : string) (ks : list string) :
  NoDup ks -> NoDup (keys_add k ks).
Proof.
  intros H. unfold keys_add. destruct (existsb (String.eqb k) ks) eqn:He; [exact H|].
  apply NoDup_app; [exact H|constructor; [intros []|constructor]|].
  intros x Hin [E | []]. subst x.
  assert (Ht : existsb (String.eqb k) ks = true).
  { apply existsb_exists. exists k. split; [exact Hin|apply String.eqb_refl]. }
  congruence.
Qed.

(** In every reachable session the key set holds movement keys only, each
    at most once, and the last accepted spin key is "j", "k" or, before the
    first spin, the empty string. *)
Theorem keyboard_state_invariant (g : Game) :
  reachable g ->
  NoDup (keys g) /\
  Forall (fun k => move_key k = true) (keys g) /\
  (lastSpinKey g = ""%string \/ lastSpinKey g = "j"%string \/ lastSpinKey g = "k"%string).
Proof.
  induction 1 as [mode botCount rnd Hf | g e Hr (Hnd & Hmv & Hsp)].
  - assert (Hk : keys (initGame mode botCount rnd) = [] /\
                 lastSpinKey (initGame mode botCount rnd) = ""%string).
    { unfold initGame. set (g0 := mkGame _ _ _ _ _ _ _ _ _ _ _ _ _ _ _ _ _ _ _ _ _ _ _ _ _ _ _ _ _ _).
      destruct mode; cbn [random]; try (split; reflexivity).
      assert (Ha : forall count i g1, keys (snd (arenaBots botCount i count g1)) = keys g1 /\
                     lastSpinKey (snd (arenaBots botCount i count g1)) = lastSpinKey g1).
      { induction count as [|count IH]; intros i g1; cbn; [auto|].
        specialize (IH (S i) (set_rngUsed (S (rngUsed (set_rngUsed (S (rngUsed g1)) g1)))
                                (set_rngUsed (S (rngUsed g1)) g1))).
        destruct (arenaBots botCount (S i) count _) as [rest g3]. cbn in *. exact IH. }
      specialize (Ha botCount 0%nat g0).
      destruct (arenaBots botCount 0 botCount g0) as [roster g1]. cbn in *. exact Ha. }
    destruct Hk as [-> ->]. split; [constructor|]. split; [constructor|auto].
  - destruct e as [key | key | isGameOver ph | ]; cbn [react].
    4:{ rewrite (togglePause_field _ keys), (togglePause_field _ lastSpinKey)
          by (intros; reflexivity).
        auto. }
    + rewrite !(handlePause_field _ keys), !(handlePause_field _ lastSpinKey)
        by (intros; reflexivity).
      split; [|split].
      * rewrite onKeyDown_keys.
        repeat match goal with |- context [if ?c then _ else _] => destruct c end;
          auto using keys_add_NoDup.
      * rewrite onKeyDown_keys. destruct (duelTransition g); [exact Hmv|].
        destruct (includes "wasd" (toLowerCase key)
                  && (String.length (toLowerCase key) =? 1)%nat) eqn:Hm; [|exact Hmv].
        unfold keys_add. destruct (existsb _ _); [exact Hmv|].
        apply Forall_app. split; [exact Hmv|].
        constructor; [apply includes_wasd_move_key; exact Hm|constructor].
      * unfold onKeyDown. destruct (duelTransition g); [exact Hsp|].
        match goal with |- context [set_keys ?a ?b] =>
          assert (Hl : forall c : bool, lastSpinKey (if c then set_keys a b else g)
                                        = lastSpinKey g) by (intros []; reflexivity)
        end.
        destruct (String.eqb (toLowerCase key) "j") eqn:Ej;
          destruct (String.eqb (toLowerCase key) "k") eqn:Ek; cbn [orb andb];
          repeat match goal with |- context [if ?c then _ else _] => destruct c end;
          cbn [lastSpinKey set_lastSpinKey set_currentRPM set_keys]; try exact Hsp;
          try (apply String.eqb_eq in Ej; rewrite Ej; auto);
          try (apply String.eqb_eq in Ek; rewrite Ek; auto).
    + unfold onKeyUp. cbn [keys set_keys lastSpinKey].
      split; [apply NoDup_filter; exact Hnd|]. split; [|exact Hsp].
      unfold keys_delete. apply Forall_forall. intros x Hin.
      apply filter_In in Hin. destruct Hin as [Hin _].
      rewrite Forall_forall in Hmv. auto.
    + rewrite (fixedStep_untouched _ keys) by (intros; reflexivity).
      rewrite (fixedStep_untouched _ lastSpinKey) by (intros; reflexivity).
      auto.
Qed.

Lemma keyboard_state_invariant_witness :
  NoDup (keys (react (KeyDown "w") (initGame arena 2 zero_rng))).
Proof.
  apply (keyboard_state_invariant (react (KeyDown "w") (initGame arena 2 zero_rng))).
  apply reach_event. apply reach_init. exact fair_zero_rng.
Defined.

(** ** The outcome of a match *)

Lemma outcome_same (g g' : Game) :
  outcome g' = outcome g -> (outcome_ok g -> outcome_ok g') /\ settled g g'.
Proof.
  unfold outcome, outcome_ok, settled. intros E. inversion E as [[E1 E2 E3 E4 E5]].
  rewrite E1, E2, E3, E4, E5. tauto.
Qed.

Lemma settled_trans (g1 g2 g3 : Game) : settled g1 g2 -> settled g2 g3 -> settled g1 g3.
Proof.
  unfold settled. intros (A1 & A2 & A3 & A4) (B1 & B2 & B3 & B4).
  repeat split; auto; congruence.
Qed.

Ltac outcome_by lem :=
  apply outcome_same; unfold outcome;
  rewrite (lem _ playerAlive), (lem _ gameOver), (lem _ phase), (lem _ isWinner),
          (lem _ gameMode);
  intros; reflexivity.

Lemma playerStep_outcome (g : Game) :
  (outcome_ok g -> outcome_ok (playerStep g)) /\ settled g (playerStep g).
Proof.
  unfold playerStep, outcome_ok, settled.
  destruct (playerAlive g) eqn:Ha; [|tauto].
  match goal with |- context [if ?c then _ else _] => destruct c end; cbn.
  - repeat split; intros; auto; try discriminate. 
  - rewrite Ha. tauto.
Qed.

Lemma eliminateBot_outcome (g : Game) (bot : Bot) :
  (outcome_ok g -> outcome_ok (fst (eliminateBot g bot))) /\
  settled g (fst (eliminateBot g bot)).
Proof.
  unfold eliminateBot, duelRoundReset, outcome_ok, settled.
  cbn [gameMode set_kills duelRound].
  destruct (mode_eqb (gameMode g) duel) eqn:Hm; [|cbn; tauto].
  destruct (duelRound g <? 3)%Z; cbn; [tauto|].
  assert (Hd : gameMode g <> survival)
    by (destruct (gameMode g); try discriminate).
  split; [|tauto].
  intros (H1 & H2 & H3 & H4). repeat split; auto.
Qed.

Lemma botStep_outcome (g : Game) (bot : Bot) :
  (outcome_ok g -> outcome_ok (fst (fst (botStep g bot)))) /\
  settled g (fst (fst (botStep g bot))).
Proof.
  unfold botStep. destruct (negb (alive bot)); [apply outcome_same; reflexivity|].
  match goal with |- context [if ?c then _ else _] => destruct c end.
  - pose proof (eliminateBot_outcome g bot) as H.
    destruct (eliminateBot g bot) as [g1 bot1]. exact H.
  - assert (H : (outcome_ok g -> outcome_ok (fst (botHousekeeping g bot))) /\
                settled g (fst (botHousekeeping g bot)))
      by (outcome_by botHousekeeping_untouched).
    destruct (botHousekeeping g bot) as [g1 bot1]. exact H.
Qed.

Lemma botLoop_outcome (todo : list Bot) (g : Game) :
  (outcome_ok g -> outcome_ok (fst (fst (botLoop g todo)))) /\
  settled g (fst (fst (botLoop g todo))).
Proof.
  revert g. induction todo as [|bot rest IH]; intros g; cbn.
  - apply outcome_same. reflexivity.
  - pose proof (botStep_outcome g bot) as [H1 S1].
    destruct (botStep g bot) as [[g1 bot1] counted]. cbn [fst] in *.
    specialize (IH g1) as [H2 S2].
    destruct (botLoop g1 rest) as [[g2 rest1] n]. cbn [fst] in *.
    split; [auto|]. eapply settled_trans; eassumption.
Qed.

Lemma updateAliveCount_outcome (n : Z) (g : Game) :
  (outcome_ok g -> outcome_ok (updateAliveCount n g)) /\
  settled g (updateAliveCount n g).
Proof.
  unfold updateAliveCount, outcome_ok, settled.
  destruct (phase g) eqn:Hp; try (cbn; rewrite ?Hp; tauto).
  destruct (mode_eqb (gameMode g) arena && (n =? 0)%Z && playerAlive g) eqn:Hwin.
  - apply andb_prop in Hwin. destruct Hwin as [Hwin Ha].
    apply andb_prop in Hwin. destruct Hwin as [Hmode _].
    assert (Hd : gameMode g <> survival)
      by (destruct (gameMode g); try discriminate).
    cbn. rewrite Ha.
    repeat split; intros; auto; try discriminate.
  - destruct (mode_eqb (gameMode g) survival && negb (playerAlive g)) eqn:Hlose.
    + apply andb_prop in Hlose. destruct Hlose as [_ Ha].
      apply negb_true_iff in Ha. cbn. rewrite Ha.
      repeat split; intros; auto; try discriminate.
      * tauto.
      * tauto.
    + rewrite Hp. tauto.
Qed.

Lemma fixedStep_outcome (isGameOver : bool) (ph : Physics) (g : Game) :
  (outcome_ok g -> outcome_ok (fixedStep isGameOver ph g)) /\
  settled g (fixedStep isGameOver ph g).
Proof.
  unfold fixedStep. destruct isGameOver; [apply outcome_same; reflexivity|].
  destruct (duelTransition g).
  - match goal with |- context [if ?c then _ else _] => destruct c end;
      apply outcome_same; reflexivity.
  - cbn zeta.
    set (g1 := set_frameCount (frameCount g + 1)%Z g).
    assert (O1 : (outcome_ok g -> outcome_ok g1) /\ settled g g1)
      by (apply outcome_same; reflexivity).
    assert (O2 : (outcome_ok g1 -> outcome_ok (engineUpdate ph g1)) /\
                 settled g1 (engineUpdate ph g1)).
    { outcome_by engineUpdate_untouched. }
    set (g2 := engineUpdate ph g1) in *.
    assert (O3 : (outcome_ok g2 -> outcome_ok (spawnSurvivalBot g2)) /\
                 settled g2 (spawnSurvivalBot g2)).
    { outcome_by spawnSurvivalBot_untouched. }
    set (g3 := spawnSurvivalBot g2) in *.
    pose proof (playerStep_outcome g3) as O4.
    set (g4 := playerStep g3) in *.
    assert (O5 : (outcome_ok g4 -> outcome_ok (safeZoneStep g4)) /\
                 settled g4 (safeZoneStep g4)).
    { outcome_by safeZoneStep_untouched. }
    set (g5 := safeZoneStep g4) in *.
    assert (O6 : (outcome_ok g5 -> outcome_ok (fst (botAI g5))) /\
                 settled g5 (fst (botAI g5))).
    { unfold botAI. pose proof (botLoop_outcome (bots g5) g5) as H.
      destruct (botLoop g5 (bots g5)) as [[g6 bs] n]. cbn [fst] in *.
      destruct H as [H S]. split; [exact H|exact S]. }
    destruct (botAI g5) as [g6 aliveCount]. cbn [fst] in O6.
    assert (O7 : (outcome_ok g6 -> outcome_ok (bossWeapons g6)) /\
                 settled g6 (bossWeapons g6)).
    { outcome_by bossWeapons_untouched. }
    pose proof (updateAliveCount_outcome aliveCount (bossWeapons g6)) as O8.
    destruct O1 as [A1 B1], O2 as [A2 B2], O3 as [A3 B3], O4 as [A4 B4],
             O5 as [A5 B5], O6 as [A6 B6], O7 as [A7 B7], O8 as [A8 B8].
    split; [auto 10|].
    apply (settled_trans _ _ _ B1). apply (settled_trans _ _ _ B2).
    apply (settled_trans _ _ _ B3). apply (settled_trans _ _ _ B4).
    apply (settled_trans _ _ _ B5). apply (settled_trans _ _ _ B6).
    apply (settled_trans _ _ _ B7). exact B8.
Qed.

Lemma arenaBots_shape (botCount count i : nat) (g : Game) :
  exists n, snd (arenaBots botCount i count g) = set_rngUsed n g.
Proof.
  revert i g. induction count as [|count IH]; intros i g; cbn.
  - exists (rngUsed g). symmetry. apply set_rngUsed_same.
  - specialize (IH (S i) (set_rngUsed (S (rngUsed (set_rngUsed (S (rngUsed g)) g)))
                            (set_rngUsed (S (rngUsed g)) g))).
    destruct (arenaBots botCount (S i) count _) as [rest g3]. cbn [snd] in *.
    destruct IH as [n IH]. exists n. rewrite IH. reflexivity.
Qed.

(** [initGame] is the initial record with the roster, the two drift
    targets and the count of draws filled in. *)
Lemma initGame_shape (mode : GameMode) (botCount : nat) (rnd : nat -> R) :
  exists roster tx ty n,
    initGame mode botCount rnd
    = set_szTargetY ty (set_szTargetX tx (set_bots roster (set_rngUsed n
        (mkGame (mkBody 0 player_label (mkVec CX CY) (mkVec 0 0)) []
           STARTING_RPM SAFE_ZONE_INITIAL CX CY CX CY [] EmptyString 0%Z true mode 0%Z
           SURVIVAL_SPAWN_INTERVAL 0%nat 1%Z [] [] 0%Z 0%Z BOSS_RPM false 0%Z (-999)%Z
           false playing false rnd 0%nat)))) /\
    roster = match mode with
             | arena => fst (arenaBots botCount 0 botCount
                 (mkGame (mkBody 0 player_label (mkVec CX CY) (mkVec 0 0)) []
                    STARTING_RPM SAFE_ZONE_INITIAL CX CY CX CY [] EmptyString 0%Z true mode
                    0%Z SURVIVAL_SPAWN_INTERVAL 0%nat 1%Z [] [] 0%Z 0%Z BOSS_RPM false 0%Z
                    (-999)%Z false playing false rnd 0%nat))
             | survival => []
             | duel => [bossBot]
             end.
Proof.
  unfold initGame.
  set (g0 := mkGame _ _ _ _ _ _ _ _ _ _ _ _ _ _ _ _ _ _ _ _ _ _ _ _ _ _ _ _ _ _).
  destruct mode.
  - destruct (arenaBots_shape botCount botCount 0 g0) as [n Hn].
    destruct (arenaBots botCount 0 botCount g0) as [roster g1]. cbn [snd fst] in *.
    subst g1. cbn. do 4 eexists. split; reflexivity.
  - cbn. do 4 eexists. split; reflexivity.
  - cbn. do 4 eexists. split; reflexivity.
Qed.






(** ** The roster *)

Lemma labelled_same_idents (k : nat) (bs bs' : list Bot) :
  map (fun b => ident (body b)) bs' = map (fun b => ident (body b)) bs ->
  labelled k bs -> labelled k bs'.
Proof.
  revert k bs'. induction bs as [|b rest IH]; intros k [|b' rest'] E H;
    try discriminate; cbn in *; [exact I|].
  inversion E as [[E1 E2 E3]]. destruct H as (H1 & H2 & H3).
  repeat split; try congruence. eapply IH; eassumption.
Qed.

Lemma labelled_app (k : nat) (bs bs2 : list Bot) :
  labelled k bs -> labelled (k + List.length bs) bs2 -> labelled k (bs ++ bs2).
Proof.
  revert k. induction bs as [|b rest IH]; intros k H H2; cbn in *.
  - rewrite Nat.add_0_r in H2. exact H2.
  - destruct H as (H1 & H3 & H4). repeat split; auto.
    apply IH; [exact H4|]. rewrite <- Nat.add_succ_comm in H2. exact H2.
Qed.

Lemma labelled_nth (bs : list Bot) (k i : nat) (b : Bot) :
  labelled k bs -> nth_error bs i = Some b ->
  handle (body b) = S (k + i) /\ label (body b) = bot_label (k + i).
Proof.
  revert k i. induction bs as [|b0 rest IH]; intros k [|i] H E; cbn in *;
    try discriminate.
  - inversion E; subst. destruct H as (H1 & H2 & _). rewrite Nat.add_0_r. auto.
  - destruct H as (_ & _ & H3). destruct (IH (S k) i H3 E) as [A B].
    rewrite <- Nat.add_succ_comm. auto.
Qed.

Lemma labelled_find (bs : list Bot) (k i : nat) (b : Bot) :
  labelled k bs -> nth_error bs i = Some b -> alive b = true ->
  findAlive bs (body b) = Some b.
Proof.
  revert k i. induction bs as [|b0 rest IH]; intros k [|i] H E Ha;
    cbn [nth_error labelled] in *; try discriminate.
  - inversion E; subst. unfold findAlive, same_body. cbn [find].
    rewrite Nat.eqb_refl, Ha. reflexivity.
  - destruct H as (H1 & _ & H3).
    destruct (labelled_nth rest (S k) i b H3 E) as [Hb _].
    assert (Hs : same_body (body b0) (body b) = false).
    { unfold same_body. rewrite H1, Hb. apply Nat.eqb_neq. lia. }
    unfold findAlive in *. cbn [find]. rewrite Hs. cbn [andb].
    apply (IH (S k) i); assumption.
Qed.

Lemma updateFirst_idents (p : Bot -> bool) (f : Bot -> Bot) (bs : list Bot) :
  (forall b, body (f b) = body b) ->
  map (fun b => ident (body b)) (updateFirst p f bs) = map (fun b => ident (body b)) bs.
Proof.
  intros Hf. induction bs as [|b rest IH]; cbn; [reflexivity|].
  destruct (p b); cbn; [rewrite Hf; reflexivity|]. rewrite IH. reflexivity.
Qed.

Lemma collisionStart_idents (prs : list (Body * Body)) (g : Game) :
  map (fun b => ident (body b)) (bots (fst (collisionStart g prs)))
  = map (fun b => ident (body b)) (bots g).
Proof.
  revert g. induction prs as [|pr rest IH]; intros g; cbn; [reflexivity|].
  assert (H1 : map (fun b => ident (body b)) (bots (fst (collidePair g pr)))
               = map (fun b => ident (body b)) (bots g)).
  { unfold collidePair, applyDrain. destruct pr as [bodyA bodyB].
    repeat match goal with
           | |- context [if ?c then _ else _] => destruct c
           | |- context [match ?c with Some _ => _ | None => _ end] => destruct c
           end; cbn [fst bots set_bots set_currentRPM]; try reflexivity.
    apply updateFirst_idents. reflexivity. }
  destruct (collidePair g pr) as [g1 fs1]. cbn [fst] in H1.
  specialize (IH g1). destruct (collisionStart g1 rest) as [g2 fs2]. cbn [fst] in *.
  congruence.
Qed.

Lemma botStep_ident (g : Game) (bot : Bot) :
  ident (body (snd (fst (botStep g bot)))) = ident (body bot) /\
  ident (player (fst (fst (botStep g bot)))) = ident (player g).
Proof.
  unfold botStep. destruct (negb (alive bot)); [auto|].
  match goal with |- context [if ?c then _ else _] => destruct c end.
  - unfold eliminateBot, duelRoundReset. cbn [gameMode set_kills duelRound].
    repeat match goal with |- context [if ?c then _ else _] => destruct c end;
      cbn; auto.
  - assert (Hb : body (snd (botHousekeeping g bot)) = body bot).
    { unfold botHousekeeping. cbn zeta.
      destruct (botSpin _ _ _) as [r4 g1]. destruct (botEmergencySpin _ _ _) as [r5 g2].
      reflexivity. }
    pose proof (botHousekeeping_untouched _ player) as Hp.
    specialize (Hp (fun _ _ => eq_refl) g bot).
    destruct (botHousekeeping g bot) as [g1 bot1]. cbn [fst snd] in *.
    rewrite Hb, Hp. auto.
Qed.

Lemma botLoop_idents (todo : list Bot) (g : Game) :
  map (fun b => ident (body b)) (snd (fst (botLoop g todo)))
  = map (fun b => ident (body b)) todo /\
  ident (player (fst (fst (botLoop g todo)))) = ident (player g).
Proof.
  revert g. induction todo as [|bot rest IH]; intros g; cbn; [auto|].
  pose proof (botStep_ident g bot) as [H1 P1].
  destruct (botStep g bot) as [[g1 bot1] counted]. cbn [fst snd] in *.
  specialize (IH g1) as [H2 P2].
  destruct (botLoop g1 rest) as [[g2 rest1] n]. cbn [fst snd map] in *.
  split; congruence.
Qed.

Lemma fixedStep_roster (isGameOver : bool) (ph : Physics) (g : Game) :
  roster_ok g -> roster_ok (fixedStep isGameOver ph g).
Proof.
  intros (Hp & Hl & Hs). unfold fixedStep. destruct isGameOver; [unfold roster_ok; auto|].
  destruct (duelTransition g).
  - match goal with |- context [if ?c then _ else _] => destruct c end;
      unfold roster_ok; cbn; auto.
  - cbn zeta. set (g1 := set_frameCount (frameCount g + 1)%Z g).
    (* engine *)
    assert (R2 : roster_ok (engineUpdate ph g1)).
    { unfold roster_ok, engineUpdate. cbn [player bots set_player set_bots gameMode
                                           botSpawnIndex].
      split.
      { unfold ident, moveBody. cbn [handle label].
        rewrite (collisionStart_untouched _ player) by (intros; reflexivity).
        exact Hp. }
      split.
      - eapply labelled_same_idents; [|exact Hl].
        transitivity (map (fun b => ident (body b))
                        (bots (fst (collisionStart g1 (pairs ph))))).
        + rewrite map_map. apply map_ext. intros b. reflexivity.
        + rewrite collisionStart_idents. reflexivity.
      - rewrite length_map.
        rewrite (collisionStart_untouched _ gameMode) by (intros; reflexivity).
        rewrite (collisionStart_untouched _ botSpawnIndex) by (intros; reflexivity).
        pose proof (collisionStart_idents (pairs ph) g1) as E.
        apply (f_equal (@List.length _)) in E. rewrite !length_map in E.
        rewrite E. exact Hs. }
    set (g2 := engineUpdate ph g1) in *. clearbody g2.
    (* spawn *)
    assert (R3 : roster_ok (spawnSurvivalBot g2)).
    { destruct R2 as (Hp2 & Hl2 & Hs2). unfold spawnSurvivalBot.
      destruct (mode_eqb (gameMode g2) survival) eqn:Hm; cbn [andb];
        [|unfold roster_ok; auto].
      assert (Hsv : gameMode g2 = survival)
        by (destruct (gameMode g2); try discriminate; reflexivity).
      match goal with |- context [if ?c then _ else _] => destruct c end;
        [|unfold roster_ok; auto].
      unfold roster_ok, random. cbn. split; [exact Hp2|]. split.
      - apply labelled_app; [exact Hl2|]. cbn. rewrite (Hs2 Hsv). auto.
      - intros _. rewrite length_app. cbn. rewrite (Hs2 Hsv). lia. }
    set (g3 := spawnSurvivalBot g2) in *. clearbody g3.
    assert (R5 : roster_ok (safeZoneStep (playerStep g3))).
    { destruct R3 as (Hp3 & Hl3 & Hs3). unfold roster_ok.
      rewrite !(safeZoneStep_untouched _ player), !(safeZoneStep_untouched _ bots),
        !(safeZoneStep_untouched _ gameMode), !(safeZoneStep_untouched _ botSpawnIndex),
        !(playerStep_untouched _ player), !(playerStep_untouched _ bots),
        !(playerStep_untouched _ gameMode), !(playerStep_untouched _ botSpawnIndex);
        try (intros; reflexivity).
      auto. }
    set (g5 := safeZoneStep (playerStep g3)) in *. clearbody g5.
    assert (R6 : roster_ok (fst (botAI g5))).
    { destruct R5 as (Hp5 & Hl5 & Hs5). unfold botAI.
      pose proof (botLoop_idents (bots g5) g5) as [E P].
      pose proof (botLoop_untouched _ gameMode) as M.
      specialize (M ltac:(intros; reflexivity) ltac:(intros; reflexivity)
                    ltac:(intros; reflexivity) ltac:(intros; reflexivity)
                    ltac:(intros; reflexivity) ltac:(intros; reflexivity)
                    ltac:(intros; reflexivity) ltac:(intros; reflexivity)
                    ltac:(intros; reflexivity) ltac:(intros; reflexivity)
                    ltac:(intros; reflexivity) ltac:(intros; reflexivity)
                    ltac:(intros; reflexivity) ltac:(intros; reflexivity)
                    ltac:(intros; reflexivity) ltac:(intros; reflexivity)
                    (bots g5) g5).
      pose proof (botLoop_untouched _ botSpawnIndex) as X.
      specialize (X ltac:(intros; reflexivity) ltac:(intros; reflexivity)
                    ltac:(intros; reflexivity) ltac:(intros; reflexivity)
                    ltac:(intros; reflexivity) ltac:(intros; reflexivity)
                    ltac:(intros; reflexivity) ltac:(intros; reflexivity)
                    ltac:(intros; reflexivity) ltac:(intros; reflexivity)
                    ltac:(intros; reflexivity) ltac:(intros; reflexivity)
                    ltac:(intros; reflexivity) ltac:(intros; reflexivity)
                    ltac:(intros; reflexivity) ltac:(intros; reflexivity)
                    (bots g5) g5).
      destruct (botLoop g5 (bots g5)) as [[g6 bs] n]. cbn [fst snd] in *.
      unfold roster_ok. cbn [player bots set_bots gameMode botSpawnIndex].
      split; [congruence|]. split.
      - eapply labelled_same_idents; [exact E|exact Hl5].
      - rewrite M, X. apply (f_equal (@List.length _)) in E.
        rewrite !length_map in E. rewrite E. exact Hs5. }
    destruct (botAI g5) as [g6 aliveCount]. cbn [fst] in R6.
    destruct R6 as (Hp6 & Hl6 & Hs6). unfold roster_ok.
    rewrite !(updateAliveCount_untouched _ player), !(updateAliveCount_untouched _ bots),
      !(updateAliveCount_untouched _ gameMode),
      !(updateAliveCount_untouched _ botSpawnIndex),
      !(bossWeapons_untouched _ player), !(bossWeapons_untouched _ bots),
      !(bossWeapons_untouched _ gameMode), !(bossWeapons_untouched _ botSpawnIndex);
      try (intros; reflexivity).
    auto.
Qed.

Lemma arenaBots_labelled (botCount count i : nat) (g : Game) :
  labelled i (fst (arenaBots botCount i count g)).
Proof.
  revert i g. induction count as [|count IH]; intros i g; cbn; [exact I|].
  specialize (IH (S i) (set_rngUsed (S (rngUsed (set_rngUsed (S (rngUsed g)) g)))
                          (set_rngUsed (S (rngUsed g)) g))).
  destruct (arenaBots botCount (S i) count _) as [rest g3]. cbn in *. auto.
Qed.

Lemma initGame_roster (mode : GameMode) (botCount : nat) (rnd : nat -> R) :
  roster_ok (initGame mode botCount rnd).
Proof.
  destruct (initGame_shape mode botCount rnd) as (roster & tx & ty & n & E & Hro).
  rewrite E. unfold roster_ok. cbn. split; [reflexivity|]. subst roster.
  destruct mode.
  - split; [apply arenaBots_labelled|discriminate].
  - split; [exact I|reflexivity].
  - split; [|discriminate]. cbn. auto.
Qed.

(** In every reachable session the player's body is object 0 labelled
    'player', the bot at index [i] of the roster owns object [i + 1] labelled
    [bot_i], so that no two entities share a body: looking up the body of a
    live bot with [find] returns that very bot and looking up the player's
    body among the bots finds nothing; in survival mode the
    roster holds exactly the bots spawned so far. *)
Theorem roster_identities (g : Game) :
  reachable g ->
  handle (player g) = 0%nat /\
  label (player g) = player_label /\
  (forall i b, nth_error (bots g) i = Some b ->
     handle (body b) = S i /\ label (body b) = bot_label i /\
     (alive b = true -> findAlive (bots g) (body b) = Some b)) /\
  findAlive (bots g) (player g) = None /\
  (gameMode g = survival -> List.length (bots g) = botSpawnIndex g).
Proof.
  intros Hr.
  assert (H : roster_ok g).
  { induction Hr as [mode botCount rnd Hf | g e Hr IH].
    - apply initGame_roster.
    - destruct e as [key | key | isGameOver ph | ]; cbn [react].
      4:{ apply (togglePause_inv roster_ok); [intros p0 g0 H0; exact H0|exact IH]. }
      + apply (handlePause_inv roster_ok); [intros p0 g0 H0; exact H0|].
        destruct IH as (Hp & Hl & Hs). unfold roster_ok, onKeyDown.
        repeat match goal with |- context [if ?c then _ else _] => destruct c end;
          cbn; auto.
      + exact IH.
      + apply fixedStep_roster, IH. }
  destruct H as (Hp & Hl & Hs).
  pose proof (f_equal fst Hp) as Hh. pose proof (f_equal snd Hp) as Hlab.
  cbn in Hh, Hlab.
  split; [exact Hh|]. split; [exact Hlab|]. split; [|split; [|exact Hs]].
  - intros i b E. destruct (labelled_nth (bots g) 0 i b Hl E) as [A B].
    cbn in A, B. repeat split; auto.
    intros Ha. eapply labelled_find; eassumption.
  - unfold findAlive.
    destruct (find _ (bots g)) as [b|] eqn:Ef; [|reflexivity].
    apply find_some in Ef. destruct Ef as [Hin Hc].
    apply andb_prop in Hc. destruct Hc as [Hc _].
    apply In_nth_error in Hin. destruct Hin as [i Hi].
    destruct (labelled_nth (bots g) 0 i b Hl Hi) as [A _].
    unfold same_body in Hc. rewrite A, Hh in Hc. discriminate.
Qed.

Lemma roster_identities_witness :
  handle (player transition_session) = 0%nat.
Proof.
  apply (roster_identities transition_session).
  unfold transition_session. apply reach_event. apply reach_init. exact fair_zero_rng.
Defined.

(** ** The kill counter *)

Lemma deadCount_same_alive (bs bs' : list Bot) :
  map alive bs' = map alive bs -> deadCount bs' = deadCount bs.
Proof.
  revert bs'. induction bs as [|b rest IH]; intros [|b' rest'] E; try discriminate;
    cbn in *; [reflexivity|].
  inversion E as [[E1 E2]]. rewrite E1, (IH rest' E2). reflexivity.
Qed.

Lemma deadCount_app (bs bs2 : list Bot) :
  deadCount (bs ++ bs2) = (deadCount bs + deadCount bs2)%Z.
Proof. induction bs as [|b rest IH]; cbn; [reflexivity|]. rewrite IH. lia. Qed.

Lemma updateFirst_alive (p : Bot -> bool) (f : Bot -> Bot) (bs : list Bot) :
  (forall b, alive (f b) = alive b) ->
  map alive (updateFirst p f bs) = map alive bs.
Proof.
  intros Hf. induction bs as [|b rest IH]; cbn; [reflexivity|].
  destruct (p b); cbn; [rewrite Hf; reflexivity|]. rewrite IH. reflexivity.
Qed.

Lemma collisionStart_alive (prs : list (Body * Body)) (g : Game) :
  map alive (bots (fst (collisionStart g prs))) = map alive (bots g).
Proof.
  revert g. induction prs as [|pr rest IH]; intros g; cbn; [reflexivity|].
  assert (H1 : map alive (bots (fst (collidePair g pr))) = map alive (bots g)).
  { unfold collidePair, applyDrain. destruct pr as [bodyA bodyB].
    repeat match goal with
           | |- context [if ?c then _ else _] => destruct c
           | |- context [match ?c with Some _ => _ | None => _ end] => destruct c
           end; cbn [fst bots set_bots set_currentRPM]; try reflexivity.
    apply updateFirst_alive. reflexivity. }
  destruct (collidePair g pr) as [g1 fs1]. cbn [fst] in H1.
  specialize (IH g1). destruct (collisionStart g1 rest) as [g2 fs2]. cbn [fst] in *.
  congruence.
Qed.

(** One bot of the loop: the kill counter moves with the round and the
    bot's death. *)
Lemma botStep_kills (g : Game) (bot : Bot) :
  (kills (fst (fst (botStep g bot))) - duelRound (fst (fst (botStep g bot)))
   - (if alive (snd (fst (botStep g bot))) then 0 else 1)
   = kills g - duelRound g - (if alive bot then 0 else 1))%Z /\
  (duelRound (fst (fst (botStep g bot))) = duelRound g \/ gameMode g = duel).
Proof.
  unfold botStep. destruct (alive bot) eqn:Ha; cbn [negb fst snd];
    [|rewrite Ha; auto].
  match goal with |- context [if ?c then _ else _] => destruct c end.
  - unfold eliminateBot, duelRoundReset. cbn [gameMode set_kills duelRound].
    destruct (mode_eqb (gameMode g) duel) eqn:Hm; [|cbn; split; [lia|auto]].
    assert (Hd : gameMode g = duel) by (destruct (gameMode g); try discriminate; reflexivity).
    destruct (duelRound g <? 3)%Z; cbn; split; auto; lia.
  - assert (Hb : alive (snd (botHousekeeping g bot)) = alive bot).
    { unfold botHousekeeping. cbn zeta.
      destruct (botSpin _ _ _) as [r4 g1]. destruct (botEmergencySpin _ _ _) as [r5 g2].
      reflexivity. }
    pose proof (botHousekeeping_untouched _ kills (fun _ _ => eq_refl) g bot) as Hk.
    pose proof (botHousekeeping_untouched _ duelRound (fun _ _ => eq_refl) g bot) as Hr.
    destruct (botHousekeeping g bot) as [g1 bot1]. cbn [fst snd] in *.
    rewrite Hb, Hk, Hr, Ha. auto.
Qed.

Lemma botLoop_kills (todo : list Bot) (g : Game) :
  (kills (fst (fst (botLoop g todo))) - duelRound (fst (fst (botLoop g todo)))
   - deadCount (snd (fst (botLoop g todo)))
   = kills g - duelRound g - deadCount todo)%Z /\
  (duelRound (fst (fst (botLoop g todo))) = duelRound g \/ gameMode g = duel).
Proof.
  revert g. induction todo as [|bot rest IH]; intros g; cbn; [auto|].
  pose proof (botStep_kills g bot) as [H1 D1].
  pose proof (botStep_untouched _ gameMode) as M.
  specialize (M ltac:(intros; reflexivity) ltac:(intros; reflexivity)
                ltac:(intros; reflexivity) ltac:(intros; reflexivity)
                ltac:(intros; reflexivity) ltac:(intros; reflexivity)
                ltac:(intros; reflexivity) ltac:(intros; reflexivity)
                ltac:(intros; reflexivity) ltac:(intros; reflexivity)
                ltac:(intros; reflexivity) ltac:(intros; reflexivity)
                ltac:(intros; reflexivity) ltac:(intros; reflexivity)
                ltac:(intros; reflexivity) ltac:(intros; reflexivity) g bot).
  destruct (botStep g bot) as [[g1 bot1] counted]. cbn [fst snd] in *.
  specialize (IH g1) as [H2 D2].
  destruct (botLoop g1 rest) as [[g2 rest1] n]. cbn [fst snd deadCount] in *.
  split; [lia|].
  destruct D1 as [D1 | D1]; [|auto]. destruct D2 as [D2 | D2]; [left; congruence|].
  right. congruence.
Qed.

Lemma fixedStep_kills (isGameOver : bool) (ph : Physics) (g : Game) :
  kills_ok g -> kills_ok (fixedStep isGameOver ph g).
Proof.
  intros [Hk Hr]. unfold fixedStep. destruct isGameOver; [split; assumption|].
  destruct (duelTransition g).
  - match goal with |- context [if ?c then _ else _] => destruct c end;
      split; assumption.
  - cbn zeta. set (g1 := set_frameCount (frameCount g + 1)%Z g).
    set (g5 := safeZoneStep (playerStep (spawnSurvivalBot (engineUpdate ph g1)))).
    assert (K5 : kills g5 = kills g /\ duelRound g5 = duelRound g /\
                 gameMode g5 = gameMode g /\ deadCount (bots g5) = deadCount (bots g)).
    { subst g5.
      rewrite !(safeZoneStep_untouched _ kills), !(safeZoneStep_untouched _ duelRound),
        !(safeZoneStep_untouched _ gameMode), !(safeZoneStep_untouched _ bots),
        !(playerStep_untouched _ kills), !(playerStep_untouched _ duelRound),
        !(playerStep_untouched _ gameMode), !(playerStep_untouched _ bots),
        !(spawnSurvivalBot_untouched _ kills), !(spawnSurvivalBot_untouched _ duelRound),
        !(spawnSurvivalBot_untouched _ gameMode),
        !(engineUpdate_untouched _ kills), !(engineUpdate_untouched _ duelRound),
        !(engineUpdate_untouched _ gameMode);
        try (intros; reflexivity).
      repeat split.
      assert (E2 : deadCount (bots (engineUpdate ph g1)) = deadCount (bots g)).
      { unfold engineUpdate. cbn [bots set_player set_bots].
        apply deadCount_same_alive. rewrite map_map. cbn.
        apply (collisionStart_alive (pairs ph) g1). }
      rewrite <- E2. unfold spawnSurvivalBot.
      match goal with |- context [if ?c then _ else _] => destruct c end; [|reflexivity].
      unfold random. cbn. rewrite deadCount_app. cbn. lia. }
    clearbody g5. destruct K5 as (K1 & K2 & K3 & K4).
    assert (K6 : kills_ok (fst (botAI g5))).
    { unfold botAI. pose proof (botLoop_kills (bots g5) g5) as [E D].
      pose proof (botLoop_untouched _ gameMode) as M.
      specialize (M ltac:(intros; reflexivity) ltac:(intros; reflexivity)
                    ltac:(intros; reflexivity) ltac:(intros; reflexivity)
                    ltac:(intros; reflexivity) ltac:(intros; reflexivity)
                    ltac:(intros; reflexivity) ltac:(intros; reflexivity)
                    ltac:(intros; reflexivity) ltac:(intros; reflexivity)
                    ltac:(intros; reflexivity) ltac:(intros; reflexivity)
                    ltac:(intros; reflexivity) ltac:(intros; reflexivity)
                    ltac:(intros; reflexivity) ltac:(intros; reflexivity)
                    (bots g5) g5).
      destruct (botLoop g5 (bots g5)) as [[g6 bs] n]. cbn [fst snd] in *.
      unfold kills_ok. cbn [kills duelRound bots set_bots gameMode].
      split; [lia|]. intros Hnd. rewrite M, K3 in Hnd.
      destruct D as [D | D]; [rewrite D, K2; auto|]. rewrite K3 in D. contradiction. }
    destruct (botAI g5) as [g6 aliveCount]. cbn [fst] in K6.
    destruct K6 as [A B]. unfold kills_ok.
    rewrite !(updateAliveCount_untouched _ kills), !(updateAliveCount_untouched _ bots),
      !(updateAliveCount_untouched _ gameMode), !(updateAliveCount_untouched _ duelRound),
      !(bossWeapons_untouched _ kills), !(bossWeapons_untouched _ bots),
      !(bossWeapons_untouched _ gameMode), !(bossWeapons_untouched _ duelRound);
      try (intros; reflexivity).
    auto.
Qed.

Lemma arenaBots_alive (botCount count i : nat) (g : Game) :
  deadCount (fst (arenaBots botCount i count g)) = 0%Z.
Proof.
  revert i g. induction count as [|count IH]; intros i g; cbn; [reflexivity|].
  specialize (IH (S i) (set_rngUsed (S (rngUsed (set_rngUsed (S (rngUsed g)) g)))
                          (set_rngUsed (S (rngUsed g)) g))).
  destruct (arenaBots botCount (S i) count _) as [rest g3]. cbn in *. lia.
Qed.

Lemma reachable_kills (g : Game) : reachable g -> kills_ok g.
Proof.
  induction 1 as [mode botCount rnd Hf | g e Hr IH].
  - destruct (initGame_shape mode botCount rnd) as (roster & tx & ty & n & E & Hro).
    rewrite E. unfold kills_ok. cbn. split; [|reflexivity]. subst roster.
    destruct mode; cbn; [rewrite arenaBots_alive|..]; reflexivity.
  - destruct e as [key | key | isGameOver ph | ]; cbn [react].
    4:{ apply (togglePause_inv kills_ok); [intros p0 g0 H0; exact H0|exact IH]. }
    + apply (handlePause_inv kills_ok); [intros p0 g0 H0; exact H0|].
      destruct IH as [A B]. unfold kills_ok, onKeyDown.
      repeat match goal with |- context [if ?c then _ else _] => destruct c end;
        cbn; auto.
    + exact IH.
    + apply fixedStep_kills, IH.
Qed.

(** The kill counter counts eliminations: in every reachable session it is
    the number of eliminated bots of the roster plus, in a duel, the number of
    rounds already won (the boss comes back for the next round); outside duel
    mode it is exactly the number of eliminated bots. *)
Theorem kills_count_eliminations (g : Game) :
  reachable g ->
  kills g = (duelRound g - 1 + deadCount (bots g))%Z /\
  (gameMode g <> duel -> kills g = deadCount (bots g)).
Proof.
  intros Hr. destruct (reachable_kills g Hr) as [A B].
  split; [exact A|]. intros Hnd. rewrite A, (B Hnd). lia.
Qed.

Lemma kills_count_eliminations_witness :
  kills transition_session
  = (duelRound transition_session - 1 + deadCount (bots transition_session))%Z.
Proof.
  apply (kills_count_eliminations transition_session).
  unfold transition_session. apply reach_event. apply reach_init. exact fair_zero_rng.
Defined.

(** ** The frame counter and the spawn schedule of survival mode *)

Lemma afterSpawn_schedule (g3 : Game) :
  let g8 := (let (g6, aliveCount) := botAI (safeZoneStep (playerStep g3)) in
             updateAliveCount aliveCount (bossWeapons g6)) in
  frameCount g8 = frameCount g3 /\
  nextBotSpawnFrame g8 = nextBotSpawnFrame g3 /\
  botSpawnIndex g8 = botSpawnIndex g3 /\
  gameMode g8 = gameMode g3.
Proof.
  cbn zeta. set (g5 := safeZoneStep (playerStep g3)).
  assert (H1 : frameCount (fst (botAI g5)) = frameCount g5)
    by (by_untouched botAI_untouched).
  assert (H2 : nextBotSpawnFrame (fst (botAI g5)) = nextBotSpawnFrame g5)
    by (by_untouched botAI_untouched).
  assert (H3 : botSpawnIndex (fst (botAI g5)) = botSpawnIndex g5)
    by (by_untouched botAI_untouched).
  assert (H4 : gameMode (fst (botAI g5)) = gameMode g5)
    by (by_untouched botAI_untouched).
  destruct (botAI g5) as [g6 aliveCount]. cbn [fst] in *.
  rewrite !(updateAliveCount_untouched _ frameCount),
    !(updateAliveCount_untouched _ nextBotSpawnFrame),
    !(updateAliveCount_untouched _ botSpawnIndex),
    !(updateAliveCount_untouched _ gameMode),
    !(bossWeapons_untouched _ frameCount),
    !(bossWeapons_untouched _ nextBotSpawnFrame),
    !(bossWeapons_untouched _ botSpawnIndex),
    !(bossWeapons_untouched _ gameMode); try (intros; reflexivity).
  rewrite H1, H2, H3, H4. subst g5.
  rewrite !(safeZoneStep_untouched _ frameCount),
    !(safeZoneStep_untouched _ nextBotSpawnFrame),
    !(safeZoneStep_untouched _ botSpawnIndex),
    !(safeZoneStep_untouched _ gameMode),
    !(playerStep_untouched _ frameCount),
    !(playerStep_untouched _ nextBotSpawnFrame),
    !(playerStep_untouched _ botSpawnIndex),
    !(playerStep_untouched _ gameMode); try (intros; reflexivity).
  repeat split.
Qed.

Lemma fixedStep_schedule (isGameOver : bool) (ph : Physics) (g : Game) :
  schedule_ok g -> schedule_ok (fixedStep isGameOver ph g).
Proof.
  intros Hs.
  pose proof (proj2 (fixedStep_outcome isGameOver ph g)) as (Hdead & _ & _ & Hmode).
  revert Hdead Hmode.
  unfold fixedStep. destruct isGameOver; [intros; exact Hs|].
  destruct (duelTransition g).
  - match goal with |- context [if ?c then _ else _] => destruct c end;
      intros; exact Hs.
  - cbn zeta. set (g1 := set_frameCount (frameCount g + 1)%Z g).
    set (g2 := engineUpdate ph g1).
    assert (E2 : frameCount g2 = (frameCount g + 1)%Z /\
                 nextBotSpawnFrame g2 = nextBotSpawnFrame g /\
                 botSpawnIndex g2 = botSpawnIndex g /\
                 gameMode g2 = gameMode g /\ playerAlive g2 = playerAlive g).
    { subst g2.
      rewrite (engineUpdate_untouched _ frameCount), (engineUpdate_untouched _ nextBotSpawnFrame),
        (engineUpdate_untouched _ botSpawnIndex), (engineUpdate_untouched _ gameMode),
        (engineUpdate_untouched _ playerAlive); try (intros; reflexivity).
      repeat split. }
    clearbody g2. destruct E2 as (F2 & N2 & I2 & M2 & P2).
    pose proof (afterSpawn_schedule (spawnSurvivalBot g2)) as H8. cbn zeta in H8.
    set (g8 := let (g6, aliveCount) := botAI (safeZoneStep (playerStep (spawnSurvivalBot g2))) in
               updateAliveCount aliveCount (bossWeapons g6)) in *.
    clearbody g8. destruct H8 as (F8 & N8 & I8 & M8).
    intros Hdead Hmode Hsv. rewrite Hmode in Hsv.
    destruct (Hs Hsv) as (Hn & Hi & Ha).
    unfold SURVIVAL_SPAWN_INTERVAL in *.
    rewrite F8, N8, I8. unfold spawnSurvivalBot.
    rewrite M2, Hsv, F2, N2, I2, P2. cbn [mode_eqb andb].
    destruct (playerAlive g) eqn:Hp.
    + specialize (Ha eq_refl).
      destruct (nextBotSpawnFrame g <=? frameCount g + 1)%Z eqn:Hdue; cbn [andb].
      * apply Z.leb_le in Hdue. unfold random. cbn -[Z.mul Z.of_nat Z.add].
        rewrite F2. unfold SURVIVAL_SPAWN_INTERVAL. lia.
      * apply Z.leb_gt in Hdue. rewrite F2, N2, I2. lia.
    + rewrite andb_false_r, F2, N2, I2. rewrite (Hdead eq_refl).
      split; [exact Hn|]. split; [lia|discriminate].
Qed.

Lemma fixedStep_frameCount (isGameOver : bool) (ph : Physics) (g : Game) :
  frameCount (fixedStep isGameOver ph g)
  = if isGameOver || duelTransition g then frameCount g else (frameCount g + 1)%Z.
Proof.
  unfold fixedStep. destruct isGameOver; [reflexivity|].
  destruct (duelTransition g); cbn [orb].
  - match goal with |- context [if ?c then _ else _] => destruct c end; reflexivity.
  - cbn zeta. rewrite (afterFrame_untouched _ frameCount); try (intros; reflexivity).
Qed.

(** The frame counter counts the simulated steps: a fixed step advances it
    by exactly one, except that it stands still while a duel round
    transition is running and once the callback has seen the game over;
    key events never move it. *)
Theorem frame_counter_counts_steps (e : Event) (g : Game) :
  frameCount (react e g)
  = match e with
    | FixedStep false _ => if duelTransition g then frameCount g else (frameCount g + 1)%Z
    | _ => frameCount g
    end.
Proof.
  destruct e as [key | key | isGameOver ph | ]; cbn [react].
  - rewrite (handlePause_field _ frameCount) by (intros; reflexivity).
    unfold onKeyDown.
    repeat match goal with |- context [if ?c then _ else _] => destruct c end; reflexivity.
  - reflexivity.
  - rewrite fixedStep_frameCount. destruct isGameOver; reflexivity.
  - apply (togglePause_field _ frameCount). intros; reflexivity.
Qed.

(** Survival mode spawns one bot every SURVIVAL_SPAWN_INTERVAL frames: in
    every reachable survival session the next spawn frame is
    180 * (bots spawned + 1), the bots spawned so far were all due
    (180 * spawned <= frame counter), and as long as the player is alive no
    spawn is overdue, so that the number of bots spawned is exactly the frame
    counter divided by 180. *)
Theorem survival_spawn_schedule (g : Game) :
  reachable g -> gameMode g = survival ->
  nextBotSpawnFrame g = (180 * (Z.of_nat (botSpawnIndex g) + 1))%Z /\
  (180 * Z.of_nat (botSpawnIndex g) <= frameCount g)%Z /\
  (playerAlive g = true ->
     (frameCount g < nextBotSpawnFrame g)%Z /\
     Z.of_nat (botSpawnIndex g) = (frameCount g / 180)%Z).
Proof.
  intros Hr.
  assert (H : schedule_ok g).
  { induction Hr as [mode botCount rnd Hf | g e Hr IH].
    - destruct (initGame_shape mode botCount rnd) as (roster & tx & ty & n & E & Hro).
      rewrite E. unfold schedule_ok, SURVIVAL_SPAWN_INTERVAL. cbn. intros _. lia.
    - destruct e as [key | key | isGameOver ph | ]; cbn [react].
      4:{ apply (togglePause_inv schedule_ok); [intros p0 g0 H0; exact H0|exact IH]. }
      + apply (handlePause_inv schedule_ok); [intros p0 g0 H0; exact H0|].
        unfold schedule_ok, onKeyDown in *.
        repeat match goal with |- context [if ?c then _ else _] => destruct c end;
          cbn; exact IH.
      + exact IH.
      + apply fixedStep_schedule, IH. }
  intros Hsv. destruct (H Hsv) as (Hn & Hi & Ha).
  unfold SURVIVAL_SPAWN_INTERVAL in *.
  split; [exact Hn|]. split; [exact Hi|]. intros Hp. specialize (Ha Hp).
  split; [exact Ha|]. apply Z.div_unique with (r := (frameCount g - 180 * Z.of_nat (botSpawnIndex g))%Z); lia.
Qed.

Lemma survival_spawn_schedule_witness :
  nextBotSpawnFrame (initGame survival 0 zero_rng)
  = (180 * (Z.of_nat (botSpawnIndex (initGame survival 0 zero_rng)) + 1))%Z.
Proof.
  exact (proj1 (survival_spawn_schedule _ (reach_init survival 0%nat zero_rng fair_zero_rng)
                  eq_refl)).
Defined.

(** ** The drift of the safe zone *)

Lemma within_sqrt (x y r : R) :
  0 <= r -> within x y r -> sqrt ((x - CX) * (x - CX) + (y - CY) * (y - CY)) <= r.
Proof.
  intros Hr Hw. unfold within in Hw.
  rewrite <- (sqrt_square r Hr). apply sqrt_le_1_alt. exact Hw.
Qed.

Lemma within_convex (u v U V t r : R) :
  0 <= t <= 1 -> u * u + v * v <= r * r -> U * U + V * V <= r * r ->
  (u + t * (U - u)) * (u + t * (U - u)) + (v + t * (V - v)) * (v + t * (V - v)) <= r * r.
Proof.
  intros Ht Hc HT.
  replace ((u + t * (U - u)) * (u + t * (U - u)) + (v + t * (V - v)) * (v + t * (V - v)))
    with ((1 - t) * (u * u + v * v) + t * (U * U + V * V)
          - t * (1 - t) * ((U - u) * (U - u) + (V - v) * (V - v))) by ring.
  assert (H1 : (1 - t) * (u * u + v * v) <= (1 - t) * (r * r))
    by (apply Rmult_le_compat_l; lra).
  assert (H2 : t * (U * U + V * V) <= t * (r * r))
    by (apply Rmult_le_compat_l; lra).
  assert (H3 : 0 <= t * (1 - t) * ((U - u) * (U - u) + (V - v) * (V - v))).
  { apply Rmult_le_pos; [apply Rmult_le_pos; lra|].
    pose proof (Rle_0_sqr (U - u)) as Q1. pose proof (Rle_0_sqr (V - v)) as Q2.
    unfold Rsqr in Q1, Q2. lra. }
  lra.
Qed.

Lemma safeZoneDrift_centre (g : Game) :
  fair (rng g) -> 0 <= safeZone g -> centre_ok g -> centre_ok (safeZoneDrift g).
Proof.
  intros Hf Hz [Hc Ht]. unfold safeZoneDrift. cbn zeta.
  set (dx := szTargetX g - safeZoneCX g). set (dy := szTargetY g - safeZoneCY g).
  set (d := sqrt (dx * dx + dy * dy)).
  destruct (num_gt d 5) eqn:Hd.
  - apply num_gt_true in Hd. unfold centre_ok. cbn. split; [|exact Ht].
    unfold within in *. unfold SAFE_ZONE_DRIFT_SPEED.
    replace (safeZoneCX g + dx / d * 0.8 - CX)
      with ((safeZoneCX g - CX) + (0.8 / d) * ((szTargetX g - CX) - (safeZoneCX g - CX)))
      by (unfold dx; field; lra).
    replace (safeZoneCY g + dy / d * 0.8 - CY)
      with ((safeZoneCY g - CY) + (0.8 / d) * ((szTargetY g - CY) - (safeZoneCY g - CY)))
      by (unfold dy; field; lra).
    apply within_convex; [|exact Hc|exact Ht].
    split.
    + apply Rlt_le, Rdiv_lt_0_compat; lra.
    + apply Rlt_le. apply (Rmult_lt_reg_r d); [lra|].
      replace (0.8 / d * d) with 0.8 by (field; lra). lra.
  - unfold random, centre_ok. cbn. split; [exact Hc|].
    unfold within in *.
    set (a := rng g (rngUsed g) * PI * 2).
    pose proof (Hf (S (rngUsed g))) as Hr2.
    set (r2 := rng g (S (rngUsed g))) in *.
    set (m := Rmax 50 (ARENA_R - safeZone g - 40)).
    assert (Hm : 0 <= m <= ARENA_R - 40).
    { unfold m, Rmax, ARENA_R. destruct (Rle_dec 50 (380 - safeZone g - 40)); lra. }
    pose proof (sin2_cos2 a) as Hsc. unfold Rsqr in Hsc.
    replace ((CX + cos a * (r2 * m) - CX) * (CX + cos a * (r2 * m) - CX)
             + (CY + sin a * (r2 * m) - CY) * (CY + sin a * (r2 * m) - CY))
      with ((r2 * m) * (r2 * m) * (sin a * sin a + cos a * cos a)) by ring.
    rewrite Hsc, Rmult_1_r.
    assert (H0 : 0 <= r2 * m) by (apply Rmult_le_pos; lra).
    assert (H1 : r2 * m <= ARENA_R - 40) by nra.
    apply Rmult_le_compat; lra.
Qed.

Lemma botStep_centre (g : Game) (bot : Bot) :
  within (safeZoneCX g) (safeZoneCY g) (ARENA_R - 40) ->
  within (safeZoneCX (fst (fst (botStep g bot)))) (safeZoneCY (fst (fst (botStep g bot))))
    (ARENA_R - 40).
Proof.
  intros Hc.
  assert (H0 : within CX CY (ARENA_R - 40)).
  { unfold within, ARENA_R. nra. }
  unfold botStep. destruct (negb (alive bot)); [exact Hc|].
  match goal with |- context [if ?c then _ else _] => destruct c end.
  - unfold eliminateBot, duelRoundReset. cbn [gameMode set_kills duelRound].
    destruct (mode_eqb (gameMode g) duel); [|exact Hc].
    destruct (duelRound g <? 3)%Z; cbn; [exact H0|exact Hc].
  - assert (Hx : safeZoneCX (fst (botHousekeeping g bot)) = safeZoneCX g)
      by (by_untouched botHousekeeping_untouched).
    assert (Hy : safeZoneCY (fst (botHousekeeping g bot)) = safeZoneCY g)
      by (by_untouched botHousekeeping_untouched).
    destruct (botHousekeeping g bot) as [g1 bot1]. cbn [fst] in *.
    rewrite Hx, Hy. exact Hc.
Qed.

Lemma botLoop_centre (todo : list Bot) (g : Game) :
  within (safeZoneCX g) (safeZoneCY g) (ARENA_R - 40) ->
  within (safeZoneCX (fst (fst (botLoop g todo)))) (safeZoneCY (fst (fst (botLoop g todo))))
    (ARENA_R - 40).
Proof.
  revert g. induction todo as [|bot rest IH]; intros g Hc; cbn; [exact Hc|].
  pose proof (botStep_centre g bot Hc) as H1.
  destruct (botStep g bot) as [[g1 bot1] counted]. cbn [fst] in H1.
  specialize (IH g1 H1). destruct (botLoop g1 rest) as [[g2 rest1] n]. exact IH.
Qed.

Lemma fixedStep_centre (isGameOver : bool) (ph : Physics) (g : Game) :
  fair (rng g) -> 0 <= safeZone g -> centre_ok g ->
  centre_ok (fixedStep isGameOver ph g).
Proof.
  intros Hf Hz Hc. unfold fixedStep. destruct isGameOver; [exact Hc|].
  destruct (duelTransition g).
  - match goal with |- context [if ?c then _ else _] => destruct c end; exact Hc.
  - cbn zeta. set (g1 := set_frameCount (frameCount g + 1)%Z g).
    set (g4 := playerStep (spawnSurvivalBot (engineUpdate ph g1))).
    assert (E4 : rng g4 = rng g /\ safeZone g4 = safeZone g /\
                 safeZoneCX g4 = safeZoneCX g /\ safeZoneCY g4 = safeZoneCY g /\
                 szTargetX g4 = szTargetX g /\ szTargetY g4 = szTargetY g).
    { subst g4.
      rewrite !(playerStep_untouched _ rng), !(playerStep_untouched _ safeZone),
        !(playerStep_untouched _ safeZoneCX), !(playerStep_untouched _ safeZoneCY),
        !(playerStep_untouched _ szTargetX), !(playerStep_untouched _ szTargetY),
        !(spawnSurvivalBot_untouched _ rng), !(spawnSurvivalBot_untouched _ safeZone),
        !(spawnSurvivalBot_untouched _ safeZoneCX), !(spawnSurvivalBot_untouched _ safeZoneCY),
        !(spawnSurvivalBot_untouched _ szTargetX), !(spawnSurvivalBot_untouched _ szTargetY),
        !(engineUpdate_untouched _ rng), !(engineUpdate_untouched _ safeZone),
        !(engineUpdate_untouched _ safeZoneCX), !(engineUpdate_untouched _ safeZoneCY),
        !(engineUpdate_untouched _ szTargetX), !(engineUpdate_untouched _ szTargetY);
        try (intros; reflexivity).
      repeat split. }
    clearbody g4. destruct E4 as (R4 & Z4 & X4 & Y4 & TX4 & TY4).
    assert (C5 : centre_ok (safeZoneStep g4)).
    { unfold safeZoneStep. apply safeZoneDrift_centre.
      - unfold safeZoneShrink.
        match goal with |- context [if ?c then _ else _] => destruct c end;
          cbn; rewrite R4; exact Hf.
      - unfold safeZoneShrink.
        match goal with |- context [if ?c then _ else _] => destruct c end; cbn.
        + unfold SAFE_ZONE_MIN. apply Rmax_l.
        + rewrite Z4. exact Hz.
      - unfold safeZoneShrink, centre_ok.
        match goal with |- context [if ?c then _ else _] => destruct c end;
          cbn; rewrite X4, Y4, TX4, TY4; exact Hc. }
    set (g5 := safeZoneStep g4) in *. clearbody g5.
    assert (C6 : centre_ok (fst (botAI g5))).
    { destruct C5 as [Ca Cb]. unfold botAI.
      pose proof (botLoop_centre (bots g5) g5 Ca) as H1.
      assert (Hx : szTargetX (fst (fst (botLoop g5 (bots g5)))) = szTargetX g5)
        by (by_untouched botLoop_untouched).
      assert (Hy : szTargetY (fst (fst (botLoop g5 (bots g5)))) = szTargetY g5)
        by (by_untouched botLoop_untouched).
      destruct (botLoop g5 (bots g5)) as [[g6 bs] n]. cbn [fst] in *.
      unfold centre_ok. cbn. rewrite Hx, Hy. split; assumption. }
    destruct (botAI g5) as [g6 aliveCount]. cbn [fst] in C6.
    unfold centre_ok.
    rewrite !(updateAliveCount_untouched _ safeZoneCX), !(updateAliveCount_untouched _ safeZoneCY),
      !(updateAliveCount_untouched _ szTargetX), !(updateAliveCount_untouched _ szTargetY),
      !(bossWeapons_untouched _ safeZoneCX), !(bossWeapons_untouched _ safeZoneCY),
      !(bossWeapons_untouched _ szTargetX), !(bossWeapons_untouched _ szTargetY);
      try (intros; reflexivity).
    exact C6.
Qed.

Lemma initGame_centre (mode : GameMode) (botCount : nat) (rnd : nat -> R) :
  fair rnd -> centre_ok (initGame mode botCount rnd).
Proof.
  intros Hf. unfold initGame.
  set (g0 := mkGame _ _ _ _ _ _ _ _ _ _ _ _ _ _ _ _ _ _ _ _ _ _ _ _ _ _ _ _ _ _).
  assert (Hroster : forall roster g1,
    rng g1 = rnd -> safeZoneCX g1 = CX -> safeZoneCY g1 = CY ->
    centre_ok
      (let (r1, g2) := random g1 in
       let (r2, g3) := random g2 in
       set_szTargetY (CY + (r2 - 0.5) * 100)
         (set_szTargetX (CX + (r1 - 0.5) * 100) (set_bots roster g3)))).
  { intros roster g1 Hr Hx Hy. unfold centre_ok, within. cbn. rewrite Hx, Hy, Hr.
    pose proof (Hf (rngUsed g1)). pose proof (Hf (S (rngUsed g1))).
    unfold ARENA_R. split; nra. }
  destruct mode.
  - assert (Ha : forall count i g,
               rng (snd (arenaBots botCount i count g)) = rng g /\
               safeZoneCX (snd (arenaBots botCount i count g)) = safeZoneCX g /\
               safeZoneCY (snd (arenaBots botCount i count g)) = safeZoneCY g).
    { induction count as [|count IH]; intros i g; cbn; [auto|].
      specialize (IH (S i) (set_rngUsed (S (rngUsed (set_rngUsed (S (rngUsed g)) g)))
                              (set_rngUsed (S (rngUsed g)) g))).
      destruct (arenaBots botCount (S i) count _) as [rest g3]. cbn in *. exact IH. }
    specialize (Ha botCount 0%nat g0).
    destruct (arenaBots botCount 0 botCount g0) as [roster g1]. cbn [snd] in Ha.
    destruct Ha as (A & B & C). apply Hroster; [rewrite A|rewrite B|rewrite C]; reflexivity.
  - apply Hroster; reflexivity.
  - apply Hroster; reflexivity.
Qed.

(** One drift step of the safe zone.  While the target is more than 5 px
    away the centre moves exactly SAFE_ZONE_DRIFT_SPEED towards it (the
    distance to the target drops by exactly that much) and the target stays;
    once the target is within 5 px the centre rests and a new target is drawn
    within max(50, ARENA_R - safeZone - 40) of the arena centre.  The radius
    is never touched. *)
Theorem safe_zone_drift_step (g : Game) :
  let gap (h : Game) :=
    sqrt ((szTargetX h - safeZoneCX h) * (szTargetX h - safeZoneCX h)
          + (szTargetY h - safeZoneCY h) * (szTargetY h - safeZoneCY h)) in
  let g' := safeZoneDrift g in
  safeZone g' = safeZone g /\
  (5 < gap g ->
     szTargetX g' = szTargetX g /\ szTargetY g' = szTargetY g /\
     sqrt ((safeZoneCX g' - safeZoneCX g) * (safeZoneCX g' - safeZoneCX g)
           + (safeZoneCY g' - safeZoneCY g) * (safeZoneCY g' - safeZoneCY g))
     = SAFE_ZONE_DRIFT_SPEED /\
     gap g' = gap g - SAFE_ZONE_DRIFT_SPEED) /\
  (gap g <= 5 ->
     safeZoneCX g' = safeZoneCX g /\ safeZoneCY g' = safeZoneCY g /\
     (fair (rng g) ->
      sqrt ((szTargetX g' - CX) * (szTargetX g' - CX)
            + (szTargetY g' - CY) * (szTargetY g' - CY))
      <= Rmax 50 (ARENA_R - safeZone g - 40))).
Proof.
  cbn zeta. unfold safeZoneDrift. cbn zeta.
  set (dx := szTargetX g - safeZoneCX g). set (dy := szTargetY g - safeZoneCY g).
  set (d := sqrt (dx * dx + dy * dy)).
  assert (Hs : 0 <= dx * dx + dy * dy) by nra.
  assert (Hd2 : d * d = dx * dx + dy * dy) by (apply sqrt_sqrt; exact Hs).
  destruct (num_gt d 5) eqn:Hd.
  - apply num_gt_true in Hd. cbn. split; [reflexivity|]. split; [|intros; lra].
    intros _. split; [reflexivity|]. split; [reflexivity|].
    unfold SAFE_ZONE_DRIFT_SPEED. split.
    + replace (safeZoneCX g + dx / d * 0.8 - safeZoneCX g) with (dx / d * 0.8) by ring.
      replace (safeZoneCY g + dy / d * 0.8 - safeZoneCY g) with (dy / d * 0.8) by ring.
      apply (norm_scaled dx dy 0.8); fold d; lra.
    + replace ((szTargetX g - (safeZoneCX g + dx / d * 0.8))
               * (szTargetX g - (safeZoneCX g + dx / d * 0.8))
               + (szTargetY g - (safeZoneCY g + dy / d * 0.8))
                 * (szTargetY g - (safeZoneCY g + dy / d * 0.8)))
        with ((d - 0.8) * (d - 0.8)).
      * apply sqrt_square. lra.
      * transitivity ((1 - 0.8 / d) * (1 - 0.8 / d) * (dx * dx + dy * dy));
          [rewrite <- Hd2; field; lra | unfold dx, dy; field; lra].
  - apply num_gt_false in Hd. unfold random. cbn. split; [reflexivity|].
    split; [intros; lra|]. intros _. split; [reflexivity|]. split; [reflexivity|].
    intros Hf.
    set (a := rng g (rngUsed g) * PI * 2).
    pose proof (Hf (S (rngUsed g))) as Hr2.
    set (r2 := rng g (S (rngUsed g))) in *.
    set (m := Rmax 50 (ARENA_R - safeZone g - 40)).
    assert (Hm : 50 <= m) by apply Rmax_l.
    pose proof (sin2_cos2 a) as Hsc. unfold Rsqr in Hsc.
    replace ((CX + cos a * (r2 * m) - CX) * (CX + cos a * (r2 * m) - CX)
             + (CY + sin a * (r2 * m) - CY) * (CY + sin a * (r2 * m) - CY))
      with ((r2 * m) * (r2 * m) * (sin a * sin a + cos a * cos a)) by ring.
    rewrite Hsc, Rmult_1_r. rewrite sqrt_square by (apply Rmult_le_pos; lra).
    nra.
Qed.

(** In every reachable session the centre of the safe zone and its drift
    target lie within ARENA_R - 40 of the centre of the arena. *)
Theorem safe_zone_centre_in_arena (g : Game) :
  reachable g ->
  sqrt ((safeZoneCX g - CX) * (safeZoneCX g - CX)
        + (safeZoneCY g - CY) * (safeZoneCY g - CY)) <= ARENA_R - 40 /\
  sqrt ((szTargetX g - CX) * (szTargetX g - CX)
        + (szTargetY g - CY) * (szTargetY g - CY)) <= ARENA_R - 40.
Proof.
  intros Hr.
  assert (H : centre_ok g).
  { induction Hr as [mode botCount rnd Hf | g e Hr IH].
    - apply initGame_centre, Hf.
    - pose proof (reachable_ok g Hr) as [[Hrng _ Hz _ _] _ _].
      destruct e as [key | key | isGameOver ph | ]; cbn [react].
      4:{ apply (togglePause_inv centre_ok); [intros p0 g0 H0; exact H0|exact IH]. }
      + apply (handlePause_inv centre_ok); [intros p0 g0 H0; exact H0|].
        unfold centre_ok, onKeyDown in *.
        repeat match goal with |- context [if ?c then _ else _] => destruct c end;
          cbn; exact IH.
      + exact IH.
      + apply fixedStep_centre; [exact Hrng| |exact IH].
        unfold SAFE_ZONE_MIN in Hz. lra. }
  destruct H as [Hc Ht].
  assert (H0 : 0 <= ARENA_R - 40) by (unfold ARENA_R; lra).
  split; apply within_sqrt; assumption.
Qed.

Lemma safe_zone_centre_in_arena_witness :
  sqrt ((safeZoneCX transition_session - CX) * (safeZoneCX transition_session - CX)
        + (safeZoneCY transition_session - CY) * (safeZoneCY transition_session - CY))
  <= ARENA_R - 40.
Proof.
  refine (proj1 (safe_zone_centre_in_arena transition_session _)).
  unfold transition_session. apply reach_event. apply reach_init. exact fair_zero_rng.
Defined.

(** ** Victory in the arena *)

Lemma deadCount_le (bs : list Bot) :
  (0 <= deadCount bs <= Z.of_nat (List.length bs))%Z.
Proof.
  induction bs as [|b rest IH]; cbn [deadCount List.length]; [lia|].
  destruct (alive b); lia.
Qed.

Lemma deadCount_all (bs : list Bot) :
  deadCount bs = Z.of_nat (List.length bs) -> Forall (fun b => alive b = false) bs.
Proof.
  induction bs as [|b rest IH]; cbn [deadCount List.length]; intros H; [constructor|].
  pose proof (deadCount_le rest). destruct (alive b) eqn:Ha; [lia|].
  constructor; [exact Ha|apply IH; lia].
Qed.

(** Outside duel mode a bot is counted alive exactly when it leaves the
    step alive, and the loop never records a victory. *)
Lemma botStep_counted (g : Game) (bot : Bot) :
  gameMode g <> duel ->
  snd (botStep g bot) = alive (snd (fst (botStep g bot))) /\
  (alive bot = false -> alive (snd (fst (botStep g bot))) = false) /\
  isWinner (fst (fst (botStep g bot))) = isWinner g /\
  playerAlive (fst (fst (botStep g bot))) = playerAlive g /\
  gameMode (fst (fst (botStep g bot))) = gameMode g.
Proof.
  intros Hm. unfold botStep. destruct (alive bot) eqn:Ha; cbn [negb fst snd];
    [|rewrite Ha; auto 10].
  match goal with |- context [if ?c then _ else _] => destruct c end.
  - unfold eliminateBot. cbn [gameMode set_kills].
    destruct (mode_eqb (gameMode g) duel) eqn:E.
    + destruct (gameMode g); try discriminate. contradiction.
    + cbn. auto 10.
  - assert (Hb : alive (snd (botHousekeeping g bot)) = alive bot).
    { unfold botHousekeeping. cbn zeta.
      destruct (botSpin _ _ _) as [r4 g1]. destruct (botEmergencySpin _ _ _) as [r5 g2].
      reflexivity. }
    assert (H1 : isWinner (fst (botHousekeeping g bot)) = isWinner g)
      by (by_untouched botHousekeeping_untouched).
    assert (H2 : playerAlive (fst (botHousekeeping g bot)) = playerAlive g)
      by (by_untouched botHousekeeping_untouched).
    assert (H3 : gameMode (fst (botHousekeeping g bot)) = gameMode g)
      by (by_untouched botHousekeeping_untouched).
    destruct (botHousekeeping g bot) as [g1 bot1]. cbn [fst snd] in *.
    rewrite Hb, Ha. split; [reflexivity|]. split; [discriminate|]. auto.
Qed.

Lemma botLoop_counted (todo : list Bot) (g : Game) :
  gameMode g <> duel ->
  (snd (botLoop g todo) + deadCount (snd (fst (botLoop g todo)))
   = Z.of_nat (List.length (snd (fst (botLoop g todo)))))%Z /\
  (deadCount todo = Z.of_nat (List.length todo) ->
   deadCount (snd (fst (botLoop g todo)))
   = Z.of_nat (List.length (snd (fst (botLoop g todo))))) /\
  isWinner (fst (fst (botLoop g todo))) = isWinner g /\
  playerAlive (fst (fst (botLoop g todo))) = playerAlive g.
Proof.
  revert g. induction todo as [|bot rest IH]; intros g Hm; cbn; [auto|].
  pose proof (botStep_counted g bot Hm) as (C1 & D1 & W1 & P1 & M1).
  destruct (botStep g bot) as [[g1 bot1] counted]. cbn [fst snd] in *.
  assert (Hm1 : gameMode g1 <> duel) by congruence.
  specialize (IH g1 Hm1) as (C2 & D2 & W2 & P2).
  destruct (botLoop g1 rest) as [[g2 rest1] n]. cbn [fst snd deadCount List.length] in *.
  subst counted. split; [destruct (alive bot1); lia|].
  split; [|split; congruence].
  intros Hall. pose proof (deadCount_le rest) as Hle.
  destruct (alive bot) eqn:Ha; [lia|]. rewrite (D1 eq_refl).
  rewrite D2 by lia. lia.
Qed.

Lemma playerStep_winner (g : Game) :
  isWinner (playerStep g) = true ->
  isWinner g = true /\ playerAlive (playerStep g) = playerAlive g.
Proof.
  unfold playerStep. destruct (playerAlive g) eqn:Hp; [|rewrite Hp; auto].
  match goal with |- context [if ?c then _ else _] => destruct c end; cbn.
  - discriminate.
  - auto.
Qed.

Lemma fixedStep_arena_won (isGameOver : bool) (ph : Physics) (g : Game) :
  arena_won_ok g -> arena_won_ok (fixedStep isGameOver ph g).
Proof.
  intros Hok.
  pose proof (proj2 (fixedStep_outcome isGameOver ph g)) as (_ & _ & _ & Hmode).
  revert Hmode.
  unfold fixedStep. destruct isGameOver; [intros; exact Hok|].
  destruct (duelTransition g).
  - match goal with |- context [if ?c then _ else _] => destruct c end;
      intros; exact Hok.
  - cbn zeta. set (g1 := set_frameCount (frameCount g + 1)%Z g).
    set (g2 := engineUpdate ph g1).
    assert (E2 : isWinner g2 = isWinner g /\ playerAlive g2 = playerAlive g /\
                 gameMode g2 = gameMode g /\
                 deadCount (bots g2) = deadCount (bots g) /\
                 List.length (bots g2) = List.length (bots g)).
    { subst g2.
      rewrite (engineUpdate_untouched _ isWinner), (engineUpdate_untouched _ playerAlive),
        (engineUpdate_untouched _ gameMode); try (intros; reflexivity).
      repeat split.
      - unfold engineUpdate. cbn [bots set_player set_bots].
        apply deadCount_same_alive. rewrite map_map. cbn.
        apply (collisionStart_alive (pairs ph) g1).
      - unfold engineUpdate. cbn [bots set_player set_bots].
        rewrite length_map.
        pose proof (f_equal (@List.length bool) (collisionStart_alive (pairs ph) g1)) as Hl.
        rewrite !length_map in Hl. exact Hl. }
    clearbody g2. destruct E2 as (W2 & P2 & M2 & D2 & L2).
    intros Hmode Har. rewrite Hmode in Har.
    assert (E3 : spawnSurvivalBot g2 = g2).
    { unfold spawnSurvivalBot. rewrite M2, Har. reflexivity. }
    rewrite E3 in *.
    set (g5 := safeZoneStep (playerStep g2)) in *.
    assert (E5 : isWinner g5 = isWinner (playerStep g2) /\
                 playerAlive g5 = playerAlive (playerStep g2) /\
                 gameMode g5 = gameMode g /\ bots g5 = bots g2).
    { subst g5.
      rewrite (safeZoneStep_untouched _ isWinner), (safeZoneStep_untouched _ playerAlive),
        (safeZoneStep_untouched _ gameMode), (safeZoneStep_untouched _ bots),
        (playerStep_untouched _ gameMode), (playerStep_untouched _ bots);
        try (intros; reflexivity).
      repeat split. exact M2. }
    clearbody g5. destruct E5 as (W5 & P5 & M5 & B5).
    assert (Hnd : gameMode g5 <> duel) by (rewrite M5, Har; discriminate).
    unfold botAI.
    pose proof (botLoop_counted (bots g5) g5 Hnd) as (C6 & D6 & W6 & P6).
    destruct (botLoop g5 (bots g5)) as [[g6 bs] n]. cbn [fst snd] in *.
    set (g6' := set_bots bs g6).
    assert (E7 : isWinner (bossWeapons g6') = isWinner g6 /\
                 playerAlive (bossWeapons g6') = playerAlive g6 /\
                 bots (bossWeapons g6') = bs).
    { rewrite (bossWeapons_untouched _ isWinner), (bossWeapons_untouched _ playerAlive),
        (bossWeapons_untouched _ bots); try (intros; reflexivity).
      repeat split. }
    set (g7 := bossWeapons g6') in *. clearbody g7. destruct E7 as (W7 & P7 & B7).
    assert (Hkeep : isWinner g7 = true ->
                    playerAlive g7 = true /\ deadCount bs = Z.of_nat (List.length bs)).
    { intros Hw. rewrite W7, W6, W5 in Hw.
      destruct (playerStep_winner g2 Hw) as [Hw2 Hp2].
      rewrite W2 in Hw2. rewrite <- Hmode in Har.
      assert (Har0 : gameMode g = arena) by congruence.
      destruct (Hok Har0 Hw2) as [Hpa Hall].
      split; [rewrite P7, P6, P5, Hp2, P2; exact Hpa|].
      apply D6. rewrite B5, D2, L2. exact Hall. }
    unfold updateAliveCount.
    destruct (phase g7); try (rewrite B7; exact Hkeep).
    destruct (mode_eqb (gameMode g7) arena && (n =? 0)%Z && playerAlive g7) eqn:Hwin.
    + intros _. cbn. rewrite B7.
      apply andb_prop in Hwin as [Hwin Hp]. apply andb_prop in Hwin as [_ Hn].
      apply Z.eqb_eq in Hn. split; [exact Hp|lia].
    + destruct (mode_eqb (gameMode g7) survival && negb (playerAlive g7));
        cbn; [discriminate|]. rewrite B7. exact Hkeep.
Qed.

Lemma reachable_arena_won (g : Game) : reachable g -> arena_won_ok g.
Proof.
  induction 1 as [mode botCount rnd Hf | g e Hr IH].
  - destruct (initGame_shape mode botCount rnd) as (roster & tx & ty & n & E & Hro).
    rewrite E. unfold arena_won_ok. cbn. discriminate.
  - destruct e as [key | key | isGameOver ph | ]; cbn [react].
    4:{ apply (togglePause_inv arena_won_ok); [intros p0 g0 H0; exact H0|exact IH]. }
    + apply (handlePause_inv arena_won_ok); [intros p0 g0 H0; exact H0|].
      unfold arena_won_ok, onKeyDown in *.
      repeat match goal with |- context [if ?c then _ else _] => destruct c end;
        cbn; exact IH.
    + exact IH.
    + apply fixedStep_arena_won, IH.
Qed.

(** An arena match is recorded as won only when the player is alive and
    every bot of the roster has been eliminated; the kill counter then equals
    the number of bots. *)
Theorem arena_victory_condition (g : Game) :
  reachable g -> gameMode g = arena -> isWinner g = true ->
  playerAlive g = true /\
  Forall (fun b => alive b = false) (bots g) /\
  kills g = Z.of_nat (List.length (bots g)).
Proof.
  intros Hr Har Hw.
  destruct (reachable_arena_won g Hr Har Hw) as [Hp Hall].
  destruct (reachable_kills g Hr) as [Hk Hround].
  split; [exact Hp|]. split; [apply deadCount_all, Hall|].
  rewrite Hk, Hround, Hall by (rewrite Har; discriminate). lia.
Qed.

(** A step that is not frozen runs the loop over the bots, the boss
    weapons and the alive count on [beforeBots]. *)
Lemma fixedStep_unfrozen (ph : Physics) (g : Game) :
  duelTransition g = false ->
  fixedStep false ph g
  = updateAliveCount (snd (botAI (beforeBots ph g)))
      (bossWeapons (fst (botAI (beforeBots ph g)))).
Proof.
  intros Ht. unfold fixedStep, beforeBots. rewrite Ht. cbn zeta.
  destruct (botAI _) as [g6 aliveCount]. reflexivity.
Qed.

(** A quiet step outside survival mode: no collision, the player alive with
    more than 2 RPM and carried to a place inside the elimination radius.
    The player only loses the decay of the step. *)
Lemma beforeBots_quiet (ph : Physics) (g : Game) :
  gameMode g <> survival -> pairs ph = [] ->
  playerAlive g = true -> 2 < currentRPM g ->
  dist2Center (moveBody ph (player g)) <= ARENA_R + 50 ->
  exists r,
    currentRPM g - 1.6 <= r <= currentRPM g /\
    beforeBots ph g
    = safeZoneStep (set_currentRPM r
        (set_player (moveBody ph (player g))
          (set_bots (map (fun b => set_body (moveBody ph (body b)) b) (bots g))
            (set_frameCount (frameCount g + 1)%Z g)))).
Proof.
  intros Hm Hpairs Hp Hrpm Hin. unfold beforeBots.
  set (g1 := set_frameCount (frameCount g + 1)%Z g).
  assert (E2 : engineUpdate ph g1
               = set_player (moveBody ph (player g))
                   (set_bots (map (fun b => set_body (moveBody ph (body b)) b) (bots g))
                      g1)).
  { unfold engineUpdate. rewrite Hpairs. reflexivity. }
  rewrite E2. set (g2 := set_player _ _).
  assert (E3 : spawnSurvivalBot g2 = g2).
  { unfold spawnSurvivalBot. change (gameMode g2) with (gameMode g).
    destruct (gameMode g); try reflexivity. contradiction. }
  rewrite E3.
  assert (Hd : 0 < playerDecay g2 <= 1.6).
  { unfold playerDecay, RPM_DECAY_PER_FRAME, OUTSIDE_DECAY_MULT. cbn zeta.
    destruct (num_gt _ _); lra. }
  exists (Rmax 0 (currentRPM g2 - playerDecay g2)).
  change (currentRPM g2) with (currentRPM g).
  assert (Hmax : Rmax 0 (currentRPM g - playerDecay g2) = currentRPM g - playerDecay g2)
    by (apply Rmax_right; lra).
  split; [rewrite Hmax; lra|].
  f_equal. unfold playerStep. change (playerAlive g2) with (playerAlive g). rewrite Hp.
  cbn zeta. change (currentRPM g2) with (currentRPM g).
  assert (C1 : num_le (currentRPM (set_currentRPM
                 (Rmax 0 (currentRPM g - playerDecay g2)) g2)) 0 = false).
  { apply num_le_false. cbn [currentRPM set_currentRPM]. rewrite Hmax. lra. }
  assert (C2 : num_gt (dist2Center (player (set_currentRPM
                 (Rmax 0 (currentRPM g - playerDecay g2)) g2))) (ARENA_R + 50) = false).
  { apply num_gt_false. exact Hin. }
  rewrite C1, C2. reflexivity.
Qed.

(** The loop over a roster of one bot. *)
Lemma botAI_single_out (g : Game) (b : Bot) :
  bots g = [b] -> alive b = true ->
  rpm b <= 0 \/ ARENA_R + 50 < dist2Center (body b) ->
  botAI g = (set_bots [snd (eliminateBot g b)] (fst (eliminateBot g b)), 0%Z).
Proof.
  intros Hb Ha Hout. unfold botAI. rewrite Hb. cbn [botLoop].
  unfold botStep. rewrite Ha. cbn [negb].
  assert (C : num_le (rpm b) 0 || num_gt (dist2Center (body b)) (ARENA_R + 50) = true).
  { destruct Hout as [H | H].
    - rewrite (proj2 (num_le_true _ _) H). reflexivity.
    - rewrite (proj2 (num_gt_true _ _) H). apply orb_true_r. }
  rewrite C. destruct (eliminateBot g b) as [g1 b1]. reflexivity.
Qed.

Lemma botAI_single_kept (g : Game) (b : Bot) :
  bots g = [b] -> alive b = true ->
  0 < rpm b -> dist2Center (body b) <= ARENA_R + 50 ->
  botAI g = (set_bots [snd (botHousekeeping g b)] (fst (botHousekeeping g b)), 1%Z).
Proof.
  intros Hb Ha Hr Hin. unfold botAI. rewrite Hb. cbn [botLoop].
  unfold botStep. rewrite Ha. cbn [negb].
  rewrite (proj2 (num_le_false _ _) Hr), (proj2 (num_gt_false _ _) Hin). cbn [orb].
  destruct (botHousekeeping g b) as [g1 b1]. reflexivity.
Qed.

(** The quiet step of an arena match that carries the last bot alive out of
    the arena records the victory. *)
Lemma arena_last_bot_out (ph : Physics) (g : Game) (b : Bot) :
  gameMode g = arena -> bots g = [b] -> alive b = true -> pairs ph = [] ->
  playerAlive g = true -> phase g = playing -> duelTransition g = false ->
  2 < currentRPM g ->
  dist2Center (moveBody ph (player g)) <= ARENA_R + 50 ->
  ARENA_R + 50 < dist2Center (moveBody ph (body b)) ->
  isWinner (fixedStep false ph g) = true /\
  bots (fixedStep false ph g) = [set_alive false (set_body (moveBody ph (body b)) b)].
Proof.
  intros Hm Hb Ha Hpairs Hp Hph Ht Hrpm Hin Hout.
  rewrite (fixedStep_unfrozen ph g Ht).
  assert (Hns : gameMode g <> survival) by (rewrite Hm; discriminate).
  destruct (beforeBots_quiet ph g Hns Hpairs Hp Hrpm Hin) as (r & Hr & E).
  set (g5 := beforeBots ph g) in *.
  assert (E5 : bots g5 = [set_body (moveBody ph (body b)) b] /\ phase g5 = playing /\
               gameMode g5 = arena /\ playerAlive g5 = true).
  { rewrite E.
    rewrite (safeZoneStep_untouched _ bots), (safeZoneStep_untouched _ phase),
      (safeZoneStep_untouched _ gameMode), (safeZoneStep_untouched _ playerAlive);
      try (intros; reflexivity).
    cbn [bots phase gameMode playerAlive set_currentRPM set_player set_bots
         set_frameCount].
    rewrite Hb. cbn [map]. auto. }
  clearbody g5. destruct E5 as (B5 & Ph5 & M5 & P5).
  set (b5 := set_body (moveBody ph (body b)) b) in *.
  rewrite (botAI_single_out g5 b5 B5 Ha (or_intror Hout)).
  assert (Eo : eliminateBot g5 b5 = (set_kills (kills g5 + 1)%Z g5, set_alive false b5)).
  { unfold eliminateBot. cbn [gameMode set_kills]. rewrite M5. reflexivity. }
  rewrite Eo. cbn [fst snd].
  unfold updateAliveCount.
  rewrite !(bossWeapons_untouched _ phase), !(bossWeapons_untouched _ gameMode),
    !(bossWeapons_untouched _ playerAlive); try (intros; reflexivity).
  cbn [phase gameMode playerAlive set_bots set_kills]. rewrite Ph5, M5, P5.
  cbn [mode_eqb Z.eqb andb].
  split; [reflexivity|].
  cbn [bots set_isWinner set_phase set_gameOver].
  rewrite (bossWeapons_untouched _ bots) by (intros; reflexivity). reflexivity.
Qed.

Lemma dist2Center_right (h : nat) (l : Label) (d : R) (v : Vec) :
  0 <= d -> dist2Center (mkBody h l (mkVec (CX + d) CY) v) = d.
Proof.
  intros Hd. unfold dist2Center. cbn [position vx vy].
  replace ((CX + d - CX) * (CX + d - CX) + (CY - CY) * (CY - CY)) with (d * d) by ring.
  apply sqrt_square, Hd.
Qed.

Lemma dist2Center_left (h : nat) (l : Label) (d : R) (v : Vec) :
  0 <= d -> dist2Center (mkBody h l (mkVec (CX - d) CY) v) = d.
Proof.
  intros Hd. unfold dist2Center. cbn [position vx vy].
  replace ((CX - d - CX) * (CX - d - CX) + (CY - CY) * (CY - CY)) with (d * d) by ring.
  apply sqrt_square, Hd.
Qed.

Lemma dist2Center_centre (h : nat) (l : Label) (v : Vec) :
  dist2Center (mkBody h l (mkVec CX CY) v) = 0.
Proof.
  unfold dist2Center. cbn [position vx vy].
  replace ((CX - CX) * (CX - CX) + (CY - CY) * (CY - CY)) with 0 by ring.
  apply sqrt_0.
Qed.

Lemma arena_won_session_won :
  reachable arena_won_session /\ gameMode arena_won_session = arena /\
  isWinner arena_won_session = true /\
  List.length (bots arena_won_session) = 1%nat.
Proof.
  unfold arena_won_session.
  assert (Hb : exists b, bots (initGame arena 1 zero_rng) = [b] /\ alive b = true /\
                         handle (body b) = 1%nat)
    by (eexists; repeat split; reflexivity).
  destruct Hb as (b & Hb & Ha & Hh).
  assert (Hwin : isWinner (fixedStep false boss_ejected (initGame arena 1 zero_rng)) = true /\
                 bots (fixedStep false boss_ejected (initGame arena 1 zero_rng))
                 = [set_alive false (set_body (moveBody boss_ejected (body b)) b)]).
  { apply arena_last_bot_out; try reflexivity; try assumption.
    - change (currentRPM (initGame arena 1 zero_rng)) with STARTING_RPM.
      unfold STARTING_RPM. lra.
    - change (moveBody boss_ejected (player (initGame arena 1 zero_rng)))
        with (mkBody 0 player_label (mkVec CX CY) (mkVec 0 0)).
      rewrite dist2Center_centre. unfold ARENA_R. lra.
    - unfold moveBody. rewrite Hh.
      change (fst (motion boss_ejected 1)) with (mkVec (CX + 500) CY).
      rewrite dist2Center_right by lra. unfold ARENA_R. lra. }
  split; [|split; [|split]].
  - apply reach_event, reach_init. exact fair_zero_rng.
  - rewrite react_step.
    rewrite (proj2 (proj2 (proj2 (proj2 (fixedStep_outcome false boss_ejected
                                           (initGame arena 1 zero_rng)))))).
    reflexivity.
  - rewrite react_step. exact (proj1 Hwin).
  - rewrite react_step, (proj2 Hwin). reflexivity.
Qed.

Lemma arena_victory_condition_witness :
  List.length (bots arena_won_session) = 1%nat /\
  playerAlive arena_won_session = true /\
  Forall (fun b => alive b = false) (bots arena_won_session) /\
  kills arena_won_session = Z.of_nat (List.length (bots arena_won_session)).
Proof.
  destruct arena_won_session_won as (Hr & Hm & Hw & Hn).
  split; [exact Hn|].
  exact (arena_victory_condition arena_won_session Hr Hm Hw).
Defined.

(** ** The boss weapons in flight *)

Lemma spaced_app_one (ls : list Laser) (n : Laser) :
  spaced ls -> Forall (fun l => (life l + DUEL_LASER_INTERVAL <= life n)%Z) ls ->
  spaced (ls ++ [n]).
Proof.
  induction ls as [|l rest IH]; cbn; intros Hs Hf; [auto|].
  destruct Hs as [Hl Hr]. inversion Hf as [|? ? Hn Hf']; subst.
  split; [|apply IH; assumption].
  apply Forall_app. split; [exact Hl|]. constructor; [exact Hn|constructor].
Qed.

Lemma spaced_count (ls : list Laser) (lo hi : Z) :
  spaced ls -> Forall (fun l => (lo <= life l <= hi)%Z) ls ->
  ls = [] \/ (DUEL_LASER_INTERVAL * Z.of_nat (List.length ls) <= hi - lo + DUEL_LASER_INTERVAL)%Z.
Proof.
  unfold DUEL_LASER_INTERVAL. revert lo.
  induction ls as [|l rest IH]; intros lo Hs Hf; [left; reflexivity|]. right.
  destruct Hs as [Hl Hr]. inversion Hf as [|? ? Hb Hf']; subst.
  assert (Hf2 : Forall (fun l' => (life l + 12 <= life l' <= hi)%Z) rest).
  { rewrite Forall_forall in *. intros x Hx. specialize (Hl x Hx). specialize (Hf' x Hx).
    unfold DUEL_LASER_INTERVAL in Hl. lia. }
  destruct (IH (life l + 12)%Z Hr Hf2) as [E | Hc].
  - subst rest. cbn. lia.
  - cbn [List.length]. lia.
Qed.

(** The laser loop keeps the order of the lasers, takes one frame of life
    from each one it keeps and keeps none without a frame left. *)
Lemma lasersLoop_lives (P : Z -> Prop) (g : Game) (ls : list Laser) :
  Forall (fun l => P (life l - 1)%Z) ls ->
  Forall (fun l' => P (life l') /\ (1 <= life l')%Z) (snd (lasersLoop g ls)).
Proof.
  induction ls as [|l rest IH]; cbn; intros Hf; [constructor|].
  inversion Hf as [|? ? Hl Hr]; subst. specialize (IH Hr).
  destruct (lasersLoop g rest) as [g1 rest1]. cbn [snd] in IH.
  pose proof (laserStep_kept g1 l) as Hk.
  destruct (laserStep g1 l) as [g2 [l1|]]; cbn [snd] in *; [|exact IH].
  destruct (Hk l1 eq_refl) as (E & Hlife & _). subst l1.
  constructor; [|exact IH]. cbn [advance life] in *. auto.
Qed.

Lemma lasersLoop_spaced (g : Game) (ls : list Laser) :
  spaced ls -> spaced (snd (lasersLoop g ls)).
Proof.
  induction ls as [|l rest IH]; cbn; intros Hs; [exact I|].
  destruct Hs as [Hl Hr]. specialize (IH Hr).
  pose proof (lasersLoop_lives (fun z => (life l - 1 + DUEL_LASER_INTERVAL <= z)%Z) g rest) as Hp.
  destruct (lasersLoop g rest) as [g1 rest1]. cbn [snd] in *.
  pose proof (laserStep_kept g1 l) as Hk.
  destruct (laserStep g1 l) as [g2 [l1|]]; cbn [snd] in *; [|exact IH].
  destruct (Hk l1 eq_refl) as (E & _). subst l1.
  split; [|exact IH]. cbn [advance life].
  assert (H0 : Forall (fun l0 => (life l - 1 + DUEL_LASER_INTERVAL <= life l0 - 1)%Z) rest).
  { rewrite Forall_forall in *. intros x Hx. specialize (Hl x Hx). lia. }
  specialize (Hp H0). rewrite Forall_forall in *. intros x Hx. apply (Hp x Hx).
Qed.

Lemma bombsLoop_nil (g : Game) : bombsLoop g [] = (g, []).
Proof. reflexivity. Qed.

(** The weapon block of a step, entered with the frame counter already
    advanced. *)
Lemma bossWeapons_lasers (g : Game) :
  spaced (duelLasers g) ->
  Forall (fun l => (1 <= life l <= 119)%Z) (duelLasers g) ->
  (playerAlive g = true ->
     Forall (fun l => (life l <= 120 - (frameCount g - lastLaserFrame g))%Z) (duelLasers g)) ->
  ((duelRound g < 2)%Z -> duelLasers g = []) ->
  ((duelRound g < 3)%Z -> duelBombs g = []) ->
  (gameMode g <> duel -> duelRound g = 1%Z) ->
  lasers_ok (bossWeapons g).
Proof.
  intros Hs Hr Hb W1 W2 Hnd. unfold bossWeapons.
  destruct (mode_eqb (gameMode g) duel && playerAlive g) eqn:Hrun.
  - apply andb_prop in Hrun as [_ Hp]. specialize (Hb Hp).
    set (g1 := match bots g with
               | boss :: _ => if alive boss then throwBomb (fireLaser g boss) boss else g
               | [] => g
               end).
    assert (A : spaced (duelLasers g1) /\
                Forall (fun l => (life l - 1 <= 119)%Z) (duelLasers g1) /\
                Forall (fun l => (life l - 1 <= 119 - (frameCount g1 - lastLaserFrame g1))%Z)
                  (duelLasers g1) /\
                ((duelRound g1 < 2)%Z -> duelLasers g1 = []) /\
                ((duelRound g1 < 3)%Z -> duelBombs g1 = []) /\
                frameCount g1 = frameCount g /\ duelRound g1 = duelRound g /\
                playerAlive g1 = playerAlive g).
    { assert (A0 : spaced (duelLasers g) /\
                Forall (fun l => (life l - 1 <= 119)%Z) (duelLasers g) /\
                Forall (fun l => (life l - 1 <= 119 - (frameCount g - lastLaserFrame g))%Z)
                  (duelLasers g) /\
                ((duelRound g < 2)%Z -> duelLasers g = []) /\
                ((duelRound g < 3)%Z -> duelBombs g = []) /\
                frameCount g = frameCount g /\ duelRound g = duelRound g /\
                playerAlive g = playerAlive g).
      { split; [exact Hs|]. split; [|split; [|auto]].
        - rewrite Forall_forall in *. intros x Hx. specialize (Hr x Hx). lia.
        - rewrite Forall_forall in *. intros x Hx. specialize (Hb x Hx). lia. }
      subst g1. destruct (bots g) as [|boss rest]; [exact A0|].
      destruct (alive boss); [|exact A0]. clear A0.
      unfold throwBomb, fireLaser.
      destruct ((2 <=? duelRound g)%Z
                && (DUEL_LASER_INTERVAL <=? frameCount g - lastLaserFrame g)%Z) eqn:Hfire.
      - apply andb_prop in Hfire as [Hr2 Hi]. apply Z.leb_le in Hr2, Hi.
        cbn zeta.
        match goal with |- context [if ?c then _ else _] => destruct c eqn:Hthrow end;
          cbn -[Z.sub Z.add DUEL_LASER_INTERVAL].
        + apply andb_prop in Hthrow as [Hr3 _]. apply Z.leb_le in Hr3.
          cbn -[Z.sub Z.add DUEL_LASER_INTERVAL] in Hr3.
          split; [|split; [|split; [|split; [|split; [|auto]]]]].
          * apply spaced_app_one; [exact Hs|].
            rewrite Forall_forall in *. intros x Hx. specialize (Hb x Hx). cbn [life]. lia.
          * apply Forall_app. split.
            -- rewrite Forall_forall in *. intros x Hx. specialize (Hr x Hx). lia.
            -- constructor; [cbn [life]; lia|constructor].
          * apply Forall_app. split.
            -- rewrite Forall_forall in *. intros x Hx. specialize (Hr x Hx). lia.
            -- constructor; [cbn [life]; lia|constructor].
          * intros; lia.
          * intros; lia.
        + split; [|split; [|split; [|split; [|split; [|auto]]]]].
          * apply spaced_app_one; [exact Hs|].
            rewrite Forall_forall in *. intros x Hx. specialize (Hb x Hx). cbn [life]. lia.
          * apply Forall_app. split.
            -- rewrite Forall_forall in *. intros x Hx. specialize (Hr x Hx). lia.
            -- constructor; [cbn [life]; lia|constructor].
          * apply Forall_app. split.
            -- rewrite Forall_forall in *. intros x Hx. specialize (Hr x Hx). lia.
            -- constructor; [cbn [life]; lia|constructor].
          * intros; lia.
          * apply andb_false_iff in Hthrow.
            cbn -[Z.sub Z.add DUEL_LASER_INTERVAL] in Hthrow. exact W2.
      - match goal with |- context [if ?c then _ else _] => destruct c eqn:Hthrow end;
          cbn -[Z.sub Z.add DUEL_LASER_INTERVAL].
        + apply andb_prop in Hthrow as [Hr3 _]. apply Z.leb_le in Hr3.
          split; [exact Hs|]. split; [|split; [|split; [exact W1|split; [intros; lia|auto]]]].
          * rewrite Forall_forall in *. intros x Hx. specialize (Hr x Hx). lia.
          * rewrite Forall_forall in *. intros x Hx. specialize (Hb x Hx). lia.
        + split; [exact Hs|]. split; [|split; [|auto]].
          * rewrite Forall_forall in *. intros x Hx. specialize (Hr x Hx). lia.
          * rewrite Forall_forall in *. intros x Hx. specialize (Hb x Hx). lia. }
    clearbody g1. destruct A as (S1 & R1 & B1 & W11 & W21 & F1 & D1 & P1).
    pose proof (lasersLoop_spaced g1 (duelLasers g1) S1) as S2.
    pose proof (lasersLoop_lives (fun z => (z <= 119)%Z) g1 (duelLasers g1) R1) as R2.
    pose proof (lasersLoop_lives
                  (fun z => (z <= 119 - (frameCount g1 - lastLaserFrame g1))%Z)
                  g1 (duelLasers g1) B1) as B2.
    assert (L2 : duelLasers g1 = [] -> snd (lasersLoop g1 (duelLasers g1)) = []).
    { intros E. rewrite E. reflexivity. }
    assert (Hf2 : frameCount (fst (lasersLoop g1 (duelLasers g1))) = frameCount g1)
      by (by_untouched lasersLoop_untouched).
    assert (Hl2 : lastLaserFrame (fst (lasersLoop g1 (duelLasers g1))) = lastLaserFrame g1)
      by (by_untouched lasersLoop_untouched).
    assert (Hd2 : duelRound (fst (lasersLoop g1 (duelLasers g1))) = duelRound g1)
      by (by_untouched lasersLoop_untouched).
    assert (Hb2 : duelBombs (fst (lasersLoop g1 (duelLasers g1))) = duelBombs g1)
      by (by_untouched lasersLoop_untouched).
    destruct (lasersLoop g1 (duelLasers g1)) as [g2 ls]. cbn [fst snd] in *.
    set (g3 := set_duelLasers ls g2).
    assert (Hf4 : frameCount (fst (bombsLoop g3 (duelBombs g3))) = frameCount g3)
      by (by_untouched bombsLoop_untouched).
    assert (Hl4 : lastLaserFrame (fst (bombsLoop g3 (duelBombs g3))) = lastLaserFrame g3)
      by (by_untouched bombsLoop_untouched).
    assert (Hd4 : duelRound (fst (bombsLoop g3 (duelBombs g3))) = duelRound g3)
      by (by_untouched bombsLoop_untouched).
    assert (Hz4 : duelLasers (fst (bombsLoop g3 (duelBombs g3))) = duelLasers g3)
      by (by_untouched bombsLoop_untouched).
    assert (Hn4 : duelBombs g3 = [] -> snd (bombsLoop g3 (duelBombs g3)) = []).
    { intros E. rewrite E. reflexivity. }
    destruct (bombsLoop g3 (duelBombs g3)) as [g4 bs]. cbn [fst snd] in *.
    unfold lasers_ok. cbn [duelLasers duelBombs set_duelBombs playerAlive frameCount
                             lastLaserFrame duelRound].
    rewrite Hz4, Hf4, Hl4, Hd4. cbn [duelLasers frameCount lastLaserFrame duelRound g3
                                       set_duelLasers].
    rewrite Hf2, Hl2, Hd2.
    split; [exact S2|]. split; [|split; [|split]].
    + rewrite Forall_forall in *. intros x Hx. destruct (R2 x Hx). lia.
    + intros _. rewrite Forall_forall in *. intros x Hx. destruct (B2 x Hx). lia.
    + intros Hlt. exact (L2 (W11 Hlt)).
    + intros Hlt. apply Hn4. cbn [g3 duelBombs set_duelLasers]. rewrite Hb2.
      exact (W21 Hlt).
  - unfold lasers_ok. split; [exact Hs|]. split; [exact Hr|].
    split; [|split; assumption].
    intros Hp. rewrite Hp, andb_true_r in Hrun.
    assert (Hm : gameMode g <> duel) by (intros E; rewrite E in Hrun; discriminate).
    rewrite W1 by (rewrite (Hnd Hm); lia). constructor.
Qed.

Lemma botStep_weapons (g : Game) (bot : Bot) :
  (duelLasers (fst (fst (botStep g bot))) = duelLasers g /\
   duelBombs (fst (fst (botStep g bot))) = duelBombs g /\
   duelRound (fst (fst (botStep g bot))) = duelRound g) \/
  (duelLasers (fst (fst (botStep g bot))) = [] /\
   duelBombs (fst (fst (botStep g bot))) = []).
Proof.
  unfold botStep. destruct (negb (alive bot)); [left; auto|].
  match goal with |- context [if ?c then _ else _] => destruct c end.
  - unfold eliminateBot, duelRoundReset. cbn [gameMode set_kills duelRound].
    destruct (mode_eqb (gameMode g) duel); [|left; cbn; auto].
    destruct (duelRound g <? 3)%Z; cbn; [right|left]; auto.
  - assert (H1 : duelLasers (fst (botHousekeeping g bot)) = duelLasers g)
      by (by_untouched botHousekeeping_untouched).
    assert (H2 : duelBombs (fst (botHousekeeping g bot)) = duelBombs g)
      by (by_untouched botHousekeeping_untouched).
    assert (H3 : duelRound (fst (botHousekeeping g bot)) = duelRound g)
      by (by_untouched botHousekeeping_untouched).
    destruct (botHousekeeping g bot) as [g1 bot1]. cbn [fst] in *. left. auto.
Qed.

Lemma botLoop_weapons (todo : list Bot) (g : Game) :
  (duelLasers (fst (fst (botLoop g todo))) = duelLasers g /\
   duelBombs (fst (fst (botLoop g todo))) = duelBombs g /\
   duelRound (fst (fst (botLoop g todo))) = duelRound g) \/
  (duelLasers (fst (fst (botLoop g todo))) = [] /\
   duelBombs (fst (fst (botLoop g todo))) = []).
Proof.
  revert g. induction todo as [|bot rest IH]; intros g; cbn; [left; auto|].
  pose proof (botStep_weapons g bot) as H1.
  destruct (botStep g bot) as [[g1 bot1] counted]. cbn [fst] in H1.
  specialize (IH g1). destruct (botLoop g1 rest) as [[g2 rest1] n]. cbn [fst] in *.
  destruct IH as [(A & B & C) | (A & B)]; [|right; auto].
  destruct H1 as [(A1 & B1 & C1) | (A1 & B1)]; [left|right]; split; try split; congruence.
Qed.

Lemma fixedStep_lasers (isGameOver : bool) (ph : Physics) (g : Game) :
  kills_ok g -> lasers_ok g -> lasers_ok (fixedStep isGameOver ph g).
Proof.
  intros [_ Hround] Hok. unfold fixedStep. destruct isGameOver; [exact Hok|].
  destruct (duelTransition g).
  - match goal with |- context [if ?c then _ else _] => destruct c end; exact Hok.
  - cbn zeta. set (g1 := set_frameCount (frameCount g + 1)%Z g).
    destruct Hok as (Hs & Hr & Hb & W1 & W2).
    set (g3 := spawnSurvivalBot (engineUpdate ph g1)).
    assert (E3 : duelLasers g3 = duelLasers g /\ duelBombs g3 = duelBombs g /\
                 duelRound g3 = duelRound g /\ lastLaserFrame g3 = lastLaserFrame g /\
                 frameCount g3 = (frameCount g + 1)%Z /\ playerAlive g3 = playerAlive g /\
                 gameMode g3 = gameMode g).
    { subst g3.
      rewrite !(spawnSurvivalBot_untouched _ duelLasers), !(spawnSurvivalBot_untouched _ duelBombs),
        !(spawnSurvivalBot_untouched _ duelRound), !(spawnSurvivalBot_untouched _ lastLaserFrame),
        !(spawnSurvivalBot_untouched _ frameCount), !(spawnSurvivalBot_untouched _ playerAlive),
        !(spawnSurvivalBot_untouched _ gameMode),
        !(engineUpdate_untouched _ duelLasers), !(engineUpdate_untouched _ duelBombs),
        !(engineUpdate_untouched _ duelRound), !(engineUpdate_untouched _ lastLaserFrame),
        !(engineUpdate_untouched _ frameCount), !(engineUpdate_untouched _ playerAlive),
        !(engineUpdate_untouched _ gameMode);
        try (intros; reflexivity).
      repeat split. }
    clearbody g3. destruct E3 as (L3 & B3 & D3 & F3 & C3 & P3 & M3).
    set (g5 := safeZoneStep (playerStep g3)).
    assert (E5 : duelLasers g5 = duelLasers g /\ duelBombs g5 = duelBombs g /\
                 duelRound g5 = duelRound g /\ lastLaserFrame g5 = lastLaserFrame g /\
                 frameCount g5 = (frameCount g + 1)%Z /\ gameMode g5 = gameMode g /\
                 (playerAlive g5 = true -> playerAlive g = true)).
    { subst g5.
      rewrite !(safeZoneStep_untouched _ duelLasers), !(safeZoneStep_untouched _ duelBombs),
        !(safeZoneStep_untouched _ duelRound), !(safeZoneStep_untouched _ lastLaserFrame),
        !(safeZoneStep_untouched _ frameCount), !(safeZoneStep_untouched _ playerAlive),
        !(safeZoneStep_untouched _ gameMode),
        !(playerStep_untouched _ duelLasers), !(playerStep_untouched _ duelBombs),
        !(playerStep_untouched _ duelRound), !(playerStep_untouched _ lastLaserFrame),
        !(playerStep_untouched _ frameCount), !(playerStep_untouched _ gameMode);
        try (intros; reflexivity).
      repeat split; try assumption.
      intros Hp. destruct (proj2 (playerStep_outcome g3)) as (Hdead & _).
      rewrite <- P3. destruct (playerAlive g3); [reflexivity|].
      rewrite (Hdead eq_refl) in Hp. discriminate. }
    clearbody g5. destruct E5 as (L5 & B5 & D5 & F5 & C5 & M5 & P5).
    unfold botAI. pose proof (botLoop_weapons (bots g5) g5) as Hw.
    pose proof (botLoop_kills (bots g5) g5) as [_ Hdm].
    assert (F6 : frameCount (fst (fst (botLoop g5 (bots g5)))) = frameCount g5)
      by (by_untouched botLoop_untouched).
    assert (Z6 : lastLaserFrame (fst (fst (botLoop g5 (bots g5)))) = lastLaserFrame g5)
      by (by_untouched botLoop_untouched).
    assert (P6 : playerAlive (fst (fst (botLoop g5 (bots g5)))) = playerAlive g5)
      by (by_untouched botLoop_untouched).
    assert (M6 : gameMode (fst (fst (botLoop g5 (bots g5)))) = gameMode g5)
      by (by_untouched botLoop_untouched).
    destruct (botLoop g5 (bots g5)) as [[g6 bs] n]. cbn [fst] in *.
    assert (H7 : lasers_ok (bossWeapons (set_bots bs g6))).
    { apply bossWeapons_lasers;
        cbn [duelLasers duelBombs duelRound frameCount lastLaserFrame playerAlive gameMode
             set_bots].
      - destruct Hw as [(A & _) | (A & _)]; rewrite A; [rewrite L5; exact Hs|exact I].
      - destruct Hw as [(A & _) | (A & _)]; rewrite A; [rewrite L5; exact Hr|constructor].
      - intros Hp. rewrite P6 in Hp. specialize (Hb (P5 Hp)).
        destruct Hw as [(A & _) | (A & _)]; rewrite A; [|constructor].
        rewrite L5, F6, Z6, C5, F5.
        rewrite Forall_forall in *. intros x Hx. specialize (Hb x Hx). lia.
      - intros Hlt. destruct Hw as [(A & _ & C) | (A & _)]; rewrite A; [|reflexivity].
        rewrite L5. apply W1. rewrite <- D5, <- C. exact Hlt.
      - intros Hlt. destruct Hw as [(_ & A & C) | (_ & A)]; rewrite A; [|reflexivity].
        rewrite B5. apply W2. rewrite <- D5, <- C. exact Hlt.
      - intros Hnd. rewrite M6, M5 in Hnd.
        destruct Hdm as [E | E]; [|rewrite M5 in E; contradiction].
        rewrite E, D5. exact (Hround Hnd). }
    unfold lasers_ok in *.
    rewrite !(updateAliveCount_untouched _ duelLasers), !(updateAliveCount_untouched _ duelBombs),
      !(updateAliveCount_untouched _ duelRound), !(updateAliveCount_untouched _ lastLaserFrame),
      !(updateAliveCount_untouched _ frameCount), !(updateAliveCount_untouched _ playerAlive);
      try (intros; reflexivity).
    exact H7.
Qed.

Lemma reachable_lasers (g : Game) : reachable g -> lasers_ok g.
Proof.
  induction 1 as [mode botCount rnd Hf | g e Hr IH].
  - destruct (initGame_shape mode botCount rnd) as (roster & tx & ty & n & E & Hro).
    rewrite E. unfold lasers_ok. cbn. repeat split; auto; constructor.
  - destruct e as [key | key | isGameOver ph | ]; cbn [react].
    4:{ apply (togglePause_inv lasers_ok); [intros p0 g0 H0; exact H0|exact IH]. }
    + apply (handlePause_inv lasers_ok); [intros p0 g0 H0; exact H0|].
      unfold lasers_ok, onKeyDown in *.
      repeat match goal with |- context [if ?c then _ else _] => destruct c end;
        cbn; exact IH.
    + exact IH.
    + apply fixedStep_lasers; [apply reachable_kills, Hr|exact IH].
Qed.

(** The boss weapons unlock with the rounds and never flood the arena: in
    every reachable session there is no laser before round 2 and no bomb
    before round 3 (and neither outside duel mode), every laser in flight has
    between 1 and 119 frames left to live, any two lasers in flight were fired
    at least [DUEL_LASER_INTERVAL] frames apart, and so at most 10 lasers are
    in flight at any time. *)
Theorem boss_weapons_in_flight (g : Game) :
  reachable g ->
  ((duelRound g < 2)%Z -> duelLasers g = []) /\
  ((duelRound g < 3)%Z -> duelBombs g = []) /\
  (gameMode g <> duel -> duelLasers g = [] /\ duelBombs g = []) /\
  Forall (fun l => (1 <= life l <= 119)%Z) (duelLasers g) /\
  spaced (duelLasers g) /\
  (List.length (duelLasers g) <= 10)%nat.
Proof.
  intros Hr. destruct (reachable_lasers g Hr) as (Hs & Hl & _ & W1 & W2).
  destruct (reachable_kills g Hr) as [_ Hround].
  split; [exact W1|]. split; [exact W2|]. split; [|split; [exact Hl|split; [exact Hs|]]].
  - intros Hnd. rewrite W1, W2 by (rewrite (Hround Hnd); lia). auto.
  - destruct (spaced_count _ 1 119 Hs Hl) as [E | Hc]; [rewrite E; cbn; lia|].
    unfold DUEL_LASER_INTERVAL in Hc. lia.
Qed.

Lemma boss_weapons_in_flight_witness :
  (List.length (duelLasers transition_session) <= 10)%nat.
Proof.
  refine (proj2 (proj2 (proj2 (proj2 (proj2
            (boss_weapons_in_flight transition_session _)))))).
  unfold transition_session. apply reach_event. apply reach_init. exact fair_zero_rng.
Defined.

(** ** The shrink schedule of the safe zone *)

Lemma botLoop_zone_nonduel (todo : list Bot) (g : Game) :
  gameMode g <> duel -> safeZone (fst (fst (botLoop g todo))) = safeZone g.
Proof.
  revert g. induction todo as [|bot rest IH]; intros g Hm; cbn; [reflexivity|].
  pose proof (botStep_counted g bot Hm) as (_ & _ & _ & _ & M1).
  assert (Z1 : safeZone (fst (fst (botStep g bot))) = safeZone g).
  { unfold botStep. destruct (negb (alive bot)); [reflexivity|].
    match goal with |- context [if ?c then _ else _] => destruct c end.
    - unfold eliminateBot. cbn [gameMode set_kills].
      destruct (mode_eqb (gameMode g) duel) eqn:E; [|reflexivity].
      destruct (gameMode g); try discriminate. contradiction.
    - assert (H1 : safeZone (fst (botHousekeeping g bot)) = safeZone g)
        by (by_untouched botHousekeeping_untouched).
      destruct (botHousekeeping g bot) as [g1 bot1]. exact H1. }
  destruct (botStep g bot) as [[g1 bot1] counted]. cbn [fst] in *.
  assert (Hm1 : gameMode g1 <> duel) by congruence.
  specialize (IH g1 Hm1). destruct (botLoop g1 rest) as [[g2 rest1] n]. cbn [fst] in *.
  congruence.
Qed.

Lemma shrink_closed_form (rate r : R) (fc : Z) :
  0 < rate -> (0 <= fc)%Z ->
  r = Rmax 0 (SAFE_ZONE_INITIAL - rate * IZR (fc / 60)) ->
  (if (Z.rem (fc + 1) 60 =? 0)%Z && num_gt r 0 then Rmax 0 (r - rate) else r)
  = Rmax 0 (SAFE_ZONE_INITIAL - rate * IZR ((fc + 1) / 60)).
Proof.
  intros Hrate Hfc Hr.
  rewrite Z.rem_mod_nonneg by lia.
  pose proof (Z.div_mod fc 60 ltac:(lia)) as D1.
  pose proof (Z.mod_pos_bound fc 60 ltac:(lia)) as B1.
  pose proof (Z.div_mod (fc + 1) 60 ltac:(lia)) as D2.
  pose proof (Z.mod_pos_bound (fc + 1) 60 ltac:(lia)) as B2.
  destruct ((fc + 1) mod 60 =? 0)%Z eqn:Hz; cbn [andb].
  - apply Z.eqb_eq in Hz.
    assert (E : ((fc + 1) / 60 = fc / 60 + 1)%Z) by lia.
    rewrite E, plus_IZR. set (k := IZR (fc / 60)) in *.
    destruct (num_gt r 0) eqn:Hpos.
    + apply num_gt_true in Hpos. subst r. revert Hpos. unfold Rmax.
      destruct (Rle_dec 0 (SAFE_ZONE_INITIAL - rate * k));
        destruct (Rle_dec 0 (SAFE_ZONE_INITIAL - rate * (k + 1)));
        destruct (Rle_dec 0 (SAFE_ZONE_INITIAL - rate * k - rate));
        intros; lra.
    + apply num_gt_false in Hpos. subst r. revert Hpos. unfold Rmax.
      destruct (Rle_dec 0 (SAFE_ZONE_INITIAL - rate * k));
        destruct (Rle_dec 0 (SAFE_ZONE_INITIAL - rate * (k + 1)));
        intros; lra.
  - apply Z.eqb_neq in Hz.
    assert (E : ((fc + 1) / 60 = fc / 60)%Z) by lia.
    rewrite E. exact Hr.
Qed.

Lemma fixedStep_radius (isGameOver : bool) (ph : Physics) (g : Game) :
  radius_ok g -> radius_ok (fixedStep isGameOver ph g).
Proof.
  intros [Hfc Hrad]. unfold fixedStep. destruct isGameOver; [split; assumption|].
  destruct (duelTransition g).
  - match goal with |- context [if ?c then _ else _] => destruct c end;
      split; assumption.
  - cbn zeta. set (g1 := set_frameCount (frameCount g + 1)%Z g).
    set (g4 := playerStep (spawnSurvivalBot (engineUpdate ph g1))).
    assert (E4 : safeZone g4 = safeZone g /\ frameCount g4 = (frameCount g + 1)%Z /\
                 gameMode g4 = gameMode g).
    { subst g4.
      rewrite !(playerStep_untouched _ safeZone), !(playerStep_untouched _ frameCount),
        !(playerStep_untouched _ gameMode),
        !(spawnSurvivalBot_untouched _ safeZone), !(spawnSurvivalBot_untouched _ frameCount),
        !(spawnSurvivalBot_untouched _ gameMode),
        !(engineUpdate_untouched _ safeZone), !(engineUpdate_untouched _ frameCount),
        !(engineUpdate_untouched _ gameMode);
        try (intros; reflexivity).
      repeat split. }
    clearbody g4. destruct E4 as (Z4 & F4 & M4).
    set (g5 := safeZoneStep g4).
    assert (E5 : frameCount g5 = (frameCount g + 1)%Z /\ gameMode g5 = gameMode g /\
                 safeZone g5 = safeZone (safeZoneShrink g4)).
    { subst g5. unfold safeZoneStep.
      destruct (safeZoneDrift_frame (safeZoneShrink g4)) as [Md (Zd & _)].
      destruct (safeZoneShrink_frame g4) as [Ms _].
      split; [|split; [congruence|exact Zd]].
      rewrite <- F4. unfold safeZoneDrift, safeZoneShrink, random.
      repeat match goal with |- context [if ?c then _ else _] => destruct c end;
        reflexivity. }
    clearbody g5. destruct E5 as (F5 & M5 & Z5).
    assert (E6 : frameCount (fst (botAI g5)) = frameCount g5 /\
                 gameMode (fst (botAI g5)) = gameMode g5 /\
                 (gameMode g5 <> duel -> safeZone (fst (botAI g5)) = safeZone g5)).
    { split; [by_untouched botAI_untouched|]. split; [by_untouched botAI_untouched|].
      intros Hnd. unfold botAI. pose proof (botLoop_zone_nonduel (bots g5) g5 Hnd) as H.
      destruct (botLoop g5 (bots g5)) as [[g6 bs] n]. exact H. }
    destruct (botAI g5) as [g6 aliveCount]. cbn [fst] in E6.
    destruct E6 as (F6 & M6 & Z6).
    unfold radius_ok, shrinkRate.
    rewrite !(updateAliveCount_untouched _ safeZone), !(updateAliveCount_untouched _ frameCount),
      !(updateAliveCount_untouched _ gameMode),
      !(bossWeapons_untouched _ safeZone), !(bossWeapons_untouched _ frameCount),
      !(bossWeapons_untouched _ gameMode);
      try (intros; reflexivity).
    rewrite F6, F5, M6, M5. split; [lia|]. intros Hnd.
    rewrite Z6 by congruence. rewrite Z5.
    specialize (Hrad Hnd). unfold safeZoneShrink.
    pose proof (shrink_closed_form (shrinkRate g) (safeZone g) (frameCount g)
                  (shrinkRate_pos g) Hfc Hrad) as Hcf.
    assert (Hsr : shrinkRate g4 = shrinkRate g) by (unfold shrinkRate; rewrite M4; reflexivity).
    rewrite F4, Z4, Hsr. unfold SAFE_ZONE_MIN in *. fold (shrinkRate g).
    rewrite <- Hcf.
    destruct ((Z.rem (frameCount g + 1) 60 =? 0)%Z && num_gt (safeZone g) 0);
      cbn [safeZone set_safeZone]; [reflexivity|exact Z4].
Qed.

Lemma reachable_radius (g : Game) : reachable g -> radius_ok g.
Proof.
  induction 1 as [mode botCount rnd Hf | g e Hr IH].
  - destruct (initGame_shape mode botCount rnd) as (roster & tx & ty & n & E & Hro).
    rewrite E. unfold radius_ok. cbn -[Z.div]. split; [lia|]. intros _.
    change (0 / 60)%Z with 0%Z. rewrite Rmult_0_r, Rminus_0_r.
    unfold Rmax, SAFE_ZONE_MIN, SAFE_ZONE_INITIAL.
    destruct (Rle_dec 0 360); lra.
  - destruct e as [key | key | isGameOver ph | ]; cbn [react].
    4:{ apply (togglePause_inv radius_ok); [intros p0 g0 H0; exact H0|exact IH]. }
    + apply (handlePause_inv radius_ok); [intros p0 g0 H0; exact H0|].
      unfold radius_ok, onKeyDown, shrinkRate in *.
      repeat match goal with |- context [if ?c then _ else _] => destruct c end;
        cbn [frameCount gameMode safeZone set_keys set_currentRPM set_lastSpinKey];
        exact IH.
    + exact IH.
    + apply fixedStep_radius, IH.
Qed.

(** Outside duel mode the radius of the safe zone is a function of the
    frame counter alone: it starts at [SAFE_ZONE_INITIAL] and loses the
    mode's shrink rate (8 in the arena, 2 in survival) once every 60 frames
    until it reaches [SAFE_ZONE_MIN]. *)
Theorem safe_zone_radius_schedule (g : Game) :
  reachable g -> gameMode g <> duel ->
  (0 <= frameCount g)%Z /\
  safeZone g
  = Rmax SAFE_ZONE_MIN
      (SAFE_ZONE_INITIAL
       - (if mode_eqb (gameMode g) survival
          then SURVIVAL_SAFE_ZONE_SHRINK else SAFE_ZONE_SHRINK_PER_SEC)
         * IZR (frameCount g / 60)).
Proof.
  intros Hr Hnd. destruct (reachable_radius g Hr) as [Hfc Hrad].
  split; [exact Hfc|]. rewrite (Hrad Hnd). unfold shrinkRate.
  destruct (gameMode g); try reflexivity. contradiction.
Qed.

Lemma safe_zone_radius_schedule_witness :
  (0 <= frameCount arena_won_session)%Z.
Proof.
  destruct arena_won_session_won as (Hr & Hm & _ & _).
  refine (proj1 (safe_zone_radius_schedule arena_won_session Hr _)).
  rewrite Hm. discriminate.
Defined.

(** ** The animation callback *)

Lemma rounding_exact : rounding (fun x => x).
Proof.
  constructor; [intros x H; exact H|].
  intros x _. replace (x - x) with 0 by ring. rewrite Rabs_R0.
  apply Rmult_le_pos; [apply Rabs_pos|]. unfold UNIT_ROUNDOFF. lra.
Qed.

Lemma Rabs_bounds (x a : R) : Rabs x <= a -> - a <= x <= a.
Proof. unfold Rabs. destruct (Rcase_abs x); lra. Qed.

Lemma rounding_slack (fl : R -> R) (x : R) :
  rounding fl -> 0 <= x <= 1000 ->
  0 <= fl x /\ x - TIMING_SLACK <= fl x <= x + TIMING_SLACK.
Proof.
  intros [Hs He] Hx. split; [apply Hs; lra|].
  assert (Ha : Rabs x = x) by (apply Rabs_pos_eq; lra).
  specialize (He x). rewrite Ha in He. specialize (He ltac:(lra)).
  assert (Hb : x * UNIT_ROUNDOFF <= TIMING_SLACK).
  { unfold UNIT_ROUNDOFF, TIMING_SLACK.
    apply Rle_trans with (1000 * / 9007199254740992); [|lra].
    apply Rmult_le_compat_r; lra. }
  apply Rabs_bounds in He. lra.
Qed.

Lemma FIXED_DT_near (fl : R -> R) :
  rounding fl -> 16.66 < FIXED_DT fl < 16.67.
Proof.
  intros Hfl. unfold FIXED_DT.
  destruct (rounding_slack fl (1000 / 60) Hfl ltac:(lra)) as [_ H].
  unfold TIMING_SLACK in H. lra.
Qed.

Lemma accumulatorLoop_spec (fl : R -> R) (isGameOver : bool) (phs : nat -> Physics)
    (n : nat) :
  rounding fl ->
  forall (fuel k : nat) (acc : R) (g : Game),
    0 <= acc <= 1000 ->
    acc < FIXED_DT fl + INR n * (FIXED_DT fl - TIMING_SLACK) ->
    (n < fuel)%nat ->
    exists (m : nat) (acc' : R) (g' : Game),
      accumulatorLoop fl fuel isGameOver phs k acc g = Some (acc', g') /\
      (m <= n)%nat /\
      0 <= acc' < FIXED_DT fl /\
      Rabs (acc - (acc' + INR m * FIXED_DT fl)) <= INR m * TIMING_SLACK /\
      (frameCount g <= frameCount g' <= frameCount g + Z.of_nat m)%Z /\
      (isGameOver = true -> g' = g) /\
      (reachable g -> reachable g').
Proof.
  intros Hfl. pose proof (FIXED_DT_near fl Hfl) as Hdt.
  assert (Hsl : TIMING_SLACK = 1 / 1000000000) by reflexivity.
  assert (Hstop : forall acc g, 0 <= acc < FIXED_DT fl ->
            exists (m : nat) (acc' : R) (g' : Game),
              Some (acc, g) = Some (acc', g') /\ (m <= 0)%nat /\
              0 <= acc' < FIXED_DT fl /\
              Rabs (acc - (acc' + INR m * FIXED_DT fl)) <= INR m * TIMING_SLACK /\
              (frameCount g <= frameCount g' <= frameCount g + Z.of_nat m)%Z /\
              (isGameOver = true -> g' = g) /\
              (reachable g -> reachable g')).
  { intros acc g Hacc. exists 0%nat, acc, g. cbn [INR Z.of_nat].
    split; [reflexivity|]. split; [lia|]. split; [exact Hacc|].
    split; [|split; [lia|auto]].
    replace (acc - (acc + 0 * FIXED_DT fl)) with 0 by ring. rewrite Rabs_R0. lra. }
  induction n as [|n IH]; intros fuel k acc g Hacc Hpot Hfuel.
  - destruct fuel as [|fuel]; [lia|]. cbn [accumulatorLoop].
    cbn [INR] in Hpot. rewrite Rmult_0_l, Rplus_0_r in Hpot.
    rewrite (proj2 (num_ge_false _ _)) by lra.
    apply Hstop. lra.
  - destruct fuel as [|fuel]; [lia|]. cbn [accumulatorLoop].
    destruct (num_ge acc (FIXED_DT fl)) eqn:Hge.
    + apply num_ge_true in Hge. rewrite S_INR in Hpot.
      destruct (rounding_slack fl (acc - FIXED_DT fl) Hfl ltac:(lra)) as [Hpos Hnear].
      destruct (IH fuel (S k) (fl (acc - FIXED_DT fl)) (fixedStep isGameOver (phs k) g))
        as (m & acc' & g' & E & Hm & Hr & Ht & Hf & Hgo & Hre); [lra|lra|lia|].
      exists (S m), acc', g'. rewrite S_INR.
      split; [exact E|]. split; [lia|]. split; [exact Hr|]. split; [|split; [|split]].
      * apply Rabs_le. apply Rabs_bounds in Ht. lra.
      * rewrite fixedStep_frameCount in Hf.
        destruct (isGameOver || duelTransition g); lia.
      * intros Ho. rewrite (Hgo Ho). subst isGameOver. reflexivity.
      * intros Hreach. apply Hre. rewrite <- react_step. apply reach_event, Hreach.
    + apply num_ge_false in Hge.
      destruct (Hstop acc g ltac:(lra)) as (m & acc' & g' & E & Hm & Hrest).
      exists m, acc', g'. split; [exact E|]. split; [lia|exact Hrest].
Qed.

(** One animation callback runs at most 13 fixed steps, however long the
    tab was hidden and however the arithmetic of the accumulator rounds: with
    the accumulator below [FIXED_DT] on entry and a clock that does not run
    backwards, [tick] leaves the loop (14 rounds of fuel are enough) with the
    accumulator again in [0, FIXED_DT), after a number [n <= 13] of steps
    that accounts for the elapsed time clamped to 200 ms up to the rounding
    of the [n + 1] additions and subtractions.  The frame counter advances by
    at most [n]; when the match was already over on entry the session is not
    changed at all; the session stays reachable.  A paused callback runs no
    step and only records the timestamp. *)
Theorem tick_runs_at_most_13_steps (fl : R -> R) (fuel : nat) (timestamp : R)
    (phs : nat -> Physics) (c : Clock) (g : Game) :
  rounding fl ->
  0 <= accumulator c < FIXED_DT fl -> lastTimestamp c <= timestamp -> (14 <= fuel)%nat ->
  tick fl fuel timestamp true phs c g = Some (mkClock timestamp (accumulator c), g) /\
  exists (n : nat) (c' : Clock) (g' : Game),
    tick fl fuel timestamp false phs c g = Some (c', g') /\
    (n <= 13)%nat /\
    lastTimestamp c' = timestamp /\
    0 <= accumulator c' < FIXED_DT fl /\
    Rabs (accumulator c
          + Rmin 200 (fl (timestamp - (if Req_dec_T (lastTimestamp c) 0
                                       then timestamp else lastTimestamp c)))
          - (accumulator c' + INR n * FIXED_DT fl))
      <= INR (S n) * TIMING_SLACK /\
    (frameCount g <= frameCount g' <= frameCount g + Z.of_nat n)%Z /\
    (gameOver g = true -> g' = g) /\
    (reachable g -> reachable g').
Proof.
  intros Hfl Hacc Hclock Hfuel. split; [reflexivity|].
  pose proof (FIXED_DT_near fl Hfl) as Hdt.
  assert (Hsl : TIMING_SLACK = 1 / 1000000000) by reflexivity.
  unfold tick. cbn zeta.
  set (last := if Req_dec_T (lastTimestamp c) 0 then timestamp else lastTimestamp c).
  assert (Hel : 0 <= fl (timestamp - last)).
  { apply (fl_sign fl Hfl). unfold last.
    destruct (Req_dec_T (lastTimestamp c) 0); lra. }
  set (elapsed := fl (timestamp - last)) in *.
  set (elapsed1 := if num_gt elapsed 200 then 200 else elapsed).
  assert (He1 : elapsed1 = Rmin 200 elapsed /\ 0 <= elapsed1 <= 200).
  { unfold elapsed1, Rmin. destruct (num_gt elapsed 200) eqn:Hg.
    - apply num_gt_true in Hg. destruct (Rle_dec 200 elapsed); lra.
    - apply num_gt_false in Hg. destruct (Rle_dec 200 elapsed); lra. }
  destruct He1 as [He1 Hb1].
  destruct (rounding_slack fl (accumulator c + elapsed1) Hfl ltac:(lra)) as [Hpos Hnear].
  destruct (accumulatorLoop_spec fl (gameOver g) phs 13 Hfl fuel 0
              (fl (accumulator c + elapsed1)) g)
    as (m & acc' & g' & E & Hm & Hr & Ht & Hf & Hgo & Hre).
  { lra. }
  { replace (INR 13) with 13 by (cbn [INR]; lra). lra. }
  { lia. }
  rewrite E. exists m, (mkClock timestamp acc'), g'. cbn [lastTimestamp accumulator].
  split; [reflexivity|]. split; [exact Hm|]. split; [reflexivity|]. split; [exact Hr|].
  split; [|split; [exact Hf|split; assumption]].
  rewrite <- He1, S_INR. apply Rabs_le. apply Rabs_bounds in Ht. lra.
Qed.

Lemma tick_runs_at_most_13_steps_witness :
  exists (n : nat) (c' : Clock) (g' : Game),
    tick (fun x => x) 14 70 false (fun _ => still_world) (mkClock 50 0)
      (initGame survival 0 zero_rng) = Some (c', g') /\
    (n <= 13)%nat /\
    lastTimestamp c' = 70 /\
    0 <= accumulator c' < FIXED_DT (fun x => x) /\
    Rabs (accumulator (mkClock 50 0)
          + Rmin 200 (70 - (if Req_dec_T (lastTimestamp (mkClock 50 0)) 0
                            then 70 else lastTimestamp (mkClock 50 0)))
          - (accumulator c' + INR n * FIXED_DT (fun x => x)))
      <= INR (S n) * TIMING_SLACK /\
    (frameCount (initGame survival 0 zero_rng) <= frameCount g'
       <= frameCount (initGame survival 0 zero_rng) + Z.of_nat n)%Z /\
    (gameOver (initGame survival 0 zero_rng) = true -> g' = initGame survival 0 zero_rng) /\
    (reachable (initGame survival 0 zero_rng) -> reachable g').
Proof.
  refine (proj2 (tick_runs_at_most_13_steps (fun x => x) 14 70 (fun _ => still_world)
                   (mkClock 50 0) (initGame survival 0 zero_rng) rounding_exact _ _ _)).
  - cbn [accumulator]. unfold FIXED_DT. lra.
  - cbn [lastTimestamp]. lra.
  - lia.
Defined.

(** The bound is reached.  [round_down_dt] rounds 1000/60 down by 10^-15
    and is exact elsewhere; with it, an accumulator just below [FIXED_DT] and
    200 ms elapsed make the loop run 13 times. *)
Lemma rounding_round_down_dt : rounding round_down_dt.
Proof.
  constructor; intros x Hx; unfold round_down_dt;
    destruct (Req_dec_T x (1000 / 60)) as [E | E].
  - lra.
  - exact Hx.
  - subst x.
    replace (1000 / 60 - 1 / 1000000000000000 - 1000 / 60)
      with (- (1 / 1000000000000000)) by lra.
    rewrite Rabs_Ropp, !Rabs_pos_eq by lra. unfold UNIT_ROUNDOFF. lra.
  - replace (x - x) with 0 by ring. rewrite Rabs_R0.
    apply Rmult_le_pos; [apply Rabs_pos|]. unfold UNIT_ROUNDOFF. lra.
Qed.

Lemma FIXED_DT_round_down : FIXED_DT round_down_dt = 1000 / 60 - 1 / 1000000000000000.
Proof.
  unfold FIXED_DT, round_down_dt.
  destruct (Req_dec_T (1000 / 60) (1000 / 60)); [reflexivity|contradiction].
Qed.

Lemma accumulatorLoop_round_down (phs : nat -> Physics) (j : nat) :
  forall (fuel k : nat) (g : Game),
    (j < fuel)%nat ->
    accumulatorLoop round_down_dt fuel false phs k
      (INR j * FIXED_DT round_down_dt + 8 / 1000000000000000) g
    = Some (8 / 1000000000000000, run (map phs (seq k j)) g).
Proof.
  pose proof FIXED_DT_round_down as Hdt.
  induction j as [|j IH]; intros fuel k g Hfuel.
  - destruct fuel as [|fuel]; [lia|]. cbn [accumulatorLoop INR seq map run].
    rewrite (proj2 (num_ge_false _ _)) by lra.
    f_equal. f_equal. lra.
  - destruct fuel as [|fuel]; [lia|]. cbn [accumulatorLoop seq map run].
    pose proof (pos_INR j) as Hj. rewrite S_INR.
    rewrite (proj2 (num_ge_true _ _)) by nra.
    assert (E : round_down_dt ((INR j + 1) * FIXED_DT round_down_dt
                               + 8 / 1000000000000000 - FIXED_DT round_down_dt)
                = INR j * FIXED_DT round_down_dt + 8 / 1000000000000000).
    { unfold round_down_dt at 1.
      destruct (Req_dec_T _ (1000 / 60)) as [E | E]; [exfalso|ring].
      rewrite Hdt in E.
      destruct j as [|[|j]].
      - cbn [INR] in E. lra.
      - cbn [INR] in E. lra.
      - rewrite !S_INR in E. pose proof (pos_INR j). lra. }
    rewrite E. apply IH. lia.
Qed.

Lemma thirteen_steps_occur (phs : nat -> Physics) (g : Game) :
  gameOver g = false ->
  0 <= 1000 / 60 - 5 / 1000000000000000 < FIXED_DT round_down_dt /\
  tick round_down_dt 14 300 false phs
    (mkClock 100 (1000 / 60 - 5 / 1000000000000000)) g
  = Some (mkClock 300 (8 / 1000000000000000), run (map phs (seq 0 13)) g).
Proof.
  intros Hgo. pose proof FIXED_DT_round_down as Hdt. split; [lra|].
  unfold tick. rewrite Hgo. cbn [lastTimestamp accumulator].
  destruct (Req_dec_T 100 0) as [E | _]; [lra|].
  assert (E1 : round_down_dt (300 - 100) = 200).
  { unfold round_down_dt. destruct (Req_dec_T (300 - 100) (1000 / 60)); lra. }
  rewrite E1. rewrite (proj2 (num_gt_false 200 200)) by lra.
  assert (E2 : round_down_dt (1000 / 60 - 5 / 1000000000000000 + 200)
               = INR 13 * FIXED_DT round_down_dt + 8 / 1000000000000000).
  { unfold round_down_dt at 1.
    destruct (Req_dec_T _ (1000 / 60)); [lra|].
    rewrite Hdt. replace (INR 13) with 13 by (cbn [INR]; lra). lra. }
  rewrite E2, accumulatorLoop_round_down by lia. reflexivity.
Qed.

(** ** The zone shown on the HUD *)

(** The zone label of the HUD against the physics.  The label is WOBBLE
    below [SWEET_LOW], SWEET SPOT from [SWEET_LOW] up to but excluding
    [SWEET_HIGH] and OVER-SPIN! from [SWEET_HIGH] on, and the colour goes with
    the label.  The label says OVER-SPIN! exactly when the collision handler
    grants the over-spin bonus; the movement block agrees with the label for
    every RPM except [SWEET_HIGH] itself, where the label already says
    OVER-SPIN! while movement force and friction are still those of the sweet
    spot. *)
Theorem hud_zone_and_physics (r : R) :
  (rpmZone r = "WOBBLE"%string <-> r < SWEET_LOW) /\
  (rpmZone r = "SWEET SPOT"%string <-> SWEET_LOW <= r < SWEET_HIGH) /\
  (rpmZone r = "OVER-SPIN!"%string <-> SWEET_HIGH <= r) /\
  (rpmColor r = "#888888"%string <-> rpmZone r = "WOBBLE"%string) /\
  (rpmColor r = "#00ff88"%string <-> rpmZone r = "SWEET SPOT"%string) /\
  (rpmColor r = "#ff3333"%string <-> rpmZone r = "OVER-SPIN!"%string) /\
  (forall ro, attackerRPM ro = r ->
     (overSpin ro = true <-> rpmZone r = "OVER-SPIN!"%string)) /\
  (rpmZone r = "WOBBLE"%string <-> moveForce r = PLAYER_MOVE_FORCE * 0.4) /\
  (r <> SWEET_HIGH ->
     (rpmZone r = "SWEET SPOT"%string <-> moveForce r = PLAYER_MOVE_FORCE * 1.1)) /\
  rpmZone SWEET_HIGH = "OVER-SPIN!"%string /\
  moveForce SWEET_HIGH = PLAYER_MOVE_FORCE * 1.1 /\
  rpmToFriction SWEET_HIGH = 0.025.
Proof.
  assert (Hov : forall ro, attackerRPM ro = r -> overSpin ro = num_ge r SWEET_HIGH).
  { intros ro E. unfold overSpin. rewrite E. reflexivity. }
  assert (H60 : num_le 60 60 = true) by (apply num_le_true; lra).
  assert (H46 : num_le 40 60 = true) by (apply num_le_true; lra).
  assert (L60 : num_lt 60 40 = false) by (apply num_lt_false; lra).
  split; [|split; [|split; [|split; [|split; [|split; [|split; [|split; [|split]]]]]]]].
  10:{ unfold rpmZone, moveForce, rpmToFriction, num_ge, PLAYER_MOVE_FORCE,
         SWEET_LOW, SWEET_HIGH.
       rewrite H60, H46, L60. cbn [andb]. repeat split; reflexivity. }
  7:{ intros ro E. rewrite (Hov ro E). unfold rpmZone.
      destruct (num_ge r SWEET_HIGH); [split; reflexivity|].
      destruct (num_ge r SWEET_LOW); split; discriminate. }
  all: unfold rpmZone, rpmColor, moveForce, num_ge, PLAYER_MOVE_FORCE, SWEET_LOW, SWEET_HIGH;
    destruct (num_le 60 r) eqn:A; [apply num_le_true in A | apply num_le_false in A];
    (destruct (num_le 40 r) eqn:B; [apply num_le_true in B | apply num_le_false in B]);
    (destruct (num_lt r 40) eqn:C; [apply num_lt_true in C | apply num_lt_false in C]);
    (destruct (num_le r 60) eqn:D; [apply num_le_true in D | apply num_le_false in D]);
    try lra; cbn [andb];
    try (intros Hne; assert (r < 60 \/ 60 < r) as Hne' by lra; clear Hne);
    split; intros H; try reflexivity; try discriminate; try lra.
Qed.

(** ** Bot steering *)

Lemma norm_of_scaled (x y F a b : R) :
  0 < sqrt (x * x + y * y) -> 0 <= F ->
  a = x / sqrt (x * x + y * y) * F -> b = y / sqrt (x * x + y * y) * F ->
  norm (mkVec a b) = F.
Proof. intros Hl HF -> ->. apply norm_scaled; assumption. Qed.

Lemma norm_guarded (dx dy F a b : R) :
  0 <= F ->
  a = dx / guardedDist dx dy * F -> b = dy / guardedDist dx dy * F ->
  norm (mkVec a b) <= F.
Proof.
  intros HF Ea Eb.
  destruct (Req_dec_T dx 0) as [Hx | Hx]; [destruct (Req_dec_T dy 0) as [Hy | Hy]|].
  - subst dx dy. rewrite guardedDist_zero in Ea, Eb. subst a b.
    unfold norm. cbn [vx vy].
    replace (0 / 1 * F * (0 / 1 * F) + 0 / 1 * F * (0 / 1 * F)) with 0 by (field; lra).
    rewrite sqrt_0. exact HF.
  - destruct (guardedDist_far dx dy (or_intror Hy)) as [Eg Hd]. rewrite Eg in Ea, Eb.
    rewrite (norm_of_scaled dx dy F a b Hd HF Ea Eb). lra.
  - destruct (guardedDist_far dx dy (or_introl Hx)) as [Eg Hd]. rewrite Eg in Ea, Eb.
    rewrite (norm_of_scaled dx dy F a b Hd HF Ea Eb). lra.
Qed.

Lemma guarded_unit_square (dx dy : R) :
  dx / guardedDist dx dy * (dx / guardedDist dx dy)
  + dy / guardedDist dx dy * (dy / guardedDist dx dy) <= 1.
Proof.
  pose proof (norm_guarded dx dy 1 (dx / guardedDist dx dy * 1) (dy / guardedDist dx dy * 1)
                ltac:(lra) eq_refl eq_refl) as H.
  unfold norm in H. cbn [vx vy] in H. rewrite !Rmult_1_r in H.
  set (q := dx / guardedDist dx dy * (dx / guardedDist dx dy)
            + dy / guardedDist dx dy * (dy / guardedDist dx dy)) in *.
  assert (Hq : 0 <= q) by (unfold q; nra).
  rewrite <- (sqrt_sqrt q Hq). pose proof (sqrt_pos q). nra.
Qed.

Lemma norm_le_of_square (a b F : R) :
  0 <= F -> a * a + b * b <= F * F -> norm (mkVec a b) <= F.
Proof.
  intros HF H. unfold norm. cbn [vx vy].
  rewrite <- (sqrt_square F HF). apply sqrt_le_1_alt. exact H.
Qed.

Lemma undodged_force (g : Game) (bot : Bot) (wanderAngle personality : R) :
  target (undodged g bot wanderAngle personality) = body bot /\
  norm (impulse (undodged g bot wanderAngle personality)) <= BOT_MOVE_FORCE * 1.8.
Proof.
  assert (Hbf : 0 <= BOT_MOVE_FORCE) by (unfold BOT_MOVE_FORCE; lra).
  unfold undodged. cbn zeta.
  destruct (_ || _).
  - unfold survivalSteer. cbn zeta. cbn [target impulse applyForce].
    split; [reflexivity|].
    apply (norm_guarded (safeZoneCX g - vx (position (body bot)))
                        (safeZoneCY g - vy (position (body bot))) (BOT_MOVE_FORCE * 1.8));
      [lra | unfold Rdiv; ring | unfold Rdiv; ring].
  - destruct (num_gt (rpm bot) (SWEET_LOW + 5)).
    + destruct (bestTarget g bot personality) as [t|];
        cbn [target impulse applyForce]; (split; [reflexivity|]).
      * set (dx := vx (position t) - vx (position (body bot))).
        set (dy := vy (position t) - vy (position (body bot))).
        set (d := guardedDist dx dy).
        set (f := sin (IZR (frameCount g) * 0.03 + wanderAngle) * 0.35).
        pose proof (guarded_unit_square dx dy) as Hu. fold d in Hu.
        pose proof (SIN_bound (IZR (frameCount g) * 0.03 + wanderAngle)) as Hs.
        assert (Hf : f * f <= 0.1225) by (unfold f; nra).
        apply norm_le_of_square; [lra|].
        set (ux := dx / d) in *. set (uy := dy / d) in *.
        replace (- dy / d) with (- uy) by (unfold uy; unfold Rdiv; ring).
        replace ((ux + - uy * f) * BOT_MOVE_FORCE * ((ux + - uy * f) * BOT_MOVE_FORCE)
                 + (uy + ux * f) * BOT_MOVE_FORCE * ((uy + ux * f) * BOT_MOVE_FORCE))
          with (BOT_MOVE_FORCE * BOT_MOVE_FORCE * ((ux * ux + uy * uy) * (1 + f * f)))
          by ring.
        assert (Hq : 0 <= ux * ux + uy * uy) by nra.
        assert (H1 : (ux * ux + uy * uy) * (1 + f * f) <= 1 * (1 + 0.1225)).
        { apply Rmult_le_compat; nra. }
        unfold BOT_MOVE_FORCE in *. nra.
      * apply Rle_trans with (BOT_MOVE_FORCE * 0.6); [|lra].
        apply (norm_guarded (CX + cos wanderAngle * 150 - vx (position (body bot)))
                            (CY + sin wanderAngle * 150 - vy (position (body bot)))
                            (BOT_MOVE_FORCE * 0.6));
          [lra | unfold Rdiv; ring | unfold Rdiv; ring].
    + cbn [target impulse applyForce]. split; [reflexivity|].
      apply Rle_trans with (BOT_MOVE_FORCE * 0.9); [|lra].
      apply (norm_guarded (vx (flee g bot)) (vy (flee g bot)) (BOT_MOVE_FORCE * 0.9));
        [lra | unfold Rdiv; ring | unfold Rdiv; ring].
Qed.

Lemma dodgePush_nan (ddx ddy reach weight : R) :
  dodgePush None ddx ddy reach weight = None.
Proof. unfold dodgePush. cbn zeta. destruct (num_lt _ reach); reflexivity. Qed.

Lemma dodgePush_coincident (acc : option Vec) (reach weight : R) :
  0 < reach -> dodgePush acc 0 0 reach weight = None.
Proof.
  intros Hr. unfold dodgePush. cbn zeta.
  replace (0 * 0 + 0 * 0) with 0 by ring. rewrite sqrt_0.
  rewrite (proj2 (num_lt_true 0 reach) Hr).
  destruct acc; [|reflexivity]. destruct (Req_dec_T 0 0); [reflexivity|contradiction].
Qed.

Lemma dodgeBots_nan (bot : Bot) (others : list Bot) : dodgeBots bot others None = None.
Proof.
  induction others as [|o rest IH]; cbn; [reflexivity|].
  destruct (_ || _); [exact IH|].
  destruct (num_gt _ _); [rewrite dodgePush_nan|]; exact IH.
Qed.

Lemma dodgeHoles_nan (bot : Bot) (holes : list R) : dodgeHoles bot holes None = None.
Proof.
  induction holes as [|h rest IH]; cbn; [reflexivity|]. rewrite dodgePush_nan. exact IH.
Qed.

Lemma dodgeBots_coincident (bot o : Bot) (others : list Bot) (acc : option Vec) :
  In o others -> same_body (body o) (body bot) = false -> alive o = true ->
  rpm bot + 5 < rpm o -> position (body o) = position (body bot) ->
  dodgeBots bot others acc = None.
Proof.
  intros Hin Hsame Halive Hstrong Hpos. revert acc.
  induction others as [|o' rest IH]; intros acc; [contradiction|].
  destruct Hin as [E | Hin].
  - subst o'. cbn. rewrite Hsame, Halive. cbn [negb orb].
    rewrite (proj2 (num_gt_true _ _) Hstrong), Hpos.
    replace (vx (position (body bot)) - vx (position (body bot))) with 0 by ring.
    replace (vy (position (body bot)) - vy (position (body bot))) with 0 by ring.
    rewrite dodgePush_coincident by lra. apply dodgeBots_nan.
  - cbn. destruct (_ || _); [apply IH, Hin|].
    destruct (num_gt _ _); apply IH, Hin.
Qed.

(** The steering force of a bot.  Whatever the situation, the force acts on
    the bot itself and is never larger than 1.8 times [BOT_MOVE_FORCE]; a
    dodging bot is pushed with exactly 1.5 times [BOT_MOVE_FORCE].  A live,
    stronger bot at the very position of the bot turns the dodge vector into
    NaN: the bot then does not dodge at all, whatever else threatens it. *)
Theorem bot_steering_force (g : Game) (bot : Bot) (wanderAngle personality : R) :
  target (botSteer g bot wanderAngle personality) = body bot /\
  norm (impulse (botSteer g bot wanderAngle personality)) <= BOT_MOVE_FORCE * 1.8 /\
  (forall v, dodge g bot = Some v -> 0.5 < norm v ->
     norm (impulse (botSteer g bot wanderAngle personality)) = BOT_MOVE_FORCE * 1.5) /\
  (forall v, dodge g bot = Some v -> norm v <= 0.5 ->
     botSteer g bot wanderAngle personality = undodged g bot wanderAngle personality) /\
  (forall o, In o (bots g) -> same_body (body o) (body bot) = false -> alive o = true ->
     rpm bot + 5 < rpm o -> position (body o) = position (body bot) ->
     dodge g bot = None /\
     botSteer g bot wanderAngle personality = undodged g bot wanderAngle personality).
Proof.
  assert (Hdodge : forall v, dodging g bot = Some v ->
            norm (mkVec (vx v / norm v * BOT_MOVE_FORCE * 1.5)
                        (vy v / norm v * BOT_MOVE_FORCE * 1.5)) = BOT_MOVE_FORCE * 1.5).
  { intros v Hv. unfold dodging in Hv. destruct (dodge g bot) as [v0|]; [|discriminate].
    destruct (num_gt (norm v0) 0.5) eqn:Hn; [|discriminate].
    apply num_gt_true in Hn. inversion Hv; subst v0.
    apply (norm_of_scaled (vx v) (vy v) (BOT_MOVE_FORCE * 1.5));
      [fold (norm v); lra | unfold BOT_MOVE_FORCE; lra
       | unfold norm, Rdiv; ring | unfold norm, Rdiv; ring]. }
  pose proof (undodged_force g bot wanderAngle personality) as [Ht Hn].
  unfold botSteer.
  split; [|split; [|split; [|split]]].
  - destruct (dodging g bot); [reflexivity|exact Ht].
  - destruct (dodging g bot) as [v|] eqn:Hd; [|exact Hn].
    cbn [impulse applyForce]. rewrite (Hdodge v eq_refl). unfold BOT_MOVE_FORCE. lra.
  - intros v Hv Hlen. unfold dodging in *. rewrite Hv in *.
    rewrite (proj2 (num_gt_true _ _) Hlen) in *.
    cbn [impulse applyForce]. apply (Hdodge v eq_refl).
  - intros v Hv Hlen. unfold dodging. rewrite Hv.
    rewrite (proj2 (num_gt_false _ _) Hlen). reflexivity.
  - intros o Hin Hsame Halive Hstrong Hpos.
    assert (E : dodge g bot = None).
    { unfold dodge.
      rewrite (dodgeBots_coincident bot o (bots g) _ Hin Hsame Halive Hstrong Hpos).
      unfold dodgePlayer. destruct (_ && _); [rewrite dodgePush_nan|]; apply dodgeHoles_nan. }
    split; [exact E|]. unfold dodging. rewrite E. reflexivity.
Qed.

Lemma In_insertByDist (x y : Bot * R) (l : list (Bot * R)) :
  In x (insertByDist y l) -> x = y \/ In x l.
Proof.
  induction l as [|z rest IH]; cbn; [intros [E | []]; auto|].
  destruct (num_le (snd y) (snd z)); cbn.
  - intros [E | [E | H]]; auto.
  - intros [E | H]; [auto|]. destruct (IH H); auto.
Qed.

Lemma In_sortByDist (x : Bot * R) (l : list (Bot * R)) :
  In x (sortByDist l) -> In x l.
Proof.
  induction l as [|y rest IH]; cbn; [auto|].
  intros H. destruct (In_insertByDist _ _ _ H) as [E | H']; auto.
Qed.

Lemma In_firstn_list (A : Type) (n : nat) (x : A) (l : list A) :
  In x (firstn n l) -> In x l.
Proof.
  revert l. induction n as [|n IH]; intros [|y rest]; cbn; try contradiction.
  intros [E | H]; auto.
Qed.

Lemma otherBots_spec (g : Game) (bot : Bot) :
  (List.length (otherBots g bot) <= 2)%nat /\
  forall o d, In (o, d) (otherBots g bot) ->
    In o (bots g) /\ same_body (body o) (body bot) = false /\ alive o = true /\
    rpm o + MIN_RPM_ADVANTAGE < rpm bot /\
    d = Rabs (vx (position (body o)) - vx (position (body bot))) /\ d < 200.
Proof.
  unfold otherBots. cbn zeta. split; [apply firstn_le_length|].
  intros o d H. apply In_firstn_list, In_sortByDist in H.
  apply filter_In in H as [H Hnear]. cbn [snd] in Hnear. apply num_lt_true in Hnear.
  apply in_map_iff in H as (o' & E & H).
  pose proof (f_equal fst E) as E1. pose proof (f_equal snd E) as E2.
  cbn [fst snd] in E1, E2. subst o'. clear E.
  apply filter_In in H as [Hin Hc].
  apply andb_prop in Hc as [Hc Hweak]. apply andb_prop in Hc as [Hsame Halive].
  apply num_lt_true in Hweak. apply negb_true_iff in Hsame.
  assert (Ed : sqrt ((vx (position (body o)) - vx (position (body bot)))
                     * (vx (position (body o)) - vx (position (body bot)))
                     + (vy (position (body o)) - vy (position (body o)))
                       * (vy (position (body o)) - vy (position (body o))))
               = Rabs (vx (position (body o)) - vx (position (body bot)))).
  { rewrite <- sqrt_Rsqr_abs. f_equal. unfold Rsqr. ring. }
  rewrite Ed in E2. subst d. repeat split; auto.
Qed.

Lemma considerBots_spec (bot : Bot) (cands : list (Bot * R)) (best : option (Body * R)) :
  forall t s, considerBots bot cands best = Some (t, s) ->
    best = Some (t, s) \/ exists o d, In (o, d) cands /\ t = body o.
Proof.
  revert best. induction cands as [|[o d] rest IH]; intros best t s; cbn; [auto|].
  intros H. destruct (IH _ t s H) as [E | (o' & d' & Hin & Et)].
  - match type of E with (if ?c then _ else _) = _ => destruct c end.
    + inversion E; subst. right. exists o, d. auto.
    + auto.
  - right. exists o', d'. auto.
Qed.

(** The target of a chasing bot.  A bot only ever goes after the player or
    a live other bot that is more than [MIN_RPM_ADVANTAGE] RPM weaker than
    itself and counts as closer than 200; at most two other bots are
    considered.  For another bot the distance that counts is the horizontal
    offset alone (the vertical one is the difference of a coordinate with
    itself), so a bot straight above or below counts as being at distance 0
    however far away it is.  Without any such candidate there is no target. *)
Theorem bot_chase_target (g : Game) (bot : Bot) (personality : R) :
  (forall t, bestTarget g bot personality = Some t ->
     (t = player g /\ playerAlive g = true /\
      currentRPM g + MIN_RPM_ADVANTAGE < rpm bot /\
      sqrt ((vx (position (player g)) - vx (position (body bot)))
            * (vx (position (player g)) - vx (position (body bot)))
            + (vy (position (player g)) - vy (position (body bot)))
              * (vy (position (player g)) - vy (position (body bot)))) < 200) \/
     (exists o, In o (bots g) /\ t = body o /\
        same_body (body o) (body bot) = false /\ alive o = true /\
        rpm o + MIN_RPM_ADVANTAGE < rpm bot /\
        Rabs (vx (position (body o)) - vx (position (body bot))) < 200)) /\
  (List.length (otherBots g bot) <= 2)%nat /\
  (forall o d, In (o, d) (otherBots g bot) ->
     d = Rabs (vx (position (body o)) - vx (position (body bot)))) /\
  ((playerAlive g = false \/ rpm bot <= currentRPM g + MIN_RPM_ADVANTAGE) ->
   (forall o, In o (bots g) -> alive o = true ->
      same_body (body o) (body bot) = false -> rpm bot <= rpm o + MIN_RPM_ADVANTAGE) ->
   bestTarget g bot personality = None).
Proof.
  destruct (otherBots_spec g bot) as [Hlen Hspec].
  split; [|split; [exact Hlen|split]].
  - intros t Ht. unfold bestTarget in Ht.
    destruct (considerBots bot (otherBots g bot) (considerPlayer g bot personality))
      as [[t' s]|] eqn:E; [|discriminate].
    cbn in Ht. inversion Ht; subst t'; clear Ht.
    destruct (considerBots_spec _ _ _ _ _ E) as [Hp | (o & d & Hin & Et)].
    + left. unfold considerPlayer in Hp.
      destruct (playerAlive g && num_lt (currentRPM g + MIN_RPM_ADVANTAGE) (rpm bot))
        eqn:Hc; [|discriminate].
      apply andb_prop in Hc as [Ha Hw]. apply num_lt_true in Hw. cbn zeta in Hp.
      destruct (num_lt _ 200) eqn:Hd; [|discriminate].
      apply num_lt_true in Hd. inversion Hp; subst. auto.
    + right. destruct (Hspec o d Hin) as (H1 & H2 & H3 & H4 & H5 & H6).
      exists o. rewrite <- H5. auto 10.
  - intros o d Hin. apply (Hspec o d Hin).
  - intros Hplayer Hbots. unfold bestTarget.
    assert (Ep : considerPlayer g bot personality = None).
    { unfold considerPlayer. destruct Hplayer as [Hd | Hs].
      - rewrite Hd. reflexivity.
      - rewrite (proj2 (num_lt_false _ _) Hs), andb_false_r. reflexivity. }
    assert (Eo : otherBots g bot = []).
    { destruct (otherBots g bot) as [|[o d] rest] eqn:E; [reflexivity|].
      destruct (Hspec o d (or_introl eq_refl)) as (H1 & H2 & H3 & H4 & _).
      specialize (Hbots o H1 H3 H2). lra. }
    rewrite Ep, Eo. reflexivity.
Qed.

Lemma chaser_targets_player :
  bestTarget (initGame survival 0 zero_rng) chaser 0.5
  = Some (player (initGame survival 0 zero_rng)).
Proof.
  unfold bestTarget, otherBots, considerPlayer.
  change (bots (initGame survival 0 zero_rng)) with (@nil Bot).
  change (playerAlive (initGame survival 0 zero_rng)) with true.
  change (currentRPM (initGame survival 0 zero_rng)) with STARTING_RPM.
  change (player (initGame survival 0 zero_rng))
    with (mkBody 0 player_label (mkVec CX CY) (mkVec 0 0)).
  cbn [filter map sortByDist firstn considerBots andb rpm chaser body position vx vy].
  unfold STARTING_RPM, MIN_RPM_ADVANTAGE.
  rewrite (proj2 (num_lt_true (50 + 10) 80)) by lra. cbn zeta.
  replace ((CX - (CX + 100)) * (CX - (CX + 100)) + (CY - CY) * (CY - CY))
    with (100 * 100) by ring.
  rewrite sqrt_square by lra.
  rewrite (proj2 (num_lt_true 100 200)) by lra. reflexivity.
Qed.

Lemma bot_chase_target_witness :
  (player (initGame survival 0 zero_rng) = player (initGame survival 0 zero_rng) /\
   playerAlive (initGame survival 0 zero_rng) = true /\
   currentRPM (initGame survival 0 zero_rng) + MIN_RPM_ADVANTAGE < rpm chaser /\
   sqrt ((vx (position (player (initGame survival 0 zero_rng))) - vx (position (body chaser)))
         * (vx (position (player (initGame survival 0 zero_rng))) - vx (position (body chaser)))
         + (vy (position (player (initGame survival 0 zero_rng))) - vy (position (body chaser)))
           * (vy (position (player (initGame survival 0 zero_rng)))
              - vy (position (body chaser)))) < 200) \/
  (exists o, In o (bots (initGame survival 0 zero_rng)) /\
     player (initGame survival 0 zero_rng) = body o /\
     same_body (body o) (body chaser) = false /\ alive o = true /\
     rpm o + MIN_RPM_ADVANTAGE < rpm chaser /\
     Rabs (vx (position (body o)) - vx (position (body chaser))) < 200).
Proof.
  exact (proj1 (bot_chase_target (initGame survival 0 zero_rng) chaser 0.5)
           (player (initGame survival 0 zero_rng)) chaser_targets_player).
Defined.

Lemma bot_steering_force_witness :
  dodge twin_session chaser = None /\
  botSteer twin_session chaser 0 0.5 = undodged twin_session chaser 0 0.5.
Proof.
  refine (proj2 (proj2 (proj2 (proj2 (bot_steering_force twin_session chaser 0 0.5))))
            chaser_twin _ _ _ _ _).
  - right. left. reflexivity.
  - reflexivity.
  - reflexivity.
  - cbn [rpm chaser chaser_twin]. lra.
  - reflexivity.
Defined.

(** ** The entry of a survival bot *)

Lemma hole_index (r : R) :
  0 <= r < 1 ->
  In (nth (Z.to_nat (Int_part (r * INR (List.length HOLE_ANGLES)))) HOLE_ANGLES 0) HOLE_ANGLES.
Proof.
  intros Hr. cbn [List.length HOLE_ANGLES].
  replace (INR 4) with 4 by (cbn; lra).
  destruct (base_Int_part (r * 4)) as [Hlo Hhi].
  set (k := Int_part (r * 4)) in *.
  assert (H0 : (-1 < k)%Z) by (apply lt_IZR; lra).
  assert (H4 : (k < 4)%Z) by (apply lt_IZR; lra).
  assert (Hk : k = 0%Z \/ k = 1%Z \/ k = 2%Z \/ k = 3%Z) by lia.
  destruct Hk as [-> | [-> | [-> | ->]]]; cbn; auto.
Qed.

(** A bot of survival mode enters through a hole: when a spawn is due (the
    mode is survival, the spawn frame is reached, the player is alive) exactly
    one bot is appended to the roster.  It is alive with an RPM in [55, 70)
    and no chain, its body is object [botSpawnIndex + 1] labelled with the
    spawn index, it sits at the angle of one of the four holes, exactly
    [ARENA_R - 30] from the centre, and it moves straight to the centre at
    1/100 of that distance per step.  When no spawn is due nothing
    changes. *)
Theorem survival_spawn_entry (g : Game) :
  fair (rng g) ->
  (gameMode g = survival -> (nextBotSpawnFrame g <= frameCount g)%Z ->
   playerAlive g = true ->
   exists b,
     bots (spawnSurvivalBot g) = bots g ++ [b] /\
     alive b = true /\ 55 <= rpm b < 70 /\ chainHits b = 0%Z /\
     handle (body b) = S (botSpawnIndex g) /\
     label (body b) = bot_label (botSpawnIndex g) /\
     (exists ha, In ha HOLE_ANGLES /\
        position (body b)
        = mkVec (CX + cos ha * (ARENA_R - 30)) (CY + sin ha * (ARENA_R - 30))) /\
     dist2Center (body b) = ARENA_R - 30 /\
     velocity (body b)
     = mkVec ((CX - vx (position (body b))) * 0.01) ((CY - vy (position (body b))) * 0.01) /\
     norm (velocity (body b)) = (ARENA_R - 30) * 0.01) /\
  ((gameMode g <> survival \/ (frameCount g < nextBotSpawnFrame g)%Z \/ playerAlive g = false) ->
   spawnSurvivalBot g = g).
Proof.
  intros Hf. split.
  - intros Hm Hdue Hp. unfold spawnSurvivalBot.
    rewrite Hm, Hp, (proj2 (Z.leb_le _ _) Hdue). cbn [mode_eqb andb].
    unfold random. cbn zeta.
    cbn [rng rngUsed set_rngUsed bots set_bots set_botSpawnIndex set_nextBotSpawnFrame].
    set (ha := nth (Z.to_nat (Int_part (rng g (rngUsed g) * INR (List.length HOLE_ANGLES))))
                 HOLE_ANGLES 0).
    assert (Hha : In ha HOLE_ANGLES) by (apply hole_index, Hf).
    pose proof (Hf (S (rngUsed g))) as Hr2.
    pose proof (sin2_cos2 ha) as Hsc. unfold Rsqr in Hsc.
    assert (H350 : 0 <= ARENA_R - 30) by (unfold ARENA_R; lra).
    eexists. split; [reflexivity|]. cbn [alive rpm chainHits body newBot handle label
                                           position velocity vx vy].
    split; [reflexivity|]. split; [lra|]. split; [reflexivity|].
    split; [reflexivity|]. split; [reflexivity|].
    split; [exists ha; split; [exact Hha|reflexivity]|].
    split; [|split; [reflexivity|]].
    + unfold dist2Center. cbn [position vx vy].
      replace ((CX + cos ha * (ARENA_R - 30) - CX) * (CX + cos ha * (ARENA_R - 30) - CX)
               + (CY + sin ha * (ARENA_R - 30) - CY) * (CY + sin ha * (ARENA_R - 30) - CY))
        with ((ARENA_R - 30) * (ARENA_R - 30) * (sin ha * sin ha + cos ha * cos ha)) by ring.
      rewrite Hsc, Rmult_1_r. apply sqrt_square. exact H350.
    + unfold norm. cbn [vx vy].
      replace ((CX - (CX + cos ha * (ARENA_R - 30))) * 0.01
               * ((CX - (CX + cos ha * (ARENA_R - 30))) * 0.01)
               + (CY - (CY + sin ha * (ARENA_R - 30))) * 0.01
                 * ((CY - (CY + sin ha * (ARENA_R - 30))) * 0.01))
        with (((ARENA_R - 30) * 0.01) * ((ARENA_R - 30) * 0.01)
              * (sin ha * sin ha + cos ha * cos ha)) by ring.
      rewrite Hsc, Rmult_1_r. apply sqrt_square. lra.
  - intros Hno. unfold spawnSurvivalBot.
    destruct Hno as [Hm | [Hfr | Hp]].
    + destruct (gameMode g); try reflexivity. contradiction.
    + rewrite (proj2 (Z.leb_gt _ _) Hfr), andb_false_r. reflexivity.
    + rewrite Hp, andb_false_r. reflexivity.
Qed.

Lemma survival_spawn_entry_witness :
  spawnSurvivalBot (initGame survival 0 zero_rng) = initGame survival 0 zero_rng.
Proof.
  refine (proj2 (survival_spawn_entry (initGame survival 0 zero_rng) _) _).
  - exact fair_zero_rng.
  - right. left. change (0 < 180)%Z. lia.
Defined.

(** ** The initial placement *)

Lemma arenaBots_placed (botCount count i : nat) (g : Game) :
  fair (rng g) ->
  Forall placed (fst (arenaBots botCount i count g)) /\
  List.length (fst (arenaBots botCount i count g)) = count.
Proof.
  revert i g. induction count as [|count IH]; intros i g Hf; cbn; [auto|].
  set (g2 := set_rngUsed (S (S (rngUsed g))) (set_rngUsed (S (rngUsed g)) g)).
  specialize (IH (S i) g2 Hf).
  destruct (arenaBots botCount (S i) count g2) as [rest g3]. cbn [fst List.length] in *.
  destruct IH as [IH Hl]. split; [|rewrite Hl; reflexivity].
  constructor; [|exact IH].
  pose proof (Hf (rngUsed g)) as H1. pose proof (Hf (S (rngUsed g))) as H2.
  unfold placed, newBot. cbn [alive rpm chainHits body velocity position rng rngUsed
                                set_rngUsed].
  split; [reflexivity|]. split; [lra|]. split; [reflexivity|]. split; [reflexivity|].
  unfold dist2Center. cbn [position vx vy].
  set (a := INR i / INR botCount * PI * 2). set (d := 180 + rng g (rngUsed g) * 80).
  pose proof (sin2_cos2 a) as Hsc. unfold Rsqr in Hsc.
  replace ((CX + cos a * d - CX) * (CX + cos a * d - CX)
           + (CY + sin a * d - CY) * (CY + sin a * d - CY))
    with (d * d * (sin a * sin a + cos a * cos a)) by ring.
  rewrite Hsc, Rmult_1_r, sqrt_square by (unfold d; lra). unfold d. lra.
Qed.

(** The start of a match.  The player rests at the centre of the arena with
    [STARTING_RPM], the safe zone has its initial radius around the centre,
    and nothing has happened yet.  In the arena the roster holds exactly
    [botCount] bots, each alive and at rest with an RPM in [50, 70), between
    180 and 260 from the centre and so well inside the safe zone; survival
    starts without bots; a duel starts with the boss alone, 200 from the
    centre with [BOSS_RPM]. *)
Theorem initial_placement (mode : GameMode) (botCount : nat) (rnd : nat -> R) :
  fair rnd ->
  let g := initGame mode botCount rnd in
  player g = mkBody 0 player_label (mkVec CX CY) (mkVec 0 0) /\
  currentRPM g = STARTING_RPM /\ playerAlive g = true /\ phase g = playing /\
  gameOver g = false /\ gameMode g = mode /\
  frameCount g = 0%Z /\ kills g = 0%Z /\ duelRound g = 1%Z /\ keys g = [] /\
  safeZone g = SAFE_ZONE_INITIAL /\ safeZoneCX g = CX /\ safeZoneCY g = CY /\
  match mode with
  | arena =>
    List.length (bots g) = botCount /\
    Forall (fun b => placed b /\ distToSafeZone g (body b) < safeZone g) (bots g)
  | survival => bots g = []
  | duel =>
    bots g = [bossBot] /\ dist2Center (body bossBot) = 200 /\ rpm bossBot = BOSS_RPM
  end.
Proof.
  intros Hf. cbn zeta.
  destruct (initGame_shape mode botCount rnd) as (roster & tx & ty & n & E & Hro).
  rewrite E. cbn.
  do 13 (split; [reflexivity|]).
  destruct mode; subst roster.
  - match goal with |- context [arenaBots _ _ _ ?g0] =>
      pose proof (arenaBots_placed botCount botCount 0 g0 Hf) as [Hp Hl]
    end.
    split; [exact Hl|].
    rewrite Forall_forall in *. intros b Hb. specialize (Hp b Hb).
    split; [exact Hp|].
    destruct Hp as (_ & _ & _ & _ & Hd). unfold distToSafeZone. cbn.
    unfold dist2Center in Hd. cbn zeta in Hd. unfold SAFE_ZONE_INITIAL. lra.
  - reflexivity.
  - split; [reflexivity|]. split; [|reflexivity].
    unfold dist2Center, bossBot, newBot. cbn.
    replace ((CX + 200 - CX) * (CX + 200 - CX) + (CY - CY) * (CY - CY))
      with (200 * 200) by ring.
    apply sqrt_square. lra.
Qed.

Lemma initial_placement_witness :
  currentRPM (initGame arena 2 zero_rng) = STARTING_RPM.
Proof.
  exact (proj1 (proj2 (initial_placement arena 2 zero_rng fair_zero_rng))).
Defined.

(** ** Bot housekeeping *)

Lemma botSpin_grows (g : Game) (bOutside : bool) (r : R) :
  r <= 90 ->
  r <= fst (botSpin g bOutside r) <= 90 /\
  fst (botSpin g bOutside r)
  <= r + (if mode_eqb (gameMode g) duel then DUEL_BOSS_SPIN_GAIN else BOT_SPIN_GAIN).
Proof.
  intros Hr. unfold botSpin, random, DUEL_BOSS_SPIN_GAIN, BOT_SPIN_GAIN, OUTSIDE_GAIN_MULT.
  destruct (num_lt _ _); cbn [fst];
    destruct (mode_eqb (gameMode g) duel), bOutside; unfold Rmin;
    try match goal with |- context [Rle_dec ?a ?b] => destruct (Rle_dec a b) end; lra.
Qed.

Lemma botEmergencySpin_grows (g : Game) (bOutside : bool) (r : R) :
  r <= 90 ->
  r <= fst (botEmergencySpin g bOutside r) <= 90 /\
  (gameMode g = duel -> fst (botEmergencySpin g bOutside r) = r).
Proof.
  intros Hr. unfold botEmergencySpin, random, BOT_EMERGENCY_SPIN_GAIN, OUTSIDE_GAIN_MULT.
  destruct (gameMode g) eqn:Hm; cbn [mode_eqb negb andb];
    try (cbn [fst]; split; [lra|intros; try discriminate; reflexivity]);
    (destruct (num_lt r SWEET_LOW); [|cbn [fst]; split; [lra|discriminate]];
     destruct (num_lt _ BOT_EMERGENCY_SPIN_CHANCE); cbn [fst];
     (split; [|discriminate]); destruct bOutside; unfold Rmin;
     try match goal with |- context [Rle_dec ?a ?b] => destruct (Rle_dec a b) end; lra).
Qed.

(** The housekeeping of a bot's RPM.  Inside the safe zone, outside duel
    mode, a bot never loses RPM on its own (passive regeneration outweighs the
    decay) and leaves the step with at least [BOT_RPM_FLOOR_INSIDE]; anywhere
    else it loses at most the decay of its position.  The duel boss gets no
    regeneration, no floor and no emergency spin: it gains at most
    [DUEL_BOSS_SPIN_GAIN] per step.  The chain counter is reset once the last
    hit is more than [BOT_CHAIN_WINDOW] frames old; nothing else of the bot
    changes. *)
Theorem bot_housekeeping_rpm (g : Game) (bot : Bot) :
  0 <= rpm bot <= 90 ->
  let bot' := snd (botHousekeeping g bot) in
  let inside := distToSafeZone g (body bot) <= safeZone g in
  0 <= rpm bot' <= 90 /\
  (inside -> gameMode g <> duel ->
     rpm bot <= rpm bot' /\ BOT_RPM_FLOOR_INSIDE <= rpm bot') /\
  (inside -> rpm bot - RPM_DECAY_PER_FRAME * 0.35 <= rpm bot') /\
  (~ inside -> rpm bot - RPM_DECAY_PER_FRAME * 0.35 * OUTSIDE_DECAY_MULT <= rpm bot') /\
  (gameMode g = duel -> rpm bot' <= rpm bot + DUEL_BOSS_SPIN_GAIN) /\
  chainHits bot'
    = (if (BOT_CHAIN_WINDOW <? frameCount g - lastHitFrame bot)%Z then 0%Z else chainHits bot) /\
  alive bot' = alive bot /\ body bot' = body bot /\ lastHitFrame bot' = lastHitFrame bot.
Proof.
  intros Hr. cbn zeta. unfold botHousekeeping. cbn zeta.
  set (o := num_gt (distToSafeZone g (body bot)) (safeZone g)).
  set (r1 := Rmax 0 (rpm bot - botDecay o)).
  set (r3 := botFloor g o (botRegen g o r1)).
  assert (H1 : 0 <= r1 <= 90 /\ rpm bot - botDecay o <= r1 <= rpm bot).
  { unfold r1, botDecay, Rmax, RPM_DECAY_PER_FRAME, OUTSIDE_DECAY_MULT.
    destruct o; match goal with |- context [Rle_dec ?a ?b] => destruct (Rle_dec a b) end;
      lra. }
  assert (H3 : 0 <= r3 <= 90 /\ r1 <= r3 /\
               (o = false -> gameMode g <> duel ->
                rpm bot <= r3 /\ BOT_RPM_FLOOR_INSIDE <= r3) /\
               (gameMode g = duel -> r3 = r1)).
  { unfold r3, botFloor, botRegen, BOT_RPM_FLOOR_INSIDE, BOT_PASSIVE_REGEN.
    destruct H1 as [H1 H1'].
    assert (Hd : botDecay false = 0.14)
      by (unfold botDecay, RPM_DECAY_PER_FRAME; lra).
    destruct o eqn:Ho; cbn [negb andb].
    - repeat split; try lra; intros; try discriminate; reflexivity.
    - rewrite Hd in H1'.
      destruct (gameMode g) eqn:Hm; cbn [mode_eqb negb andb];
        try rewrite andb_true_r; try rewrite andb_false_r;
        unfold Rmin;
        repeat match goal with
               | |- context [Rle_dec ?a ?b] => destruct (Rle_dec a b)
               | |- context [num_lt ?a ?b] =>
                 let E := fresh "E" in
                 destruct (num_lt a b) eqn:E;
                 [apply num_lt_true in E | apply num_lt_false in E]
               end;
        repeat split; intros; try discriminate; try contradiction; try reflexivity;
        try lra. }
  destruct H3 as (H3 & H13 & Hin & Hduel).
  pose proof (botSpin_grows g o r3 ltac:(lra)) as [H4 H4d].
  assert (M4 : gameMode (snd (botSpin g o r3)) = gameMode g).
  { unfold botSpin, random. destruct (num_lt _ _); reflexivity. }
  destruct (botSpin g o r3) as [r4 g1]. cbn [fst snd] in *.
  pose proof (botEmergencySpin_grows g1 o r4 ltac:(lra)) as [H5 H5d].
  destruct (botEmergencySpin g1 o r4) as [r5 g2]. cbn [fst snd] in *.
  cbn [rpm chainHits alive body lastHitFrame set_chainHits set_rpm].
  unfold botChainReset.
  assert (Ho : o = false <-> distToSafeZone g (body bot) <= safeZone g).
  { unfold o. apply num_gt_false. }
  assert (Ho' : o = true <-> ~ distToSafeZone g (body bot) <= safeZone g).
  { unfold o. rewrite num_gt_true. split; lra. }
  destruct H1 as [H1 H1'].
  split; [lra|]. split; [|split; [|split; [|split; [|auto]]]].
  - intros Hi Hm. destruct (Hin (proj2 Ho Hi) Hm). lra.
  - intros Hi. apply Ho in Hi. rewrite Hi in H1'.
    unfold botDecay in H1'. lra.
  - intros Hi. apply Ho' in Hi. rewrite Hi in H1'.
    unfold botDecay in H1'. lra.
  - intros Hm. rewrite Hm in H4d. cbn [mode_eqb] in H4d.
    rewrite (H5d ltac:(congruence)). rewrite (Hduel Hm) in H4d. lra.
Qed.

Lemma bot_housekeeping_rpm_witness :
  0 <= rpm (snd (botHousekeeping (initGame duel 1 zero_rng) bossBot)) <= 90.
Proof.
  refine (proj1 (bot_housekeeping_rpm (initGame duel 1 zero_rng) bossBot _)).
  unfold bossBot, newBot, BOSS_RPM. cbn [rpm]. lra.
Defined.

(** * Duel rounds, step by step *)

Lemma updateAliveCount_duel (n : Z) (g : Game) :
  gameMode g = duel -> updateAliveCount n g = g.
Proof.
  intros Hm. unfold updateAliveCount. rewrite Hm. cbn [mode_eqb andb].
  destruct (phase g); reflexivity.
Qed.

(** What the steps before the loop over the bots leave alone. *)
Lemma beforeBots_counters (ph : Physics) (g : Game) :
  frameCount (beforeBots ph g) = (frameCount g + 1)%Z /\
  lastLaserFrame (beforeBots ph g) = lastLaserFrame g /\
  lastBombFrame (beforeBots ph g) = lastBombFrame g /\
  kills (beforeBots ph g) = kills g /\
  duelBossMaxRPM (beforeBots ph g) = duelBossMaxRPM g /\
  duelTransition (beforeBots ph g) = duelTransition g.
Proof.
  unfold beforeBots.
  repeat split;
    rewrite (safeZoneStep_untouched _ _), (playerStep_untouched _ _),
      (spawnSurvivalBot_untouched _ _), (engineUpdate_untouched _ _)
      by (intros; reflexivity);
    reflexivity.
Qed.

(** From the reset positions the boss aims along the horizontal. *)
Lemma aim_at_player : guardedDist (CX - 200 - (CX + 200)) (CY - CY) = 400.
Proof.
  replace (CX - 200 - (CX + 200)) with (-400) by ring.
  replace (CY - CY) with 0 by ring.
  destruct (guardedDist_far (-400) 0) as [E _]; [left; lra|].
  rewrite E. replace (-400 * -400 + 0 * 0) with (400 * 400) by ring.
  apply sqrt_square. lra.
Qed.

(** A laser that neither reaches the player nor leaves the canvas nor
    expires moves on. *)
Lemma laserStep_flies (g : Game) (l : Laser) (d : R) :
  sqrt ((laser_x l + laser_vx l - vx (position (player g)))
        * (laser_x l + laser_vx l - vx (position (player g)))
        + (laser_y l + laser_vy l - vy (position (player g)))
          * (laser_y l + laser_vy l - vy (position (player g)))) = d ->
  PLAYER_R + 6 <= d -> (1 < life l)%Z ->
  0 <= laser_x l + laser_vx l <= CANVAS_W ->
  0 <= laser_y l + laser_vy l <= CANVAS_H ->
  laserStep g l
  = (g, Some (mkLaser (laser_x l + laser_vx l) (laser_y l + laser_vy l)
                (laser_vx l) (laser_vy l) (life l - 1))).
Proof.
  intros Hd Hfar Hlife Hx Hy. unfold laserStep. cbn zeta.
  cbn [laser_x laser_y laser_vx laser_vy life]. rewrite Hd.
  rewrite (proj2 (num_lt_false _ _) Hfar).
  assert (L : (life l - 1 <=? 0)%Z = false) by (apply Z.leb_gt; lia).
  rewrite L.
  rewrite (proj2 (num_lt_false _ _) (proj1 Hx)), (proj2 (num_gt_false _ _) (proj2 Hx)),
    (proj2 (num_lt_false _ _) (proj1 Hy)), (proj2 (num_gt_false _ _) (proj2 Hy)).
  reflexivity.
Qed.

(** A bomb still under way with more than one step to go moves on. *)
Lemma bombStep_flies (g : Game) (b : Bomb) :
  exploded b = false -> (1 < timer b)%Z ->
  bombStep g b
  = (g, Some (mkBomb (bomb_x b + bomb_vx b) (bomb_y b + bomb_vy b) (bomb_vx b) (bomb_vy b)
                (timer b - 1) false (explodeTimer b))).
Proof.
  intros He Ht. unfold bombStep. rewrite He. cbn [negb]. cbn zeta.
  assert (L : (timer b - 1 <=? 0)%Z = false) by (apply Z.leb_gt; lia).
  rewrite L. reflexivity.
Qed.

(** The weapon block of a step that has just reset a round: both lists are
    empty, the boss is alive on its starting place, the player on theirs.
    When the laser interval has run out the boss fires, and from round 3 on,
    when the bomb interval has run out, it throws a bomb; the new projectile
    makes its first move in the same step and does not reach the player. *)
Lemma weapons_after_reset (g : Game) (b : Bot) :
  gameMode g = duel -> playerAlive g = true -> bots g = [b] -> alive b = true ->
  position (body b) = mkVec (CX + 200) CY ->
  position (player g) = mkVec (CX - 200) CY ->
  duelLasers g = [] -> duelBombs g = [] -> (2 <= duelRound g)%Z ->
  currentRPM (bossWeapons g) = currentRPM g /\
  duelLasers (bossWeapons g)
  = (if (DUEL_LASER_INTERVAL <=? frameCount g - lastLaserFrame g)%Z
     then [mkLaser (CX + 192) CY (-8) 0 119] else []) /\
  duelBombs (bossWeapons g)
  = (if (3 <=? duelRound g)%Z && (DUEL_BOMB_INTERVAL <=? frameCount g - lastBombFrame g)%Z
     then [mkBomb (CX + 196) CY (-4) 0 99 false 0] else []).
Proof.
  intros Hm Hp Hb Ha Hpb Hpp Hl Hbm Hr.
  unfold bossWeapons. rewrite Hm, Hp, Hb, Ha. cbn [mode_eqb andb].
  set (c1 := (DUEL_LASER_INTERVAL <=? frameCount g - lastLaserFrame g)%Z).
  set (c2 := (3 <=? duelRound g)%Z && (DUEL_BOMB_INTERVAL <=? frameCount g - lastBombFrame g)%Z).
  assert (Ef : fireLaser g b
               = if c1 then set_duelLasers [mkLaser (CX + 200) CY (-8) 0 120]
                              (set_lastLaserFrame (frameCount g) g)
                 else g).
  { unfold fireLaser. fold c1.
    rewrite (proj2 (Z.leb_le 2 (duelRound g)) Hr). cbn [andb].
    destruct c1; [|reflexivity].
    rewrite Hpb, Hpp, Hl. cbn [vx vy app]. rewrite aim_at_player.
    unfold DUEL_LASER_SPEED. do 3 f_equal; lra. }
  assert (Ff : player (fireLaser g b) = player g /\ duelBombs (fireLaser g b) = [] /\
               duelRound (fireLaser g b) = duelRound g /\
               frameCount (fireLaser g b) = frameCount g /\
               lastBombFrame (fireLaser g b) = lastBombFrame g /\
               currentRPM (fireLaser g b) = currentRPM g /\
               duelLasers (fireLaser g b)
               = if c1 then [mkLaser (CX + 200) CY (-8) 0 120] else []).
  { rewrite Ef. destruct c1; cbn; auto 10. }
  clear Ef. set (gf := fireLaser g b) in *.
  destruct Ff as (F1 & F2 & F3 & F4 & F5 & F6 & F7).
  assert (Hfloor : Int_part (400 / 4) = 100%Z).
  { symmetry. apply Int_part_spec. lra. }
  assert (Et : throwBomb gf b
               = if c2 then set_duelBombs [mkBomb (CX + 200) CY (-4) 0 100 false 0]
                              (set_lastBombFrame (frameCount gf) gf)
                 else gf).
  { unfold throwBomb. rewrite F3, F4, F5. fold c2.
    destruct c2; [|reflexivity].
    rewrite Hpb, F1, Hpp, F2. cbn [vx vy app]. rewrite aim_at_player.
    unfold DUEL_BOMB_SPEED. rewrite Hfloor.
    change (Z.max 30 100) with 100%Z. do 3 f_equal; lra. }
  assert (Ft : player (throwBomb gf b) = player g /\
               currentRPM (throwBomb gf b) = currentRPM g /\
               duelLasers (throwBomb gf b)
               = (if c1 then [mkLaser (CX + 200) CY (-8) 0 120] else []) /\
               duelBombs (throwBomb gf b)
               = if c2 then [mkBomb (CX + 200) CY (-4) 0 100 false 0] else []).
  { rewrite Et. destruct c2; cbn; auto. }
  clear Et. set (g1 := throwBomb gf b) in *.
  destruct Ft as (T1 & T2 & T3 & T4).
  assert (EL : lasersLoop g1 (duelLasers g1)
               = (g1, if c1 then [mkLaser (CX + 192) CY (-8) 0 119] else [])).
  { rewrite T3. destruct c1; [|reflexivity]. cbn [lasersLoop].
    rewrite (laserStep_flies g1 _ 392).
    - cbn [laser_x laser_y laser_vx laser_vy life]. do 3 f_equal; lra.
    - cbn [laser_x laser_y laser_vx laser_vy]. rewrite T1, Hpp. cbn [vx vy].
      replace ((CX + 200 + -8 - (CX - 200)) * (CX + 200 + -8 - (CX - 200))
               + (CY + 0 - CY) * (CY + 0 - CY)) with (392 * 392) by ring.
      apply sqrt_square. lra.
    - unfold PLAYER_R. lra.
    - cbn [life]. lia.
    - cbn [laser_x laser_vx]. unfold CX, CANVAS_W. lra.
    - cbn [laser_y laser_vy]. unfold CY, CANVAS_H. lra. }
  rewrite EL.
  set (g3 := set_duelLasers _ g1).
  assert (EB : bombsLoop g3 (duelBombs g3)
               = (g3, if c2 then [mkBomb (CX + 196) CY (-4) 0 99 false 0] else [])).
  { change (duelBombs g3) with (duelBombs g1). rewrite T4.
    destruct c2; [|reflexivity]. cbn [bombsLoop].
    rewrite bombStep_flies; [|reflexivity|cbn [timer]; lia].
    cbn [bomb_x bomb_y bomb_vx bomb_vy timer explodeTimer]. do 3 f_equal; lra. }
  rewrite EB. cbn [currentRPM duelLasers duelBombs set_duelBombs set_duelLasers g3].
  auto.
Qed.

(** The weapon block when the boss has no weapon yet and nothing is in
    flight. *)
Lemma weapons_round1 (g : Game) (b : Bot) :
  (duelRound g < 2)%Z -> bots g = [b] -> duelLasers g = [] -> duelBombs g = [] ->
  bossWeapons g
  = if mode_eqb (gameMode g) duel && playerAlive g
    then set_duelBombs [] (set_duelLasers [] g) else g.
Proof.
  intros Hr Hb Hl Hbm. unfold bossWeapons.
  destruct (mode_eqb (gameMode g) duel && playerAlive g); [|reflexivity].
  rewrite Hb.
  assert (Ef : fireLaser g b = g).
  { unfold fireLaser. rewrite (proj2 (Z.leb_gt 2 (duelRound g))) by lia. reflexivity. }
  assert (Et : throwBomb g b = g).
  { unfold throwBomb. rewrite (proj2 (Z.leb_gt 3 (duelRound g))) by lia. reflexivity. }
  rewrite Ef, Et. destruct (alive b); rewrite Hl; cbn [lasersLoop]; cbn [duelBombs set_duelLasers];
    rewrite Hbm; reflexivity.
Qed.

(** The step of a duel in which the loop over the bots eliminates the boss. *)
Lemma boss_eliminated_shape (ph : Physics) (g : Game) (boss : Bot) :
  gameMode g = duel -> duelTransition g = false ->
  bots (beforeBots ph g) = [boss] -> alive boss = true ->
  rpm boss <= 0 \/ ARENA_R + 50 < dist2Center (body boss) ->
  fixedStep false ph g
  = bossWeapons (set_bots [snd (eliminateBot (beforeBots ph g) boss)]
                   (fst (eliminateBot (beforeBots ph g) boss))).
Proof.
  intros Hm Ht Hb Ha Hout.
  rewrite (fixedStep_unfrozen ph g Ht), (botAI_single_out _ boss Hb Ha Hout).
  cbn [fst snd]. apply updateAliveCount_duel.
  rewrite (bossWeapons_untouched _ gameMode) by (intros; reflexivity).
  cbn [gameMode set_bots].
  rewrite (eliminateBot_untouched _ gameMode) by (intros; reflexivity).
  unfold beforeBots.
  rewrite (safeZoneStep_untouched _ gameMode), (playerStep_untouched _ gameMode),
    (spawnSurvivalBot_untouched _ gameMode), (engineUpdate_untouched _ gameMode)
    by (intros; reflexivity).
  exact Hm.
Qed.

(** The step of a duel in which the loop over the bots eliminates the boss
    in round 1 or 2: the round, the transition flag, and what the weapon
    block of the same step leaves after the reset. *)
Lemma reset_step_weapons (ph : Physics) (g : Game) (boss : Bot) :
  session_ok g -> gameMode g = duel -> duelTransition g = false ->
  bots (beforeBots ph g) = [boss] -> alive boss = true ->
  rpm boss <= 0 \/ ARENA_R + 50 < dist2Center (body boss) ->
  (duelRound g < 3)%Z ->
  duelRound (fixedStep false ph g) = (duelRound g + 1)%Z /\
  duelTransition (fixedStep false ph g) = true /\
  currentRPM (fixedStep false ph g) = STARTING_RPM /\
  duelLasers (fixedStep false ph g)
  = (if playerAlive (beforeBots ph g)
        && (DUEL_LASER_INTERVAL <=? frameCount g + 1 - lastLaserFrame g)%Z
     then [mkLaser (CX + 192) CY (-8) 0 119] else []) /\
  duelBombs (fixedStep false ph g)
  = (if playerAlive (beforeBots ph g)
        && (3 <=? duelRound g + 1)%Z
        && (DUEL_BOMB_INTERVAL <=? frameCount g + 1 - lastBombFrame g)%Z
     then [mkBomb (CX + 196) CY (-4) 0 99 false 0] else []).
Proof.
  intros Hok Hm Ht Hb Ha Hout Hlt.
  rewrite (boss_eliminated_shape ph g boss Hm Ht Hb Ha Hout).
  pose proof (before_bots_zone ph g Hok) as (H5 & _ & M5 & R5 & _).
  cbn zeta in H5, M5, R5.
  change (safeZoneStep _) with (beforeBots ph g) in H5, M5, R5.
  destruct (beforeBots_counters ph g) as (Fc & Ll & Lb & _ & _ & _).
  set (g5 := beforeBots ph g) in *.
  rewrite Hm in M5.
  assert (Hrd : (1 <= duelRound g)%Z).
  { rewrite <- R5. destruct H5 as [[_ _ _ Hrd _] _ _]. lia. }
  destruct (eliminateBot_duel g5 boss H5 M5) as (_ & Hlow & _).
  set (gr := fst (eliminateBot g5 boss)) in *.
  set (b2 := snd (eliminateBot g5 boss)) in *.
  set (g6 := set_bots [b2] gr).
  rewrite <- R5 in Hlt.
  destruct (Hlow Hlt) as (E1 & E2 & _ & E4 & _ & E6 & E7 & E8 & _ & _ & _ &
                          _ & _ & E14 & E15 & _).
  rewrite R5 in E1.
  assert (F6 : playerAlive g6 = playerAlive g5 /\ gameMode g6 = duel /\
               frameCount g6 = (frameCount g + 1)%Z /\
               lastLaserFrame g6 = lastLaserFrame g /\
               lastBombFrame g6 = lastBombFrame g).
  { unfold g6, gr. cbn [playerAlive gameMode frameCount lastLaserFrame lastBombFrame
                        set_bots].
    rewrite (eliminateBot_untouched _ playerAlive), (eliminateBot_untouched _ gameMode),
      (eliminateBot_untouched _ frameCount), (eliminateBot_untouched _ lastLaserFrame),
      (eliminateBot_untouched _ lastBombFrame) by (intros; reflexivity).
    auto. }
  destruct F6 as (P6 & M6 & F6 & L6 & B6).
  rewrite (bossWeapons_untouched _ duelRound), (bossWeapons_untouched _ duelTransition)
    by (intros; reflexivity).
  cbn [duelRound duelTransition g6 set_bots].
  split; [exact E1|]. split; [exact E2|].
  destruct (playerAlive g5) eqn:Hp5.
  - destruct (weapons_after_reset g6 b2 M6 P6 eq_refl E7 E8 E4 E14 E15)
      as (W1 & W2 & W3).
    { cbn [duelRound g6 set_bots]. rewrite E1. lia. }
    rewrite W1, W2, W3, F6, L6, B6.
    cbn [currentRPM duelRound g6 set_bots]. rewrite E1, E6. cbn [andb]. auto.
  - unfold bossWeapons. rewrite M6, P6. cbn [mode_eqb andb].
    cbn [currentRPM duelLasers duelBombs g6 set_bots]. auto.
Qed.

(** C7: the step of a duel in which the loop over the bots eliminates the
    boss, either because its RPM is used up or because it left the arena
    through a hole.  In round 1 or 2 the round counter moves on and the
    transition of [DUEL_ROUND_TRANSITION_FRAMES] steps starts: player and
    boss are back at rest on their starting positions with their round RPM,
    the safe zone is the initial one around the arena centre, the boss's
    maximum RPM has grown, and the projectiles that were in flight are gone.
    The weapon block of the same step still runs after the reset when the
    player is alive: when the laser interval has run out the step ends with
    one new laser, and when the new round is round 3 and the bomb interval has
    run out, with one new bomb, each one move away from the boss; otherwise
    the lists are empty.  The following steps only count the transition down
    and the last of them clears it.  In round 3 the step ends the match with
    the player as winner: round, transition flag, player and safe zone are
    those found by the loop, the boss stays eliminated. *)
Theorem duel_round_progression (ph : Physics) (g : Game) (boss : Bot) :
  session_ok g -> gameMode g = duel -> duelTransition g = false ->
  bots (beforeBots ph g) = [boss] -> alive boss = true ->
  rpm boss <= 0 \/ ARENA_R + 50 < dist2Center (body boss) ->
  kills (fixedStep false ph g) = (kills g + 1)%Z /\
  frameCount (fixedStep false ph g) = (frameCount g + 1)%Z /\
  ((duelRound g < 3)%Z ->
     duelRound (fixedStep false ph g) = (duelRound g + 1)%Z /\
     duelTransition (fixedStep false ph g) = true /\
     duelTransitionTimer (fixedStep false ph g) = DUEL_ROUND_TRANSITION_FRAMES /\
     position (player (fixedStep false ph g)) = mkVec (CX - 200) CY /\
     velocity (player (fixedStep false ph g)) = mkVec 0 0 /\
     currentRPM (fixedStep false ph g) = STARTING_RPM /\
     (exists b,
        bots (fixedStep false ph g) = [b] /\ alive b = true /\
        position (body b) = mkVec (CX + 200) CY /\ velocity (body b) = mkVec 0 0 /\
        rpm b = BOSS_RPM + IZR (duelRound g + 1) * 15 /\
        duelBossMaxRPM (fixedStep false ph g) = rpm b) /\
     safeZone (fixedStep false ph g) = SAFE_ZONE_INITIAL /\
     safeZoneCX (fixedStep false ph g) = CX /\
     safeZoneCY (fixedStep false ph g) = CY /\
     duelBossMaxRPM g < duelBossMaxRPM (fixedStep false ph g) /\
     gameOver (fixedStep false ph g) = gameOver (beforeBots ph g) /\
     duelLasers (fixedStep false ph g)
     = (if playerAlive (beforeBots ph g)
           && (DUEL_LASER_INTERVAL <=? frameCount g + 1 - lastLaserFrame g)%Z
        then [mkLaser (CX + 192) CY (-8) 0 119] else []) /\
     duelBombs (fixedStep false ph g)
     = (if playerAlive (beforeBots ph g)
           && (3 <=? duelRound g + 1)%Z
           && (DUEL_BOMB_INTERVAL <=? frameCount g + 1 - lastBombFrame g)%Z
        then [mkBomb (CX + 196) CY (-4) 0 99 false 0] else []) /\
     (forall phs, (List.length phs < 180)%nat ->
        run phs (fixedStep false ph g)
        = set_duelTransitionTimer (180 - Z.of_nat (List.length phs))%Z
            (fixedStep false ph g)) /\
     (forall phs, List.length phs = 180%nat ->
        run phs (fixedStep false ph g)
        = set_duelTransition false (set_duelTransitionTimer 0 (fixedStep false ph g)))) /\
  ((3 <= duelRound g)%Z ->
     gameOver (fixedStep false ph g) = true /\
     phase (fixedStep false ph g) = gameover /\
     isWinner (fixedStep false ph g) = true /\
     duelRound (fixedStep false ph g) = duelRound g /\
     duelTransition (fixedStep false ph g) = false /\
     bots (fixedStep false ph g) = [set_alive false boss] /\
     player (fixedStep false ph g) = player (beforeBots ph g) /\
     safeZone (fixedStep false ph g) = safeZone (beforeBots ph g) /\
     safeZoneCX (fixedStep false ph g) = safeZoneCX (beforeBots ph g) /\
     safeZoneCY (fixedStep false ph g) = safeZoneCY (beforeBots ph g)).
Proof.
  intros Hok Hm Ht Hb Ha Hout.
  pose proof (reset_step_weapons ph g boss Hok Hm Ht Hb Ha Hout) as HW.
  rewrite (boss_eliminated_shape ph g boss Hm Ht Hb Ha Hout) in HW |- *.
  pose proof (before_bots_zone ph g Hok) as (H5 & _ & M5 & R5 & _).
  cbn zeta in H5, M5, R5.
  change (safeZoneStep _) with (beforeBots ph g) in H5, M5, R5.
  destruct (beforeBots_counters ph g) as (Fc & Ll & Lb & Kl & Bm & T5).
  set (g5 := beforeBots ph g) in *.
  rewrite Hm in M5. rewrite Ht in T5.
  assert (Hrd : (1 <= duelRound g)%Z).
  { rewrite <- R5. destruct H5 as [[_ _ _ Hrd _] _ _]. lia. }
  destruct (eliminateBot_duel g5 boss H5 M5) as (_ & Hlow & Hhigh).
  set (gr := fst (eliminateBot g5 boss)) in *.
  set (b2 := snd (eliminateBot g5 boss)) in *.
  set (g6 := set_bots [b2] gr).
  assert (K6 : kills gr = (kills g + 1)%Z).
  { unfold gr, eliminateBot. cbn [gameMode set_kills duelRound]. rewrite M5.
    cbn [mode_eqb]. rewrite <- Kl.
    destruct (duelRound g5 <? 3)%Z; reflexivity. }
  assert (F6 : frameCount gr = (frameCount g + 1)%Z).
  { unfold gr. rewrite (eliminateBot_untouched _ frameCount) by (intros; reflexivity).
    exact Fc. }
  split; [|split; [|split]].
  - rewrite (bossWeapons_untouched _ kills) by (intros; reflexivity). exact K6.
  - rewrite (bossWeapons_untouched _ frameCount) by (intros; reflexivity). exact F6.
  - intros Hlt'. destruct (HW Hlt') as (_ & _ & W1 & W2 & W3).
    assert (Hlt : (duelRound g5 < 3)%Z) by (rewrite R5; exact Hlt').
    destruct (Hlow Hlt) as (E1 & E2 & E3 & E4 & E5 & E6 & E7 & E8 & E9 & E10 & E11 &
                            E12 & E13 & E14 & E15 & E16 & E17 & E18 & _ & _).
    rewrite R5 in E1, E10.
    assert (T6 : duelTransition (bossWeapons g6) = true).
    { rewrite (bossWeapons_untouched _ duelTransition) by (intros; reflexivity).
      exact E2. }
    assert (Tm6 : duelTransitionTimer (bossWeapons g6) = 180%Z).
    { rewrite (bossWeapons_untouched _ duelTransitionTimer) by (intros; reflexivity).
      exact E3. }
    rewrite !(bossWeapons_untouched _ duelRound), !(bossWeapons_untouched _ player),
      !(bossWeapons_untouched _ bots), !(bossWeapons_untouched _ safeZone),
      !(bossWeapons_untouched _ safeZoneCX), !(bossWeapons_untouched _ safeZoneCY),
      !(bossWeapons_untouched _ duelBossMaxRPM), !(bossWeapons_untouched _ gameOver)
      by (intros; reflexivity).
    cbn [duelRound player bots safeZone safeZoneCX safeZoneCY duelBossMaxRPM gameOver
         g6 set_bots].
    split; [exact E1|]. split; [exact T6|]. split; [exact Tm6|].
    split; [exact E4|]. split; [exact E5|]. split; [exact W1|].
    split; [exists b2; auto 10|].
    split; [exact E11|]. split; [exact E12|]. split; [exact E13|].
    split; [rewrite <- Bm; exact E17|]. split; [exact E18|].
    split; [exact W2|]. split; [exact W3|]. split.
    + intros phs Hlen. rewrite run_frozen; [rewrite Tm6; reflexivity|exact T6|].
      rewrite Tm6. lia.
    + intros phs Hlen. apply run_thaw; [exact T6| |rewrite Tm6, Hlen; reflexivity].
      intros E. rewrite E in Hlen. discriminate.
  - intros Hge. rewrite <- R5 in Hge. destruct (Hhigh Hge) as [Eg Eb].
    rewrite !(bossWeapons_untouched _ gameOver), !(bossWeapons_untouched _ phase),
      !(bossWeapons_untouched _ isWinner), !(bossWeapons_untouched _ duelRound),
      !(bossWeapons_untouched _ duelTransition), !(bossWeapons_untouched _ bots),
      !(bossWeapons_untouched _ player), !(bossWeapons_untouched _ safeZone),
      !(bossWeapons_untouched _ safeZoneCX), !(bossWeapons_untouched _ safeZoneCY)
      by (intros; reflexivity).
    unfold g6. fold b2 in Eb. rewrite Eg, Eb.
    cbn [gameOver phase isWinner duelRound duelTransition bots player safeZone
         safeZoneCX safeZoneCY set_bots set_isWinner set_phase set_gameOver set_kills].
    rewrite R5, T5. auto 12.
Qed.

Lemma duel_round_progression_witness :
  duelRound (fixedStep false boss_ejected (initGame duel 1 zero_rng)) = 2%Z /\
  duelTransition (fixedStep false boss_ejected (initGame duel 1 zero_rng)) = true /\
  duelLasers (fixedStep false boss_ejected (initGame duel 1 zero_rng)) = [] /\
  duelBombs (fixedStep false boss_ejected (initGame duel 1 zero_rng)) = [].
Proof.
  assert (Hb : bots (beforeBots boss_ejected (initGame duel 1 zero_rng))
               = [set_body (mkBody 1 (bot_label 0) (mkVec (CX + 500) CY) (mkVec 0 0))
                    bossBot]).
  { unfold beforeBots. rewrite before_bots_roster by discriminate. reflexivity. }
  assert (Hout : ARENA_R + 50
                 < dist2Center (body (set_body (mkBody 1 (bot_label 0) (mkVec (CX + 500) CY)
                                                  (mkVec 0 0)) bossBot))).
  { cbn [body set_body]. rewrite dist2Center_right by lra. unfold ARENA_R. lra. }
  destruct (duel_round_progression boss_ejected (initGame duel 1 zero_rng) _
              (initGame_ok duel 1 zero_rng fair_zero_rng) eq_refl eq_refl Hb eq_refl
              (or_intror Hout)) as (_ & _ & Hlow & _).
  assert (Hlt : (duelRound (initGame duel 1 zero_rng) < 3)%Z) by (cbn; lia).
  destruct (Hlow Hlt) as
    (E1 & E2 & _ & _ & _ & _ & _ & _ & _ & _ & _ & _ & EL & EB & _).
  rewrite E1, E2, EL, EB.
  change (frameCount (initGame duel 1 zero_rng)) with 0%Z.
  change (lastLaserFrame (initGame duel 1 zero_rng)) with 0%Z.
  change (duelRound (initGame duel 1 zero_rng)) with 1%Z.
  cbn [Z.add Z.sub Z.leb Z.compare Pos.compare Pos.compare_cont Z.opp Z.pos_sub
       DUEL_LASER_INTERVAL].
  rewrite !andb_false_r. repeat split; reflexivity.
Defined.

(** ** A calm first round *)

Lemma run_reachable (phs : list Physics) (g : Game) :
  reachable g -> reachable (run phs g).
Proof.
  revert g. induction phs as [|ph rest IH]; intros g Hr; cbn [run]; [exact Hr|].
  apply IH. rewrite <- react_step. apply reach_event, Hr.
Qed.

(** In a duel the housekeeping of a step costs the boss at most 0.56 RPM. *)
Lemma botHousekeeping_duel (g : Game) (bot : Bot) :
  gameMode g = duel -> 0 <= rpm bot <= 90 ->
  rpm bot - 0.56 <= rpm (snd (botHousekeeping g bot)) <= 90 /\
  alive (snd (botHousekeeping g bot)) = alive bot /\
  body (snd (botHousekeeping g bot)) = body bot.
Proof.
  intros Hm Hr. unfold botHousekeeping. cbn zeta.
  set (o := num_gt (distToSafeZone g (body bot)) (safeZone g)).
  assert (Hd : 0 < botDecay o <= 0.56).
  { unfold botDecay, RPM_DECAY_PER_FRAME, OUTSIDE_DECAY_MULT. destruct o; lra. }
  assert (H1 : rpm bot - 0.56 <= Rmax 0 (rpm bot - botDecay o) <= 90).
  { unfold Rmax. destruct (Rle_dec 0 (rpm bot - botDecay o)); lra. }
  set (r1 := Rmax 0 (rpm bot - botDecay o)) in *.
  assert (E2 : botRegen g o r1 = r1).
  { unfold botRegen. rewrite Hm. cbn [mode_eqb negb]. rewrite andb_false_r. reflexivity. }
  rewrite E2.
  assert (E3 : botFloor g o r1 = r1).
  { unfold botFloor. rewrite Hm. cbn [mode_eqb negb]. rewrite andb_false_r. reflexivity. }
  rewrite E3.
  pose proof (botSpin_grows g o r1 ltac:(lra)) as [H4 _].
  destruct (botSpin g o r1) as [r4 g1]. cbn [fst] in H4.
  pose proof (botEmergencySpin_grows g1 o r4 ltac:(lra)) as [H5 _].
  destruct (botEmergencySpin g1 o r4) as [r5 g2]. cbn [fst snd] in *.
  cbn [rpm alive body set_chainHits set_rpm]. repeat split; lra.
Qed.

(** A calm step of the first round keeps the round calm. *)
Lemma calm_step (n : Z) (g : Game) :
  (0 <= n <= 20)%Z -> calm n g -> calm (n + 1) (fixedStep false duel_calm g).
Proof.
  intros Hn (Hm & Ht & Hr & Hp & Hh & Hf & Hl & Hrpm & Hls & Hbs & b & Hb & Ha & Hhb & Hrb).
  assert (Hn1 : 0 <= IZR n <= 20) by (split; apply IZR_le; lia).
  assert (Hns : gameMode g <> survival) by (rewrite Hm; discriminate).
  assert (Hin : dist2Center (moveBody duel_calm (player g)) <= ARENA_R + 50).
  { unfold moveBody. rewrite Hh.
    change (fst (motion duel_calm 0)) with (mkVec CX CY).
    rewrite dist2Center_centre. unfold ARENA_R. lra. }
  destruct (beforeBots_quiet duel_calm g Hns eq_refl Hp ltac:(lra) Hin) as (r & Hr' & E).
  rewrite (fixedStep_unfrozen duel_calm g Ht).
  set (g5 := beforeBots duel_calm g) in *.
  set (b5 := set_body (moveBody duel_calm (body b)) b).
  assert (G5 : gameMode g5 = duel /\ duelTransition g5 = false /\ duelRound g5 = 1%Z /\
               playerAlive g5 = true /\ player g5 = moveBody duel_calm (player g) /\
               frameCount g5 = (n + 1)%Z /\ lastLaserFrame g5 = 0%Z /\
               currentRPM g5 = r /\ duelLasers g5 = [] /\ duelBombs g5 = [] /\
               bots g5 = [b5]).
  { rewrite E.
    repeat split;
      rewrite (safeZoneStep_untouched _ _) by (intros; reflexivity);
      cbn [gameMode duelTransition duelRound playerAlive player frameCount
           lastLaserFrame currentRPM duelLasers duelBombs bots
           set_currentRPM set_player set_bots set_frameCount];
      try assumption; try reflexivity.
    - rewrite Hf. reflexivity.
    - rewrite Hb. reflexivity. }
  clearbody g5.
  destruct G5 as (M5 & T5 & R5 & P5 & Pl5 & F5 & L5 & C5 & Ls5 & Bs5 & B5).
  assert (D5 : dist2Center (body b5) = 200).
  { unfold b5, moveBody. cbn [body set_body]. rewrite Hhb.
    change (fst (motion duel_calm 1)) with (mkVec (CX + 200) CY).
    apply dist2Center_right. lra. }
  assert (Hrb5 : 0 < rpm b5 <= 90) by (cbn [rpm b5 set_body]; lra).
  rewrite (botAI_single_kept g5 b5 B5 Ha ltac:(lra)) by (rewrite D5; unfold ARENA_R; lra).
  cbn [fst snd].
  destruct (botHousekeeping_duel g5 b5 M5 ltac:(lra)) as (HrH & HaH & HbH).
  set (bH := snd (botHousekeeping g5 b5)) in *.
  assert (GH : gameMode (fst (botHousekeeping g5 b5)) = duel /\
               duelTransition (fst (botHousekeeping g5 b5)) = false /\
               duelRound (fst (botHousekeeping g5 b5)) = 1%Z /\
               playerAlive (fst (botHousekeeping g5 b5)) = true /\
               player (fst (botHousekeeping g5 b5)) = moveBody duel_calm (player g) /\
               frameCount (fst (botHousekeeping g5 b5)) = (n + 1)%Z /\
               lastLaserFrame (fst (botHousekeeping g5 b5)) = 0%Z /\
               currentRPM (fst (botHousekeeping g5 b5)) = r /\
               duelLasers (fst (botHousekeeping g5 b5)) = [] /\
               duelBombs (fst (botHousekeeping g5 b5)) = []).
  { repeat split;
      rewrite (botHousekeeping_untouched _ _) by (intros; reflexivity); assumption. }
  set (gH := fst (botHousekeeping g5 b5)) in *. clearbody gH.
  destruct GH as (MH & TH & RH & PH & PlH & FH & LH & CH & LsH & BsH).
  rewrite (weapons_round1 (set_bots [bH] gH) bH) by (cbn; try assumption; try reflexivity; lia).
  cbn [gameMode playerAlive set_bots]. rewrite MH, PH. cbn [mode_eqb andb].
  rewrite updateAliveCount_duel by (cbn; exact MH).
  unfold calm.
  cbn [gameMode duelTransition duelRound playerAlive player frameCount lastLaserFrame
       currentRPM duelLasers duelBombs bots set_duelBombs set_duelLasers set_bots].
  rewrite PlH, CH, plus_IZR.
  repeat (split; [first [assumption | reflexivity | lra]|]).
  exists bH. rewrite HaH, HbH. cbn [body b5 set_body moveBody handle].
  repeat split; try assumption; try reflexivity; cbn [rpm b5 set_body] in HrH; lra.
Qed.

Lemma calm_run (k : nat) (n : Z) (g : Game) :
  (0 <= n)%Z -> (n + Z.of_nat k <= 21)%Z -> calm n g ->
  calm (n + Z.of_nat k) (run (repeat duel_calm k) g).
Proof.
  revert n g. induction k as [|k IH]; intros n g Hn Hk Hc.
  - cbn [repeat run Z.of_nat]. rewrite Z.add_0_r. exact Hc.
  - cbn [repeat run]. replace (n + Z.of_nat (S k))%Z with (n + 1 + Z.of_nat k)%Z by lia.
    apply IH; [lia|lia|]. apply calm_step; [lia|exact Hc].
Qed.

Lemma duel_start_calm : calm 0 (initGame duel 1 zero_rng).
Proof.
  destruct (initGame_shape duel 1 zero_rng) as (roster & tx & ty & n & E & Hro).
  rewrite E. unfold calm.
  cbn [gameMode duelTransition duelRound playerAlive player frameCount lastLaserFrame
       currentRPM duelLasers duelBombs bots handle
       set_szTargetY set_szTargetX set_bots set_rngUsed].
  repeat (split; [first [reflexivity | unfold STARTING_RPM; lra]|]).
  exists bossBot. subst roster. unfold bossBot, newBot, BOSS_RPM. cbn [rpm alive body handle].
  repeat split; try reflexivity; lra.
Qed.

Lemma calm_session_calm : reachable calm_session /\ calm 11 calm_session.
Proof.
  unfold calm_session. split.
  - apply run_reachable, reach_init. exact fair_zero_rng.
  - change 11%Z with (0 + Z.of_nat 11)%Z at 1.
    apply calm_run; [lia|cbn; lia|exact duel_start_calm].
Qed.

(** C7, as stated, fails for the projectiles: a round reset does not leave
    the session without projectiles.  After 11 calm steps of a duel the
    twelfth step carries the boss out of the arena; the step resets the round
    and its weapon block, running after the reset, fires: the transition to
    round 2 starts with a laser in flight. *)
Lemma reset_step_fires_laser :
  reachable calm_session /\
  gameMode calm_session = duel /\
  duelRound calm_session = 1%Z /\
  duelRound laser_reset_session = 2%Z /\
  duelTransition laser_reset_session = true /\
  duelLasers laser_reset_session = [mkLaser (CX + 192) CY (-8) 0 119].
Proof.
  destruct calm_session_calm as
    [Hre (Hm & Ht & Hr & Hp & Hh & Hf & Hl & Hrpm & Hls & Hbs & b & Hb & Ha & Hhb & Hrb)].
  split; [exact Hre|]. split; [exact Hm|]. split; [exact Hr|].
  unfold laser_reset_session. rewrite react_step.
  set (g := calm_session) in *.
  assert (Hns : gameMode g <> survival) by (rewrite Hm; discriminate).
  assert (Hin : dist2Center (moveBody boss_ejected (player g)) <= ARENA_R + 50).
  { unfold moveBody. rewrite Hh.
    change (fst (motion boss_ejected 0)) with (mkVec CX CY).
    rewrite dist2Center_centre. unfold ARENA_R. lra. }
  destruct (beforeBots_quiet boss_ejected g Hns eq_refl Hp ltac:(lra) Hin) as (r & Hr' & E).
  set (b5 := set_body (moveBody boss_ejected (body b)) b).
  assert (G5 : bots (beforeBots boss_ejected g) = [b5] /\
               playerAlive (beforeBots boss_ejected g) = true).
  { rewrite E.
    rewrite (safeZoneStep_untouched _ bots), (safeZoneStep_untouched _ playerAlive)
      by (intros; reflexivity).
    cbn [bots playerAlive set_currentRPM set_player set_bots set_frameCount].
    rewrite Hb. auto. }
  destruct G5 as [B5 P5].
  assert (D5 : ARENA_R + 50 < dist2Center (body b5)).
  { unfold b5, moveBody. cbn [body set_body]. rewrite Hhb.
    change (fst (motion boss_ejected 1)) with (mkVec (CX + 500) CY).
    rewrite dist2Center_right by lra. unfold ARENA_R. lra. }
  destruct (reset_step_weapons boss_ejected g b5 (reachable_ok g Hre) Hm Ht B5 Ha
              (or_intror D5) ltac:(lia)) as (E1 & E2 & _ & EL & _).
  rewrite E1, E2, EL, P5, Hr, Hf, Hl. repeat split; reflexivity.
Qed.
